(* ===== verification/_CoqProject ===== *)
-Q . S2P
Prelude.v
RingBuffer.v
Substrate.v
RuntimePrimitives.v
MessagesPrimitives.v
OutboundLane.v
InboundLane.v
LaneProtocol.v
MessagesWeights.v
MessagesPallet.v
MessagesTyping.v
StorageProof.v
HeaderChain.v
Justification.v
GrandpaPallet.v
ParachainsPallet.v
BeefyPallet.v
RelayersPallet.v
RuntimeMessages.v
MessagesCallExt.v
RefundRelayer.v
ShiftSessionManager.v
RelayUtils.v
RaceStrategy.v
DeliveryRace.v
MessagesClients.v
DeliveryAcceptance.v
RaceLoop.v
RelayedProofs.v
FinalityLoop.v
ParachainsLoop.v
OnDemand.v
MessagesLane.v
FinalityEngine.v
SubstrateClient.v
SubstrateRpc.v
Resubmitter.v
Transactions.v
ComplexRelay.v
EncodeMessage.v
RegisterParachain.v
LaneLoop.v
MessagesApi.v
ParachainsTarget.v
RejectObsolete.v
XcmExtension.v
Integrity.v
EndToEnd.v
XcmRouting.v
