(* ===== verification/Prelude.v ===== *)
(** * Verification of the Parity bridges

    ** The program

    A bridge connects two Substrate chains without a trusted party.  Each chain runs light
    clients of the other one and a messages pallet with lanes; relayers, which nobody has to
    trust, carry finality proofs, parachain heads, messages and confirmations between them.

    - The light clients are pallets.  The GRANDPA pallet imports headers with justifications
      of the current authority set, the parachains pallet imports heads of parachains that
      are proved against the state of a relay chain header which the GRANDPA pallet has
      imported, and the BEEFY pallet imports commitments with roots of a Merkle mountain
      range.
    - The messages pallet stores messages at the outbound lane of the source chain and
      dispatches them at the inbound lane of the target chain.  Deliveries and confirmations
      are proved against the state roots that the light clients know.  The relayers pallet
      registers and pays the rewards, and signed extensions of the runtime reject obsolete
      transactions and refund useful ones.
    - The relays are processes.  The headers relay and the parachains relay feed the light
      clients, the message relay runs a loop for each lane, with one race for messages and
      one for confirmations, and asks on-demand relays for the headers that its proofs need.

    ** How it is modelled

    Code becomes functions on records of the state; a Rust function that can fail or panic
    returns an [outcome], in which [Panic] is apart from [Err].  Unsigned integers are [Z]
    with their wrap-around or saturation written out (release build).  Storage maps are
    [gmap]s.  Traits are classes, and the laws that the code relies on are classes of their
    own; where this repository implements a trait, the implementation is an instance and its
    laws are theorems.  Code of other repositories (FRAME, sp-trie, the GRANDPA crates, the
    SCALE codec, keys and signatures, the XCM router, the answers of nodes) is a parameter
    with its documented behaviour as hypotheses, and a [Module] of concrete instances at the
    end of a file shows that these can hold.  A loop over [select!] is a step function on
    the events of its futures; an asynchronous task is a program counter.

    ** Files

    Shared:
    - Prelude.v: machine integers, [outcome] with its notations, lists, sets, intervals.
    - RingBuffer.v: the bounded storage of the three light clients and its refinement of the
      list of the latest items.
    - Substrate.v: weights, origins and dispatch errors of FRAME (parameters).

    On chain:
    - RuntimePrimitives.v (primitives/runtime/src/lib.rs), MessagesPrimitives.v
      (primitives/messages/src/lib.rs), HeaderChain.v (primitives/header-chain/src/lib.rs),
      StorageProof.v (primitives/runtime/src/storage_proof.rs), with what an honest node proves.
    - Justification.v (primitives/header-chain/src/justification.rs), GrandpaPallet.v
      (modules/grandpa), ParachainsPallet.v (modules/parachains), BeefyPallet.v
      (modules/beefy).
    - OutboundLane.v and InboundLane.v (modules/messages/src/outbound_lane.rs and
      inbound_lane.rs), LaneProtocol.v (both lanes with untrusted relayers, a step relation),
      MessagesWeights.v (weights_ext.rs, weights.rs), MessagesPallet.v (modules/messages/src/lib.rs)
      and MessagesTyping.v (its storage from genesis on, a step relation over all entry points).
    - RelayersPallet.v (modules/relayers), ShiftSessionManager.v (modules/shift-session-manager).
    - RuntimeMessages.v, MessagesCallExt.v, RefundRelayer.v, RejectObsolete.v, MessagesApi.v,
      XcmExtension.v and Integrity.v (bin/runtime-common/src: messages.rs, messages_call_ext.rs,
      refund_relayer_extension.rs, lib.rs with the filters of the Millau runtime,
      messages_api.rs, messages_xcm_extension.rs, integrity.rs).

    Relays:
    - RelayUtils.v (relays/utils, transaction_tracker.rs), RaceStrategy.v, DeliveryRace.v,
      RaceLoop.v and LaneLoop.v (relays/messages/src), MessagesClients.v and MessagesLane.v
      (relays/lib-substrate-relay/src: messages_source.rs, messages_target.rs,
      messages_lane.rs).
    - FinalityLoop.v (relays/finality/src), FinalityEngine.v (lib-substrate-relay/src/finality).
    - ParachainsLoop.v (relays/parachains/src and parachains/source.rs) and ParachainsTarget.v
      (parachains/target.rs, parachains/mod.rs and the finality API of the Millau runtime).
    - OnDemand.v (lib-substrate-relay/src/on_demand and finality/source.rs).
    - SubstrateClient.v (relays/client-substrate/src: transactions and guards), SubstrateRpc.v
      (requests, errors and subscriptions there, and finality/source.rs), Transactions.v (signing
      schemes of the relays/client-* crates and signed extensions of the primitives).
    - ComplexRelay.v (bin-substrate/src/cli/chain_schema.rs and relay_headers_and_messages, with
      the gauges of lib-substrate-relay/src/messages_metrics.rs), EncodeMessage.v,
      RegisterParachain.v and Resubmitter.v (cli/encode_message.rs, cli/register_parachain.rs and
      cli/resubmit_transactions.rs).

    Compositions:
    - DeliveryAcceptance.v (the delivery strategy against the inbound lane), RelayedProofs.v
      (the proofs of the relay against their verification at the other chain), EndToEnd.v
      (from the storage of one chain, through the relay, to the call at the other chain) and
      XcmRouting.v (the XCM bridges of the runtimes, xcm_config.rs, over the messages pallets).

    ** What the theorems show

    - Light clients.  Every header, head and commitment that is stored is backed by proofs
      down to the trusted initialization data ([light_client_history], [parachain_heads_are_final],
      [beefy_history], [verify_justification_sound]), each call does exactly what is
      stated on every branch ([submit_finality_proof_correct],
      [submit_parachain_heads_correct], [submit_commitment_correct]), and the storage stays
      bounded (RingBuffer.v).
    - Lanes.  Whatever relayers do, the dispatcher is called for the messages once each, in
      order and unmodified, and a lane never gets stuck ([exactly_once_in_order], [lane_never_stuck],
      [delivery_proofs_accepted]); each call of the messages pallet is characterised, with
      its errors, weights and payments ([receive_messages_proof_correct],
      [receive_messages_delivery_proof_correct], [send_message_correct]), its storage stays well
      typed and it never panics ([storage_is_well_typed]); verified messages are messages that
      the bridged chain stores ([proved_messages_are_sent]).
    - Rewards and extensions.  Rewards are exact and what is paid was registered, refunds go only to useful
      transactions, calls that have landed are rejected ([rewards_are_conserved],
      [confirmation_rewards_exact], [refund_requires_progress],
      [landed_calls_are_rejected]); XCM blobs and programs arrive unchanged and are executed once
      ([hauled_blobs_are_dispatched], [routed_xcm_is_executed]); a message that the verifier
      accepts can be delivered ([accepted_message_is_deliverable]).
    - Relays.  The loops never panic, submit one transaction at a time and only what their
      proofs support ([race_loop_safe], [message_lane_loop_safe], [finality_loop_safe]); the
      selections are optimal within the limits ([delivery_selection_correct],
      [finality_selection_correct]); concurrent transactions never share a nonce
      ([nonces_never_collide]); transactions have valid signatures and are parsed back
      ([signed_transactions_round_trip]) and replaced faithfully
      ([millau_transaction_is_replaced]).
    - Clients and commands.  Lost connections are noticed by every request, and subscriptions
      pass on every finality proof in order, and their end ([lost_connections_are_noticed],
      [subscribed_proofs_are_faithful]); an accepted command line starts relays of every lane in
      both directions, with the headers and parachains relays they need and gauges of every signer
      ([complex_relay_covers_its_lanes]); a payload of a given size is found
      ([sized_message_is_the_longest]); a parachain is registered step by step
      ([registration_goes_in_order]).
    - Relays and pallets together.  What the relays submit is accepted and has its effect:
      messages ([relayed_messages_are_delivered], [selected_messages_are_accepted]),
      confirmations ([relayed_confirmations_are_paid]), headers
      ([submitted_headers_are_imported]), parachain heads ([relayed_heads_are_imported]),
      and batches with the headers they need ([batch_proves_required_header]).
    - Flaws.  Some theorems are about behaviour that the code does not intend:
      [confirmation_is_forgotten], [mandatory_header_overlooked],
      [confirmations_race_blames_source], [tested_lane_data_is_too_small],
      [executed_origin_is_the_destination] and the second half of [token_balance_shown].

    ** Bounds and fuel

    A loop that is not structural takes [fuel].  Running out is a value of its own ([Panic]
    or [None]), and the callers pass enough, which the theorems show: [prune_fuel] is the number of
    unpruned messages plus two, [descendant_loop] has one step per header that is not
    visited yet, [guess_set_id] has one step per block number, [binary_search_loop] and
    [split_loop] are bounded by the length of the list, [read_proofs_loop] by the items that
    are in the stream.  [shrink] has one step per byte of the size.  [tip_loop] ends within the
    steps between the tip and its limit if the step is not zero.  [reconnect_failed_client] and
    [loop_run] do not end in the code while a client fails; their [fuel] is the number of
    attempts that are looked at, and the loops of the relays are given by single turns, over
    which the invariants are proved.

    ** Not modelled

    - Generated and declarative code: runtime configurations by macros, benchmarked weights
      (parameters), code generated from metadata, constants of the concrete chains.
    - Input and output: network connections, node services, the parsing of options, metrics
      other than the gauges of relayer accounts, logs, timers and durations (a timer is an event
      that may come at any moment).
    - The commands that start a single relay or initialize a bridge: they pass their options to
      the loops and calls modelled here.
    - The background task that an on-demand relay supervises is started by it but not
      modelled inside of it; the loop that runs there is that of FinalityLoop.v.
    - The binary encodings: codecs and storage hashers are parameters with their laws, except
      for the layout of the storage keys.
    - Integrity tests that compare types, which the compiler decides.
    - Tests, benchmarks, mocks, fuzzing, tools and deployments. *)

From Stdlib Require Import ZArith Lia.
From stdpp Require Import base numbers list gmap sorting.

#[export] Set Default Goal Selector "!".

(** ** Machine integers

    Rust's unsigned integers are [Z] values kept in [[0, 2^w)].  The plain
    operators of the release build wrap around; the [saturating_*] and
    [checked_*] methods are written out below. *)

Definition u32_max : Z := 4294967295.
Definition u64_max : Z := 18446744073709551615.
Definition u128_max : Z := 340282366920938463463374607431768211455.

Definition is_u32 (x : Z) : Prop := (0 <= x <= u32_max)%Z.
Definition is_u64 (x : Z) : Prop := (0 <= x <= u64_max)%Z.

(** [a + b] and [a - b] on a type whose largest value is [max] (release build:
    two's complement wrap-around). *)
Definition wrapping_add (max a b : Z) : Z := ((a + b) mod (max + 1))%Z.
Definition wrapping_sub (max a b : Z) : Z := ((a - b) mod (max + 1))%Z.
Definition saturating_add (max a b : Z) : Z := Z.min max (a + b).
Definition saturating_sub (a b : Z) : Z := Z.max 0 (a - b).
Definition saturating_mul (max a b : Z) : Z := Z.min max (a * b).
Definition checked_add (max a b : Z) : option Z :=
  if (a + b <=? max)%Z then Some (a + b)%Z else None.
Definition checked_sub (a b : Z) : option Z :=
  if (b <=? a)%Z then Some (a - b)%Z else None.
Definition checked_mul (max a b : Z) : option Z :=
  if (a * b <=? max)%Z then Some (a * b)%Z else None.
Definition checked_div (a b : Z) : option Z :=
  if (b =? 0)%Z then None else Some (a / b)%Z.

(** Arithmetic on the constants above. *)
Ltac word :=
  unfold is_u32, is_u64, wrapping_add, wrapping_sub, saturating_add, saturating_sub,
    saturating_mul, u32_max, u64_max, u128_max in *;
  lia.

(** ** Outcomes

    A Rust function that may return [Err] or panic (a failed [expect], an index
    out of range, a remainder by zero).  [Panic] is kept apart from [Err] so that
    the absence of panics is a statement of its own. *)

Inductive outcome (E A : Type) : Type :=
| Ok (a : A)
| Err (e : E)
| Panic.
Arguments Ok {E A} _.
Arguments Err {E A} _.
Arguments Panic {E A}.

Definition obind {E A B : Type} (c : outcome E A) (k : A -> outcome E B) : outcome E B :=
  match c with
  | Ok a => k a
  | Err e => Err e
  | Panic => Panic
  end.

Definition map_err {E E' A : Type} (f : E -> E') (c : outcome E A) : outcome E' A :=
  match c with
  | Ok a => Ok a
  | Err e => Err (f e)
  | Panic => Panic
  end.

Definition ok_or {E A : Type} (o : option A) (e : E) : outcome E A :=
  match o with
  | Some a => Ok a
  | None => Err e
  end.

(** [o.expect(..)] and [l[i]]: a missing value is a panic. *)
Definition expect {E A : Type} (o : option A) : outcome E A :=
  match o with
  | Some a => Ok a
  | None => Panic
  end.

Definition ensure {E : Type} (b : bool) (e : E) : outcome E unit :=
  if b then Ok tt else Err e.

Declare Scope bridge_scope.
Delimit Scope bridge_scope with bridge.
Notation "'let?' x := c 'in' k" := (obind c (fun x => k))
  (at level 10, x pattern, c at level 100, k at level 200)
  : bridge_scope.
Notation "'check?' c 'in' k" := (obind c (fun _ => k))
  (at level 10, c at level 100, k at level 200)
  : bridge_scope.
#[global] Open Scope bridge_scope.

#[export] Instance outcome_eq_dec {E A : Type} `{EqDecision E, EqDecision A} :
  EqDecision (outcome E A).
Proof. solve_decision. Defined.

(** ** Proof automation *)

Create HintDb bridge.
Create Rewrite HintDb bridge.

Lemma obind_Ok {E A B : Type} (c : outcome E A) (k : A -> outcome E B) (b : B) :
  obind c k = Ok b <-> exists a, c = Ok a /\ k a = Ok b.
Proof. destruct c; naive_solver. Qed.

Lemma obind_Err {E A B : Type} (c : outcome E A) (k : A -> outcome E B) (e : E) :
  obind c k = Err e <-> c = Err e \/ exists a, c = Ok a /\ k a = Err e.
Proof. destruct c; naive_solver. Qed.

Lemma map_err_Ok {E E' A : Type} (f : E -> E') (c : outcome E A) (a : A) :
  map_err f c = Ok a <-> c = Ok a.
Proof. destruct c; naive_solver. Qed.

Lemma ok_or_Ok {E A : Type} (o : option A) (e : E) (a : A) :
  ok_or o e = Ok a <-> o = Some a.
Proof. destruct o; naive_solver. Qed.

Lemma expect_Ok {E A : Type} (o : option A) (a : A) :
  expect (E := E) o = Ok a <-> o = Some a.
Proof. destruct o; naive_solver. Qed.

Lemma ensure_Ok {E : Type} (b : bool) (e : E) (u : unit) :
  ensure b e = Ok u <-> b = true.
Proof. destruct b, u; naive_solver. Qed.

(** Takes a successful monadic run in a hypothesis apart. *)
Ltac outcome_ok :=
  repeat match goal with
  | H : obind _ _ = Ok _ |- _ => apply obind_Ok in H as (? & ? & H)
  | H : map_err _ _ = Ok _ |- _ => apply map_err_Ok in H
  | H : ok_or _ _ = Ok _ |- _ => apply ok_or_Ok in H
  | H : expect _ = Ok _ |- _ => apply expect_Ok in H
  | H : ensure _ _ = Ok _ |- _ => apply ensure_Ok in H
  | H : Ok _ = Ok _ |- _ => injection H as H
  | _ => progress simplify_eq/=
  end.

(** Splits every [if] and [match] of the goal and the hypotheses. *)
Ltac split_cases := repeat (case_match; simplify_eq/=).

(** ** Machine-integer lemmas *)

Lemma wrapping_add_small (max a b : Z) :
  (0 <= a)%Z -> (0 <= b)%Z -> (a + b <= max)%Z -> wrapping_add max a b = (a + b)%Z.
Proof. intros. unfold wrapping_add. apply Z.mod_small. lia. Qed.

Lemma wrapping_sub_small (max a b : Z) :
  (0 <= b <= a)%Z -> (a <= max)%Z -> wrapping_sub max a b = (a - b)%Z.
Proof. intros. unfold wrapping_sub. apply Z.mod_small. lia. Qed.

Lemma checked_add_Some (max a b c : Z) :
  checked_add max a b = Some c <-> (c = a + b /\ a + b <= max)%Z.
Proof. unfold checked_add. case_match eqn:E; split; intros; simplify_eq; try lia; naive_solver lia. Qed.

Lemma checked_sub_Some (a b c : Z) :
  checked_sub a b = Some c <-> (c = a - b /\ b <= a)%Z.
Proof. unfold checked_sub. case_match eqn:E; split; intros; simplify_eq; try lia; naive_solver lia. Qed.

(** ** Lists: a [VecDeque] is a list with its front first *)

Lemma NoDup_firstn {A : Type} (n : nat) (l : list A) : NoDup l -> NoDup (take n l).
Proof. intros Hnd. rewrite <- (take_drop n l) in Hnd. by apply NoDup_app in Hnd as []. Qed.

(** [back_mut]: change the last element in place. *)
Fixpoint update_last {A : Type} (f : A -> A) (l : list A) : list A :=
  match l with
  | [] => []
  | [x] => [f x]
  | x :: l' => x :: update_last f l'
  end.

Lemma update_last_snoc {A : Type} (f : A -> A) (l : list A) (x : A) :
  update_last f (l ++ [x]) = l ++ [f x].
Proof.
  induction l as [|y l IH]; [done|]. simpl. rewrite IH.
  destruct l; done.
Qed.

Lemma length_update_last {A : Type} (f : A -> A) (l : list A) :
  length (update_last f l) = length l.
Proof.
  induction l as [|x l IH] using rev_ind; [done|].
  rewrite update_last_snoc, !length_app. done.
Qed.

Lemma last_Some_snoc {A : Type} (l : list A) (x : A) :
  last l = Some x -> exists l', l = l' ++ [x].
Proof. apply last_Some. Qed.

(** [while p(front) { pop_front() }]. *)
Fixpoint drop_while {A : Type} (p : A -> bool) (l : list A) : list A :=
  match l with
  | [] => []
  | x :: l' => if p x then drop_while p l' else l
  end.

Lemma drop_while_suffix {A : Type} (p : A -> bool) (l : list A) :
  exists pre, l = pre ++ drop_while p l /\ Forall (fun x => p x = true) pre.
Proof.
  induction l as [|x l [pre [IH Hp]]]; [by exists []|]. simpl.
  destruct (p x) eqn:E.
  - exists (x :: pre). rewrite IH at 1. split; [done|by constructor].
  - by exists [].
Qed.

Lemma drop_while_head {A : Type} (p : A -> bool) (l : list A) (x : A) :
  head (drop_while p l) = Some x -> p x = false.
Proof. induction l as [|y l IH]; [done|]. simpl. destruct (p y) eqn:E; naive_solver. Qed.

(** [take_while] of iterators. *)
Fixpoint take_while {A : Type} (p : A -> bool) (l : list A) : list A :=
  match l with
  | [] => []
  | x :: l' => if p x then x :: take_while p l' else []
  end.

Lemma take_while_drop_while {A : Type} (p : A -> bool) (l : list A) :
  take_while p l ++ drop_while p l = l.
Proof. induction l as [|x l IH]; simpl; [done|]. destruct (p x); simpl; [by rewrite IH|done]. Qed.

Lemma take_while_Forall {A : Type} (p : A -> bool) (l : list A) :
  Forall (fun x => p x = true) (take_while p l).
Proof. induction l as [|x l IH]; simpl; [constructor|]. destruct (p x) eqn:E; by constructor. Qed.

Lemma take_while_app {A : Type} (p : A -> bool) (l1 l2 : list A) :
  Forall (fun x => p x = true) l1 -> take_while p (l1 ++ l2) = l1 ++ take_while p l2.
Proof. induction 1 as [|x l1 Hx _ IH]; simpl; [done|]. by rewrite Hx, IH. Qed.

Lemma filter_all {A : Type} (P : A -> Prop) `{!forall x, Decision (P x)} (l : list A) :
  Forall P l -> filter P l = l.
Proof. induction 1 as [|x l Hx _ IH]; [done|]. rewrite filter_cons_True by done. by f_equal. Qed.

Lemma filter_none {A : Type} (P : A -> Prop) `{!forall x, Decision (P x)} (l : list A) :
  (forall x, x ∈ l -> ~ P x) -> filter P l = [].
Proof.
  induction l as [|x l IH]; intros Hl; [done|]. rewrite filter_cons_False by (apply Hl; by left).
  apply IH. intros y Hy. apply Hl. by right.
Qed.

(** ** Sizes of finite sets *)

Lemma size_list_to_set_le {A : Type} `{Countable A} (l : list A) :
  (size (list_to_set l : gset A) <= length l)%nat.
Proof.
  induction l as [|x l IH]; simpl; [done|].
  pose proof (size_union_alt {[x]} (list_to_set l : gset A)) as Hu. rewrite size_singleton in Hu.
  assert (list_to_set l ∖ {[x]} ⊆ (list_to_set l : gset A)) as Hs%subseteq_size by set_solver. lia.
Qed.

(** A list without repetitions has as many elements as its set. *)
Lemma NoDup_of_size {A : Type} `{Countable A} (l : list A) :
  length l = size (list_to_set l : gset A) -> NoDup l.
Proof.
  induction l as [|x l IH]; intros Hl; [constructor|]. simpl in Hl.
  pose proof (size_list_to_set_le l).
  destruct (decide (x ∈ (list_to_set l : gset A))) as [Hin|Hout].
  - replace ({[x]} ∪ list_to_set l : gset A) with (list_to_set l : gset A) in Hl by set_solver. lia.
  - rewrite size_union, size_singleton in Hl by set_solver. constructor; [set_solver|].
    apply IH. lia.
Qed.

(** ** Increasing lists of integers *)

Lemma seqZ_sorted (lo n : Z) : StronglySorted Z.lt (seqZ lo n).
Proof.
  destruct (decide (n <= 0)%Z); [rewrite seqZ_nil by lia; constructor|].
  replace n with (Z.of_nat (Z.to_nat n)) by lia. generalize (Z.to_nat n) as k. clear.
  intros k. revert lo. induction k as [|k IH]; intros lo; [constructor|].
  rewrite seqZ_cons by lia. constructor; [rewrite <- Nat2Z.inj_pred by lia; apply IH|].
  apply Forall_forall. intros x ?%elem_of_seqZ. lia.
Qed.

Lemma sorted_filter {A : Type} (R : relation A) (P : A -> Prop) `{!forall x, Decision (P x)} l :
  StronglySorted R l -> StronglySorted R (filter P l).
Proof.
  induction 1 as [|x l Hl IH Hx]; [constructor|]. rewrite filter_cons. case_decide; [|done].
  constructor; [done|]. rewrite Forall_forall in *. intros y [_ Hy]%list_elem_of_filter. by apply Hx.
Qed.

Lemma sorted_lt_ext (l1 l2 : list Z) :
  StronglySorted Z.lt l1 -> StronglySorted Z.lt l2 -> (forall n, n ∈ l1 <-> n ∈ l2) -> l1 = l2.
Proof.
  assert (forall l, StronglySorted Z.lt l -> NoDup l) as Hnd.
  { induction 1 as [|x l Hl IH Hx]; constructor; [|done]. intros Hin.
    rewrite Forall_forall in Hx. specialize (Hx x Hin). lia. }
  intros H1 H2 Hin. apply (StronglySorted_unique_strong Z.lt); [lia|done..|].
  by apply NoDup_Permutation; [apply Hnd..|].
Qed.

(** ** Counting in an interval *)

Lemma length_filter_seqZ (P : Z -> Prop) `{!forall n, Decision (P n)} (a b s n : Z) :
  (forall k, (s <= k < s + n)%Z -> P k <-> (a <= k <= b)%Z) -> (0 <= n)%Z ->
  Z.of_nat (length (filter P (seqZ s n))) = Z.max 0 (Z.min b (s + n - 1) - Z.max a s + 1)%Z.
Proof.
  intros HP Hn. revert s HP. pattern n. apply natlike_ind; [|clear n Hn|done].
  - intros s _. rewrite seqZ_nil by lia. simpl. lia.
  - intros n Hn IH s HP. rewrite seqZ_cons by lia. rewrite Z.pred_succ, filter_cons.
    specialize (IH (Z.succ s) ltac:(intros; apply HP; lia)).
    specialize (HP s ltac:(lia)). case_decide as Hs; rewrite HP in Hs; simpl;
      rewrite ?Nat2Z.inj_succ, IH; lia.
Qed.

#[export] Hint Rewrite @update_last_snoc @length_update_last : bridge.

Lemma Forall2_choice {A B : Type} (P : A -> B -> Prop) (l : list A) :
  (forall x, x ∈ l -> exists y, P x y) -> exists k, Forall2 P l k.
Proof.
  induction l as [|x l IH]; intros Hl; [by exists []|].
  destruct (Hl x) as [y Hy]; [by left|]. destruct IH as [k Hk]; [intros z Hz; apply Hl; by right|].
  exists (y :: k). by constructor.
Qed.
