(* ===== verification/RingBuffer.v ===== *)
(** * Bounded storage: the ring buffer of imported keys

    The GRANDPA, parachains and BEEFY pallets keep at most [n] imported items.
    Each stores the items in a map, the keys in a second map indexed by a slot
    number, and the next slot in a storage value; an import overwrites the slot
    and removes the item whose key was there.  This file holds that scheme once:
    the concrete operation [ring_insert], its abstract specification (the list of
    the latest [n] items, newest first) and the refinement between the two.  The
    pallets show that their own import functions are [ring_insert] on the
    projections of their state. *)

From S2P Require Import Prelude.
From stdpp Require Import base numbers list gmap.
Local Open Scope Z_scope.

Section Ring.
Context {K V : Type} `{Countable K}.

Record ring := Ring {
  slots : gmap Z K;
  pointer : Z;
  items : gmap K V;
}.

(** One import: [n] is the configured number of items to keep. *)
Definition ring_insert (n : Z) (r : ring) (k : K) (v : V) : ring :=
  let items1 := <[k := v]> (items r) in
  Ring (<[pointer r := k]> (slots r)) ((pointer r + 1) mod n)
    (match slots r !! pointer r with
     | Some old => delete old items1
     | None => items1
     end).

(** The abstract store: the latest items, newest first. *)
Definition queue_insert (n : Z) (l : list (K * V)) (k : K) (v : V) : list (K * V) :=
  take (Z.to_nat n) ((k, v) :: l).

Lemma queue_insert_prefix (n : Z) (l : list (K * V)) (k : K) (v : V) :
  0 < n -> queue_insert n (take (Z.to_nat n) l) k v = take (Z.to_nat n) ((k, v) :: l).
Proof.
  intros Hn. unfold queue_insert. destruct (Z.to_nat n) as [|m] eqn:E; [lia|]. simpl.
  f_equal. rewrite take_take. f_equal. lia.
Qed.

(** The slot that holds the [i]-th newest key. *)
Definition slot_of (n : Z) (r : ring) (i : nat) : Z := (pointer r - 1 - Z.of_nat i) mod n.

Record ring_repr (n : Z) (r : ring) (l : list (K * V)) : Prop := {
  repr_pointer : 0 <= pointer r < n;
  repr_length : Z.of_nat (length l) <= n;
  repr_nodup : NoDup l.*1;
  repr_slots (i : nat) : Z.of_nat i < n -> slots r !! slot_of n r i = l.*1 !! i;
  repr_range (j : Z) : is_Some (slots r !! j) -> 0 <= j < n;
  repr_items : items r = list_to_map l;
}.

Lemma ring_repr_empty (n : Z) : 0 < n -> ring_repr n (Ring ∅ 0 ∅) [].
Proof.
  intros Hn. split; simpl; [lia|lia|constructor|done| |done].
  intros j [k Hk]. by rewrite lookup_empty in Hk.
Qed.

(** The slot about to be overwritten holds the oldest key of a full ring. *)
Lemma ring_repr_oldest (n : Z) (r : ring) (l : list (K * V)) :
  ring_repr n r l -> slots r !! pointer r = l.*1 !! (Z.to_nat (n - 1)).
Proof.
  intros [Hp _ _ Hs _ _]. rewrite <- Hs by lia. f_equal. unfold slot_of.
  replace (pointer r - 1 - Z.of_nat (Z.to_nat (n - 1))) with (pointer r + (-1) * n) by lia.
  rewrite Z_mod_plus_full. by rewrite Z.mod_small.
Qed.

Lemma slot_of_insert_head (n : Z) (r : ring) (k : K) (v : V) :
  0 <= pointer r < n -> slot_of n (ring_insert n r k v) 0 = pointer r.
Proof.
  intros Hp. unfold slot_of, ring_insert; simpl.
  rewrite Z.sub_0_r, Zminus_mod_idemp_l. rewrite Z.mod_small; lia.
Qed.

Lemma slot_of_insert_tail (n : Z) (r : ring) (k : K) (v : V) (i : nat) :
  slot_of n (ring_insert n r k v) (S i) = slot_of n r i.
Proof.
  unfold slot_of, ring_insert; simpl.
  replace ((pointer r + 1) mod n - 1 - Z.of_nat (S i))
    with ((pointer r + 1) mod n - (2 + Z.of_nat i)) by lia.
  rewrite Zminus_mod_idemp_l. f_equal. lia.
Qed.

Lemma slot_of_not_pointer (n : Z) (r : ring) (i : nat) :
  0 <= pointer r < n -> Z.of_nat i < n - 1 -> pointer r <> slot_of n r i.
Proof.
  intros Hp Hi Heq. unfold slot_of in Heq.
  pose proof (Z.div_mod (pointer r - 1 - Z.of_nat i) n ltac:(lia)) as Hd.
  rewrite <- Heq in Hd.
  assert ((pointer r - 1 - Z.of_nat i) / n = 0 \/
          (pointer r - 1 - Z.of_nat i) / n <= -1 \/
          1 <= (pointer r - 1 - Z.of_nat i) / n) as [E|[E|E]] by lia; nia.
Qed.

(** Deleting the key that leaves the queue keeps the map equal to the queue. *)
Lemma queue_insert_map (n : Z) (l : list (K * V)) (k : K) (v : V) :
  0 < n -> Z.of_nat (length l) <= n -> NoDup l.*1 -> k ∉ l.*1 ->
  list_to_map (queue_insert n l k v) =@{gmap K V}
  match l.*1 !! (Z.to_nat (n - 1)) with
  | Some old => delete old (<[k := v]> (list_to_map l))
  | None => <[k := v]> (list_to_map l)
  end.
Proof.
  intros Hn Hlen Hnd Hk. unfold queue_insert.
  replace (Z.to_nat n) with (S (Z.to_nat (n - 1))) by lia. simpl.
  rewrite list_lookup_fmap. destruct (l !! Z.to_nat (n - 1)) as [[old w]|] eqn:E; simpl.
  - pose proof (lookup_lt_Some _ _ _ E) as Hlt.
    assert (l = take (Z.to_nat (n - 1)) l ++ [(old, w)]) as Hl.
    { rewrite <- (take_drop_middle l _ _ E) at 1. f_equal.
      rewrite drop_ge by lia. done. }
    rewrite Hl in Hnd, Hk |- *. rewrite fmap_app in Hnd, Hk. simpl in Hnd, Hk.
    rewrite take_app_le by (rewrite length_take; lia).
    rewrite take_ge with (n := Z.to_nat (n - 1)) by (rewrite length_take; lia).
    rewrite not_elem_of_app in Hk. apply NoDup_app in Hnd as (_ & Hnd & _).
    rewrite list_to_map_snoc by set_solver.
    rewrite delete_insert_ne by set_solver.
    rewrite delete_insert_id; [done|].
    apply not_elem_of_list_to_map_1. set_solver.
  - apply lookup_ge_None in E. rewrite take_ge by lia. done.
Qed.

(** The concrete import refines the bounded queue. *)
Lemma ring_insert_repr (n : Z) (r : ring) (l : list (K * V)) (k : K) (v : V) :
  0 < n -> k ∉ l.*1 -> ring_repr n r l ->
  ring_repr n (ring_insert n r k v) (queue_insert n l k v).
Proof.
  intros Hn Hk Hr. pose proof (ring_repr_oldest _ _ _ Hr) as Hold.
  destruct Hr as [Hp Hlen Hnd Hs Hrange Hitems]. split.
  - simpl. apply Z.mod_pos_bound. lia.
  - unfold queue_insert. rewrite length_take. lia.
  - unfold queue_insert. rewrite fmap_take. apply NoDup_firstn. simpl. by constructor.
  - intros i Hi. unfold queue_insert. rewrite fmap_take, lookup_take_lt by lia.
    destruct i as [|i]; simpl.
    + rewrite slot_of_insert_head by lia. by rewrite lookup_insert_eq.
    + rewrite slot_of_insert_tail.
      rewrite lookup_insert_ne by (apply slot_of_not_pointer; lia). apply Hs. lia.
  - intros j. simpl. rewrite lookup_insert_is_Some. intros [<-|[_ Hj]]; [lia|by apply Hrange].
  - simpl. rewrite Hold, Hitems. symmetry. by apply queue_insert_map.
Qed.

(** What a refinement gives the clients: the store never exceeds its bound, and
    it holds exactly the newest items. *)
Lemma ring_repr_size (n : Z) (r : ring) (l : list (K * V)) :
  ring_repr n r l -> Z.of_nat (size (items r)) <= n.
Proof.
  intros [_ Hlen Hnd _ _ ->].
  rewrite <- length_map_to_list, map_to_list_to_map by done. done.
Qed.

Lemma ring_repr_no_slots (n : Z) (r : ring) : ring_repr n r [] -> slots r = ∅.
Proof.
  intros [Hp _ _ Hs Hr _]. apply map_empty. intros j. destruct (slots r !! j) as [k|] eqn:E; [|done].
  assert (0 <= j < n) as Hj by (apply Hr; by rewrite E).
  pose proof (Z.mod_pos_bound (pointer r - 1 - j) n ltac:(lia)).
  specialize (Hs (Z.to_nat ((pointer r - 1 - j) mod n)) ltac:(lia)). unfold slot_of in Hs.
  rewrite Z2Nat.id, Zminus_mod_idemp_r in Hs by lia.
  replace (pointer r - 1 - (pointer r - 1 - j)) with j in Hs by lia.
  rewrite Z.mod_small, E in Hs by lia. done.
Qed.

Lemma ring_repr_newest (n : Z) (r : ring) (l : list (K * V)) (k : K) (v : V) :
  0 < n -> k ∉ l.*1 -> ring_repr n r l -> items (ring_insert n r k v) !! k = Some v.
Proof.
  intros Hn Hk Hr. pose proof (ring_insert_repr n r l k v Hn Hk Hr) as [_ _ _ _ _ ->].
  unfold queue_insert. replace (Z.to_nat n) with (S (Z.to_nat (n - 1))) by lia.
  simpl. apply lookup_insert_eq.
Qed.

(** The size bound also holds when keys recur and the ring is not a queue: every
    stored item has its key in a slot. *)
Record ring_bounded (n : Z) (r : ring) : Prop := {
  rb_pointer : 0 <= pointer r < n;
  rb_range (j : Z) : is_Some (slots r !! j) -> 0 <= j < n;
  rb_items (k : K) : is_Some (items r !! k) -> exists j, slots r !! j = Some k;
}.

Lemma ring_bounded_empty (n : Z) : 0 < n -> ring_bounded n (Ring ∅ 0 ∅).
Proof. intros Hn. split; simpl; [lia| |]; intros j [x Hx]; by rewrite lookup_empty in Hx. Qed.

Lemma ring_insert_bounded (n : Z) (r : ring) (k : K) (v : V) :
  ring_bounded n r -> ring_bounded n (ring_insert n r k v).
Proof.
  intros [Hp Hr Hi]. split; simpl.
  - apply Z.mod_pos_bound. lia.
  - intros j. rewrite lookup_insert_is_Some. intros [<-|[_ Hj]]; [lia|by apply Hr].
  - intros k' Hk'. assert (is_Some (<[k := v]> (items r) !! k') /\ slots r !! pointer r <> Some k')
      as [Hin Hold].
    { destruct (slots r !! pointer r) as [old|]; [|done].
      apply lookup_delete_is_Some in Hk' as [Hne Hk']. split; [done|congruence]. }
    apply lookup_insert_is_Some in Hin as [<-|[_ [j Hj]%Hi]].
    + exists (pointer r). by rewrite lookup_insert_eq.
    + exists j. rewrite lookup_insert_ne by (intros Heq; rewrite Heq in Hold; congruence). done.
Qed.

Lemma ring_bounded_size (n : Z) (r : ring) :
  ring_bounded n r ->
  Z.of_nat (size (slots r)) <= n /\ Z.of_nat (size (items r)) <= Z.of_nat (size (slots r)).
Proof.
  intros [Hp Hr Hi]. split.
  - rewrite <- (size_dom (D := gset Z)).
    assert (dom (slots r) ⊆ list_to_set (seqZ 0 n)) as Hs%subseteq_size.
    { intros j Hj%elem_of_dom%Hr. apply elem_of_list_to_set, elem_of_seqZ. lia. }
    rewrite size_list_to_set, length_seqZ in Hs by apply NoDup_seqZ. lia.
  - rewrite <- (size_dom (D := gset K)).
    assert (dom (items r) ⊆ list_to_set (snd <$> map_to_list (slots r))) as Hs%subseteq_size.
    { intros k [j Hj]%elem_of_dom%Hi. apply elem_of_list_to_set, list_elem_of_fmap.
      exists (j, k). split; [done|]. by apply elem_of_map_to_list. }
    pose proof (size_list_to_set_le (snd <$> map_to_list (slots r))) as Hle.
    rewrite length_fmap, length_map_to_list in Hle. lia.
Qed.
End Ring.
Arguments ring K V {_ _}.

(** ** The rows of a double map *)

Section Rows.
Context {K1 K2 A : Type} `{Countable K1, Countable K2}.

Definition row (m : gmap (K1 * K2) A) (i : K1) : gmap K2 A :=
  default ∅ (map_curry (M1 := gmap K1) (M2 := gmap K2) m !! i).

Lemma lookup_row (m : gmap (K1 * K2) A) (i : K1) (j : K2) : row m i !! j = m !! (i, j).
Proof.
  unfold row. rewrite <- (lookup_map_curry (M1 := gmap K1) (M2 := gmap K2) m i j).
  destruct (_ !! i); simpl; [done|]. by rewrite lookup_empty.
Qed.

Lemma row_insert (m : gmap (K1 * K2) A) (i : K1) (j : K2) (x : A) :
  row (<[(i, j) := x]> m) i = <[j := x]> (row m i).
Proof.
  apply map_eq. intros k. rewrite lookup_row. destruct (decide (j = k)) as [->|Hne].
  - by rewrite !lookup_insert_eq.
  - rewrite !lookup_insert_ne by congruence. by rewrite lookup_row.
Qed.

Lemma row_delete (m : gmap (K1 * K2) A) (i : K1) (j : K2) :
  row (delete (i, j) m) i = delete j (row m i).
Proof.
  apply map_eq. intros k. rewrite lookup_row. destruct (decide (j = k)) as [->|Hne].
  - by rewrite !lookup_delete_eq.
  - rewrite !lookup_delete_ne by congruence. by rewrite lookup_row.
Qed.

(** The size of a double map whose rows are bounded. *)
Lemma rows_size (m : gmap (K1 * K2) A) (X : gset K1) (n : Z) :
  (forall i j, is_Some (m !! (i, j)) -> i ∈ X) ->
  (forall i, Z.of_nat (size (row m i)) <= n) ->
  Z.of_nat (size m) <= Z.of_nat (size X) * n.
Proof.
  revert m. induction X as [|i X Hi IH] using set_ind_L; intros m Hkeys Hrow.
  { rewrite size_empty. assert (m = ∅) as ->; [|done]. apply map_empty. intros [i j].
    destruct (m !! (i, j)) as [x|] eqn:E; [|done]. exfalso.
    assert (i ∈ (∅ : gset K1)) by (eapply Hkeys; by rewrite E). set_solver. }
  set (m1 := filter (fun kv => kv.1.1 = i) m). set (m2 := filter (fun kv => kv.1.1 <> i) m).
  assert (size m = size m1 + size m2)%nat as ->.
  { rewrite <- (map_filter_union_complement (fun kv => kv.1.1 = i) m) at 1.
    by rewrite map_size_disj_union by apply map_disjoint_filter_complement. }
  assert (Z.of_nat (size m2) <= Z.of_nat (size X) * n) as Hm2.
  { apply IH.
    - intros i' j [x Hx]. apply map_lookup_filter_Some in Hx as [Hx Hne]. simpl in Hne.
      assert (i' ∈ {[i]} ∪ X) by (eapply Hkeys; by rewrite Hx). set_solver.
    - intros i'. etrans; [|apply (Hrow i')]. apply inj_le, map_subseteq_size, map_subseteq_spec.
      intros j x. rewrite !lookup_row. by intros [? _]%map_lookup_filter_Some. }
  assert (size m1 <= size (row m i))%nat as Hm1.
  { rewrite <- (size_dom (D := gset (K1 * K2))), <- (size_dom (D := gset K2)).
    assert (dom m1 ⊆ list_to_set ((fun j => (i, j)) <$> elements (dom (row m i)))) as Hs%subseteq_size.
    { intros [i' j] [x [Hx Hi']%map_lookup_filter_Some]%elem_of_dom. simpl in Hi'. subst i'.
      apply elem_of_list_to_set, list_elem_of_fmap. exists j. split; [done|].
      apply elem_of_elements, elem_of_dom. rewrite lookup_row. by exists x. }
    etrans; [exact Hs|]. etrans; [apply size_list_to_set_le|]. by rewrite length_fmap. }
  specialize (Hrow i). rewrite size_union, size_singleton by set_solver. lia.
Qed.
End Rows.
