(* ===== verification/Substrate.v ===== *)
(** * The parts of Substrate the bridge code is written against

    FRAME, [sp-weights] and [frame-system] are not part of this repository.  The
    operations of [Weight] and of the database weights are the methods of a class,
    with the behaviour their documentation states as the laws of a second class;
    every model that computes with weights takes both as parameters, and
    [U64Weight] shows that the laws can be met.  The call origin, the dispatch
    error and the post-dispatch information are the plain data the pallets match
    on. *)

From S2P Require Import Prelude.
From stdpp Require Import base numbers list.
Local Open Scope Z_scope.

(** [frame_support::weights::RuntimeDbWeight]. *)
Record RuntimeDbWeight := { db_read : Z; db_write : Z }.

(** [frame_support::weights::Weight]: two [u64] components. *)
Class WeightOps := {
  Weight : Type;
  ref_time : Weight -> Z;
  proof_size : Weight -> Z;
  from_parts : Z -> Z -> Weight;
  weight_add : Weight -> Weight -> Weight;
  weight_sub : Weight -> Weight -> Weight;
  weight_checked_add : Weight -> Weight -> option Weight;
  weight_saturating_add : Weight -> Weight -> Weight;
  weight_saturating_sub : Weight -> Weight -> Weight;
  weight_saturating_mul : Weight -> Z -> Weight;
  weight_mul : Weight -> Z -> Weight;
  weight_div : Weight -> Z -> Weight;
  weight_min : Weight -> Weight -> Weight;
  all_gte : Weight -> Weight -> bool;
  all_lte : Weight -> Weight -> bool;
  any_gt : Weight -> Weight -> bool;
  weight_is_zero : Weight -> bool;
  set_proof_size : Weight -> Z -> Weight;
  weight_max : Weight;
  reads : RuntimeDbWeight -> Z -> Weight;
  writes : RuntimeDbWeight -> Z -> Weight;
  reads_writes : RuntimeDbWeight -> Z -> Z -> Weight;
}.

Definition weight_zero `{WeightOps} : Weight := from_parts 0 0.

(** The documented behaviour the models rely on.  The plain operators are only
    specified where they do not overflow. *)
Class WeightLaws `{WeightOps} : Prop := {
  ref_time_u64 w : is_u64 (ref_time w);
  proof_size_u64 w : is_u64 (proof_size w);
  weight_ext w1 w2 : ref_time w1 = ref_time w2 -> proof_size w1 = proof_size w2 -> w1 = w2;
  ref_time_from_parts a b : is_u64 a -> ref_time (from_parts a b) = a;
  proof_size_from_parts a b : is_u64 b -> proof_size (from_parts a b) = b;
  ref_time_add w1 w2 : ref_time w1 + ref_time w2 <= u64_max ->
    ref_time (weight_add w1 w2) = ref_time w1 + ref_time w2;
  proof_size_add w1 w2 : proof_size w1 + proof_size w2 <= u64_max ->
    proof_size (weight_add w1 w2) = proof_size w1 + proof_size w2;
  ref_time_sub w1 w2 : ref_time w2 <= ref_time w1 ->
    ref_time (weight_sub w1 w2) = ref_time w1 - ref_time w2;
  proof_size_sub w1 w2 : proof_size w2 <= proof_size w1 ->
    proof_size (weight_sub w1 w2) = proof_size w1 - proof_size w2;
  weight_checked_add_spec w1 w2 :
    weight_checked_add w1 w2 =
    (a ← checked_add u64_max (ref_time w1) (ref_time w2);
     b ← checked_add u64_max (proof_size w1) (proof_size w2);
     Some (from_parts a b));
  ref_time_max : ref_time weight_max = u64_max;
  proof_size_max : proof_size weight_max = u64_max;
  ref_time_saturating_add w1 w2 :
    ref_time (weight_saturating_add w1 w2) = saturating_add u64_max (ref_time w1) (ref_time w2);
  proof_size_saturating_add w1 w2 :
    proof_size (weight_saturating_add w1 w2) =
    saturating_add u64_max (proof_size w1) (proof_size w2);
  ref_time_saturating_sub w1 w2 :
    ref_time (weight_saturating_sub w1 w2) = saturating_sub (ref_time w1) (ref_time w2);
  proof_size_saturating_sub w1 w2 :
    proof_size (weight_saturating_sub w1 w2) = saturating_sub (proof_size w1) (proof_size w2);
  ref_time_saturating_mul w n : is_u64 n ->
    ref_time (weight_saturating_mul w n) = saturating_mul u64_max (ref_time w) n;
  proof_size_saturating_mul w n : is_u64 n ->
    proof_size (weight_saturating_mul w n) = saturating_mul u64_max (proof_size w) n;
  ref_time_mul w n : 0 <= n -> ref_time w * n <= u64_max ->
    ref_time (weight_mul w n) = ref_time w * n;
  proof_size_mul w n : 0 <= n -> proof_size w * n <= u64_max ->
    proof_size (weight_mul w n) = proof_size w * n;
  ref_time_div w n : 0 < n <= u64_max -> ref_time (weight_div w n) = ref_time w / n;
  proof_size_div w n : 0 < n <= u64_max -> proof_size (weight_div w n) = proof_size w / n;
  ref_time_min w1 w2 : ref_time (weight_min w1 w2) = Z.min (ref_time w1) (ref_time w2);
  proof_size_min w1 w2 :
    proof_size (weight_min w1 w2) = Z.min (proof_size w1) (proof_size w2);
  all_gte_spec w1 w2 :
    all_gte w1 w2 = (ref_time w2 <=? ref_time w1) && (proof_size w2 <=? proof_size w1);
  all_lte_spec w1 w2 :
    all_lte w1 w2 = (ref_time w1 <=? ref_time w2) && (proof_size w1 <=? proof_size w2);
  any_gt_spec w1 w2 :
    any_gt w1 w2 = (ref_time w2 <? ref_time w1) || (proof_size w2 <? proof_size w1);
  weight_is_zero_spec w :
    weight_is_zero w = (ref_time w =? 0) && (proof_size w =? 0);
  ref_time_set_proof_size w b : ref_time (set_proof_size w b) = ref_time w;
  proof_size_set_proof_size w b : is_u64 b -> proof_size (set_proof_size w b) = b;
  ref_time_reads db n : is_u64 n -> is_u64 (db_read db) ->
    ref_time (reads db n) = saturating_mul u64_max (db_read db) n;
  proof_size_reads db n : proof_size (reads db n) = 0;
  ref_time_writes db n : is_u64 n -> is_u64 (db_write db) ->
    ref_time (writes db n) = saturating_mul u64_max (db_write db) n;
  proof_size_writes db n : proof_size (writes db n) = 0;
  reads_writes_spec db n m :
    reads_writes db n m = weight_saturating_add (reads db n) (writes db m);
}.

(** Component-wise order. *)
Definition weight_le `{WeightOps} (w1 w2 : Weight) : Prop :=
  ref_time w1 <= ref_time w2 /\ proof_size w1 <= proof_size w2.

#[export] Hint Rewrite @ref_time_saturating_add @proof_size_saturating_add
  @ref_time_saturating_sub @proof_size_saturating_sub @ref_time_min @proof_size_min
  @all_gte_spec @all_lte_spec @any_gt_spec @weight_is_zero_spec @ref_time_set_proof_size
  @proof_size_reads @proof_size_writes @reads_writes_spec
  using typeclasses eauto : bridge.

Section WeightFacts.
Context `{WeightLaws}.

Lemma weight_zero_ref_time : ref_time weight_zero = 0.
Proof. apply ref_time_from_parts. word. Qed.

Lemma weight_zero_proof_size : proof_size weight_zero = 0.
Proof. apply proof_size_from_parts. word. Qed.

#[export] Instance weight_le_preorder : PreOrder weight_le.
Proof. split; [intros w; split; lia|]. intros w1 w2 w3 [] []. split; lia. Qed.

Lemma weight_saturating_sub_le (w1 w2 : Weight) : weight_le (weight_saturating_sub w1 w2) w1.
Proof.
  pose proof (ref_time_u64 w1). pose proof (ref_time_u64 w2).
  pose proof (proof_size_u64 w1). pose proof (proof_size_u64 w2).
  split; autorewrite with bridge; word.
Qed.

Lemma weight_min_le_r (w1 w2 : Weight) : weight_le (weight_min w1 w2) w2.
Proof. split; autorewrite with bridge; lia. Qed.

Lemma set_proof_size_le (w : Weight) (b : Z) :
  0 <= b <= proof_size w -> weight_le (set_proof_size w b) w.
Proof.
  intros Hb. pose proof (proof_size_u64 w).
  split; [autorewrite with bridge; lia|]. rewrite proof_size_set_proof_size; word.
Qed.
End WeightFacts.

#[export] Hint Resolve weight_saturating_sub_le weight_min_le_r : bridge.

(** ** A model of the laws: pairs of 64-bit values *)
Module U64Weight.

Definition in_range (p : Z * Z) : bool :=
  (0 <=? p.1) && (p.1 <=? u64_max) && (0 <=? p.2) && (p.2 <=? u64_max).

Definition weight : Type := { p : Z * Z | in_range p = true }.

Lemma in_range_mod (a b : Z) : in_range (a mod 2 ^ 64, b mod 2 ^ 64) = true.
Proof.
  pose proof (Z.mod_pos_bound a (2 ^ 64) ltac:(lia)).
  pose proof (Z.mod_pos_bound b (2 ^ 64) ltac:(lia)).
  unfold in_range, u64_max; simpl. lia.
Qed.

Definition parts (a b : Z) : weight := exist _ (a mod 2 ^ 64, b mod 2 ^ 64) (in_range_mod a b).
Definition ref (w : weight) : Z := (proj1_sig w).1.
Definition proof (w : weight) : Z := (proj1_sig w).2.
Definition pointwise (f : Z -> Z -> Z) (w1 w2 : weight) : weight :=
  parts (f (ref w1) (ref w2)) (f (proof w1) (proof w2)).

#[global] Instance ops : WeightOps := {|
  Weight := weight;
  ref_time := ref;
  proof_size := proof;
  from_parts := parts;
  weight_add := pointwise (wrapping_add u64_max);
  weight_sub := pointwise (wrapping_sub u64_max);
  weight_checked_add w1 w2 :=
    a ← checked_add u64_max (ref w1) (ref w2);
    b ← checked_add u64_max (proof w1) (proof w2);
    Some (parts a b);
  weight_saturating_add := pointwise (saturating_add u64_max);
  weight_saturating_sub := pointwise saturating_sub;
  weight_saturating_mul w n :=
    parts (saturating_mul u64_max (ref w) n) (saturating_mul u64_max (proof w) n);
  weight_mul w n := parts (ref w * n) (proof w * n);
  weight_div w n := parts (ref w / n) (proof w / n);
  weight_min := pointwise Z.min;
  all_gte w1 w2 := (ref w2 <=? ref w1) && (proof w2 <=? proof w1);
  all_lte w1 w2 := (ref w1 <=? ref w2) && (proof w1 <=? proof w2);
  any_gt w1 w2 := (ref w2 <? ref w1) || (proof w2 <? proof w1);
  weight_is_zero w := (ref w =? 0) && (proof w =? 0);
  set_proof_size w b := parts (ref w) b;
  weight_max := parts u64_max u64_max;
  reads db n := parts (saturating_mul u64_max (db_read db) n) 0;
  writes db n := parts (saturating_mul u64_max (db_write db) n) 0;
  reads_writes db n m :=
    pointwise (saturating_add u64_max)
      (parts (saturating_mul u64_max (db_read db) n) 0)
      (parts (saturating_mul u64_max (db_write db) m) 0);
|}.

Lemma weight_range (w : weight) : is_u64 (ref w) /\ is_u64 (proof w).
Proof. destruct w as [[a b] Hp]. unfold in_range, is_u64, ref, proof in *; simpl in *. lia. Qed.

Lemma ref_parts (a b : Z) : is_u64 a -> ref (parts a b) = a.
Proof. intros Ha. apply Z.mod_small. word. Qed.

Lemma proof_parts (a b : Z) : is_u64 b -> proof (parts a b) = b.
Proof. intros Hb. apply Z.mod_small. word. Qed.

Lemma weight_eq (w1 w2 : weight) : ref w1 = ref w2 -> proof w1 = proof w2 -> w1 = w2.
Proof.
  destruct w1 as [[a b] H1], w2 as [[c d] H2]. unfold ref, proof; simpl. intros -> ->.
  f_equal. apply proof_irrel.
Qed.

Lemma saturating_mul_u64 (a n : Z) : is_u64 a -> is_u64 n -> is_u64 (saturating_mul u64_max a n).
Proof. unfold is_u64, saturating_mul. intros. nia. Qed.

Lemma div_u64 (a n : Z) : is_u64 a -> 0 < n -> is_u64 (a / n).
Proof.
  intros Ha Hn. split; [apply Z.div_pos; word|].
  apply Z.div_le_upper_bound; [lia|]. unfold is_u64, u64_max in *. nia.
Qed.

#[global] Instance laws : WeightLaws.
Proof.
  split; simpl; unfold pointwise; intros;
  repeat match goal with
  | w : weight |- _ =>
      lazymatch goal with
      | _ : is_u64 (ref w) /\ is_u64 (proof w) |- _ => fail
      | _ => pose proof (weight_range w)
      end
  end; destruct_and?; try done;
  try (first [rewrite ref_parts | rewrite proof_parts];
       first [word | done | by apply saturating_mul_u64 | idtac]).
  all: try (first [apply weight_range | by apply weight_eq | by apply div_u64; lia | idtac]).
  all: rewrite ?wrapping_add_small, ?wrapping_sub_small by word; try word; apply div_u64; word.
Qed.
End U64Weight.

(** ** Origins, errors and post-dispatch information *)

(** What [origin.into()] gives: [OtherOrigin] stands for the origins that are not
    [frame_system::RawOrigin]. *)
Inductive RawOrigin (A : Type) : Type :=
| Root
| Signed (a : A)
| NoneOrigin
| OtherOrigin.
Arguments Root {A}.
Arguments Signed {A} _.
Arguments NoneOrigin {A}.
Arguments OtherOrigin {A}.

Inductive DispatchError (E : Type) : Type :=
| BadOrigin
| ModuleError (e : E).
Arguments BadOrigin {E}.
Arguments ModuleError {E} _.

(** [frame_system::ensure_signed]. *)
Definition ensure_signed {A E : Type} (origin : RawOrigin A) : outcome (DispatchError E) A :=
  match origin with
  | Signed a => Ok a
  | _ => Err BadOrigin
  end.

Inductive Pays := PaysYes | PaysNo.

Record PostDispatchInfo `{WeightOps} := {
  actual_weight : option Weight;
  pays_fee : Pays;
}.
