(* ===== verification/RuntimePrimitives.v ===== *)
(** * primitives/runtime: owned bridge modules and shared runtime types

    [OwnedBridgeModule] is the trait every bridge pallet implements: an optional
    owner, an operating mode, and the calls that change them.  It is a class over
    the pallet's state here, with its calls defined once; each pallet gives an
    instance and inherits the theorems.  The file also holds the header ids, the
    transaction eras and the weight division of the crate. *)

From S2P Require Import Prelude Substrate.
From stdpp Require Import base numbers list.
Local Open Scope Z_scope.

(** ** Header ids *)

Record HeaderId (Hash : Type) := HeaderId_ { header_number : Z; header_hash : Hash }.
Arguments HeaderId_ {Hash} _ _.
Arguments header_number {Hash} _.
Arguments header_hash {Hash} _.

#[export] Instance HeaderId_eq_dec {Hash : Type} `{EqDecision Hash} : EqDecision (HeaderId Hash).
Proof. solve_decision. Defined.

(** The header accessors of [sp_runtime::traits::Header] that the bridge uses. *)
Class Header (H Hash : Type) := {
  hdr_number : H -> Z;
  hdr_hash : H -> Hash;
  hdr_parent_hash : H -> Hash;
  hdr_state_root : H -> Hash;
}.

Definition header_id {H Hash : Type} `{Header H Hash} (h : H) : HeaderId Hash :=
  HeaderId_ (hdr_number h) (hdr_hash h).

Definition parent_id {H Hash : Type} `{Header H Hash} (h : H) : option (HeaderId Hash) :=
  n ← checked_sub (hdr_number h) 1; Some (HeaderId_ n (hdr_parent_hash h)).

(** ** Transaction eras *)

Inductive TransactionEra (Hash : Type) :=
| Immortal
| Mortal (id : HeaderId Hash) (period : Z).
Arguments Immortal {Hash}.
Arguments Mortal {Hash} _ _.

Definition era_new {Hash : Type} (best_block_id : HeaderId Hash) (mortality_period : option Z) :
  TransactionEra Hash :=
  match mortality_period with
  | Some period => Mortal best_block_id period
  | None => Immortal
  end.

Definition era_mortality_period {Hash : Type} (era : TransactionEra Hash) : option Z :=
  match era with
  | Immortal => None
  | Mortal _ period => Some period
  end.

Definition era_signed_payload {Hash : Type} (era : TransactionEra Hash) (genesis_hash : Hash) :
  Hash :=
  match era with
  | Immortal => genesis_hash
  | Mortal id _ => header_hash id
  end.

(** ** Sizes and weights *)

Definition precomputed_size (n : Z) : Z := if n <=? u32_max then n else u32_max.

Definition min_components_checked_div `{WeightOps} (self other : Weight) : option Z :=
  a ← checked_div (ref_time self) (ref_time other);
  b ← checked_div (proof_size self) (proof_size other);
  Some (Z.min a b).

(** The quotient is the number of times [other] fits into [self] in both
    components. *)
Lemma min_components_checked_div_spec `{WeightLaws} (self other : Weight) (q : Z) :
  min_components_checked_div self other = Some q ->
  forall n, 0 <= n -> (n <= q <->
    ref_time other * n <= ref_time self /\ proof_size other * n <= proof_size self).
Proof.
  unfold min_components_checked_div, checked_div.
  pose proof (ref_time_u64 other). pose proof (proof_size_u64 other).
  destruct (ref_time other =? 0) eqn:E1; [done|]. destruct (proof_size other =? 0) eqn:E2; [done|].
  intros [= <-] n Hn.
  rewrite Z.min_glb_iff. unfold is_u64 in *.
  split; (intros [Ha Hb]; split).
  - pose proof (Z.mul_div_le (ref_time self) (ref_time other) ltac:(lia)). nia.
  - pose proof (Z.mul_div_le (proof_size self) (proof_size other) ltac:(lia)). nia.
  - apply Z.div_le_lower_bound; lia.
  - apply Z.div_le_lower_bound; lia.
Qed.

(** ** Operating modes and owned modules *)

Inductive BasicOperatingMode := Normal | Halted.

#[export] Instance BasicOperatingMode_eq_dec : EqDecision BasicOperatingMode.
Proof. solve_decision. Defined.

Inductive OwnedBridgeModuleError := HaltedError.

Class OperatingMode (M : Type) := { mode_is_halted : M -> bool }.

#[export] Instance BasicOperatingMode_mode : OperatingMode BasicOperatingMode :=
  { mode_is_halted m := match m with Halted => true | Normal => false end }.

(** A state [S] with an owner of type [A] and a mode of type [M]. *)
Class OwnedBridgeModule (S A M : Type) `{OperatingMode M} := {
  owner_storage : S -> option A;
  put_owner : option A -> S -> S;
  operating_mode_storage : S -> M;
  put_operating_mode : M -> S -> S;
}.

(** The storage items are independent cells. *)
Class OwnedBridgeModuleLaws (S A M : Type) `{OwnedBridgeModule S A M} : Prop := {
  owner_put_owner o s : owner_storage (put_owner o s) = o;
  mode_put_owner o s : operating_mode_storage (put_owner o s) = operating_mode_storage s;
  mode_put_mode m s : operating_mode_storage (put_operating_mode m s) = m;
  owner_put_mode m s : owner_storage (put_operating_mode m s) = owner_storage s;
}.

Section OwnedModule.
Context {S A M E : Type} `{OwnedBridgeModule S A M} `{EqDecision A}.

Definition is_halted (s : S) : bool := mode_is_halted (operating_mode_storage s).

Definition ensure_owner_or_root (s : S) (origin : RawOrigin A) : outcome (DispatchError E) unit :=
  match origin with
  | Root => Ok tt
  | Signed signer =>
      if decide (owner_storage s = Some signer) then Ok tt else Err BadOrigin
  | _ => Err BadOrigin
  end.

Definition ensure_not_halted (s : S) : outcome OwnedBridgeModuleError unit :=
  if is_halted s then Err HaltedError else Ok tt.

Definition set_owner (s : S) (origin : RawOrigin A) (maybe_owner : option A) :
  outcome (DispatchError E) S :=
  check? ensure_owner_or_root s origin in
  Ok (put_owner maybe_owner s).

Definition set_operating_mode (s : S) (origin : RawOrigin A) (mode : M) :
  outcome (DispatchError E) S :=
  check? ensure_owner_or_root s origin in
  Ok (put_operating_mode mode s).

(** Who may manage the module: root, and the account that owns it now. *)
Definition may_manage (s : S) (origin : RawOrigin A) : Prop :=
  origin = Root \/ exists a, origin = Signed a /\ owner_storage s = Some a.

Lemma ensure_owner_or_root_iff (s : S) (origin : RawOrigin A) :
  ensure_owner_or_root s origin = Ok tt <-> may_manage s origin.
Proof. unfold ensure_owner_or_root, may_manage. destruct origin; try case_decide; naive_solver. Qed.

Lemma ensure_owner_or_root_cases (s : S) (origin : RawOrigin A) :
  ensure_owner_or_root s origin = Ok tt \/ ensure_owner_or_root s origin = Err BadOrigin.
Proof. unfold ensure_owner_or_root. destruct origin; try case_decide; naive_solver. Qed.

Lemma ensure_not_halted_Ok (s : S) (u : unit) :
  ensure_not_halted s = Ok u <-> is_halted s = false.
Proof. unfold ensure_not_halted. destruct (is_halted s), u; naive_solver. Qed.
End OwnedModule.

(** A sequence of management calls, failed ones leaving the state alone. *)
Section ManagementRuns.
Context {S A M : Type} `{OwnedBridgeModuleLaws S A M} `{EqDecision A}.

Inductive management_call :=
| SetOwner (origin : RawOrigin A) (maybe_owner : option A)
| SetMode (origin : RawOrigin A) (mode : M).

Definition call_origin (c : management_call) : RawOrigin A :=
  match c with
  | SetOwner origin _ => origin
  | SetMode origin _ => origin
  end.

Definition run_management (s : S) (c : management_call) : S :=
  let r := match c with
    | SetOwner origin o => set_owner (E := unit) s origin o
    | SetMode origin m => set_operating_mode (E := unit) s origin m
    end in
  match r with
  | Ok s' => s'
  | _ => s
  end.

Lemma run_management_unauthorised (s : S) (c : management_call) :
  ~ may_manage s (call_origin c) -> run_management s c = s.
Proof.
  intros Hno. rewrite <- (ensure_owner_or_root_iff (E := unit)) in Hno.
  destruct c as [origin o|origin m]; simpl in *;
    destruct (ensure_owner_or_root_cases (E := unit) s origin) as [Hc|Hc]; try done;
    unfold run_management, set_owner, set_operating_mode; by rewrite Hc.
Qed.
End ManagementRuns.
