(* ===== verification/MessagesPrimitives.v ===== *)
(** * primitives/messages: the data of message lanes

    The storage types of the two ends of a lane ([InboundLaneData],
    [OutboundLaneData], the unrewarded relayers queue), the results of message
    receival and the reward computation.  [chain lo l hi] says that the entries of
    a relayers queue are non-empty and follow each other from nonce [lo] to nonce
    [hi]; it is the shape that both ends of the lane maintain and check. *)

From S2P Require Import Prelude Substrate RuntimePrimitives.
From stdpp Require Import base numbers list gmap.
Local Open Scope Z_scope.

(** ** Operating mode of the messages pallet *)

Inductive MessagesOperatingMode :=
| Basic (m : BasicOperatingMode)
| RejectingOutboundMessages.

#[export] Instance MessagesOperatingMode_eq_dec : EqDecision MessagesOperatingMode.
Proof. solve_decision. Defined.

#[export] Instance MessagesOperatingMode_mode : OperatingMode MessagesOperatingMode :=
  { mode_is_halted m :=
      match m with
      | Basic operating_mode => mode_is_halted operating_mode
      | _ => false
      end }.

(** ** Lanes, nonces, messages *)

(** Four bytes. *)
Inductive LaneId := LaneId_ (b0 b1 b2 b3 : Z).

#[export] Instance LaneId_eq_dec : EqDecision LaneId.
Proof. solve_decision. Defined.

#[export] Instance LaneId_countable : Countable LaneId.
Proof.
  refine (inj_countable' (fun l => match l with LaneId_ a b c d => (a, b, c, d) end)
    (fun p => match p with (a, b, c, d) => LaneId_ a b c d end) _).
  by intros [].
Defined.

Abbreviation MessageNonce := Z (only parsing).
Abbreviation MessagePayload := (list Z) (only parsing).

Record MessageKey := MessageKey_ { key_lane_id : LaneId; key_nonce : MessageNonce }.

#[export] Instance MessageKey_eq_dec : EqDecision MessageKey.
Proof. solve_decision. Defined.

#[export] Instance MessageKey_countable : Countable MessageKey.
Proof.
  refine (inj_countable' (fun k => (key_lane_id k, key_nonce k))
    (fun p => MessageKey_ p.1 p.2) _).
  by intros [].
Defined.

Record Message := { message_key : MessageKey; message_payload : MessagePayload }.

(** ** Delivered messages and unrewarded relayers *)

(** An inclusive range of nonces. *)
Record DeliveredMessages := Delivered { dm_begin : MessageNonce; dm_end : MessageNonce }.

Definition delivered_new (nonce : MessageNonce) : DeliveredMessages := Delivered nonce nonce.

Definition total_messages (d : DeliveredMessages) : MessageNonce :=
  if dm_begin d <=? dm_end d
  then wrapping_add u64_max (dm_end d - dm_begin d) 1
  else 0.

Definition note_dispatched_message (d : DeliveredMessages) : DeliveredMessages :=
  Delivered (dm_begin d) (wrapping_add u64_max (dm_end d) 1).

Definition contains_message (d : DeliveredMessages) (nonce : MessageNonce) : bool :=
  (dm_begin d <=? nonce) && (nonce <=? dm_end d).

Record UnrewardedRelayer (RelayerId : Type) := Unrewarded {
  relayer : RelayerId;
  messages : DeliveredMessages;
}.
Arguments Unrewarded {RelayerId} _ _.
Arguments relayer {RelayerId} _.
Arguments messages {RelayerId} _.

Abbreviation entry_begin e := (dm_begin (messages e)).
Abbreviation entry_end e := (dm_end (messages e)).

(** ** Lane data *)

Record InboundLaneData (RelayerId : Type) := Inbound {
  relayers : list (UnrewardedRelayer RelayerId);
  last_confirmed_nonce : MessageNonce;
}.
Arguments Inbound {RelayerId} _ _.
Arguments relayers {RelayerId} _.
Arguments last_confirmed_nonce {RelayerId} _.

Definition inbound_default {RelayerId : Type} : InboundLaneData RelayerId := Inbound [] 0.

Definition last_delivered_nonce {RelayerId : Type} (d : InboundLaneData RelayerId) : MessageNonce :=
  match last (relayers d) with
  | Some entry => entry_end entry
  | None => last_confirmed_nonce d
  end.

(** [usize_max], and the maximal encoded lengths of a nonce and of a relayer id,
    are properties of the target and of the codec. *)
Definition encoded_size_hint (usize_max nonce_len relayer_id_len relayers_entries : Z) : option Z :=
  relayers_entry_size ←
    checked_add usize_max relayer_id_len ((2 * nonce_len) mod (usize_max + 1));
  relayers_size ← checked_mul usize_max relayers_entries relayers_entry_size;
  checked_add usize_max relayers_size nonce_len.

Definition encoded_size_hint_u32 (usize_max nonce_len relayer_id_len relayers_entries : Z) : Z :=
  match encoded_size_hint usize_max nonce_len relayer_id_len relayers_entries with
  | Some x => if x <=? u32_max then x else u32_max
  | None => u32_max
  end.

Record OutboundLaneData := Outbound {
  oldest_unpruned_nonce : MessageNonce;
  latest_received_nonce : MessageNonce;
  latest_generated_nonce : MessageNonce;
}.

#[export] Instance OutboundLaneData_eq_dec : EqDecision OutboundLaneData.
Proof. solve_decision. Defined.

Definition outbound_default : OutboundLaneData := Outbound 1 0 0.

Record UnrewardedRelayersState := RelayersState {
  unrewarded_relayer_entries : MessageNonce;
  messages_in_oldest_entry : MessageNonce;
  rs_total_messages : MessageNonce;
  rs_last_delivered_nonce : MessageNonce;
}.

(** ** Receival results *)

(** [bp_runtime::messages::MessageDispatchResult]. *)
Record MessageDispatchResult `{WeightOps} (L : Type) := DispatchResult {
  unspent_weight : Weight;
  dispatch_level_result : L;
}.
Arguments DispatchResult {_ L} _ _.
Arguments unspent_weight {_ L} _.
Arguments dispatch_level_result {_ L} _.

Inductive ReceivalResult `{WeightOps} (L : Type) :=
| Dispatched (r : MessageDispatchResult L)
| InvalidNonce
| TooManyUnrewardedRelayers
| TooManyUnconfirmedMessages.
Arguments Dispatched {_ L} _.
Arguments InvalidNonce {_ L}.
Arguments TooManyUnrewardedRelayers {_ L}.
Arguments TooManyUnconfirmedMessages {_ L}.

Record ReceivedMessages `{WeightOps} (L : Type) := Received {
  rm_lane : LaneId;
  receive_results : list (MessageNonce * ReceivalResult L);
  skipped_for_not_enough_weight : list MessageNonce;
}.
Arguments Received {_ L} _ _ _.
Arguments rm_lane {_ L} _.
Arguments receive_results {_ L} _.
Arguments skipped_for_not_enough_weight {_ L} _.

Definition received_new `{WeightOps} {L : Type} (lane : LaneId)
  (results : list (MessageNonce * ReceivalResult L)) : ReceivedMessages L :=
  Received lane results [].

Definition received_push `{WeightOps} {L : Type} (r : ReceivedMessages L)
  (message : MessageNonce) (result : ReceivalResult L) : ReceivedMessages L :=
  Received (rm_lane r) (receive_results r ++ [(message, result)])
    (skipped_for_not_enough_weight r).

Definition push_skipped_for_not_enough_weight `{WeightOps} {L : Type} (r : ReceivedMessages L)
  (message : MessageNonce) : ReceivedMessages L :=
  Received (rm_lane r) (receive_results r) (skipped_for_not_enough_weight r ++ [message]).

(** ** Counting and rewarding *)

Definition total_unrewarded_messages {RelayerId : Type} (l : list (UnrewardedRelayer RelayerId)) :
  option MessageNonce :=
  match head l, last l with
  | Some front, Some back =>
      match checked_sub (entry_end back) (entry_begin front) with
      | Some difference => checked_add u64_max difference 1
      | None => Some 0
      end
  | _, _ => Some 0
  end.

Section Rewards.
Context {AccountId : Type} `{Countable AccountId}.

Fixpoint calc_relayers_rewards_from (rewards : gmap AccountId MessageNonce)
  (l : list (UnrewardedRelayer AccountId)) (first final : MessageNonce) :
  gmap AccountId MessageNonce :=
  match l with
  | [] => rewards
  | entry :: l' =>
      let nonce_begin := Z.max (entry_begin entry) first in
      let nonce_end := Z.min (entry_end entry) final in
      let rewards' :=
        if nonce_begin <=? nonce_end
        then <[relayer entry :=
                 wrapping_add u64_max (default 0 (rewards !! relayer entry))
                   (wrapping_add u64_max (nonce_end - nonce_begin) 1)]> rewards
        else rewards in
      calc_relayers_rewards_from rewards' l' first final
  end.

Definition calc_relayers_rewards (l : list (UnrewardedRelayer AccountId))
  (first final : MessageNonce) : gmap AccountId MessageNonce :=
  calc_relayers_rewards_from ∅ l first final.
End Rewards.

(** ** Contiguous queues *)

Section Chain.
Context {RelayerId : Type}.
Implicit Types (l : list (UnrewardedRelayer RelayerId)) (e : UnrewardedRelayer RelayerId).

Fixpoint chain (lo : Z) l (hi : Z) : Prop :=
  match l with
  | [] => hi = lo - 1
  | e :: l' => entry_begin e = lo /\ lo <= entry_end e /\ chain (entry_end e + 1) l' hi
  end.

Lemma chain_le (lo hi : Z) l : chain lo l hi -> lo - 1 <= hi.
Proof.
  revert lo. induction l as [|e l IH]; simpl; intros lo; [lia|].
  intros (_ & He & Hc%IH). lia.
Qed.

Lemma chain_app (lo hi : Z) l1 l2 :
  chain lo (l1 ++ l2) hi <-> exists mid, chain lo l1 mid /\ chain (mid + 1) l2 hi.
Proof.
  revert lo. induction l1 as [|e l1 IH]; simpl; intros lo.
  - split; [intros Hc; exists (lo - 1); split; [done|by rewrite Z.sub_add]|].
    intros (mid & -> & Hc). by rewrite Z.sub_add in Hc.
  - rewrite IH. naive_solver.
Qed.

Lemma chain_snoc (lo hi : Z) l e :
  chain lo (l ++ [e]) hi <->
  chain lo l (entry_begin e - 1) /\ entry_begin e <= entry_end e /\ hi = entry_end e.
Proof.
  rewrite chain_app. simpl. split.
  - intros (mid & Hl & Hb & He & Hhi). assert (mid = entry_begin e - 1) as -> by lia.
    split_and!; [done|lia|lia].
  - intros (Hl & He & ->). exists (entry_begin e - 1). split_and!; [done|lia|lia|lia].
Qed.

Lemma chain_elem_of (lo hi : Z) l e :
  chain lo l hi -> e ∈ l -> lo <= entry_begin e /\ entry_begin e <= entry_end e <= hi.
Proof.
  revert lo. induction l as [|e' l IH]; intros lo; [by intros _ ?%elem_of_nil|].
  intros (Hb & He & Hc) [->|Hin]%elem_of_cons.
  - apply chain_le in Hc. lia.
  - destruct (IH _ Hc Hin). lia.
Qed.

(** The entries of a non-empty chain end at the last delivered nonce. *)
Lemma chain_last_delivered (lo confirmed : Z) l hi :
  chain lo l hi -> l <> [] -> last_delivered_nonce (Inbound l confirmed) = hi.
Proof.
  destruct l as [|e l _] using rev_ind; [done|]. intros Hc _.
  unfold last_delivered_nonce; simpl. rewrite last_snoc.
  apply chain_snoc in Hc as (_ & _ & ->). done.
Qed.

Lemma chain_total (lo hi : Z) l :
  chain lo l hi -> hi - lo < u64_max -> total_unrewarded_messages l = Some (hi - lo + 1).
Proof.
  intros Hc Hlt. unfold total_unrewarded_messages.
  destruct l as [|e l]; [simpl in *; f_equal; lia|].
  destruct (last (e :: l)) as [b|] eqn:Hb; [|by apply last_None in Hb].
  pose proof Hb as (l' & El)%last_Some_snoc. simpl.
  pose proof Hc as (Hbegin & _ & _). rewrite El in Hc.
  apply chain_snoc in Hc as (Hc & He & ->). apply chain_le in Hc. rewrite Hbegin.
  unfold checked_sub, checked_add.
  rewrite (proj2 (Z.leb_le _ _)) by lia. rewrite (proj2 (Z.leb_le _ _)) by lia. done.
Qed.
End Chain.

(** ** Rewards: what [calc_relayers_rewards] computes *)

Section RewardFacts.
Context {AccountId : Type} `{Countable AccountId}.
Implicit Types (l : list (UnrewardedRelayer AccountId)) (e : UnrewardedRelayer AccountId).
Implicit Types (m : gmap AccountId Z).

(** The nonces of [first..=final] that [a] has delivered according to [l]. *)
Definition nonces_of (a : AccountId) l (first final : Z) : list Z :=
  filter (fun n => Exists (fun e => relayer e = a /\ contains_message (messages e) n = true) l)
    (seqZ first (final - first + 1)).

(** Size of the intersection of an entry with [first..=final]. *)
Definition overlap (first final : Z) e : Z :=
  Z.max 0 (Z.min (entry_end e) final - Z.max (entry_begin e) first + 1).

Definition overlaps (first final : Z) l : Z := foldr (fun e acc => overlap first final e + acc) 0 l.

Definition overlaps_of (a : AccountId) (first final : Z) l : Z :=
  overlaps first final (filter (fun e => relayer e = a) l).

Definition reward_sum m : Z := map_fold (fun _ v acc => v + acc) 0 m.

Lemma reward_sum_insert m a (v : Z) :
  reward_sum (<[a := v]> m) = reward_sum m - default 0 (m !! a) + v.
Proof.
  unfold reward_sum. destruct (m !! a) as [w|] eqn:E; simpl.
  - rewrite <- (insert_delete_eq m a v), map_fold_insert_L; [|intros; lia|apply lookup_delete_eq].
    rewrite <- (insert_delete_id m a w E) at 2.
    rewrite map_fold_insert_L; [|intros; lia|apply lookup_delete_eq]. lia.
  - rewrite map_fold_insert_L; [lia|intros; lia|done].
Qed.

Lemma overlap_nonneg first final e : 0 <= overlap first final e.
Proof. unfold overlap. lia. Qed.

Lemma overlaps_nonneg first final l : 0 <= overlaps first final l.
Proof.
  unfold overlaps. induction l as [|e l IH]; simpl; [lia|].
  pose proof (overlap_nonneg first final e). lia.
Qed.

Lemma overlaps_of_cons a first final e l :
  overlaps_of a first final (e :: l) =
  (if decide (relayer e = a) then overlap first final e else 0) + overlaps_of a first final l.
Proof. unfold overlaps_of. rewrite filter_cons. case_decide; unfold overlaps; simpl; lia. Qed.

Lemma overlaps_of_le a first final l :
  0 <= overlaps_of a first final l <= overlaps first final l.
Proof.
  induction l as [|e l IH]; [unfold overlaps_of, overlaps; simpl; lia|].
  rewrite overlaps_of_cons. unfold overlaps in *; simpl.
  pose proof (overlap_nonneg first final e). case_decide; lia.
Qed.

(** A contiguous queue covers its interval once. *)
Lemma chain_overlaps lo hi first final l :
  chain lo l hi -> overlaps first final l = Z.max 0 (Z.min hi final - Z.max lo first + 1).
Proof.
  revert lo. induction l as [|e l IH]; intros lo; unfold overlaps in *; simpl; [lia|].
  intros (<- & He & Hc). pose proof (chain_le _ _ _ Hc). rewrite (IH _ Hc).
  unfold overlap. lia.
Qed.

(** The step of the loop, without the wrap-around. *)
Lemma calc_step m first final e l :
  1 <= first -> final <= u64_max -> 0 <= default 0 (m !! relayer e) ->
  default 0 (m !! relayer e) + overlap first final e <= u64_max ->
  calc_relayers_rewards_from m (e :: l) first final =
  calc_relayers_rewards_from
    (if decide (overlap first final e = 0) then m
     else <[relayer e := default 0 (m !! relayer e) + overlap first final e]> m) l first final.
Proof.
  intros Hfirst Hfinal Hm Hle. simpl. f_equal. unfold overlap in *.
  case_match eqn:E; case_decide; try lia; [|done]. f_equal.
  rewrite (wrapping_add_small _ (_ - _) 1), wrapping_add_small; lia.
Qed.

Lemma calc_from_spec first final l m :
  1 <= first -> final <= u64_max ->
  (forall a, 0 <= default 0 (m !! a) /\
     default 0 (m !! a) + overlaps_of a first final l <= u64_max) ->
  let r := calc_relayers_rewards_from m l first final in
  (forall a, default 0 (r !! a) = default 0 (m !! a) + overlaps_of a first final l) /\
  reward_sum r = reward_sum m + overlaps first final l.
Proof.
  intros Hfirst Hfinal. revert m. induction l as [|e l IH]; intros m Hm.
  { unfold overlaps_of, overlaps; simpl. split; intros; lia. }
  assert (forall a, 0 <= default 0 (m !! a) /\ default 0 (m !! a) +
    ((if decide (relayer e = a) then overlap first final e else 0)
     + overlaps_of a first final l) <= u64_max) as Hm'.
  { intros a. rewrite <- overlaps_of_cons. apply Hm. }
  pose proof (overlaps_of_le (relayer e) first final l) as [Hl _].
  pose proof (overlap_nonneg first final e) as He.
  pose proof (Hm' (relayer e)) as [Hme Hle]. rewrite decide_True in Hle by done.
  intros r. unfold r. rewrite calc_step by lia.
  set (m' := if decide (overlap first final e = 0) then m else _).
  assert (forall a, default 0 (m' !! a) =
    default 0 (m !! a) + (if decide (relayer e = a) then overlap first final e else 0)) as Hlook.
  { intros a. unfold m'. do 2 case_decide; subst; try lia.
    - by rewrite lookup_insert_eq.
    - by rewrite lookup_insert_ne, Z.add_0_r. }
  assert (reward_sum m' = reward_sum m + overlap first final e) as Hsum.
  { unfold m'. case_decide; [lia|]. rewrite reward_sum_insert. lia. }
  destruct (IH m') as [IH1 IH2].
  { intros a. rewrite Hlook. specialize (Hm' a). case_decide; lia. }
  split.
  - intros a. rewrite IH1, Hlook, overlaps_of_cons. lia.
  - rewrite IH2, Hsum. unfold overlaps; simpl. lia.
Qed.

Lemma nonces_of_cons a e l lo hi first final :
  chain lo (e :: l) hi -> first <= final + 1 ->
  Z.of_nat (length (nonces_of a (e :: l) first final)) =
  (if decide (relayer e = a) then overlap first final e else 0)
  + Z.of_nat (length (nonces_of a l first final)).
Proof.
  intros (<- & He & Hc) Hle. unfold nonces_of.
  set (ns := seqZ first (final - first + 1)).
  set (P := fun n => relayer e = a /\ entry_begin e <= n <= entry_end e).
  transitivity (Z.of_nat (length (filter P ns)) + Z.of_nat (length (filter (fun n =>
    Exists (fun e => relayer e = a /\ contains_message (messages e) n = true) l) ns))).
  - clearbody ns. induction ns as [|n ns IH]; [done|].
    assert (P n -> ~ Exists (fun e => relayer e = a /\
      contains_message (messages e) n = true) l) as Hdisj.
    { intros [_ Hn] (e' & Hin & _ & Hn')%Exists_exists.
      destruct (chain_elem_of _ _ _ _ Hc Hin). unfold contains_message in Hn'. lia. }
    assert (Exists (fun e => relayer e = a /\ contains_message (messages e) n = true) (e :: l)
      <-> P n \/ Exists (fun e => relayer e = a /\
          contains_message (messages e) n = true) l) as Hcons.
    { rewrite Exists_cons. unfold P, contains_message.
      assert ((entry_begin e <=? n) && (n <=? entry_end e) = true <->
        entry_begin e <= n <= entry_end e) as -> by lia. done. }
    set (Q := fun n => Exists _ l) in *. set (R := fun n => Exists _ (e :: l)) in *.
    change (R n <-> P n \/ Q n) in Hcons. change (P n -> ~ Q n) in Hdisj.
    destruct (decide (P n)); [|destruct (decide (Q n))].
    + rewrite (filter_cons_True R), (filter_cons_True P), (filter_cons_False Q) by tauto.
      cbn [length]. lia.
    + rewrite (filter_cons_True R), (filter_cons_False P), (filter_cons_True Q) by tauto.
      cbn [length]. lia.
    + rewrite (filter_cons_False R), (filter_cons_False P), (filter_cons_False Q) by tauto.
      lia.
  - f_equal. unfold ns. destruct (decide (relayer e = a)) as [Hr|Hr].
    + rewrite (length_filter_seqZ _ (entry_begin e) (entry_end e)).
      * unfold overlap. lia.
      * intros k _. unfold P. naive_solver.
      * lia.
    + rewrite (length_filter_seqZ _ 1 0); [lia|intros k _; unfold P; split; [tauto|lia]|lia].
Qed.

Lemma overlaps_of_nonces a l lo hi first final :
  chain lo l hi -> first <= final + 1 ->
  overlaps_of a first final l = Z.of_nat (length (nonces_of a l first final)).
Proof.
  revert lo. induction l as [|e l IH]; intros lo Hc Hle.
  - unfold overlaps_of, overlaps, nonces_of; simpl.
    rewrite (length_filter_seqZ _ 1 0); [lia|intros k _; rewrite Exists_nil; lia|lia].
  - rewrite overlaps_of_cons, (nonces_of_cons _ _ _ _ _ _ _ Hc Hle).
    destruct Hc as (_ & _ & Hc). by rewrite (IH _ Hc Hle).
Qed.
End RewardFacts.

(** Every confirmed message is rewarded exactly once: for a contiguous relayers queue
    and a confirmed range [first..=final] inside it, each relayer is credited with
    exactly the nonces of the range that it has delivered, and the credits of all
    relayers add up to the size of the range. *)
Theorem calc_relayers_rewards_exact {AccountId : Type} `{Countable AccountId}
  (l : list (UnrewardedRelayer AccountId)) (lo hi first final : Z) :
  chain lo l hi -> lo <= first -> 1 <= first <= final -> final <= hi -> final <= u64_max ->
  let r := calc_relayers_rewards l first final in
  (forall a, default 0 (r !! a) = Z.of_nat (length (nonces_of a l first final))) /\
  reward_sum r = final - first + 1.
Proof.
  intros Hc Hlo Hfirst Hhi Hmax.
  destruct (calc_from_spec first final l ∅) as [Ha Hsum]; [lia|done| |].
  { intros a. rewrite lookup_empty; simpl.
    pose proof (overlaps_of_le a first final l). rewrite (chain_overlaps _ _ _ _ _ Hc) in *. lia. }
  split.
  - intros a. unfold calc_relayers_rewards. rewrite Ha, lookup_empty; simpl.
    apply (overlaps_of_nonces a l lo hi first final Hc). lia.
  - unfold calc_relayers_rewards. rewrite Hsum, (chain_overlaps _ _ _ _ _ Hc).
    unfold reward_sum. rewrite map_fold_empty. lia.
Qed.

Lemma calc_relayers_rewards_exact_witness :
  let l := [Unrewarded 1 (Delivered 3 5); Unrewarded 2 (Delivered 6 6);
            Unrewarded 1 (Delivered 7 9)] in
  let r := calc_relayers_rewards (AccountId := Z) l 4 8 in
  default 0 (r !! 1) = 4 /\ default 0 (r !! 2) = 1 /\ reward_sum r = 5.
Proof.
  intros l r.
  destruct (calc_relayers_rewards_exact (AccountId := Z) l 3 9 4 8) as [Ha Hs];
    [simpl; lia|lia|lia|lia|word|].
  split_and!; [exact (Ha 1)|exact (Ha 2)|exact Hs].
Defined.
