(* ===== verification/OutboundLane.v ===== *)
(** * modules/messages/src/outbound_lane.rs: the sending end of a lane

    The lane is written against the [OutboundLaneStorage] trait, a class here, so
    that its theorems hold for every storage that satisfies the laws; the runtime
    storage of the pallet is an instance in [MessagesPallet].  [None] as the result
    of [save_message] and [send_message] is the [expect] of the runtime storage. *)

From S2P Require Import Prelude Substrate RuntimePrimitives MessagesPrimitives.
From stdpp Require Import base numbers list gmap.
Local Open Scope Z_scope.

Class OutboundLaneStorage (S : Type) := {
  ol_id : S -> LaneId;
  ol_data : S -> OutboundLaneData;
  ol_set_data : OutboundLaneData -> S -> S;
  ol_message : MessageNonce -> S -> option MessagePayload;
  ol_save_message : MessageNonce -> MessagePayload -> S -> option S;
  ol_remove_message : MessageNonce -> S -> S;
}.

(** The lane data and the messages are independent storage items. *)
Class OutboundLaneStorageLaws (S : Type) `{OutboundLaneStorage S} : Prop := {
  ol_data_set d s : ol_data (ol_set_data d s) = d;
  ol_message_set d n s : ol_message n (ol_set_data d s) = ol_message n s;
  ol_data_save n p s s' : ol_save_message n p s = Some s' -> ol_data s' = ol_data s;
  ol_message_save n p s s' m : ol_save_message n p s = Some s' ->
    ol_message m s' = if decide (m = n) then Some p else ol_message m s;
  ol_data_remove n s : ol_data (ol_remove_message n s) = ol_data s;
  ol_message_remove n s m :
    ol_message m (ol_remove_message n s) = if decide (m = n) then None else ol_message m s;
}.

Inductive ReceivalConfirmationResult :=
| ConfirmedMessages (d : DeliveredMessages)
| NoNewConfirmations
| FailedToConfirmFutureMessages
| EmptyUnrewardedRelayerEntry
| NonConsecutiveUnrewardedRelayerEntries
| TryingToConfirmMoreMessagesThanExpected (n : MessageNonce).

(** ** Checking the relayers queue of the bridged chain *)

Fixpoint ensure_relayers_from {RelayerId : Type} (last_entry_end : option MessageNonce)
  (latest_received_nonce : MessageNonce) (l : list (UnrewardedRelayer RelayerId)) :
  outcome ReceivalConfirmationResult unit :=
  match l with
  | [] => Ok tt
  | entry :: l' =>
      if entry_end entry <? entry_begin entry then Err EmptyUnrewardedRelayerEntry
      else
        let expected :=
          match last_entry_end with
          | Some last_entry_end =>
              bool_decide (checked_add u64_max last_entry_end 1 = Some (entry_begin entry))
          | None => true
          end in
        if negb expected then Err NonConsecutiveUnrewardedRelayerEntries
        else if latest_received_nonce <? entry_end entry then Err FailedToConfirmFutureMessages
        else ensure_relayers_from (Some (entry_end entry)) latest_received_nonce l'
  end.

Definition ensure_unrewarded_relayers_are_correct {RelayerId : Type}
  (latest_received_nonce : MessageNonce) (l : list (UnrewardedRelayer RelayerId)) :
  outcome ReceivalConfirmationResult unit :=
  ensure_relayers_from None latest_received_nonce l.

Section OutboundLane.
Context {S : Type} `{OutboundLaneStorage S} `{WeightOps}.

Definition send_message (s : S) (message_payload : MessagePayload) : option (MessageNonce * S) :=
  let data := ol_data s in
  let nonce := wrapping_add u64_max (latest_generated_nonce data) 1 in
  let data := Outbound (oldest_unpruned_nonce data) (latest_received_nonce data) nonce in
  s ← ol_save_message nonce message_payload s;
  Some (nonce, ol_set_data data s).

Definition confirm_delivery {RelayerId : Type} (s : S) (max_allowed_messages : MessageNonce)
  (latest_delivered_nonce : MessageNonce) (l : list (UnrewardedRelayer RelayerId)) :
  ReceivalConfirmationResult * S :=
  let data := ol_data s in
  if latest_delivered_nonce <=? latest_received_nonce data then (NoNewConfirmations, s)
  else if latest_generated_nonce data <? latest_delivered_nonce then
    (FailedToConfirmFutureMessages, s)
  else if max_allowed_messages <? latest_delivered_nonce - latest_received_nonce data then
    (TryingToConfirmMoreMessagesThanExpected
       (latest_delivered_nonce - latest_received_nonce data), s)
  else
    match ensure_unrewarded_relayers_are_correct latest_delivered_nonce l with
    | Err e => (e, s)
    | _ =>
        let prev_latest_received_nonce := latest_received_nonce data in
        let data := Outbound (oldest_unpruned_nonce data) latest_delivered_nonce
                      (latest_generated_nonce data) in
        (ConfirmedMessages
           (Delivered (wrapping_add u64_max prev_latest_received_nonce 1)
              latest_delivered_nonce),
         ol_set_data data s)
    end.

(** The [while] loop of [prune_messages]; [None] is an exhausted [fuel]. *)
Fixpoint prune_loop (fuel : nat) (write_weight two_writes_weight : Weight) (s : S)
  (data : OutboundLaneData) (spent_weight remaining_weight : Weight) :
  option (S * OutboundLaneData * Weight) :=
  match fuel with
  | O => None
  | Datatypes.S fuel =>
      if all_gte remaining_weight two_writes_weight
         && (oldest_unpruned_nonce data <=? latest_received_nonce data)
      then
        prune_loop fuel write_weight two_writes_weight
          (ol_remove_message (oldest_unpruned_nonce data) s)
          (Outbound (wrapping_add u64_max (oldest_unpruned_nonce data) 1)
             (latest_received_nonce data) (latest_generated_nonce data))
          (weight_add spent_weight write_weight) (weight_sub remaining_weight write_weight)
      else Some (s, data, spent_weight)
  end.

(** One iteration per unpruned message, and the final test. *)
Definition prune_fuel (data : OutboundLaneData) : nat :=
  Z.to_nat (latest_received_nonce data - oldest_unpruned_nonce data + 2).

Definition prune_messages (s : S) (db_weight : RuntimeDbWeight) (remaining_weight : Weight) :
  option (Weight * S) :=
  let write_weight := writes db_weight 1 in
  let two_writes_weight := weight_add write_weight write_weight in
  let data := ol_data s in
  match prune_loop (prune_fuel data) write_weight two_writes_weight s data weight_zero
          remaining_weight with
  | Some (s, data, spent_weight) =>
      if negb (weight_is_zero spent_weight)
      then Some (weight_add spent_weight write_weight, ol_set_data data s)
      else Some (spent_weight, s)
  | None => None
  end.

(** ** The lane invariant *)

(** Everything sent and not pruned is stored, and nothing else; pruning stays
    behind confirmation and confirmation behind generation. *)
Record outbound_inv (s : S) : Prop := {
  oi_oldest : 1 <= oldest_unpruned_nonce (ol_data s);
  oi_pruned : oldest_unpruned_nonce (ol_data s) <= latest_received_nonce (ol_data s) + 1;
  oi_received : latest_received_nonce (ol_data s) <= latest_generated_nonce (ol_data s);
  oi_generated : latest_generated_nonce (ol_data s) <= u64_max;
  oi_stored n : is_Some (ol_message n s) <->
    oldest_unpruned_nonce (ol_data s) <= n <= latest_generated_nonce (ol_data s);
}.
End OutboundLane.

(** ** The relayers check *)

Section RelayersCheck.
Context {RelayerId : Type}.
Implicit Types (l : list (UnrewardedRelayer RelayerId)).

Lemma ensure_relayers_from_Some l (prev latest : Z) :
  0 <= prev <= latest -> latest <= u64_max ->
  ensure_relayers_from (Some prev) latest l = Ok tt <->
  exists hi, chain (prev + 1) l hi /\ hi <= latest.
Proof.
  revert prev. induction l as [|e l IH]; intros prev Hprev Hmax; simpl.
  { split; [|done]. intros _. exists prev. lia. }
  case_match eqn:E1; [split; [done|]; intros (hi & (Hb & He & _) & _); lia|].
  case_bool_decide as E2; simpl.
  - apply checked_add_Some in E2 as [Hb _]. case_match eqn:E3.
    + split; [done|]. intros (hi & (_ & _ & Hc%chain_le) & Hhi). lia.
    + rewrite IH by lia. split; intros (hi & Hc); exists hi; naive_solver lia.
  - split; [done|]. intros (hi & (Hb & He & Hc%chain_le) & Hhi). destruct E2.
    apply checked_add_Some. lia.
Qed.

(** The check accepts exactly the contiguous queues that end at or below the
    declared nonce. *)
Lemma ensure_relayers_iff l (latest : Z) :
  Forall (fun e => is_u64 (entry_begin e) /\ is_u64 (entry_end e)) l -> is_u64 latest ->
  ensure_unrewarded_relayers_are_correct latest l = Ok tt <->
  l = [] \/ exists lo hi, chain lo l hi /\ hi <= latest.
Proof.
  intros Hl Hlatest. unfold ensure_unrewarded_relayers_are_correct.
  destruct l as [|e l]; simpl; [naive_solver|].
  apply Forall_cons in Hl as [[Hb He] _]. unfold is_u64 in *.
  case_match eqn:E1; [split; [done|]; intros [|(lo & hi & (? & ? & _) & _)]; [done|lia]|].
  case_match eqn:E2.
  - split; [done|]. intros [|(lo & hi & (_ & _ & Hc%chain_le) & Hhi)]; [done|lia].
  - rewrite ensure_relayers_from_Some by lia. split.
    + intros (hi & Hc & Hhi). right. exists (entry_begin e), hi. split_and!; [done|lia|done|done].
    + intros [|(lo & hi & (_ & _ & Hc) & Hhi)]; [done|]. exists hi. done.
Qed.

Lemma ensure_relayers_from_no_panic l (prev : option Z) (latest : Z) :
  ensure_relayers_from prev latest l <> Panic.
Proof.
  revert prev. induction l as [|e l IH]; intros prev; simpl; [done|].
  repeat case_match; done.
Qed.

Lemma ensure_relayers_not_stale l (latest : Z) (e : ReceivalConfirmationResult) :
  ensure_unrewarded_relayers_are_correct latest l = Err e -> e <> NoNewConfirmations.
Proof.
  unfold ensure_unrewarded_relayers_are_correct. generalize (None : option Z).
  induction l as [|x l IH]; intros prev; simpl; [done|].
  repeat case_match; first [by intros [= <-]|by apply IH].
Qed.
End RelayersCheck.

(** ** Sending and confirming *)

Section OutboundFacts.
Context {S : Type} `{OutboundLaneStorageLaws S}.

Lemma send_message_spec (s s' : S) (p : MessagePayload) (nonce : Z) :
  outbound_inv s -> latest_generated_nonce (ol_data s) < u64_max ->
  send_message s p = Some (nonce, s') ->
  nonce = latest_generated_nonce (ol_data s) + 1 /\
  ol_data s' = Outbound (oldest_unpruned_nonce (ol_data s))
                 (latest_received_nonce (ol_data s)) nonce /\
  (forall m, ol_message m s' = if decide (m = nonce) then Some p else ol_message m s).
Proof.
  intros Hinv Hmax. destruct Hinv as [? ? ? ? _]. unfold send_message.
  rewrite wrapping_add_small by lia.
  destruct (ol_save_message _ p s) as [s1|] eqn:Hsave; [|done]. intros [= <- <-].
  split_and!; [done|by rewrite ol_data_set|].
  intros m. rewrite ol_message_set. by apply (ol_message_save _ _ _ _ m) in Hsave.
Qed.

Lemma send_message_inv (s s' : S) (p : MessagePayload) (nonce : Z) :
  outbound_inv s -> latest_generated_nonce (ol_data s) < u64_max ->
  send_message s p = Some (nonce, s') -> outbound_inv s'.
Proof.
  intros Hinv Hmax Hsend.
  destruct (send_message_spec s s' p nonce Hinv Hmax Hsend) as (-> & Hd & Hm).
  destruct Hinv as [? ? ? ? Hst]. split; rewrite ?Hd; simpl; try lia.
  intros n. rewrite Hm. case_decide; [split; [lia|by eauto]|]. rewrite Hst. lia.
Qed.

(** The only way to change the lane, and what it changes. *)
Lemma confirm_delivery_cases {RelayerId : Type} (s s' : S) (max latest : Z)
  (l : list (UnrewardedRelayer RelayerId)) (r : ReceivalConfirmationResult) :
  confirm_delivery s max latest l = (r, s') ->
  let d := ol_data s in
  (exists b, r = ConfirmedMessages (Delivered b latest) /\
     b = wrapping_add u64_max (latest_received_nonce d) 1 /\
     latest_received_nonce d < latest <= latest_generated_nonce d /\
     latest - latest_received_nonce d <= max /\
     ensure_unrewarded_relayers_are_correct latest l = Ok tt /\
     s' = ol_set_data (Outbound (oldest_unpruned_nonce d) latest (latest_generated_nonce d)) s)
  \/ (s' = s /\ forall d', r <> ConfirmedMessages d').
Proof.
  unfold confirm_delivery. cbv zeta.
  case_match eqn:E1; [intros [= <- <-]; by right|].
  case_match eqn:E2; [intros [= <- <-]; by right|].
  case_match eqn:E3; [intros [= <- <-]; by right|].
  destruct (ensure_unrewarded_relayers_are_correct latest l) as [[]|e|] eqn:E4.
  - intros [= <- <-]. left. eexists. split_and!; try done; lia.
  - intros [= <- <-]. right. split; [done|]. intros d' ->. revert E4.
    unfold ensure_unrewarded_relayers_are_correct. generalize (None : option Z).
    induction l as [|x l IH]; intros prev; simpl; [done|]. repeat case_match; naive_solver.
  - by apply ensure_relayers_from_no_panic in E4.
Qed.

Lemma confirm_delivery_inv {RelayerId : Type} (s s' : S) (max latest : Z)
  (l : list (UnrewardedRelayer RelayerId)) (r : ReceivalConfirmationResult) :
  outbound_inv s -> confirm_delivery s max latest l = (r, s') -> outbound_inv s'.
Proof.
  intros Hinv [(b & _ & _ & Hl & _ & _ & ->)|[-> _]]%confirm_delivery_cases; [|done].
  destruct Hinv as [? ? ? ? Hst].
  split; rewrite ?ol_data_set; simpl; try lia. intros n. by rewrite ol_message_set, Hst.
Qed.

(** When the declared numbers and the queue are consistent with the lane, the
    confirmation goes through. *)
Lemma confirm_delivery_accepts {RelayerId : Type} (s : S) (max latest : Z)
  (l : list (UnrewardedRelayer RelayerId)) :
  latest_received_nonce (ol_data s) < latest <= latest_generated_nonce (ol_data s) ->
  latest - latest_received_nonce (ol_data s) <= max ->
  ensure_unrewarded_relayers_are_correct latest l = Ok tt ->
  confirm_delivery s max latest l =
  (ConfirmedMessages
     (Delivered (wrapping_add u64_max (latest_received_nonce (ol_data s)) 1) latest),
   ol_set_data (Outbound (oldest_unpruned_nonce (ol_data s)) latest
     (latest_generated_nonce (ol_data s))) s).
Proof.
  intros Hl Hmax He. unfold confirm_delivery. rewrite He.
  rewrite (proj2 (Z.leb_gt _ _)), (proj2 (Z.ltb_ge _ _)), (proj2 (Z.ltb_ge _ _)) by lia.
  done.
Qed.
End OutboundFacts.

(** ** Pruning *)

Section Pruning.
Context {S : Type} `{OutboundLaneStorageLaws S} `{WeightLaws}.

(** How many messages a budget of [budget] reference-time units pays for, when a
    write costs [w]: one write per message and one for the lane data. *)
Definition prunable (w budget : Z) (d : OutboundLaneData) : Z :=
  Z.max 0 (Z.min (latest_received_nonce d - oldest_unpruned_nonce d + 1) (budget / w - 1)).

Lemma prunable_step (w budget o r g : Z) :
  0 < w -> 2 * w <= budget -> o <= r ->
  prunable w budget (Outbound o r g) = prunable w (budget - w) (Outbound (o + 1) r g) + 1.
Proof.
  intros Hw Hb Ho. unfold prunable; simpl.
  replace (budget - w) with (budget + (-1) * w) by lia. rewrite Z_div_plus_full by lia.
  assert (2 <= budget / w) by (apply Z.div_le_lower_bound; lia). lia.
Qed.

Lemma prunable_stop (w budget : Z) (d : OutboundLaneData) :
  0 < w -> budget < 2 * w \/ latest_received_nonce d < oldest_unpruned_nonce d ->
  prunable w budget d = 0.
Proof.
  intros Hw [Hb|Ho]; unfold prunable; [|lia].
  assert (budget / w < 2) by (apply Z.div_lt_upper_bound; lia). lia.
Qed.

Lemma prune_loop_spec (fuel : nat) (ww two : Weight) (s : S) (d : OutboundLaneData)
  (spent remaining : Weight) :
  let w := ref_time ww in
  0 < w -> proof_size ww = 0 -> ref_time two = 2 * w -> proof_size two = 0 ->
  0 <= oldest_unpruned_nonce d -> latest_received_nonce d < u64_max ->
  Z.max 0 (latest_received_nonce d - oldest_unpruned_nonce d + 1) < Z.of_nat fuel ->
  ref_time spent + ref_time remaining <= u64_max ->
  let k := prunable w (ref_time remaining) d in
  exists s' spent',
    prune_loop fuel ww two s d spent remaining =
      Some (s', Outbound (oldest_unpruned_nonce d + k) (latest_received_nonce d)
                  (latest_generated_nonce d), spent') /\
    ref_time spent' = ref_time spent + k * w /\ proof_size spent' = proof_size spent /\
    ol_data s' = ol_data s /\
    (forall n, ol_message n s' =
      if decide (oldest_unpruned_nonce d <= n < oldest_unpruned_nonce d + k) then None
      else ol_message n s).
Proof.
  intros w Hw Hp Htwo Htwop. revert s d spent remaining.
  induction fuel as [|fuel IH]; intros s d spent remaining Ho Hr Hf Hsum k.
  { lia. }
  simpl. pose proof (proof_size_u64 remaining). pose proof (proof_size_u64 spent).
  rewrite all_gte_spec, Htwo, Htwop. destruct d as [o r g]; simpl in *.
  destruct (_ && _) eqn:E.
  - apply andb_prop in E as [E1 E2].
    assert (2 * w <= ref_time remaining /\ o <= r) as [Hb Hor] by (unfold is_u64 in *; lia).
    rewrite wrapping_add_small by lia.
    assert (ref_time (weight_sub remaining ww) = ref_time remaining - w) as Hrem
      by (apply ref_time_sub; lia).
    assert (ref_time (weight_add spent ww) = ref_time spent + w) as Hsp
      by (apply ref_time_add; lia).
    destruct (IH (ol_remove_message o s) (Outbound (o + 1) r g) (weight_add spent ww)
      (weight_sub remaining ww)) as (s' & spent' & Heq & Href & Hproof & Hdata & Hmsg);
      simpl in *; try lia.
    unfold k. rewrite (prunable_step w _ o r g) by lia. rewrite Hrem in *.
    set (k' := prunable w (ref_time remaining - w) (Outbound (o + 1) r g)) in *.
    assert (0 <= k') by (unfold k', prunable; lia).
    exists s', spent'. split_and!.
    + rewrite Heq. by replace (o + (k' + 1)) with (o + 1 + k') by lia.
    + lia.
    + rewrite Hproof, proof_size_add by (unfold is_u64 in *; lia). lia.
    + by rewrite Hdata, ol_data_remove.
    + intros n. rewrite Hmsg, ol_message_remove. repeat case_decide; try lia; done.
  - unfold k. rewrite prunable_stop; [|lia|simpl; unfold is_u64 in *; lia].
    exists s, spent. split_and!; try lia; try done.
    + by rewrite Z.add_0_r.
    + intros n. case_decide; [lia|done].
Qed.

(** The configurations for which pruning is specified: writes are not free, and
    two of them fit into 64 bits. *)
Definition db_weight_ok (db : RuntimeDbWeight) : Prop := 0 < db_write db /\ 2 * db_write db <= u64_max.

Lemma writes_one (db : RuntimeDbWeight) :
  db_weight_ok db -> ref_time (writes db 1) = db_write db.
Proof. intros []. rewrite ref_time_writes by word. word. Qed.

Lemma prune_messages_spec (s : S) (db : RuntimeDbWeight) (remaining : Weight) :
  outbound_inv s -> db_weight_ok db -> latest_received_nonce (ol_data s) < u64_max ->
  let d := ol_data s in
  let k := prunable (db_write db) (ref_time remaining) d in
  exists spent s',
    prune_messages s db remaining = Some (spent, s') /\
    ol_data s' = Outbound (oldest_unpruned_nonce d + k) (latest_received_nonce d)
                   (latest_generated_nonce d) /\
    (forall n, ol_message n s' =
      if decide (oldest_unpruned_nonce d <= n < oldest_unpruned_nonce d + k) then None
      else ol_message n s) /\
    ref_time spent = (if decide (k = 0) then 0 else (k + 1) * db_write db) /\
    proof_size spent = 0.
Proof.
  intros Hinv Hdb Hr d k. pose proof (writes_one db Hdb) as Hw. destruct Hdb as [Hw0 Hw2].
  assert (ref_time (weight_add (writes db 1) (writes db 1)) = 2 * db_write db) as Htwo
    by (rewrite ref_time_add; lia).
  assert (proof_size (weight_add (writes db 1) (writes db 1)) = 0) as Htwop
    by (rewrite proof_size_add, !proof_size_writes; [lia|rewrite !proof_size_writes; word]).
  pose proof (ref_time_u64 remaining) as Hrem.
  destruct Hinv as [? ? ? ? _].
  destruct (prune_loop_spec (prune_fuel d) (writes db 1)
    (weight_add (writes db 1) (writes db 1)) s d weight_zero remaining)
    as (s' & spent & Heq & Href & Hproof & Hdata & Hmsg);
    try (unfold d; lia); try (apply proof_size_writes).
  { unfold prune_fuel, d. lia. }
  { rewrite weight_zero_ref_time. word. }
  rewrite Hw in *. rewrite weight_zero_ref_time in Href.
  rewrite weight_zero_proof_size in Hproof. fold k in Heq, Href, Hmsg.
  assert (0 <= k /\ (0 < k -> (k + 1) * db_write db <= ref_time remaining)) as [Hk Hbound].
  { unfold k, prunable. pose proof (Z.mul_div_le (ref_time remaining) (db_write db) Hw0).
    split; [lia|]. intros. nia. }
  unfold prune_messages. fold d. rewrite Heq, weight_is_zero_spec, Href, Hproof.
  destruct (decide (k = 0)) as [Hk0|Hk0].
  - rewrite Hk0 in *. exists spent, s'. simpl. split_and!; try done.
    rewrite Hdata, Z.add_0_r. unfold d. by destruct (ol_data s).
  - rewrite (proj2 (Z.eqb_neq _ _)) by nia. simpl.
    eexists _, _. split_and!; [done|by rewrite ol_data_set|..].
    + intros n. by rewrite ol_message_set, Hmsg.
    + assert (ref_time (writes db 1) = db_write db) as Hw' by (apply writes_one; done).
      rewrite ref_time_add, Href, Hw'; [lia|]. rewrite Href, Hw'. unfold is_u64 in *. lia.
    + rewrite proof_size_add, Hproof, proof_size_writes; [done|].
      rewrite Hproof, proof_size_writes. word.
Qed.
Lemma prune_messages_le (s : S) (db : RuntimeDbWeight) (remaining : Weight) :
  outbound_inv s -> db_weight_ok db -> latest_received_nonce (ol_data s) < u64_max ->
  exists spent s', prune_messages s db remaining = Some (spent, s') /\
    weight_le spent remaining /\
    (forall n, latest_received_nonce (ol_data s) < n -> ol_message n s' = ol_message n s).
Proof.
  intros Hinv Hdb Hr.
  destruct (prune_messages_spec s db remaining Hinv Hdb Hr)
    as (spent & s' & Heq & Hd & Hm & Href & Hproof).
  set (d := ol_data s) in *. set (k := prunable _ _ d) in *.
  assert (0 <= k <= Z.max 0 (latest_received_nonce d - oldest_unpruned_nonce d + 1)) as Hk
    by (unfold k, prunable; lia).
  exists spent, s'. split_and!; [done| |].
  - pose proof (ref_time_u64 remaining). pose proof (proof_size_u64 remaining).
    split; [|rewrite Hproof; word]. rewrite Href. destruct (decide (k = 0)); [word|].
    destruct Hdb as [Hw _].
    pose proof (Z.mul_div_le (ref_time remaining) (db_write db) Hw). unfold k, prunable in *. nia.
  - intros n Hn. rewrite Hm. rewrite decide_False by lia. done.
Qed.

Lemma prune_messages_inv (s s' : S) (db : RuntimeDbWeight) (remaining spent : Weight) :
  outbound_inv s -> db_weight_ok db -> latest_received_nonce (ol_data s) < u64_max ->
  prune_messages s db remaining = Some (spent, s') ->
  outbound_inv s' /\
  latest_received_nonce (ol_data s') = latest_received_nonce (ol_data s) /\
  latest_generated_nonce (ol_data s') = latest_generated_nonce (ol_data s) /\
  (forall n p, ol_message n s' = Some p -> ol_message n s = Some p).
Proof.
  intros Hinv Hdb Hr Hprune.
  destruct (prune_messages_spec s db remaining Hinv Hdb Hr) as (spent' & s'' & Heq & Hd & Hm & _).
  rewrite Heq in Hprune. simplify_eq. destruct Hinv as [? ? ? ? Hst].
  split_and!; [|by rewrite Hd..|].
  - split; rewrite ?Hd; simpl; try (unfold prunable; lia).
    intros n. rewrite Hm. case_decide; [split; [by intros []|lia]|]. rewrite Hst.
    unfold prunable in *. lia.
  - intros n p. rewrite Hm. by case_decide.
Qed.
End Pruning.

(** ** A storage kept in memory *)
Module MemoryLane.

Record lane := Lane { data : OutboundLaneData; stored : gmap Z (list Z) }.

#[global] Instance storage : OutboundLaneStorage lane := {|
  ol_id _ := LaneId_ 0 0 0 0;
  ol_data := data;
  ol_set_data d s := Lane d (stored s);
  ol_message n s := stored s !! n;
  ol_save_message n p s := Some (Lane (data s) (<[n := p]> (stored s)));
  ol_remove_message n s := Lane (data s) (delete n (stored s));
|}.

#[global] Instance storage_laws : OutboundLaneStorageLaws lane.
Proof.
  split; simpl; intros; simplify_eq/=; try done.
  - rewrite lookup_insert. repeat case_decide; congruence.
  - rewrite lookup_delete. repeat case_decide; congruence.
Qed.

Definition fresh : lane := Lane outbound_default ∅.

Lemma fresh_inv : outbound_inv fresh.
Proof.
  split; simpl; try lia; [word|]. intros n. rewrite lookup_empty. split; [by intros []|lia].
Qed.

(** Three messages sent, two of them confirmed. *)
Definition busy : lane :=
  Lane (Outbound 1 2 3) {[1 := [10]; 2 := [20]; 3 := [30]]}.

Lemma busy_outbound_inv : outbound_inv busy.
Proof.
  split; simpl; try lia; [word|]. intros n.
  rewrite !lookup_insert_is_Some', lookup_singleton_is_Some. lia.
Qed.
End MemoryLane.

(** ** Properties *)

(** Sending, confirming and pruning preserve the lane invariant: the stored messages are
    exactly those from the oldest unpruned to the latest generated nonce, and
    pruning stays behind confirmation, confirmation behind generation.  Sending
    gives the next nonce and stores the payload under it. *)
Theorem outbound_lane_invariant {S RelayerId : Type} `{OutboundLaneStorageLaws S} `{WeightLaws}
  (s : S) :
  outbound_inv s -> latest_generated_nonce (ol_data s) < u64_max ->
  (forall p nonce s', send_message s p = Some (nonce, s') ->
     outbound_inv s' /\ nonce = latest_generated_nonce (ol_data s) + 1 /\
     ol_message nonce s' = Some p) /\
  (forall max latest (l : list (UnrewardedRelayer RelayerId)) r s',
     confirm_delivery s max latest l = (r, s') -> outbound_inv s') /\
  (forall db remaining spent s', db_weight_ok db ->
     prune_messages s db remaining = Some (spent, s') -> outbound_inv s').
Proof.
  intros Hinv Hmax. split_and!.
  - intros p nonce s' Hsend. split; [by eapply send_message_inv|].
    apply send_message_spec in Hsend as (-> & _ & Hm); [|done|done].
    split; [done|]. rewrite Hm. by rewrite decide_True.
  - intros max latest l r s'. by apply confirm_delivery_inv.
  - intros db remaining spent s' Hdb Hprune. apply prune_messages_inv in Hprune; [tauto|done|done|].
    destruct Hinv. lia.
Qed.

Lemma outbound_lane_invariant_witness :
  exists s', send_message MemoryLane.busy [40] = Some (4, s') /\ outbound_inv s' /\
    ol_message 4 s' = Some [40].
Proof.
  destruct (outbound_lane_invariant (RelayerId := Z)
    MemoryLane.busy MemoryLane.busy_outbound_inv ltac:(simpl; word)) as [Hsend _].
  eexists. split; [reflexivity|].
  destruct (Hsend [40] 4 _ eq_refl) as (Hi & _ & Hm). split; [exact Hi|exact Hm].
Defined.

(** Pruning returns, for any budget; it never spends more than the budget, never touches a
    message that is not confirmed, and it removes as many confirmed messages as
    the budget pays for. *)
Theorem prune_messages_bounded {S : Type} `{OutboundLaneStorageLaws S} `{WeightLaws}
  (s : S) (db : RuntimeDbWeight) (remaining : Weight) :
  outbound_inv s -> db_weight_ok db -> latest_received_nonce (ol_data s) < u64_max ->
  let d := ol_data s in
  exists spent s',
    prune_messages s db remaining = Some (spent, s') /\
    weight_le spent remaining /\
    (forall n, latest_received_nonce d < n -> ol_message n s' = ol_message n s) /\
    oldest_unpruned_nonce (ol_data s') =
      oldest_unpruned_nonce d + prunable (db_write db) (ref_time remaining) d /\
    (forall n, n < oldest_unpruned_nonce (ol_data s') -> ol_message n s' = None).
Proof.
  intros Hinv Hdb Hr d.
  destruct (prune_messages_le s db remaining Hinv Hdb Hr) as (spent & s' & Heq & Hle & Hkept).
  destruct (prune_messages_spec s db remaining Hinv Hdb Hr)
    as (spent' & s'' & Heq' & Hd & Hm & _ & _). rewrite Heq in Heq'. injection Heq' as <- <-.
  fold d in Hd, Hm. exists spent, s'. rewrite Hd. simpl. split_and!; try done.
  intros n Hn. rewrite Hm. destruct (decide _) as [|Hnot]; [done|].
  destruct Hinv as [_ _ _ _ Hst]. apply eq_None_not_Some. rewrite Hst. fold d. lia.
Qed.

Lemma prune_messages_bounded_witness :
  exists spent s',
    prune_messages MemoryLane.busy {| db_read := 1; db_write := 5 |} (from_parts 17 0)
      = Some (spent, s') /\
    weight_le spent (from_parts 17 0) /\ oldest_unpruned_nonce (ol_data s') = 3.
Proof.
  destruct (prune_messages_bounded MemoryLane.busy {| db_read := 1; db_write := 5 |}
    (from_parts 17 0) MemoryLane.busy_outbound_inv) as (spent & s' & Heq & Hle & _ & Hold & _).
  - split; simpl; word.
  - simpl. word.
  - exists spent, s'. split; [exact Heq|]. split; [exact Hle|]. exact Hold.
Defined.

(** A delivery proof is accepted exactly when it confirms something new, confirms nothing
    that was not sent, confirms no more than declared, and carries a contiguous
    queue of relayers; every other proof leaves the lane as it was. *)
Theorem confirm_delivery_correct {S RelayerId : Type} `{OutboundLaneStorageLaws S}
  (s : S) (max latest : Z) (l : list (UnrewardedRelayer RelayerId)) :
  outbound_inv s -> is_u64 latest ->
  Forall (fun e => is_u64 (entry_begin e) /\ is_u64 (entry_end e)) l ->
  let d := ol_data s in
  let acceptable :=
    latest_received_nonce d < latest <= latest_generated_nonce d /\
    latest - latest_received_nonce d <= max /\
    (l = [] \/ exists lo hi, chain lo l hi /\ hi <= latest) in
  (acceptable ->
     confirm_delivery s max latest l =
       (ConfirmedMessages (Delivered (latest_received_nonce d + 1) latest),
        ol_set_data (Outbound (oldest_unpruned_nonce d) latest (latest_generated_nonce d)) s)) /\
  (~ acceptable ->
     exists r, confirm_delivery s max latest l = (r, s) /\ forall d', r <> ConfirmedMessages d').
Proof.
  intros Hinv Hlatest Hl d acceptable. unfold acceptable.
  rewrite <- (ensure_relayers_iff l latest Hl Hlatest). split.
  - intros (Hr & Hm & He). rewrite confirm_delivery_accepts by done. fold d.
    destruct Hinv. rewrite wrapping_add_small; [done| | |]; unfold d in *; lia.
  - intros Hno. destruct (confirm_delivery s max latest l) as [r s'] eqn:E.
    apply confirm_delivery_cases in E as [(b & Hr & _ & H1 & H2 & H3 & _)|[-> Hr]].
    + destruct Hno. split_and!; try done; unfold d; lia.
    + by exists r.
Qed.

Lemma confirm_delivery_correct_witness :
  confirm_delivery MemoryLane.busy 1 3 [Unrewarded 7 (Delivered 3 3)] =
  (ConfirmedMessages (Delivered 3 3), MemoryLane.Lane (Outbound 1 3 3) (MemoryLane.stored MemoryLane.busy)).
Proof.
  refine (proj1 (confirm_delivery_correct (RelayerId := Z) MemoryLane.busy 1 3
    [Unrewarded 7 (Delivered 3 3)] MemoryLane.busy_outbound_inv _ _) _).
  - word.
  - repeat constructor; simpl; word.
  - simpl. split_and!; [lia|lia|lia|]. right. exists 3, 3. simpl. lia.
Defined.
