(* ===== verification/InboundLane.v ===== *)
(** * modules/messages/src/inbound_lane.rs: the receiving end of a lane

    The lane is written against the [InboundLaneStorage] trait.  Reading the data
    may fill a cache, so [il_data] also returns the storage.  The message dispatch
    is the trait [MessageDispatch]: it runs on a world [W] of its own, the rest of
    the runtime, which the lane threads through. *)

From S2P Require Import Prelude Substrate RuntimePrimitives MessagesPrimitives.
From stdpp Require Import base numbers list gmap.
Local Open Scope Z_scope.

Class InboundLaneStorage (S Relayer : Type) := {
  il_id : S -> LaneId;
  il_max_unrewarded_relayer_entries : S -> MessageNonce;
  il_max_unconfirmed_messages : S -> MessageNonce;
  il_data : S -> InboundLaneData Relayer * S;
  il_set_data : InboundLaneData Relayer -> S -> S;
}.

(** What the lane relies on: data that was set is read back, reading changes
    nothing that can be observed, and the limits are constants. *)
Class InboundLaneStorageLaws (S Relayer : Type) `{InboundLaneStorage S Relayer} : Prop := {
  il_data_set d s : (il_data (il_set_data d s)).1 = d;
  il_data_read s : (il_data (il_data s).2).1 = (il_data s).1;
  il_id_read s : il_id (il_data s).2 = il_id s;
  il_id_set d s : il_id (il_set_data d s) = il_id s;
  il_entries_read s :
    il_max_unrewarded_relayer_entries (il_data s).2 = il_max_unrewarded_relayer_entries s;
  il_entries_set d s :
    il_max_unrewarded_relayer_entries (il_set_data d s) = il_max_unrewarded_relayer_entries s;
  il_unconfirmed_read s : il_max_unconfirmed_messages (il_data s).2 = il_max_unconfirmed_messages s;
  il_unconfirmed_set d s :
    il_max_unconfirmed_messages (il_set_data d s) = il_max_unconfirmed_messages s;
}.

(** [DispatchMessage]: [None] is a payload that does not decode. *)
Record DispatchMessage (P : Type) := DispatchMessage_ {
  dispatch_key : MessageKey;
  dispatch_data : option P;
}.
Arguments DispatchMessage_ {P} _ _.
Arguments dispatch_key {P} _.
Arguments dispatch_data {P} _.

(** [bp_messages::target_chain::MessageDispatch]; the weight estimation takes the
    message by mutable reference. *)
Class MessageDispatch `{WeightOps} (AccountId P L W : Type) := {
  dispatch_weight : DispatchMessage P -> Weight * DispatchMessage P;
  dispatch : AccountId -> DispatchMessage P -> W -> MessageDispatchResult L * W;
}.

Section InboundLane.
Context {S Relayer : Type} `{EqDecision Relayer} `{InboundLaneStorage S Relayer}.

(** The queue after messages up to [new_confirmed_nonce] are confirmed: whole
    entries are popped, the next one is shortened. *)
Definition confirm_relayers (new_confirmed_nonce : MessageNonce)
  (l : list (UnrewardedRelayer Relayer)) : list (UnrewardedRelayer Relayer) :=
  match drop_while (fun entry => entry_end entry <=? new_confirmed_nonce) l with
  | entry :: l' =>
      if entry_begin entry <? new_confirmed_nonce
      then Unrewarded (relayer entry)
             (Delivered (wrapping_add u64_max new_confirmed_nonce 1) (entry_end entry)) :: l'
      else entry :: l'
  | [] => []
  end.

Definition receive_state_update (s : S) (outbound_lane_data : OutboundLaneData) :
  option MessageNonce * S :=
  let '(data, s) := il_data s in
  let last_delivered := last_delivered_nonce data in
  if last_delivered <? latest_received_nonce outbound_lane_data then (None, s)
  else if latest_received_nonce outbound_lane_data <=? last_confirmed_nonce data then (None, s)
  else
    let new_confirmed_nonce := latest_received_nonce outbound_lane_data in
    let data := Inbound (confirm_relayers new_confirmed_nonce (relayers data))
                  new_confirmed_nonce in
    (Some (latest_received_nonce outbound_lane_data), il_set_data data s).

(** The queue after [relayer_at_bridged_chain] delivered [nonce]. *)
Definition note_delivered (relayer_at_bridged_chain : Relayer) (nonce : MessageNonce)
  (l : list (UnrewardedRelayer Relayer)) : list (UnrewardedRelayer Relayer) :=
  let push_new :=
    match last l with
    | Some entry => negb (bool_decide (relayer entry = relayer_at_bridged_chain))
    | None => true
    end in
  if push_new
  then l ++ [Unrewarded relayer_at_bridged_chain (delivered_new nonce)]
  else update_last (fun entry =>
         Unrewarded (relayer entry) (note_dispatched_message (messages entry))) l.

Section Receive.
Context `{WeightOps} {AccountId P L W : Type} `{!MessageDispatch AccountId P L W}.

Definition receive_message (s : S) (w : W) (relayer_at_bridged_chain : Relayer)
  (relayer_at_this_chain : AccountId) (nonce : MessageNonce) (message_data : option P) :
  ReceivalResult L * S * W :=
  let '(data, s) := il_data s in
  let is_correct_message :=
    nonce =? wrapping_add u64_max (last_delivered_nonce data) 1 in
  if negb is_correct_message then (InvalidNonce, s, w)
  else if il_max_unrewarded_relayer_entries s <=? Z.of_nat (length (relayers data)) then
    (TooManyUnrewardedRelayers, s, w)
  else
    let unconfirmed_messages_count := saturating_sub nonce (last_confirmed_nonce data) in
    if il_max_unconfirmed_messages s <? unconfirmed_messages_count then
      (TooManyUnconfirmedMessages, s, w)
    else
      let '(dispatch_result, w) :=
        dispatch relayer_at_this_chain
          (DispatchMessage_ (MessageKey_ (il_id s) nonce) message_data) w in
      let data := Inbound (note_delivered relayer_at_bridged_chain nonce (relayers data))
                    (last_confirmed_nonce data) in
      (Dispatched dispatch_result, il_set_data data s, w).
End Receive.

(** ** The lane invariant *)

(** The queue is contiguous up to the last delivered nonce and starts right after
    the last confirmed one, or at it (see [confirmed_nonce_kept]); no entry is
    confirmed as a whole; both bounds of the configuration hold. *)
Record inbound_data_inv (max_entries max_unconfirmed : Z) (d : InboundLaneData Relayer) : Prop := {
  ii_confirmed : 0 <= last_confirmed_nonce d;
  ii_delivered : last_delivered_nonce d <= u64_max;
  ii_chain : exists lo, chain lo (relayers d) (last_delivered_nonce d) /\
    last_confirmed_nonce d <= lo <= last_confirmed_nonce d + 1;
  ii_front e : head (relayers d) = Some e -> last_confirmed_nonce d < entry_end e;
  ii_entries : Z.of_nat (length (relayers d)) <= max_entries;
  ii_unconfirmed : last_delivered_nonce d - last_confirmed_nonce d <= max_unconfirmed;
}.

Definition inbound_inv (s : S) : Prop :=
  inbound_data_inv (il_max_unrewarded_relayer_entries s) (il_max_unconfirmed_messages s)
    (il_data s).1.
End InboundLane.

(** ** Lemmas on the queue *)

Section QueueFacts.
Context {Relayer : Type} `{EqDecision Relayer}.
Implicit Types (l : list (UnrewardedRelayer Relayer)) (d : InboundLaneData Relayer).

Lemma inv_confirmed_le (me mu : Z) d :
  inbound_data_inv me mu d -> last_confirmed_nonce d <= last_delivered_nonce d.
Proof.
  intros [_ _ (lo & Hc & Hlo) _ _ _]. destruct (relayers d) as [|e l] eqn:El.
  - unfold last_delivered_nonce. rewrite El. done.
  - destruct Hc as (Hb & He & Hc%chain_le). lia.
Qed.

(** Popping: what remains starts above every popped entry and is not empty below
    the end of the queue. *)
Lemma drop_while_chain (new lo hi : Z) l :
  chain lo l hi -> lo <= new + 1 -> new <= hi ->
  let l' := drop_while (fun e => entry_end e <=? new) l in
  (l' = [] /\ hi = new) \/
  (exists e l'', l' = e :: l'' /\ lo <= entry_begin e <= new + 1 /\ new < entry_end e /\
     chain (entry_begin e) (e :: l'') hi).
Proof.
  revert lo. induction l as [|e l IH]; intros lo; simpl; [intros -> ? ?; left; split; [done|lia]|].
  intros (Hb & He & Hc) Hlo Hhi. destruct (entry_end e <=? new) eqn:E.
  - destruct (IH _ Hc) as [IH'|(e' & l'' & Heq & IH')]; [lia|lia|by left|].
    right. exists e', l''. split_and!; try apply IH'; [done|]. lia.
  - right. exists e, l. split_and!; try done; lia.
Qed.

Lemma confirm_relayers_chain (new lo hi : Z) l :
  chain lo l hi -> lo <= new + 1 -> 0 <= new <= hi -> hi <= u64_max ->
  let l' := confirm_relayers new l in
  (l' = [] /\ hi = new) \/
  (l' <> [] /\ exists lo', chain lo' l' hi /\ new <= lo' <= new + 1).
Proof.
  intros Hc Hlo Hnew Hmax. unfold confirm_relayers.
  destruct (drop_while_chain new lo hi l Hc Hlo) as [[-> ->]|(e & l' & -> & Hb & He & Hc')];
    [lia|by left|right].
  destruct Hc' as (_ & He' & Hc'). pose proof (chain_le _ _ _ Hc').
  destruct (entry_begin e <? new) eqn:E; (split; [done|]).
  - rewrite wrapping_add_small by lia. exists (new + 1). simpl. split_and!; try done; lia.
  - exists (entry_begin e). simpl. split_and!; try done; lia.
Qed.

Lemma confirm_relayers_head (new : Z) l e :
  head (confirm_relayers new l) = Some e -> new < entry_end e.
Proof.
  unfold confirm_relayers. pose proof (drop_while_head (fun e => entry_end e <=? new) l) as Hh.
  destruct (drop_while _ l) as [|e' l']; [done|]. specialize (Hh e' eq_refl).
  case_match; simpl; intros [= <-]; simpl; lia.
Qed.

Lemma confirm_relayers_length (new : Z) l : (length (confirm_relayers new l) <= length l)%nat.
Proof.
  unfold confirm_relayers.
  destruct (drop_while_suffix (fun e => entry_end e <=? new) l) as (pre & Hl & _).
  rewrite Hl at 2. rewrite length_app. destruct (drop_while _ l) as [|e l']; [simpl; lia|].
  case_match; simpl; lia.
Qed.

(** Confirmation never changes what has been delivered. *)
Lemma confirm_relayers_inv (me mu new : Z) d :
  inbound_data_inv me mu d -> last_confirmed_nonce d < new <= last_delivered_nonce d ->
  let d' := Inbound (confirm_relayers new (relayers d)) new in
  inbound_data_inv me mu d' /\ last_delivered_nonce d' = last_delivered_nonce d.
Proof.
  intros Hinv Hnew d'. pose proof (inv_confirmed_le _ _ _ Hinv).
  destruct Hinv as [Hc0 Hd (lo & Hc & Hlo) Hfront He Hu].
  pose proof (confirm_relayers_length new (relayers d)) as Hlen.
  assert (last_delivered_nonce d' = last_delivered_nonce d /\ exists lo',
    chain lo' (relayers d') (last_delivered_nonce d) /\ new <= lo' <= new + 1)
    as [Hdel (lo' & Hc' & Hlo')].
  { destruct (confirm_relayers_chain new lo (last_delivered_nonce d) (relayers d) Hc)
      as [[Hl Hn]|(Hl & lo' & Hc' & Hlo')]; [lia|lia|lia|..].
    - unfold d'; simpl. rewrite Hl. split; [by unfold last_delivered_nonce|].
      exists (new + 1). simpl. lia.
    - split; [|by exists lo']. unfold d'. by apply (chain_last_delivered lo'). }
  split; [|done]. split; rewrite ?Hdel; simpl; try lia; [by exists lo'|].
  intros e. apply confirm_relayers_head.
Qed.

Lemma note_delivered_chain (r : Relayer) (lo hi : Z) l :
  chain lo l hi -> 0 <= hi < u64_max ->
  chain lo (note_delivered r (hi + 1) l) (hi + 1) /\ note_delivered r (hi + 1) l <> [].
Proof.
  intros Hc Hhi. unfold note_delivered.
  destruct l as [|e l _] using rev_ind; simpl.
  { simpl in Hc. split; [|done]. lia. }
  rewrite last_snoc. case_bool_decide; simpl.
  - rewrite update_last_snoc. apply chain_snoc in Hc as (Hc & He & ->).
    split; [|by destruct l]. apply chain_snoc. simpl.
    rewrite wrapping_add_small by lia. split_and!; [done|lia|lia].
  - split; [|by destruct l]. apply chain_snoc. simpl. split_and!; [|lia|lia].
    by replace (hi + 1 - 1) with hi by lia.
Qed.

Lemma note_delivered_head (r : Relayer) (lo hi : Z) l e :
  chain lo l hi -> 0 <= hi < u64_max -> head (note_delivered r (hi + 1) l) = Some e ->
  entry_end e = hi + 1 \/ head l = Some e.
Proof.
  intros Hc Hhi. unfold note_delivered.
  destruct l as [|e1 l]; simpl; [intros [= <-]; by left|].
  destruct l as [|e2 l]; simpl.
  - destruct Hc as (_ & _ & Hc). simpl in Hc. case_bool_decide; simpl; intros [= <-]; [left|by right].
    simpl. rewrite wrapping_add_small; lia.
  - case_match; [by right|]. simpl. intros [= <-]. by right.
Qed.

Lemma note_delivered_length (r : Relayer) (nonce : Z) l :
  (length (note_delivered r nonce l) <= length l + 1)%nat.
Proof.
  unfold note_delivered. case_match; rewrite ?length_app, ?length_update_last; simpl; lia.
Qed.

Lemma note_delivered_inv (me mu : Z) (r : Relayer) d :
  inbound_data_inv me mu d -> last_delivered_nonce d < u64_max ->
  Z.of_nat (length (relayers d)) < me ->
  last_delivered_nonce d + 1 - last_confirmed_nonce d <= mu ->
  let d' := Inbound (note_delivered r (last_delivered_nonce d + 1) (relayers d))
              (last_confirmed_nonce d) in
  inbound_data_inv me mu d' /\ last_delivered_nonce d' = last_delivered_nonce d + 1.
Proof.
  intros Hinv Hmax Hlen Hmu d'. pose proof (inv_confirmed_le _ _ _ Hinv).
  destruct Hinv as [Hc0 Hd (lo & Hc & Hlo) Hfront He Hu].
  destruct (note_delivered_chain r lo (last_delivered_nonce d) (relayers d) Hc) as [Hc' Hne];
    [lia|].
  assert (last_delivered_nonce d' = last_delivered_nonce d + 1) as Hdel
    by (by apply (chain_last_delivered lo)).
  pose proof (note_delivered_length r (last_delivered_nonce d + 1) (relayers d)).
  split; [|done]. split; rewrite ?Hdel; simpl; try lia; [by exists lo|].
  intros e Hh. destruct (note_delivered_head r lo _ _ e Hc ltac:(lia) Hh) as [->|Hh'];
    [lia|by apply Hfront].
Qed.
End QueueFacts.

(** ** What the operations do *)

Section InboundFacts.
Context {S Relayer : Type} `{EqDecision Relayer} `{InboundLaneStorageLaws S Relayer}.

Lemma inbound_inv_read (s : S) : inbound_inv s -> inbound_inv (il_data s).2.
Proof. unfold inbound_inv. by rewrite il_data_read, il_entries_read, il_unconfirmed_read. Qed.

Lemma inbound_inv_set (s : S) (d : InboundLaneData Relayer) :
  inbound_data_inv (il_max_unrewarded_relayer_entries s) (il_max_unconfirmed_messages s) d ->
  inbound_inv (il_set_data d (il_data s).2).
Proof.
  unfold inbound_inv.
  by rewrite il_data_set, il_entries_set, il_unconfirmed_set, il_entries_read, il_unconfirmed_read.
Qed.

Definition limits (s : S) : Z * Z :=
  (il_max_unrewarded_relayer_entries s, il_max_unconfirmed_messages s).

Lemma limits_read (s : S) : limits (il_data s).2 = limits s.
Proof. unfold limits. by rewrite il_entries_read, il_unconfirmed_read. Qed.

Lemma limits_set (d : InboundLaneData Relayer) (s : S) : limits (il_set_data d s) = limits s.
Proof. unfold limits. by rewrite il_entries_set, il_unconfirmed_set. Qed.

Lemma receive_state_update_limits (s s' : S) (o : OutboundLaneData) (result : option MessageNonce) :
  receive_state_update s o = (result, s') -> limits s' = limits s.
Proof.
  unfold receive_state_update. rewrite (surjective_pairing (il_data s)).
  repeat case_match; intros [= <- <-]; by rewrite ?limits_set, limits_read.
Qed.

Lemma receive_state_update_id (s s' : S) (o : OutboundLaneData) (result : option MessageNonce) :
  receive_state_update s o = (result, s') -> il_id s' = il_id s.
Proof.
  unfold receive_state_update. rewrite (surjective_pairing (il_data s)).
  repeat case_match; intros [= <- <-]; by rewrite ?il_id_set, il_id_read.
Qed.

Lemma receive_state_update_inv (s s' : S) (o : OutboundLaneData) (result : option MessageNonce) :
  inbound_inv s -> receive_state_update s o = (result, s') ->
  inbound_inv s' /\
  last_delivered_nonce (il_data s').1 = last_delivered_nonce (il_data s).1 /\
  (il_data s').1 =
    (if bool_decide (last_confirmed_nonce (il_data s).1 < latest_received_nonce o
                     <= last_delivered_nonce (il_data s).1)
     then Inbound (confirm_relayers (latest_received_nonce o) (relayers (il_data s).1))
            (latest_received_nonce o)
     else (il_data s).1).
Proof.
  intros Hinv. unfold receive_state_update. rewrite (surjective_pairing (il_data s)). simpl.
  case_bool_decide as E.
  - rewrite (proj2 (Z.ltb_ge _ _)) by lia. rewrite (proj2 (Z.leb_gt _ _)) by lia.
    intros [= <- <-]. destruct (confirm_relayers_inv _ _ _ _ Hinv E) as [Hnew Hdel].
    rewrite il_data_set. split_and!; [by apply inbound_inv_set|done|done].
  - case_match eqn:E1; [|case_match eqn:E2; [|lia]]; intros [= <- <-];
      rewrite il_data_read; split_and!; by try apply inbound_inv_read.
Qed.

Section Messages.
Context `{WeightOps} {AccountId P L W : Type} `{!MessageDispatch AccountId P L W}.

Lemma receive_message_accepts (s : S) (w : W) (r : Relayer) (a : AccountId) (p : option P) :
  let d := (il_data s).1 in
  let nonce := last_delivered_nonce d + 1 in
  inbound_inv s -> nonce <= u64_max ->
  Z.of_nat (length (relayers d)) < il_max_unrewarded_relayer_entries s ->
  nonce - last_confirmed_nonce d <= il_max_unconfirmed_messages s ->
  let '(dr, w') := dispatch a (DispatchMessage_ (MessageKey_ (il_id s) nonce) p) w in
  receive_message s w r a nonce p =
    (Dispatched dr,
     il_set_data (Inbound (note_delivered r nonce (relayers d)) (last_confirmed_nonce d))
       (il_data s).2, w').
Proof.
  intros d nonce Hinv Hmax Hlen Hmu. pose proof (inv_confirmed_le _ _ _ Hinv) as Hle.
  assert (0 <= last_confirmed_nonce d) by apply Hinv. fold d in Hle.
  unfold receive_message. rewrite (surjective_pairing (il_data s)). fold d.
  rewrite il_entries_read, il_unconfirmed_read, il_id_read, wrapping_add_small by lia.
  fold nonce. rewrite Z.eqb_refl, (proj2 (Z.leb_gt _ _)) by lia. simpl.
  rewrite (proj2 (Z.ltb_ge _ _)) by (unfold saturating_sub; lia).
  by destruct (dispatch a _ w).
Qed.

Lemma receive_message_inv (s s' : S) (w w' : W) (r : Relayer) (a : AccountId) (nonce : Z)
  (p : option P) (result : ReceivalResult L) :
  inbound_inv s -> last_delivered_nonce (il_data s).1 < u64_max ->
  receive_message s w r a nonce p = (result, s', w') ->
  inbound_inv s' /\ last_confirmed_nonce (il_data s').1 = last_confirmed_nonce (il_data s).1 /\
  ((exists dr, result = Dispatched dr /\ nonce = last_delivered_nonce (il_data s).1 + 1 /\
      last_delivered_nonce (il_data s').1 = nonce) \/
   ((forall dr, result <> Dispatched dr) /\ (il_data s').1 = (il_data s).1)).
Proof.
  intros Hinv Hmax. pose proof (inv_confirmed_le _ _ _ Hinv) as Hle.
  assert (0 <= last_confirmed_nonce (il_data s).1) by apply Hinv.
  unfold receive_message. rewrite (surjective_pairing (il_data s)). simpl.
  rewrite il_entries_read, il_unconfirmed_read, wrapping_add_small by lia.
  assert (forall result0, (forall dr, result0 <> Dispatched dr) ->
    (result0, (il_data s).2, w) = (result, s', w') ->
    inbound_inv s' /\ last_confirmed_nonce (il_data s').1 = last_confirmed_nonce (il_data s).1 /\
    ((forall dr, result <> Dispatched dr) /\ (il_data s').1 = (il_data s).1)) as Hrej.
  { intros r0 Hr0 [= <- <- <-]. rewrite il_data_read. split_and!; by try apply inbound_inv_read. }
  destruct (nonce =? _) eqn:E1; simpl; [|intros Eq; apply Hrej in Eq; [tauto|done]].
  case_match eqn:E2; [intros Eq; apply Hrej in Eq; [tauto|done]|].
  case_match eqn:E3; [intros Eq; apply Hrej in Eq; [tauto|done]|].
  unfold saturating_sub in E3. apply Z.eqb_eq in E1 as ->.
  destruct (dispatch _ _ w) as [dr w1]. intros [= <- <- <-].
  destruct (note_delivered_inv _ _ r _ Hinv Hmax) as [Hnew Hdel]; [lia|lia|].
  rewrite il_data_set. split_and!; [by apply inbound_inv_set|done|]. left. by exists dr.
Qed.

Lemma receive_message_limits (s s' : S) (w w' : W) (r : Relayer) (a : AccountId) (nonce : Z)
  (p : option P) (result : ReceivalResult L) :
  receive_message s w r a nonce p = (result, s', w') -> limits s' = limits s.
Proof.
  unfold receive_message. rewrite (surjective_pairing (il_data s)). simpl.
  destruct (dispatch _ _ w). repeat case_match; intros [= <- <- <-];
    by rewrite ?limits_set, limits_read.
Qed.

Lemma receive_message_id (s s' : S) (w w' : W) (r : Relayer) (a : AccountId) (nonce : Z)
  (p : option P) (result : ReceivalResult L) :
  receive_message s w r a nonce p = (result, s', w') -> il_id s' = il_id s.
Proof.
  unfold receive_message. rewrite (surjective_pairing (il_data s)). simpl.
  destruct (dispatch _ _ w). repeat case_match; intros [= <- <- <-];
    by rewrite ?il_id_set, il_id_read.
Qed.

(** The dispatcher is called for a dispatched message only, and with that message. *)
Lemma receive_message_calls (s s' : S) (w w' : W) (r : Relayer) (a : AccountId) (nonce : Z)
  (p : option P) (result : ReceivalResult L) :
  receive_message s w r a nonce p = (result, s', w') ->
  match result with
  | Dispatched dr => dispatch a (DispatchMessage_ (MessageKey_ (il_id s) nonce) p) w = (dr, w')
  | _ => w' = w
  end.
Proof.
  unfold receive_message. rewrite (surjective_pairing (il_data s)). simpl.
  rewrite il_id_read. destruct (dispatch _ _ w) eqn:E.
  repeat match goal with |- context [if ?b then _ else _] => destruct b end;
    by intros [= <- <- <-].
Qed.
End Messages.
End InboundFacts.

(** ** A storage kept in memory *)
Module MemoryInbound.

Record lane := Lane { max_entries : Z; max_unconfirmed : Z; data : InboundLaneData Z }.

#[global] Instance storage : InboundLaneStorage lane Z := {|
  il_id _ := LaneId_ 0 0 0 0;
  il_max_unrewarded_relayer_entries := max_entries;
  il_max_unconfirmed_messages := max_unconfirmed;
  il_data s := (data s, s);
  il_set_data d s := Lane (max_entries s) (max_unconfirmed s) d;
|}.

#[global] Instance storage_laws : InboundLaneStorageLaws lane Z.
Proof. by split. Qed.

(** A dispatcher that logs the nonces it is given. *)
#[global] Instance logger : MessageDispatch Z (list Z) unit (list Z) := {|
  dispatch_weight m := (weight_zero, m);
  dispatch _ m log := (DispatchResult weight_zero tt, log ++ [key_nonce (dispatch_key m)]);
|}.

(** Two relayers, messages 5 to 9 delivered, 4 confirmed. *)
Definition busy : lane :=
  Lane 4 8 (Inbound [Unrewarded 1 (Delivered 5 7); Unrewarded 2 (Delivered 8 9)] 4).

Lemma busy_inbound_inv : inbound_inv busy.
Proof.
  split; unfold last_delivered_nonce; simpl; try word; [exists 5; lia|].
  intros e [= <-]. simpl. lia.
Qed.
End MemoryInbound.

(** ** Properties *)

(** A message is dispatched exactly when its nonce follows the last delivered one and both
    limits of the lane leave room for it; then the lane records the delivery. A
    rejected message reports the first violated condition, is not dispatched, and
    changes nothing. *)
Theorem receive_message_correct {S Relayer : Type} `{EqDecision Relayer}
  `{InboundLaneStorageLaws S Relayer} `{WeightOps} {AccountId P L W : Type}
  `{!MessageDispatch AccountId P L W} (s : S) (w : W) (r : Relayer) (a : AccountId)
  (nonce : Z) (p : option P) :
  inbound_inv s -> last_delivered_nonce (il_data s).1 < u64_max ->
  let d := (il_data s).1 in
  let '(result, s', w') := receive_message s w r a nonce p in
  let d' := (il_data s').1 in
  inbound_inv s' /\
  match result with
  | Dispatched dr =>
      nonce = last_delivered_nonce d + 1 /\
      Z.of_nat (length (relayers d)) < il_max_unrewarded_relayer_entries s /\
      nonce - last_confirmed_nonce d <= il_max_unconfirmed_messages s /\
      dispatch a (DispatchMessage_ (MessageKey_ (il_id s) nonce) p) w = (dr, w') /\
      last_delivered_nonce d' = nonce /\ last_confirmed_nonce d' = last_confirmed_nonce d
  | InvalidNonce => nonce <> last_delivered_nonce d + 1 /\ d' = d /\ w' = w
  | TooManyUnrewardedRelayers =>
      nonce = last_delivered_nonce d + 1 /\
      il_max_unrewarded_relayer_entries s <= Z.of_nat (length (relayers d)) /\ d' = d /\ w' = w
  | TooManyUnconfirmedMessages =>
      nonce = last_delivered_nonce d + 1 /\
      il_max_unconfirmed_messages s < nonce - last_confirmed_nonce d /\ d' = d /\ w' = w
  end.
Proof.
  intros Hinv Hmax d. pose proof (inv_confirmed_le _ _ _ Hinv) as Hle. fold d in Hmax, Hle.
  pose proof (inbound_inv_read s Hinv) as Hinv'.
  pose proof (il_data_read s) as Hread. fold d in Hread.
  unfold receive_message.
  rewrite (surjective_pairing (il_data s)). fold d.
  rewrite il_entries_read, il_unconfirmed_read, il_id_read.
  assert (0 <= last_confirmed_nonce d) by apply Hinv.
  rewrite wrapping_add_small by lia.
  destruct (nonce =? last_delivered_nonce d + 1) eqn:E1; simpl; [|split_and!; try done; lia].
  apply Z.eqb_eq in E1.
  destruct (il_max_unrewarded_relayer_entries s <=? _) eqn:E2; simpl;
    [split_and!; try done; lia|].
  destruct (il_max_unconfirmed_messages s <? _) eqn:E3; simpl.
  { unfold saturating_sub in E3. split_and!; try done; lia. }
  unfold saturating_sub in E3.
  destruct (dispatch a _ w) as [dr w'] eqn:Ed. simpl.
  destruct (note_delivered_inv _ _ r d Hinv ltac:(done)) as [Hnew Hdel]; [lia|lia|].
  rewrite il_data_set, E1. unfold inbound_inv.
  rewrite il_data_set, il_entries_set, il_unconfirmed_set, il_entries_read, il_unconfirmed_read.
  split_and!; try done; lia.
Qed.

Lemma receive_message_correct_witness :
  let s' := MemoryInbound.Lane 4 8
    (Inbound [Unrewarded 1 (Delivered 5 7); Unrewarded 2 (Delivered 8 10)] 4) in
  receive_message MemoryInbound.busy [] 2 0 10 None =
    (Dispatched (DispatchResult weight_zero tt), s', [10]) /\
  inbound_inv s' /\ last_delivered_nonce (il_data s').1 = 10.
Proof.
  intros s'.
  pose proof (receive_message_correct MemoryInbound.busy [] 2 0 10 None MemoryInbound.busy_inbound_inv
    ltac:(unfold last_delivered_nonce; simpl; word)) as H.
  assert (receive_message MemoryInbound.busy [] 2 0 10 None =
    (Dispatched (DispatchResult weight_zero tt), s', [10])) as E by reflexivity.
  rewrite E in H. destruct H as (Hi & _ & _ & _ & _ & Hd & _).
  split; [exact E|]. split; [exact Hi|exact Hd].
Defined.

(** A state update moves the confirmed nonce forward to the one the source chain has
    received, and only when that nonce is new and already delivered here; it never
    changes what has been delivered and keeps the lane invariant.  Otherwise the
    lane data is unchanged. *)
Theorem receive_state_update_correct {S Relayer : Type} `{EqDecision Relayer}
  `{InboundLaneStorageLaws S Relayer} (s : S) (o : OutboundLaneData) :
  inbound_inv s ->
  let d := (il_data s).1 in
  let new := latest_received_nonce o in
  let '(result, s') := receive_state_update s o in
  let d' := (il_data s').1 in
  inbound_inv s' /\ last_delivered_nonce d' = last_delivered_nonce d /\
  match result with
  | Some n => n = new /\ last_confirmed_nonce d < new <= last_delivered_nonce d /\
      last_confirmed_nonce d' = new
  | None => (new <= last_confirmed_nonce d \/ last_delivered_nonce d < new) /\ d' = d
  end.
Proof.
  intros Hinv d new.
  pose proof (inbound_inv_read s Hinv) as Hinv'.
  pose proof (il_data_read s) as Hread. fold d in Hread.
  unfold receive_state_update. rewrite (surjective_pairing (il_data s)). fold d new.
  destruct (last_delivered_nonce d <? new) eqn:E1; [rewrite Hread; split_and!; try done; lia|].
  destruct (new <=? last_confirmed_nonce d) eqn:E2; [rewrite Hread; split_and!; try done; lia|].
  destruct (confirm_relayers_inv _ _ new d Hinv) as [Hnew Hdel]; [lia|].
  unfold inbound_inv. simpl.
  rewrite !il_data_set, il_entries_set, il_unconfirmed_set, il_entries_read, il_unconfirmed_read.
  split_and!; try done; lia.
Qed.

Lemma receive_state_update_correct_witness :
  let s' := MemoryInbound.Lane 4 8 (Inbound [Unrewarded 2 (Delivered 8 9)] 8) in
  receive_state_update MemoryInbound.busy (Outbound 1 8 12) = (Some 8, s') /\
  inbound_inv s' /\ last_confirmed_nonce (il_data s').1 = 8.
Proof.
  intros s'.
  pose proof (receive_state_update_correct MemoryInbound.busy (Outbound 1 8 12)
    MemoryInbound.busy_inbound_inv) as H.
  assert (receive_state_update MemoryInbound.busy (Outbound 1 8 12) = (Some 8, s')) as E
    by reflexivity.
  rewrite E in H. destruct H as (Hi & _ & _ & _ & Hd).
  split; [exact E|]. split; [exact Hi|exact Hd].
Defined.

(** The documentation of [InboundLaneData::relayers] says that all nonces of the queue are
    above the confirmed nonce.  From a lane where this holds, a state update breaks
    it exactly when some relayer entry starts at the newly confirmed nonce and
    extends beyond it: the shortening test is [begin < confirmed], not
    [begin <= confirmed], so the confirmed message stays in the queue. *)
Theorem confirmed_nonce_kept {S Relayer : Type} `{EqDecision Relayer}
  `{InboundLaneStorageLaws S Relayer} (s s' : S) (o : OutboundLaneData) (n : Z) :
  let d := (il_data s).1 in
  let d' := (il_data s').1 in
  chain (last_confirmed_nonce d + 1) (relayers d) (last_delivered_nonce d) ->
  0 <= last_confirmed_nonce d -> last_delivered_nonce d <= u64_max ->
  receive_state_update s o = (Some n, s') ->
  (exists e, e ∈ relayers d' /\ contains_message (messages e) (last_confirmed_nonce d') = true)
  <->
  (exists e, e ∈ relayers d /\ entry_begin e = n /\ n < entry_end e).
Proof.
  intros d d' Hc Hc0 Hmax. unfold receive_state_update.
  rewrite (surjective_pairing (il_data s)). fold d.
  destruct (last_delivered_nonce d <? _) eqn:E1; [done|].
  destruct (_ <=? last_confirmed_nonce d) eqn:E2; [done|]. intros [= Hn Hs'].
  assert (d' = Inbound (confirm_relayers n (relayers d)) n) as Hd'
    by (unfold d'; rewrite <- Hs', il_data_set, Hn; done).
  rewrite Hd'. simpl. clear Hs' Hd' d'.
  assert (last_confirmed_nonce d < n <= last_delivered_nonce d) as Hnew by (subst n; lia).
  clear E1 E2. unfold confirm_relayers.
  destruct (drop_while_suffix (fun e => entry_end e <=? n) (relayers d)) as (pre & Hl & Hpre).
  rewrite Forall_forall in Hpre. rewrite Hl in Hc.
  apply chain_app in Hc as (mid & Hpc & Hc).
  assert (forall e, e ∈ relayers d -> entry_begin e = n -> n < entry_end e ->
    e ∈ drop_while (fun e => entry_end e <=? n) (relayers d)) as Hsplit.
  { intros e He Hb Hend. rewrite Hl in He. apply elem_of_app in He as [He|He]; [|done].
    specialize (Hpre e He). lia. }
  destruct (drop_while _ (relayers d)) as [|e l] eqn:Edrop.
  { split; [by intros (e & ?%elem_of_nil & _)|].
    intros (e & He & Hb & Hend). by apply (Hsplit e) in He; [apply elem_of_nil in He|..]. }
  pose proof (drop_while_head (fun e => entry_end e <=? n) (relayers d) e) as Hhead.
  rewrite Edrop in Hhead. specialize (Hhead eq_refl). simpl in Hhead.
  destruct Hc as (Hb & He & Hc). assert (e ∈ relayers d) as Hin by (rewrite Hl; set_solver).
  split.
  - destruct (entry_begin e <? n) eqn:E.
    + intros (e' & [->|He']%elem_of_cons & Hcont); unfold contains_message in Hcont; simpl in Hcont.
      * rewrite wrapping_add_small in Hcont by (apply chain_le in Hc; lia). lia.
      * destruct (chain_elem_of _ _ _ _ Hc He'). lia.
    + intros (e' & [->|He']%elem_of_cons & Hcont); unfold contains_message in Hcont.
      * exists e. split_and!; [done|lia|lia].
      * destruct (chain_elem_of _ _ _ _ Hc He'). lia.
  - intros (e' & He' & Hb' & Hend). pose proof (Hsplit e' He' Hb' Hend) as Hin'.
    apply elem_of_cons in Hin' as [->|Hin'].
    + rewrite (proj2 (Z.ltb_ge _ _)) by lia. exists e. split; [set_solver|].
      unfold contains_message. lia.
    + destruct (chain_elem_of _ _ _ _ Hc Hin'). lia.
Qed.

Lemma confirmed_nonce_kept_witness :
  exists e, e ∈ relayers (il_data (receive_state_update MemoryInbound.busy (Outbound 1 5 9)).2).1
    /\ contains_message (messages e) 5 = true.
Proof.
  refine (proj2 (confirmed_nonce_kept (Relayer := Z) MemoryInbound.busy
    (receive_state_update MemoryInbound.busy (Outbound 1 5 9)).2 (Outbound 1 5 9) 5 _ _ _ _) _).
  - unfold last_delivered_nonce; simpl. lia.
  - simpl. lia.
  - unfold last_delivered_nonce; simpl. word.
  - reflexivity.
  - exists (Unrewarded 1 (Delivered 5 7)). split; [apply list_elem_of_here|simpl; lia].
Defined.
