(* ===== verification/LaneProtocol.v ===== *)
(** * The two ends of a lane together

    A source chain with an outbound lane, a target chain with the matching inbound
    lane, and relayers that carry storage proofs between them.  A proof shows some
    state the other chain has been in, not necessarily the current one, so the
    system remembers all past states of both lanes and every relayed transaction
    picks one of them.  Relayers are not trusted: they may repeat, reorder, drop or
    delay proofs, and prove any message of any past state.  One step is one lane
    operation, so the steps of a delivery transaction may interleave with
    everything else.  What is dispatched is observed at the dispatcher: it is wrapped
    into one that keeps every message it is called with. *)

From S2P Require Import Prelude Substrate RuntimePrimitives MessagesPrimitives.
From S2P Require Import OutboundLane InboundLane.
From stdpp Require Import base numbers list gmap relations.
Local Open Scope Z_scope.

Section Protocol.
Context {So : Type} `{OutboundLaneStorageLaws So}.
Context {Si Relayer : Type} `{EqDecision Relayer} `{InboundLaneStorageLaws Si Relayer}.
Context `{WeightLaws} {AccountId P L W : Type} `{!MessageDispatch AccountId P L W}.

(** How the target decodes a payload. *)
Variable decode : MessagePayload -> option P.

(** The dispatcher of the target, which also keeps the messages it was called with. *)
Definition recording : MessageDispatch AccountId P L (W * list (DispatchMessage P)) := {|
  dispatch_weight := dispatch_weight (W := W);
  dispatch account message world :=
    let '(result, w) := dispatch account message world.1 in (result, (w, world.2 ++ [message]));
|}.

Record system := System {
  src : So;
  tgt : Si;
  world : W * list (DispatchMessage P);
  src_states : list So;
  tgt_states : list Si;
  sent : list MessagePayload;
}.

(** The calls of the dispatcher so far. *)
Definition dispatched (y : system) : list (DispatchMessage P) := (world y).2.

Abbreviation src_data y := (ol_data (src y)).
Abbreviation tgt_data y := ((il_data (tgt y)).1).

Definition set_src (y : system) (s : So) (payloads : list MessagePayload) : system :=
  System s (tgt y) (world y) (s :: src_states y) (tgt_states y) payloads.

Definition set_tgt (y : system) (t : Si) (w : W * list (DispatchMessage P)) : system :=
  System (src y) t w (src_states y) (t :: tgt_states y) (sent y).

(** The number of messages the confirmation relayer has to declare. *)
Definition declared_total (d : InboundLaneData Relayer) : MessageNonce :=
  default u64_max (total_unrewarded_messages (relayers d)).

Inductive step (y : system) : system -> Prop :=
| StepSend p nonce s :
    latest_generated_nonce (src_data y) + 1 < u64_max ->
    send_message (src y) p = Some (nonce, s) ->
    step y (set_src y s (sent y ++ [p]))
| StepPrune db remaining spent s :
    db_weight_ok db -> prune_messages (src y) db remaining = Some (spent, s) ->
    step y (set_src y s (sent y))
| StepConfirm t result s :
    t ∈ tgt_states y ->
    confirm_delivery (src y) (declared_total (il_data t).1)
      (last_delivered_nonce (il_data t).1) (relayers (il_data t).1) = (result, s) ->
    step y (set_src y s (sent y))
| StepStateUpdate o result t :
    o ∈ src_states y -> receive_state_update (tgt y) (ol_data o) = (result, t) ->
    step y (set_tgt y t (world y))
| StepDeliver o nonce payload relayer account result t w :
    o ∈ src_states y -> ol_message nonce o = Some payload ->
    receive_message (MessageDispatch0 := recording) (tgt y) (world y) relayer account nonce
      (decode payload) = (result, t, w) ->
    step y (set_tgt y t w).

(** Message [i] of a lane, counted from 0, as the dispatcher is to get it. *)
Definition to_dispatch (id : LaneId) (i : nat) (payload : MessagePayload) : DispatchMessage P :=
  DispatchMessage_ (MessageKey_ id (Z.of_nat i + 1)) (decode payload).

(** The log of a lane that has delivered the first [n] messages. *)
Definition expected_log (id : LaneId) (n : Z) (payloads : list MessagePayload) :
  list (DispatchMessage P) :=
  imap (to_dispatch id) (take (Z.to_nat n) payloads).

Record sys_inv (y : system) : Prop := {
  si_src : outbound_inv (src y);
  si_tgt : inbound_inv (tgt y);
  si_sent : latest_generated_nonce (src_data y) = Z.of_nat (length (sent y));
  si_room : latest_generated_nonce (src_data y) < u64_max;
  si_confirmed : last_confirmed_nonce (tgt_data y) <= latest_received_nonce (src_data y);
  si_received : latest_received_nonce (src_data y) <= last_delivered_nonce (tgt_data y);
  si_delivered : last_delivered_nonce (tgt_data y) <= latest_generated_nonce (src_data y);
  si_src_states o : o ∈ src_states y ->
    latest_received_nonce (ol_data o) <= latest_received_nonce (src_data y) /\
    forall n p, ol_message n o = Some p ->
      1 <= n /\ sent y !! Z.to_nat (n - 1) = Some p;
  si_tgt_states t : t ∈ tgt_states y ->
    inbound_inv t /\
    last_delivered_nonce (il_data t).1 <= last_delivered_nonce (tgt_data y) /\
    last_confirmed_nonce (il_data t).1 <= last_confirmed_nonce (tgt_data y);
  si_current_src : src y ∈ src_states y;
  si_current_tgt : tgt y ∈ tgt_states y;
  si_log : dispatched y =
    expected_log (il_id (tgt y)) (last_delivered_nonce (tgt_data y)) (sent y);
}.

(** Both chains before the first message. *)
Definition initial (y : system) : Prop :=
  ol_data (src y) = outbound_default /\ (forall n, ol_message n (src y) = None) /\
  (il_data (tgt y)).1 = inbound_default /\
  0 <= il_max_unrewarded_relayer_entries (tgt y) /\ 0 <= il_max_unconfirmed_messages (tgt y) /\
  src_states y = [src y] /\ tgt_states y = [tgt y] /\ sent y = [] /\ dispatched y = [].

Lemma expected_log_snoc (id : LaneId) (n : Z) (payloads : list MessagePayload) (p : MessagePayload) :
  0 <= n -> payloads !! Z.to_nat n = Some p ->
  expected_log id (n + 1) payloads =
    expected_log id n payloads ++ [DispatchMessage_ (MessageKey_ id (n + 1)) (decode p)].
Proof.
  intros Hn Hp. unfold expected_log.
  replace (Z.to_nat (n + 1)) with (S (Z.to_nat n)) by lia.
  rewrite (take_S_r _ _ _ Hp), imap_app. f_equal. simpl.
  pose proof (lookup_lt_Some _ _ _ Hp). unfold to_dispatch. rewrite length_take, Nat.add_0_r.
  do 3 f_equal. lia.
Qed.

Lemma expected_log_prefix (id : LaneId) (n : Z) (payloads payloads' : list MessagePayload) :
  payloads `prefix_of` payloads' -> n <= Z.of_nat (length payloads) ->
  expected_log id n payloads' = expected_log id n payloads.
Proof. intros [k ->] Hn. unfold expected_log. by rewrite take_app_le by lia. Qed.

Lemma initial_inv (y : system) : initial y -> sys_inv y.
Proof.
  intros (Hs & Hm & Ht & He & Hu & Hss & Hts & Hsent & Hlog).
  assert (inbound_inv (tgt y)) as Htgt.
  { unfold inbound_inv. rewrite Ht. split; unfold last_delivered_nonce; simpl; try done; try word.
    exists 1. lia. }
  split; rewrite ?Hs, ?Ht, ?Hsent; unfold last_delivered_nonce; simpl; try done; try word.
  - split; rewrite ?Hs; simpl; try word. intros n. rewrite Hm. split; [by intros []|lia].
  - intros o. rewrite Hss. intros ->%list_elem_of_singleton. rewrite Hs. split; [done|].
    intros n p. by rewrite Hm.
  - intros t. rewrite Hts. intros ->%list_elem_of_singleton. rewrite Ht. done.
  - rewrite Hss. set_solver.
  - rewrite Hts. set_solver.
Qed.

(** ** Every step keeps the invariant *)

Lemma set_src_inv (y : system) (s : So) (payloads : list MessagePayload) :
  sys_inv y -> outbound_inv s ->
  latest_generated_nonce (ol_data s) = Z.of_nat (length payloads) ->
  latest_generated_nonce (ol_data s) < u64_max ->
  latest_received_nonce (src_data y) <= latest_received_nonce (ol_data s)
    <= last_delivered_nonce (tgt_data y) ->
  sent y `prefix_of` payloads ->
  (forall n p, ol_message n s = Some p -> 1 <= n /\ payloads !! Z.to_nat (n - 1) = Some p) ->
  sys_inv (set_src y s payloads).
Proof.
  intros [Hsrc Htgt Hsent Hroom Hconf Hrecv Hdel Hss Hts Hcs Hct Hlog] Hs Hlen Hmax Hr Hpre Hm.
  pose proof (prefix_length _ _ Hpre).
  split; simpl; try done; try lia; try apply list_elem_of_here.
  - intros o [->|Ho]%elem_of_cons; [split; [lia|done]|].
    destruct (Hss o Ho) as [Hle Hmsg]. split; [lia|]. intros n p Hp.
    destruct (Hmsg n p Hp) as [Hn Hl]. split; [done|]. by eapply prefix_lookup_Some.
  - rewrite (expected_log_prefix _ _ (sent y)) by (done || lia). done.
Qed.

Lemma set_tgt_inv (y : system) (t : Si) (w : W * list (DispatchMessage P)) :
  sys_inv y -> inbound_inv t ->
  last_confirmed_nonce (tgt_data y) <= last_confirmed_nonce (il_data t).1
    <= latest_received_nonce (src_data y) ->
  last_delivered_nonce (tgt_data y) <= last_delivered_nonce (il_data t).1
    <= latest_generated_nonce (src_data y) ->
  w.2 = expected_log (il_id t) (last_delivered_nonce (il_data t).1) (sent y) ->
  sys_inv (set_tgt y t w).
Proof.
  intros [Hsrc Htgt Hsent Hroom Hconf Hrecv Hdel Hss Hts Hcs Hct Hlog] Ht Hc Hd Hl.
  split; simpl; try done; try lia; try apply list_elem_of_here.
  intros t' [->|Ht']%elem_of_cons; [split_and!; [done|lia|lia]|].
  destruct (Hts t' Ht') as (? & ? & ?). split_and!; [done|lia|lia].
Qed.

(** The messages a past source state holds are the ones that were sent. *)
Lemma src_message_sent (y : system) (o : So) (n : Z) (p : MessagePayload) :
  sys_inv y -> o ∈ src_states y -> ol_message n o = Some p ->
  1 <= n <= latest_generated_nonce (src_data y) /\ sent y !! Z.to_nat (n - 1) = Some p.
Proof.
  intros Hinv Ho Hp. destruct (si_src_states y Hinv o Ho) as [_ Hm].
  destruct (Hm n p Hp) as [Hn Hl]. pose proof (lookup_lt_Some _ _ _ Hl).
  pose proof (si_sent y Hinv). split; [lia|done].
Qed.

Lemma step_send_inv (y : system) (p : MessagePayload) (nonce : Z) (s : So) :
  sys_inv y -> latest_generated_nonce (src_data y) + 1 < u64_max ->
  send_message (src y) p = Some (nonce, s) -> sys_inv (set_src y s (sent y ++ [p])).
Proof.
  intros Hinv Hmax Hsend. pose proof (si_src y Hinv) as Hsrc. pose proof (si_sent y Hinv) as Hlen.
  pose proof (send_message_inv _ _ _ _ Hsrc ltac:(lia) Hsend) as Hs.
  apply send_message_spec in Hsend as (-> & Hd & Hm); [|done|lia].
  apply set_src_inv; rewrite ?Hd; simpl; rewrite ?length_app; simpl; try done; try lia.
  - pose proof (si_received y Hinv). lia.
  - by apply prefix_app_r.
  - intros n p'. rewrite Hm. case_decide as Hn.
    + intros [= <-]. subst n. pose proof (oi_oldest _ Hsrc). pose proof (oi_pruned _ Hsrc).
      pose proof (oi_received _ Hsrc). split; [lia|].
      rewrite lookup_app_r, Hlen by lia.
      by replace (Z.to_nat _ - length (sent y))%nat with 0%nat by lia.
    + intros [Hn' Hl]%(src_message_sent y _ _ _ Hinv (si_current_src y Hinv)).
      split; [lia|]. by apply lookup_app_l_Some.
Qed.

Lemma step_prune_inv (y : system) (db : RuntimeDbWeight) (remaining spent : Weight) (s : So) :
  sys_inv y -> db_weight_ok db -> prune_messages (src y) db remaining = Some (spent, s) ->
  sys_inv (set_src y s (sent y)).
Proof.
  intros Hinv Hdb Hp. pose proof (si_src y Hinv) as Hsrc. pose proof (si_room y Hinv).
  pose proof (si_received y Hinv). pose proof (si_sent y Hinv).
  apply prune_messages_inv in Hp as (Hs & Hr & Hg & Hm); [|done|done|destruct Hsrc; lia].
  apply set_src_inv; try done; try lia. intros n p Hn%Hm.
  apply (src_message_sent y _ _ _ Hinv (si_current_src y Hinv)) in Hn as [? ?]. split; [lia|done].
Qed.

Lemma step_confirm_inv (y : system) (t : Si) (result : ReceivalConfirmationResult) (s : So) :
  sys_inv y -> t ∈ tgt_states y ->
  confirm_delivery (src y) (declared_total (il_data t).1)
    (last_delivered_nonce (il_data t).1) (relayers (il_data t).1) = (result, s) ->
  sys_inv (set_src y s (sent y)).
Proof.
  intros Hinv Ht Hc. pose proof (si_src y Hinv) as Hsrc. pose proof (si_sent y Hinv).
  pose proof (si_room y Hinv). pose proof (si_received y Hinv).
  destruct (si_tgt_states y Hinv t Ht) as (_ & Hd & _).
  pose proof (confirm_delivery_inv _ _ _ _ _ _ Hsrc Hc) as Hs.
  assert (forall n p, ol_message n (src y) = Some p ->
    1 <= n /\ sent y !! Z.to_nat (n - 1) = Some p) as Hm
    by (apply (si_src_states y Hinv), (si_current_src y Hinv)).
  apply confirm_delivery_cases in Hc as [(b & _ & _ & Hl & _ & _ & ->)|[-> _]].
  - apply set_src_inv; rewrite ?ol_data_set; simpl; try done; try lia.
    intros n p. rewrite ol_message_set. apply Hm.
  - by apply set_src_inv; try lia.
Qed.

Lemma step_state_update_inv (y : system) (o : So) (result : option MessageNonce) (t : Si) :
  sys_inv y -> o ∈ src_states y -> receive_state_update (tgt y) (ol_data o) = (result, t) ->
  sys_inv (set_tgt y t (world y)).
Proof.
  intros Hinv Ho Hu. pose proof (receive_state_update_id _ _ _ _ Hu) as Hid. pose proof (si_confirmed y Hinv). pose proof (si_delivered y Hinv).
  destruct (si_src_states y Hinv o Ho) as [Hr _].
  apply receive_state_update_inv in Hu as (Ht & Hd & He); [|by apply si_tgt].
  apply set_tgt_inv; try done; rewrite ?Hd, ?Hid; try lia; [|apply (si_log y Hinv)].
  rewrite He. case_bool_decide; simpl; lia.
Qed.

Lemma recorded (a : AccountId) (m : DispatchMessage P) (w w' : W * list (DispatchMessage P))
  (dr : MessageDispatchResult L) :
  dispatch (MessageDispatch := recording) a m w = (dr, w') -> w'.2 = w.2 ++ [m].
Proof. simpl. destruct (dispatch a m w.1). by intros [= _ <-]. Qed.

Lemma step_deliver_inv (y : system) (o : So) (nonce : Z) (payload : MessagePayload)
  (relayer : Relayer) (account : AccountId) (result : ReceivalResult L) (t : Si)
  (w : W * list (DispatchMessage P)) :
  sys_inv y -> o ∈ src_states y -> ol_message nonce o = Some payload ->
  receive_message (MessageDispatch0 := recording) (tgt y) (world y) relayer account nonce
    (decode payload) = (result, t, w) ->
  sys_inv (set_tgt y t w).
Proof.
  intros Hinv Ho Hp Hr. destruct (src_message_sent y o nonce payload Hinv Ho Hp) as [Hn Hl].
  pose proof (si_confirmed y Hinv). pose proof (si_delivered y Hinv).
  pose proof (si_room y Hinv). pose proof (si_log y Hinv) as Hlog.
  pose proof (inv_confirmed_le _ _ _ (si_tgt y Hinv)) as Hle.
  pose proof (ii_confirmed _ _ _ (si_tgt y Hinv)) as H0c.
  pose proof (receive_message_id _ _ _ _ _ _ _ _ _ Hr) as Hid.
  pose proof (receive_message_calls _ _ _ _ _ _ _ _ _ Hr) as Hcall.
  apply receive_message_inv in Hr as (Ht & Hc & Hcase); [|by apply si_tgt|lia].
  destruct Hcase as [(dr & -> & -> & Hd)|[Hno Hd]].
  - apply set_tgt_inv; rewrite ?Hc, ?Hd, ?Hid; try done; try lia.
    rewrite expected_log_snoc with (p := payload); [|lia|].
    { rewrite <- Hlog. by apply recorded in Hcall. }
    by replace (last_delivered_nonce (tgt_data y) + 1 - 1)
      with (last_delivered_nonce (tgt_data y)) in Hl by lia.
  - apply set_tgt_inv; rewrite ?Hd, ?Hid; try done; try lia.
    rewrite <- Hlog. destruct result as [dr| | |]; [by destruct (Hno dr)|by rewrite Hcall..].
Qed.

Lemma step_inv (y y' : system) : sys_inv y -> step y y' -> sys_inv y'.
Proof.
  intros Hinv []; eauto using step_send_inv, step_prune_inv, step_confirm_inv,
    step_state_update_inv, step_deliver_inv.
Qed.

Lemma steps_inv (y y' : system) : sys_inv y -> rtc step y y' -> sys_inv y'.
Proof. induction 2; eauto using step_inv. Qed.

(** ** Every past state of the target can be confirmed *)

Lemma declared_total_enough (me mu : Z) (d : InboundLaneData Relayer) :
  inbound_data_inv me mu d -> last_delivered_nonce d < u64_max ->
  last_delivered_nonce d - last_confirmed_nonce d <= declared_total d.
Proof.
  intros [Hc _ (lo & Hch & Hlo) _ _ _] Hd. unfold declared_total.
  rewrite (chain_total lo (last_delivered_nonce d)); simpl; [lia|done|lia].
Qed.

Lemma relayers_are_correct (me mu : Z) (d : InboundLaneData Relayer) :
  inbound_data_inv me mu d ->
  ensure_unrewarded_relayers_are_correct (last_delivered_nonce d) (relayers d) = Ok tt.
Proof.
  intros Hinv. pose proof (inv_confirmed_le _ _ _ Hinv).
  destruct Hinv as [Hc Hmax (lo & Hch & Hlo) _ _ _].
  apply ensure_relayers_iff; [|split; lia|by right; exists lo, (last_delivered_nonce d)].
  apply Forall_forall. intros e He.
  destruct (chain_elem_of _ _ _ _ Hch He). unfold is_u64. lia.
Qed.

Lemma past_state_confirmed (y : system) (t : Si) :
  sys_inv y -> t ∈ tgt_states y ->
  latest_received_nonce (src_data y) < last_delivered_nonce (il_data t).1 ->
  exists s,
    confirm_delivery (src y) (declared_total (il_data t).1)
      (last_delivered_nonce (il_data t).1) (relayers (il_data t).1) =
      (ConfirmedMessages (Delivered (latest_received_nonce (src_data y) + 1)
         (last_delivered_nonce (il_data t).1)), s) /\
    latest_received_nonce (ol_data s) = last_delivered_nonce (il_data t).1.
Proof.
  intros Hinv Ht Hnew. destruct (si_tgt_states y Hinv t Ht) as (Htinv & Hd & Hc).
  pose proof (si_delivered y Hinv). pose proof (si_confirmed y Hinv).
  pose proof (si_room y Hinv). pose proof (si_src y Hinv) as Hsrc.
  pose proof (declared_total_enough _ _ _ Htinv ltac:(lia)).
  rewrite confirm_delivery_accepts;
    [|lia|lia|by eapply relayers_are_correct].
  destruct Hsrc. rewrite wrapping_add_small by lia.
  eexists. split; [done|]. by rewrite ol_data_set.
Qed.

(** ** Progress *)

(** With everything delivered confirmed on both ends, the queue is empty. *)
Lemma all_confirmed_empty (me mu : Z) (d : InboundLaneData Relayer) :
  inbound_data_inv me mu d -> last_confirmed_nonce d = last_delivered_nonce d -> relayers d = [].
Proof.
  intros [_ _ (lo & Hch & _) Hfront _ _] Heq. destruct (relayers d) as [|e l] eqn:E; [done|].
  specialize (Hfront e eq_refl). destruct (chain_elem_of _ _ _ e Hch (list_elem_of_here _ _)). lia.
Qed.

(** Confirming the current target state at the source. *)
Lemma confirm_current (y : system) :
  sys_inv y -> exists y', rtc step y y' /\ tgt y' = tgt y /\ sent y' = sent y /\
    latest_received_nonce (src_data y') = last_delivered_nonce (tgt_data y').
Proof.
  intros Hinv. pose proof (si_received y Hinv).
  destruct (decide (latest_received_nonce (src_data y) = last_delivered_nonce (tgt_data y))).
  { exists y. split_and!; done. }
  pose proof (si_current_tgt y Hinv) as Ht.
  destruct (past_state_confirmed y (tgt y) Hinv Ht) as (s & Hs & Hr); [lia|].
  exists (set_src y s (sent y)). split_and!; [|done..]. by eapply rtc_once, StepConfirm.
Qed.

(** Reporting the confirmation back to the target. *)
Lemma update_current (y : system) :
  sys_inv y -> latest_received_nonce (src_data y) = last_delivered_nonce (tgt_data y) ->
  exists y', rtc step y y' /\ sent y' = sent y /\ src y' = src y /\ limits (tgt y') = limits (tgt y) /\
    last_delivered_nonce (tgt_data y') = last_delivered_nonce (tgt_data y) /\
    last_confirmed_nonce (tgt_data y') = last_delivered_nonce (tgt_data y').
Proof.
  intros Hinv Hr. destruct (receive_state_update (tgt y) (src_data y)) as [result t] eqn:E.
  pose proof (inv_confirmed_le _ _ _ (si_tgt y Hinv)) as Hle.
  pose proof (receive_state_update_limits _ _ _ _ E) as Hlim.
  exists (set_tgt y t (world y)).
  split; [eapply rtc_once, StepStateUpdate; [by apply si_current_src|done]|].
  apply receive_state_update_inv in E as (_ & Hd & He); [|by apply si_tgt].
  simpl. split_and!; try done. rewrite Hd, He.
  case_bool_decide; simpl; lia.
Qed.

(** Delivering the next message when nothing is unconfirmed. *)
Lemma deliver_next (y : system) (relayer : Relayer) (account : AccountId) :
  sys_inv y -> 1 <= (limits (tgt y)).1 -> 1 <= (limits (tgt y)).2 ->
  last_confirmed_nonce (tgt_data y) = last_delivered_nonce (tgt_data y) ->
  last_delivered_nonce (tgt_data y) < latest_generated_nonce (src_data y) ->
  exists y', step y y' /\ sent y' = sent y /\ src y' = src y /\ limits (tgt y') = limits (tgt y) /\
    last_delivered_nonce (tgt_data y') = last_delivered_nonce (tgt_data y) + 1.
Proof.
  intros Hinv Hme Hmu Hconf Hlt. pose proof (si_room y Hinv). pose proof (si_received y Hinv).
  pose proof (si_tgt y Hinv) as Htgt. pose proof (si_src y Hinv) as Hsrc. simpl in Hme, Hmu.
  set (n := last_delivered_nonce (tgt_data y) + 1).
  destruct (proj2 (oi_stored _ Hsrc n)) as [payload Hp]; [destruct Hsrc; lia|].
  pose proof (receive_message_accepts (MessageDispatch0 := recording) (tgt y) (world y) relayer
    account (decode payload) Htgt ltac:(lia)) as Hacc.
  rewrite (all_confirmed_empty _ _ _ Htgt Hconf) in Hacc. simpl in Hacc.
  specialize (Hacc ltac:(lia) ltac:(lia)). fold n in Hacc.
  destruct (dispatch _ _ (world y).1) as [dr w'].
  pose proof (receive_message_limits _ _ _ _ _ _ _ _ _ Hacc) as Hlim.
  eexists. split; [eapply StepDeliver; [by apply si_current_src|done|exact Hacc]|].
  simpl. split_and!; try done. by rewrite il_data_set.
Qed.

Lemma progress (y : system) (relayer : Relayer) (account : AccountId) :
  sys_inv y -> 1 <= (limits (tgt y)).1 -> 1 <= (limits (tgt y)).2 ->
  last_delivered_nonce (tgt_data y) < Z.of_nat (length (sent y)) ->
  exists y', rtc step y y' /\ sent y' = sent y /\ limits (tgt y') = limits (tgt y) /\
    last_delivered_nonce (tgt_data y') = last_delivered_nonce (tgt_data y) + 1.
Proof.
  intros Hinv Hme Hmu Hlt.
  destruct (confirm_current y Hinv) as (y1 & Hst1 & Ht1 & Hs1 & Hr1).
  pose proof (steps_inv _ _ Hinv Hst1) as Hinv1.
  destruct (update_current y1 Hinv1 Hr1) as (y2 & Hst2 & Hs2 & Hsrc2 & Hl2 & Hd2 & Hc2).
  pose proof (steps_inv _ _ Hinv1 Hst2) as Hinv2. rewrite Ht1 in *.
  destruct (deliver_next y2 relayer account Hinv2) as (y3 & Hst3 & Hs3 & _ & Hl3 & Hd3);
    rewrite ?Hl2; try done.
  { rewrite (si_sent y2 Hinv2), Hs2, Hs1. lia. }
  exists y3. split_and!; try congruence. etrans; [exact Hst1|]. eapply rtc_r; eauto.
Qed.

Lemma progress_all (n : nat) (y : system) (relayer : Relayer) (account : AccountId) :
  sys_inv y -> 1 <= (limits (tgt y)).1 -> 1 <= (limits (tgt y)).2 ->
  Z.of_nat (length (sent y)) = last_delivered_nonce (tgt_data y) + Z.of_nat n ->
  exists y', rtc step y y' /\ sent y' = sent y /\ sys_inv y' /\
    last_delivered_nonce (tgt_data y') = Z.of_nat (length (sent y)).
Proof.
  revert y. induction n as [|n IH]; intros y Hinv Hme Hmu Hn.
  { exists y. split_and!; [done..|lia]. }
  destruct (progress y relayer account Hinv Hme Hmu) as (y1 & Hst & Hs & Hl & Hd); [lia|].
  destruct (IH y1) as (y2 & Hst2 & Hs2 & Hinv2 & Hd2);
    [by eapply steps_inv|by rewrite Hl..|rewrite Hs; lia|].
  exists y2. split_and!; [by etrans|congruence|done|by rewrite Hd2, Hs].
Qed.

(** ** Properties *)

(** C1. Messages are dispatched exactly once and in order: in every state that untrusted
    relayers can reach, the calls the dispatcher of the target has got are precisely the
    first messages the source has sent, up to the last delivered nonce, each with the key
    of the lane and the nonces 1, 2, 3, ... and with the payload as it was sent, decoded. *)
Theorem exactly_once_in_order (y0 y : system) :
  initial y0 -> rtc step y0 y ->
  dispatched y =
    imap (fun i p => DispatchMessage_ (MessageKey_ (il_id (tgt y)) (Z.of_nat i + 1)) (decode p))
      (take (Z.to_nat (last_delivered_nonce (tgt_data y))) (sent y)) /\
  latest_received_nonce (src_data y) <= last_delivered_nonce (tgt_data y)
    <= Z.of_nat (length (sent y)).
Proof.
  intros Hinit%initial_inv Hsteps. pose proof (steps_inv _ _ Hinit Hsteps) as Hinv.
  pose proof (si_delivered y Hinv). pose proof (si_sent y Hinv).
  split_and!; [apply (si_log y Hinv)|apply (si_received y Hinv)|lia].
Qed.

(** C21. Delivery proofs are never refused: a proof of any state the target has been in either
    confirms nothing new, or confirms exactly the messages between what the source
    already knew and what the target had delivered in that state. *)
Theorem delivery_proofs_accepted (y0 y : system) (t : Si) :
  initial y0 -> rtc step y0 y -> t ∈ tgt_states y ->
  let d := (il_data t).1 in
  let old := latest_received_nonce (src_data y) in
  exists s,
    confirm_delivery (src y) (declared_total d) (last_delivered_nonce d) (relayers d) =
      (if bool_decide (last_delivered_nonce d <= old) then NoNewConfirmations
       else ConfirmedMessages (Delivered (old + 1) (last_delivered_nonce d)), s) /\
    latest_received_nonce (ol_data s) = Z.max old (last_delivered_nonce d).
Proof.
  intros Hinit%initial_inv Hsteps Ht d old. pose proof (steps_inv _ _ Hinit Hsteps) as Hinv.
  case_bool_decide as Hnew.
  - exists (src y). unfold confirm_delivery. rewrite (proj2 (Z.leb_le _ _)) by done.
    split; [done|unfold old; lia].
  - destruct (past_state_confirmed y t Hinv Ht) as (s & Hs & Hr); [unfold d, old in *; lia|].
    exists s. split; [done|]. rewrite Hr. unfold d, old in *. lia.
Qed.

(** C8. The lane cannot get stuck: from every reachable state there is a sequence of
    confirmations, state updates and deliveries, without new messages, after which
    everything that was sent has been dispatched, provided both limits of the
    inbound lane are at least one. *)
Theorem lane_never_stuck (y0 y : system) (relayer : Relayer) (account : AccountId) :
  initial y0 -> rtc step y0 y ->
  1 <= il_max_unrewarded_relayer_entries (tgt y) -> 1 <= il_max_unconfirmed_messages (tgt y) ->
  exists y', rtc step y y' /\ sent y' = sent y /\
    dispatched y' =
      imap (fun i p => DispatchMessage_ (MessageKey_ (il_id (tgt y')) (Z.of_nat i + 1)) (decode p))
        (sent y).
Proof.
  intros Hinit%initial_inv Hsteps Hme Hmu. pose proof (steps_inv _ _ Hinit Hsteps) as Hinv.
  pose proof (si_delivered y Hinv). pose proof (si_sent y Hinv).
  destruct (progress_all (length (sent y) - Z.to_nat (last_delivered_nonce (tgt_data y))) y
    relayer account Hinv Hme Hmu) as (y' & Hst & Hs & Hinv' & Hd).
  { pose proof (inv_confirmed_le _ _ _ (si_tgt y Hinv)).
    pose proof (ii_confirmed _ _ _ (si_tgt y Hinv)). lia. }
  exists y'. split_and!; [done|done|]. rewrite (si_log y' Hinv'), Hd, Hs. unfold expected_log.
  by rewrite Nat2Z.id, firstn_all.
Qed.
End Protocol.

(** ** A small system *)
Module SmallSystem.

Definition tgt0 : MemoryInbound.lane := MemoryInbound.Lane 2 4 inbound_default.

Definition y0 : system (So := MemoryLane.lane) (Si := MemoryInbound.lane) (P := list Z)
  (W := list Z) :=
  System MemoryLane.fresh tgt0 ([], []) [MemoryLane.fresh] [tgt0] [].

Lemma y0_initial : initial y0.
Proof. by repeat split. Qed.

Definition src1 : MemoryLane.lane := MemoryLane.Lane (Outbound 1 0 1) {[1 := [7]]}.
Definition tgt1 : MemoryInbound.lane :=
  MemoryInbound.Lane 2 4 (Inbound [Unrewarded 5 (Delivered 1 1)] 0).

Abbreviation run := (rtc (step (Relayer := Z) (AccountId := Z) (L := unit) Some)).

(** One message sent. *)
Definition y1 := set_src y0 src1 [[7]].

Lemma y1_reachable : run y0 y1.
Proof. eapply rtc_once, (StepSend _ y0 [7] 1 src1); [simpl; word|reflexivity]. Qed.

(** The message delivered by relayer 5. *)
Definition message1 : DispatchMessage (list Z) :=
  DispatchMessage_ (MessageKey_ (LaneId_ 0 0 0 0) 1) (Some [7]).
Definition y2 := set_tgt y1 tgt1 ([1], [message1]).

Lemma y2_reachable : run y0 y2.
Proof.
  eapply rtc_r; [exact y1_reachable|].
  eapply (StepDeliver _ y1 src1 1 [7] 5 0 (Dispatched (DispatchResult weight_zero tt)) tgt1
    ([1], [message1]));
    [apply list_elem_of_here|reflexivity|reflexivity].
Qed.
End SmallSystem.

Lemma exactly_once_in_order_witness :
  dispatched SmallSystem.y2 = [SmallSystem.message1] /\
  latest_received_nonce (ol_data (src SmallSystem.y2)) <= 1.
Proof.
  destruct (exactly_once_in_order Some SmallSystem.y0 SmallSystem.y2
    SmallSystem.y0_initial SmallSystem.y2_reachable) as [Hlog [Hr _]].
  split; [exact Hlog|exact Hr].
Defined.

Lemma delivery_proofs_accepted_witness :
  exists s,
    confirm_delivery (src SmallSystem.y2) 1 1 [Unrewarded 5 (Delivered 1 1)] =
      (ConfirmedMessages (Delivered 1 1), s) /\
    latest_received_nonce (ol_data s) = 1.
Proof.
  exact (delivery_proofs_accepted Some SmallSystem.y0 SmallSystem.y2 SmallSystem.tgt1
    SmallSystem.y0_initial SmallSystem.y2_reachable (list_elem_of_here _ _)).
Defined.

Lemma lane_never_stuck_witness :
  exists y', SmallSystem.run SmallSystem.y1 y' /\ sent y' = [[7]] /\
    dispatched y' = [DispatchMessage_ (MessageKey_ (il_id (tgt y')) 1) (Some [7])].
Proof.
  refine (lane_never_stuck Some SmallSystem.y0 SmallSystem.y1 5 0
    SmallSystem.y0_initial SmallSystem.y1_reachable _ _); simpl; lia.
Defined.
