(* ===== verification/MessagesWeights.v ===== *)
(** * modules/messages/src/weights_ext.rs and weights.rs

    The weight formulae of the messages pallet, computed from eight benchmarked
    weights (the trait [WeightInfo]), the startup checks on them, and the weights
    that ship with the pallet ([BridgeWeight]). *)

From S2P Require Import Prelude Substrate RuntimePrimitives MessagesPrimitives.
From stdpp Require Import base numbers list.
Local Open Scope Z_scope.

(** [weights::WeightInfo] and the required method of [WeightInfoExt]. *)
Class WeightInfoExt `{WeightOps} := {
  receive_single_message_proof : Weight;
  receive_two_messages_proof : Weight;
  receive_single_message_proof_with_outbound_lane_state : Weight;
  receive_single_message_proof_1_kb : Weight;
  receive_single_message_proof_16_kb : Weight;
  receive_delivery_proof_for_single_message : Weight;
  receive_delivery_proof_for_two_messages_by_single_relayer : Weight;
  receive_delivery_proof_for_two_messages_by_two_relayers : Weight;
  expected_extra_storage_proof_size : Z;
}.

Definition EXPECTED_DEFAULT_MESSAGE_LENGTH : Z := 128.
Definition SIGNED_EXTENSIONS_SIZE : Z := 1024.
Definition EXTRA_STORAGE_PROOF_SIZE : Z := 1024.

Section Formulae.
Context `{WeightOps} {Info : WeightInfoExt}.

Definition receive_messages_proof_overhead : Weight :=
  let weight_of_two_messages_and_two_tx_overheads :=
    weight_saturating_mul receive_single_message_proof 2 in
  let weight_of_two_messages_and_single_tx_overhead := receive_two_messages_proof in
  weight_saturating_sub weight_of_two_messages_and_two_tx_overheads
    weight_of_two_messages_and_single_tx_overhead.

Definition receive_messages_proof_messages_overhead (messages : MessageNonce) : Weight :=
  weight_saturating_mul
    (weight_saturating_sub receive_two_messages_proof receive_single_message_proof) messages.

Definition receive_messages_proof_outbound_lane_state_overhead : Weight :=
  weight_saturating_sub receive_single_message_proof_with_outbound_lane_state
    receive_single_message_proof.

Definition receive_messages_delivery_proof_overhead : Weight :=
  weight_saturating_sub (weight_saturating_mul receive_delivery_proof_for_single_message 2)
    receive_delivery_proof_for_two_messages_by_single_relayer.

Definition receive_messages_delivery_proof_messages_overhead (messages : MessageNonce) : Weight :=
  weight_saturating_mul
    (weight_saturating_sub receive_delivery_proof_for_two_messages_by_single_relayer
       receive_delivery_proof_for_single_message) messages.

Definition receive_messages_delivery_proof_relayers_overhead (relayers : MessageNonce) : Weight :=
  weight_saturating_mul
    (weight_saturating_sub receive_delivery_proof_for_two_messages_by_two_relayers
       receive_delivery_proof_for_two_messages_by_single_relayer) relayers.

Definition storage_proof_size_overhead (proof_size : Z) : Weight :=
  let byte_weight :=
    weight_div (weight_sub receive_single_message_proof_16_kb receive_single_message_proof_1_kb)
      (15 * 1024) in
  weight_mul byte_weight proof_size.

Definition receive_messages_proof_weight (size messages_count : Z) (dispatch_weight : Weight) :
  Weight :=
  let expected_proof_size :=
    saturating_add u32_max
      (saturating_mul u32_max EXPECTED_DEFAULT_MESSAGE_LENGTH (saturating_sub messages_count 1))
      expected_extra_storage_proof_size in
  let proof_size_overhead :=
    storage_proof_size_overhead (saturating_sub size expected_proof_size) in
  weight_saturating_add
    (weight_saturating_add
       (weight_saturating_add
          (weight_saturating_add receive_messages_proof_overhead
             receive_messages_proof_outbound_lane_state_overhead)
          (receive_messages_proof_messages_overhead messages_count))
       dispatch_weight)
    proof_size_overhead.

Definition receive_messages_delivery_proof_weight (size : Z)
  (relayers_state : UnrewardedRelayersState) : Weight :=
  let proof_size_overhead :=
    storage_proof_size_overhead (saturating_sub size expected_extra_storage_proof_size) in
  weight_saturating_add
    (weight_saturating_add
       (weight_saturating_add receive_messages_delivery_proof_overhead
          (receive_messages_delivery_proof_messages_overhead (rs_total_messages relayers_state)))
       (receive_messages_delivery_proof_relayers_overhead
          (unrewarded_relayer_entries relayers_state)))
    proof_size_overhead.

(** ** The startup checks

    A failed [assert!] is [Panic]. *)

Definition assert (b : bool) : outcome Empty_set unit := if b then Ok tt else Panic.
Definition assert_zero (x : Z) : outcome Empty_set unit := assert (x =? 0).
Definition assert_nonzero (x : Z) : outcome Empty_set unit := assert (negb (x =? 0)).

Definition ensure_weight_components_are_not_zero (weight : Weight) : outcome Empty_set unit :=
  check? assert_nonzero (ref_time weight) in
  assert_nonzero (proof_size weight).

Definition ensure_proof_size_is_the_same (weight1 weight2 : Weight) : outcome Empty_set unit :=
  assert (proof_size weight1 =? proof_size weight2).

(** The common part of the four checks below. *)
Definition ensure_same_proof_size (weight1 weight2 : Weight) : outcome Empty_set unit :=
  check? ensure_weight_components_are_not_zero weight1 in
  check? ensure_weight_components_are_not_zero weight2 in
  ensure_proof_size_is_the_same weight1 weight2.

Definition messages_proof_size_does_not_affect_proof_size : outcome Empty_set unit :=
  ensure_same_proof_size
    (receive_messages_proof_weight (precomputed_size (8 * 1024)) 1 weight_zero)
    (receive_messages_proof_weight (precomputed_size (16 * 1024)) 1 weight_zero).

Definition messages_count_does_not_affect_proof_size : outcome Empty_set unit :=
  ensure_same_proof_size
    (receive_messages_proof_weight (precomputed_size (8 * 1024)) 1 weight_zero)
    (receive_messages_proof_weight (precomputed_size (8 * 1024)) 2 weight_zero).

Definition messages_delivery_proof_size_does_not_affect_proof_size : outcome Empty_set unit :=
  let relayers_state := RelayersState 1 1 1 1 in
  ensure_same_proof_size
    (receive_messages_delivery_proof_weight (precomputed_size (8 * 1024)) relayers_state)
    (receive_messages_delivery_proof_weight (precomputed_size (16 * 1024)) relayers_state).

Definition total_messages_in_delivery_proof_does_not_affect_proof_size : outcome Empty_set unit :=
  ensure_same_proof_size
    (receive_messages_delivery_proof_weight (precomputed_size (8 * 1024))
       (RelayersState 1 1 1024 1))
    (receive_messages_delivery_proof_weight (precomputed_size (8 * 1024))
       (RelayersState 1 1 2048 1)).

Definition ensure_weights_are_correct : outcome Empty_set unit :=
  check? assert_nonzero (ref_time receive_messages_proof_overhead) in
  check? assert_nonzero (proof_size receive_messages_proof_overhead) in
  check? assert_zero (proof_size (receive_messages_proof_messages_overhead 1)) in
  check? assert_zero (proof_size receive_messages_proof_outbound_lane_state_overhead) in
  check? assert_nonzero (ref_time (storage_proof_size_overhead 1)) in
  check? assert_zero (proof_size (storage_proof_size_overhead 1)) in
  check? assert_nonzero (ref_time receive_messages_delivery_proof_overhead) in
  check? assert_nonzero (proof_size receive_messages_delivery_proof_overhead) in
  check? assert_zero (proof_size (receive_messages_delivery_proof_messages_overhead 1)) in
  check? assert_nonzero (ref_time (receive_messages_delivery_proof_relayers_overhead 1)) in
  check? assert_nonzero (ref_time (storage_proof_size_overhead 1)) in
  check? assert_zero (proof_size (storage_proof_size_overhead 1)) in
  let receive_messages_proof_weight :=
    receive_messages_proof_weight (precomputed_size 1) 10 weight_zero in
  check? assert_nonzero (ref_time receive_messages_proof_weight) in
  check? assert_nonzero (proof_size receive_messages_proof_weight) in
  check? messages_proof_size_does_not_affect_proof_size in
  check? messages_count_does_not_affect_proof_size in
  let receive_messages_delivery_proof_weight :=
    receive_messages_delivery_proof_weight (precomputed_size 1) (RelayersState 0 0 0 0) in
  check? assert_nonzero (ref_time receive_messages_delivery_proof_weight) in
  check? assert_nonzero (proof_size receive_messages_delivery_proof_weight) in
  check? messages_delivery_proof_size_does_not_affect_proof_size in
  total_messages_in_delivery_proof_does_not_affect_proof_size.

Definition ensure_able_to_receive_message (max_extrinsic_size : Z)
  (max_extrinsic_weight : Weight) (max_incoming_message_proof_size : Z)
  (max_incoming_message_dispatch_weight : Weight) : outcome Empty_set unit :=
  let max_delivery_transaction_size :=
    saturating_add u32_max max_incoming_message_proof_size SIGNED_EXTENSIONS_SIZE in
  check? assert (max_delivery_transaction_size <=? max_extrinsic_size) in
  let max_delivery_transaction_dispatch_weight :=
    receive_messages_proof_weight
      (precomputed_size
         (wrapping_add u32_max max_incoming_message_proof_size expected_extra_storage_proof_size))
      1 max_incoming_message_dispatch_weight in
  assert (all_lte max_delivery_transaction_dispatch_weight max_extrinsic_weight).

Definition ensure_able_to_receive_confirmation (max_extrinsic_size : Z)
  (max_extrinsic_weight : Weight) (max_inbound_lane_data_proof_size_from_peer_chain : Z)
  (max_unrewarded_relayer_entries_at_peer_inbound_lane
   max_unconfirmed_messages_at_inbound_lane : MessageNonce) : outcome Empty_set unit :=
  let max_confirmation_transaction_size :=
    saturating_add u32_max max_inbound_lane_data_proof_size_from_peer_chain
      SIGNED_EXTENSIONS_SIZE in
  check? assert (max_confirmation_transaction_size <=? max_extrinsic_size) in
  let max_confirmation_transaction_dispatch_weight :=
    receive_messages_delivery_proof_weight
      (precomputed_size max_inbound_lane_data_proof_size_from_peer_chain)
      (RelayersState max_unrewarded_relayer_entries_at_peer_inbound_lane 0
         max_unconfirmed_messages_at_inbound_lane 0) in
  assert (all_lte max_confirmation_transaction_dispatch_weight max_extrinsic_weight).
End Formulae.

(** ** The weights of weights.rs *)

Definition benchmarked `{WeightOps} (db : RuntimeDbWeight) (a b r w : Z) : Weight :=
  weight_saturating_add (weight_saturating_add (from_parts a b) (reads db r)) (writes db w).

(** [BridgeWeight<T>], with the database weights of the runtime. *)
Definition BridgeWeight `{WeightOps} (db : RuntimeDbWeight) : WeightInfoExt :=
  {| receive_single_message_proof := benchmarked db 50422000 54703 4 2;
     receive_two_messages_proof := benchmarked db 61726000 54703 4 2;
     receive_single_message_proof_with_outbound_lane_state := benchmarked db 54351000 54703 4 2;
     receive_single_message_proof_1_kb := benchmarked db 51306000 54200 3 1;
     receive_single_message_proof_16_kb := benchmarked db 77006000 54200 3 1;
     receive_delivery_proof_for_single_message := benchmarked db 42863000 5624 4 2;
     receive_delivery_proof_for_two_messages_by_single_relayer :=
       benchmarked db 42165000 5624 4 2;
     receive_delivery_proof_for_two_messages_by_two_relayers := benchmarked db 44657000 8164 5 3;
     expected_extra_storage_proof_size := EXTRA_STORAGE_PROOF_SIZE |}.

(** ** Monotonicity of the formulae *)

Section Monotone.
Context `{WeightLaws}.

Lemma weight_saturating_add_le (w1 w1' w2 w2' : Weight) :
  weight_le w1 w1' -> weight_le w2 w2' ->
  weight_le (weight_saturating_add w1 w2) (weight_saturating_add w1' w2').
Proof. intros [] []. split; autorewrite with bridge; word. Qed.

Lemma weight_saturating_mul_le (w : Weight) (n n' : Z) :
  0 <= n <= n' -> n' <= u64_max ->
  weight_le (weight_saturating_mul w n) (weight_saturating_mul w n').
Proof.
  intros Hn Hn'. pose proof (ref_time_u64 w). pose proof (proof_size_u64 w). unfold is_u64 in *.
  split; [rewrite !ref_time_saturating_mul|rewrite !proof_size_saturating_mul];
    try word; unfold saturating_mul; nia.
Qed.

Context {Info : WeightInfoExt}.

(** The weight of a byte of proof can be charged for every 32-bit size. *)
Record byte_weight_ok : Prop := {
  bw_monotone : weight_le receive_single_message_proof_1_kb receive_single_message_proof_16_kb;
  bw_ref_time : (ref_time receive_single_message_proof_16_kb
    - ref_time receive_single_message_proof_1_kb) / (15 * 1024) * u32_max <= u64_max;
  bw_proof_size : (proof_size receive_single_message_proof_16_kb
    - proof_size receive_single_message_proof_1_kb) / (15 * 1024) * u32_max <= u64_max;
  bw_extra : is_u32 expected_extra_storage_proof_size;
}.

Lemma storage_proof_size_overhead_components (n : Z) :
  byte_weight_ok -> 0 <= n <= u32_max ->
  ref_time (storage_proof_size_overhead n) =
    (ref_time receive_single_message_proof_16_kb - ref_time receive_single_message_proof_1_kb)
      / (15 * 1024) * n /\
  proof_size (storage_proof_size_overhead n) =
    (proof_size receive_single_message_proof_16_kb - proof_size receive_single_message_proof_1_kb)
      / (15 * 1024) * n.
Proof.
  intros [[Hr Hp] Hbr Hbp _] Hn. unfold storage_proof_size_overhead.
  set (d := weight_sub _ _).
  assert (ref_time d = ref_time receive_single_message_proof_16_kb
    - ref_time receive_single_message_proof_1_kb) as Hd by (apply ref_time_sub; lia).
  assert (proof_size d = proof_size receive_single_message_proof_16_kb
    - proof_size receive_single_message_proof_1_kb) as Hd' by (apply proof_size_sub; lia).
  rewrite <- Hd in Hbr |- *. rewrite <- Hd' in Hbp |- *.
  pose proof (Z.div_pos (ref_time d) (15 * 1024) ltac:(lia) ltac:(lia)).
  pose proof (Z.div_pos (proof_size d) (15 * 1024) ltac:(lia) ltac:(lia)).
  split; [rewrite ref_time_mul|rewrite proof_size_mul];
    rewrite ?ref_time_div, ?proof_size_div by word; try lia; nia.
Qed.

Lemma storage_proof_size_overhead_le (n n' : Z) :
  byte_weight_ok -> 0 <= n <= n' -> n' <= u32_max ->
  weight_le (storage_proof_size_overhead n) (storage_proof_size_overhead n').
Proof.
  intros Hok Hn Hn'.
  destruct (storage_proof_size_overhead_components n Hok) as [Hr Hp]; [lia|].
  destruct (storage_proof_size_overhead_components n' Hok) as [Hr' Hp']; [lia|].
  destruct Hok as [[] _ _ _].
  split; rewrite ?Hr, ?Hr', ?Hp, ?Hp'; apply Z.mul_le_mono_nonneg_l; try lia;
    apply Z.div_pos; lia.
Qed.

Lemma receive_messages_proof_weight_le (size size' count : Z) (w w' : Weight) :
  byte_weight_ok -> 0 <= size <= size' -> size' <= u32_max -> weight_le w w' ->
  weight_le (receive_messages_proof_weight size count w)
    (receive_messages_proof_weight size' count w').
Proof.
  intros Hok Hs Hs' Hw.
  unfold receive_messages_proof_weight, EXPECTED_DEFAULT_MESSAGE_LENGTH. cbv zeta.
  repeat apply weight_saturating_add_le; try reflexivity; [done|].
  pose proof (bw_extra Hok). apply storage_proof_size_overhead_le; [done|word..].
Qed.

Lemma receive_messages_delivery_proof_weight_le (size size' : Z) (r r' : UnrewardedRelayersState) :
  byte_weight_ok -> 0 <= size <= size' -> size' <= u32_max ->
  0 <= rs_total_messages r <= rs_total_messages r' -> is_u64 (rs_total_messages r') ->
  0 <= unrewarded_relayer_entries r <= unrewarded_relayer_entries r' ->
  is_u64 (unrewarded_relayer_entries r') ->
  weight_le (receive_messages_delivery_proof_weight size r)
    (receive_messages_delivery_proof_weight size' r').
Proof.
  intros Hok Hs Hs' Ht Ht' He He'. unfold receive_messages_delivery_proof_weight. cbv zeta.
  pose proof (bw_extra Hok).
  repeat apply weight_saturating_add_le; try reflexivity.
  - apply weight_saturating_mul_le; word.
  - apply weight_saturating_mul_le; word.
  - apply storage_proof_size_overhead_le; [done|word..].
Qed.
End Monotone.

Lemma assert_Ok (b : bool) (u : unit) : assert b = Ok u <-> b = true.
Proof. destruct b, u; naive_solver. Qed.

Lemma assert_zero_Ok (x : Z) : x = 0 -> assert_zero x = Ok tt.
Proof. by intros ->. Qed.

Lemma assert_nonzero_Ok (x : Z) : x <> 0 -> assert_nonzero x = Ok tt.
Proof. intros Hx. unfold assert_nonzero. by rewrite (proj2 (Z.eqb_neq _ _) Hx). Qed.

Lemma all_lte_weight_le `{WeightLaws} (w1 w2 : Weight) : all_lte w1 w2 = true <-> weight_le w1 w2.
Proof. rewrite all_lte_spec. unfold weight_le. lia. Qed.

(** ** The shipped weights *)

(** Comparisons of closed numbers. *)
Ltac closed := vm_compute; repeat split; discriminate.

Section Shipped.
Context `{WeightLaws} (db : RuntimeDbWeight).
Hypothesis (Hread : 0 <= db_read db <= 2 ^ 56) (Hwrite : 0 <= db_write db <= 2 ^ 56).
#[local] Instance shipped : WeightInfoExt := BridgeWeight db.

Lemma benchmarked_ref_time (a b r w : Z) :
  0 <= a <= 2 ^ 32 -> 0 <= r <= 5 -> 0 <= w <= 5 ->
  ref_time (benchmarked db a b r w) = a + db_read db * r + db_write db * w.
Proof.
  intros Ha Hr Hw. unfold benchmarked. rewrite !ref_time_saturating_add, ref_time_reads,
    ref_time_writes, ref_time_from_parts by word.
  unfold saturating_add, saturating_mul, u64_max. nia.
Qed.

Lemma benchmarked_proof_size (a b r w : Z) :
  0 <= b <= 2 ^ 32 -> proof_size (benchmarked db a b r w) = b.
Proof.
  intros Hb. unfold benchmarked. autorewrite with bridge.
  rewrite proof_size_from_parts by word. word.
Qed.

Lemma shipped_byte_weight_ok : byte_weight_ok.
Proof.
  split; [split|..]; simpl; rewrite ?benchmarked_ref_time, ?benchmarked_proof_size by lia;
    try lia; try word.
  - replace (_ - _) with 25700000 by lia. vm_compute. congruence.
  - vm_compute. congruence.
  - unfold EXTRA_STORAGE_PROOF_SIZE. word.
Qed.

Lemma shipped_storage_proof_size_overhead (n : Z) :
  0 <= n <= u32_max ->
  ref_time (storage_proof_size_overhead n) = 1673 * n /\
  proof_size (storage_proof_size_overhead n) = 0.
Proof.
  intros Hn. destruct (storage_proof_size_overhead_components n shipped_byte_weight_ok Hn)
    as [-> ->].
  simpl. rewrite !benchmarked_ref_time, !benchmarked_proof_size by lia.
  replace (_ - _) with 25700000 by lia. done.
Qed.

(** The single components of the formulae. *)
Lemma shipped_proof_overheads (n : Z) :
  is_u64 n ->
  0 < ref_time receive_messages_proof_overhead /\
  proof_size receive_messages_proof_overhead = 54703 /\
  proof_size (receive_messages_proof_messages_overhead n) = 0 /\
  proof_size receive_messages_proof_outbound_lane_state_overhead = 0.
Proof.
  intros Hn. unfold receive_messages_proof_overhead, receive_messages_proof_messages_overhead,
    receive_messages_proof_outbound_lane_state_overhead. simpl.
  rewrite !proof_size_saturating_mul, !ref_time_saturating_sub, !proof_size_saturating_sub by done.
  rewrite !ref_time_saturating_mul, !proof_size_saturating_mul by word.
  rewrite !benchmarked_ref_time, !benchmarked_proof_size by lia. word.
Qed.

Lemma shipped_delivery_overheads (n m : Z) :
  is_u64 n -> 0 <= m <= 1 ->
  0 < ref_time receive_messages_delivery_proof_overhead /\
  proof_size receive_messages_delivery_proof_overhead = 5624 /\
  proof_size (receive_messages_delivery_proof_messages_overhead n) = 0 /\
  proof_size (receive_messages_delivery_proof_relayers_overhead m) = 2540 * m /\
  0 < ref_time (receive_messages_delivery_proof_relayers_overhead 1).
Proof.
  intros Hn Hm. unfold receive_messages_delivery_proof_overhead,
    receive_messages_delivery_proof_messages_overhead,
    receive_messages_delivery_proof_relayers_overhead. simpl.
  rewrite (proof_size_saturating_mul _ n), (proof_size_saturating_mul _ m),
    (ref_time_saturating_mul _ 1) by word.
  rewrite !ref_time_saturating_sub, !proof_size_saturating_sub.
  rewrite !ref_time_saturating_mul, !proof_size_saturating_mul by word.
  rewrite !benchmarked_ref_time, !benchmarked_proof_size by lia. word.
Qed.

Lemma saturating_add_pos (w1 w2 : Weight) :
  0 < ref_time w1 -> 0 < ref_time (weight_saturating_add w1 w2).
Proof. intros Hw. pose proof (ref_time_u64 w2). rewrite ref_time_saturating_add. word. Qed.

Lemma shipped_proof_weight (size count : Z) :
  0 <= size <= u32_max -> 0 <= count <= u32_max ->
  0 < ref_time (receive_messages_proof_weight size count weight_zero) /\
  proof_size (receive_messages_proof_weight size count weight_zero) = 54703.
Proof.
  intros Hs Hc. destruct (shipped_proof_overheads count) as (Hr & H1 & H2 & H3); [word|].
  unfold receive_messages_proof_weight. cbv zeta. set (over := saturating_sub size _).
  assert (0 <= over <= u32_max) as Hover
    by (unfold over, EXPECTED_DEFAULT_MESSAGE_LENGTH; simpl;
        unfold EXTRA_STORAGE_PROOF_SIZE; word).
  destruct (shipped_storage_proof_size_overhead over Hover) as [_ Ho].
  split; [by repeat apply saturating_add_pos|].
  rewrite !proof_size_saturating_add, H1, H2, H3, Ho, weight_zero_proof_size. done.
Qed.

Lemma shipped_delivery_proof_weight (size total entries : Z) :
  0 <= size <= u32_max -> is_u64 total -> 0 <= entries <= 1 ->
  let w := receive_messages_delivery_proof_weight size
             (RelayersState entries entries total entries) in
  0 < ref_time w /\ proof_size w = 5624 + 2540 * entries.
Proof.
  intros Hs Ht He w. unfold w, receive_messages_delivery_proof_weight. cbv zeta. simpl.
  destruct (shipped_delivery_overheads total entries) as (Hr & H1 & H2 & H3 & _); [done|done|].
  set (over := saturating_sub size _).
  assert (0 <= over <= u32_max) as Hover by (unfold over, EXTRA_STORAGE_PROOF_SIZE; word).
  destruct (shipped_storage_proof_size_overhead over Hover) as [_ Ho].
  split; [by repeat apply saturating_add_pos|].
  rewrite !proof_size_saturating_add, H1, H2, H3, Ho. word.
Qed.

Lemma same_proof_size_Ok (w1 w2 : Weight) (n : Z) :
  0 < n -> 0 < ref_time w1 /\ proof_size w1 = n -> 0 < ref_time w2 /\ proof_size w2 = n ->
  ensure_same_proof_size w1 w2 = Ok tt.
Proof.
  intros Hn [Hr1 Hp1] [Hr2 Hp2].
  unfold ensure_same_proof_size, ensure_weight_components_are_not_zero,
    ensure_proof_size_is_the_same, assert_nonzero, assert.
  rewrite Hp1, Hp2, Z.eqb_refl, !(proj2 (Z.eqb_neq _ _)) by lia. done.
Qed.
End Shipped.

(** ** Properties *)

(** When the startup check passes, every delivery transaction with one message fits: the
    maximal proof and the signed extensions fit into an extrinsic, and whatever the
    size of the proof, up to the maximum plus the expected storage proof overhead,
    and whatever the dispatch weight up to the maximum, the call weighs at most the
    maximal extrinsic weight. *)
Theorem able_to_receive_message_sound `{WeightLaws} {Info : WeightInfoExt}
  (max_size : Z) (max_weight : Weight) (max_proof : Z) (max_dispatch : Weight) :
  byte_weight_ok -> 0 <= max_proof -> max_proof + expected_extra_storage_proof_size <= u32_max ->
  max_size < u32_max ->
  ensure_able_to_receive_message max_size max_weight max_proof max_dispatch = Ok tt ->
  max_proof + SIGNED_EXTENSIONS_SIZE <= max_size /\
  forall size dispatch_weight,
    0 <= size <= max_proof + expected_extra_storage_proof_size ->
    weight_le dispatch_weight max_dispatch ->
    weight_le (receive_messages_proof_weight size 1 dispatch_weight) max_weight.
Proof.
  intros Hok Hp Hsum Hsize (? & Hs%assert_Ok & Hw%assert_Ok)%obind_Ok.
  apply all_lte_weight_le in Hw. pose proof (bw_extra Hok). split; [word|].
  intros size dw Hle Hdw. etrans; [|exact Hw].
  rewrite wrapping_add_small by word.
  unfold precomputed_size. rewrite (proj2 (Z.leb_le _ _)) by word.
  apply receive_messages_proof_weight_le; [done|word|word|done].
Qed.

(** When the startup check passes, every confirmation transaction fits: for every delivery
    proof up to the maximal size, with at most the maximal number of unrewarded
    relayers and of unconfirmed messages, the call weighs at most the maximal
    extrinsic weight. *)
Theorem able_to_receive_confirmation_sound `{WeightLaws} {Info : WeightInfoExt}
  (max_size : Z) (max_weight : Weight) (max_proof max_entries max_messages : Z) :
  byte_weight_ok -> is_u32 max_proof -> is_u64 max_entries -> is_u64 max_messages ->
  max_size < u32_max ->
  ensure_able_to_receive_confirmation max_size max_weight max_proof max_entries max_messages
    = Ok tt ->
  max_proof + SIGNED_EXTENSIONS_SIZE <= max_size /\
  forall size relayers_state,
    0 <= size <= max_proof ->
    0 <= unrewarded_relayer_entries relayers_state <= max_entries ->
    0 <= rs_total_messages relayers_state <= max_messages ->
    weight_le (receive_messages_delivery_proof_weight size relayers_state) max_weight.
Proof.
  intros Hok Hp He Hm Hsize (? & Hs%assert_Ok & Hw%assert_Ok)%obind_Ok.
  apply all_lte_weight_le in Hw. split; [word|].
  intros size rs Hle Hentries Hmessages. etrans; [|exact Hw].
  unfold precomputed_size. rewrite (proj2 (Z.leb_le _ _)) by word.
  apply receive_messages_delivery_proof_weight_le; simpl; try done; word.
Qed.

(** The weights that ship with the pallet pass the startup check, whatever the database
    weights of the runtime are (as long as they leave the formulae room to not
    saturate). *)
Theorem bridge_weight_is_correct `{WeightLaws} (db : RuntimeDbWeight) :
  0 <= db_read db <= 2 ^ 56 -> 0 <= db_write db <= 2 ^ 56 ->
  ensure_weights_are_correct (Info := BridgeWeight db) = Ok tt.
Proof.
  intros Hread Hwrite.
  destruct (shipped_storage_proof_size_overhead db Hread Hwrite 1) as [Hov1 Hov2]; [word|].
  destruct (shipped_proof_overheads db Hread Hwrite 1) as (H1 & H2 & H3 & H4); [word|].
  destruct (shipped_delivery_overheads db Hread Hwrite 1 1) as (H5 & H6 & H7 & _ & H8); [word|lia|].
  pose proof (fun size count => shipped_proof_weight db Hread Hwrite size count) as Hw.
  pose proof (fun size n m => shipped_delivery_proof_weight db Hread Hwrite size n m) as Hd.
  assert (messages_proof_size_does_not_affect_proof_size (Info := BridgeWeight db) = Ok tt) as E1
    by (apply (same_proof_size_Ok _ _ 54703); [lia|apply Hw; closed..]).
  assert (messages_count_does_not_affect_proof_size (Info := BridgeWeight db) = Ok tt) as E2
    by (apply (same_proof_size_Ok _ _ 54703); [lia|apply Hw; closed..]).
  assert (messages_delivery_proof_size_does_not_affect_proof_size (Info := BridgeWeight db)
    = Ok tt) as E3 by (apply (same_proof_size_Ok _ _ 8164); [lia|apply (Hd _ _ 1); closed..]).
  assert (total_messages_in_delivery_proof_does_not_affect_proof_size (Info := BridgeWeight db)
    = Ok tt) as E4 by (apply (same_proof_size_Ok _ _ 8164); [lia|apply (Hd _ _ 1); closed..]).
  unfold ensure_weights_are_correct. cbv zeta. rewrite E1, E2, E3, E4.
  destruct (Hw (precomputed_size 1) 10) as [Hw1 Hw2]; [closed|closed|].
  destruct (Hd (precomputed_size 1) 0 0) as [Hd1 Hd2]; [closed|closed|lia|].
  unfold shipped in *. rewrite !assert_nonzero_Ok, !assert_zero_Ok by lia. done.
Qed.

(** Witnesses: the shipped weights with the RocksDB weights. *)
Definition rocks_db : RuntimeDbWeight := {| db_read := 25000000; db_write := 100000000 |}.

Lemma bridge_weight_is_correct_witness :
  ensure_weights_are_correct (Info := BridgeWeight rocks_db) = Ok tt.
Proof. apply (bridge_weight_is_correct rocks_db); simpl; lia. Defined.

Lemma able_to_receive_message_sound_witness :
  weight_le
    (receive_messages_proof_weight (Info := BridgeWeight rocks_db) 3000 1 (from_parts 5 5))
    (from_parts (10 ^ 12) (10 ^ 6)).
Proof.
  refine (proj2 (able_to_receive_message_sound (Info := BridgeWeight rocks_db) 10000
    (from_parts (10 ^ 12) (10 ^ 6)) 4000 (from_parts 1000 1000) _ _ _ _ _) 3000 (from_parts 5 5) _ _).
  - apply shipped_byte_weight_ok; simpl; lia.
  - lia.
  - simpl. unfold EXTRA_STORAGE_PROOF_SIZE. word.
  - word.
  - reflexivity.
  - simpl. unfold EXTRA_STORAGE_PROOF_SIZE. lia.
  - split; [rewrite !ref_time_from_parts|rewrite !proof_size_from_parts]; word.
Defined.

Lemma able_to_receive_confirmation_sound_witness :
  weight_le
    (receive_messages_delivery_proof_weight (Info := BridgeWeight rocks_db) 3000
       (RelayersState 2 1 5 5))
    (from_parts (10 ^ 13) (10 ^ 7)).
Proof.
  refine (proj2 (able_to_receive_confirmation_sound (Info := BridgeWeight rocks_db) 10000
    (from_parts (10 ^ 13) (10 ^ 7)) 4000 128 1024 _ _ _ _ _ _) 3000 (RelayersState 2 1 5 5) _ _ _).
  - apply shipped_byte_weight_ok; simpl; lia.
  - word.
  - word.
  - word.
  - word.
  - reflexivity.
  - lia.
  - simpl. lia.
  - simpl. lia.
Defined.
