(* ===== verification/MessagesPallet.v ===== *)
(** * modules/messages/src/lib.rs: the messages pallet

    The pallet's storage, its calls and hooks, and the two runtime lane storages
    that plug the lanes of [InboundLane] and [OutboundLane] into it.

    The storage is split in two: the map [InboundLanes], and [rest], everything
    else of the chain's state.  Dispatching a message runs on [rest]: it may send
    messages, deposit events or change any other pallet, but does not touch
    [InboundLanes] (that would take a delivery transaction nested in a message).
    The traits of the configuration (header chains, verifiers, payments) are
    classes; they read and change the state [X] of the other pallets. *)

From S2P Require Import Prelude Substrate RuntimePrimitives MessagesPrimitives.
From S2P Require Import OutboundLane InboundLane MessagesWeights.
From stdpp Require Import base numbers list gmap.
Local Open Scope Z_scope.

(** ** The configuration *)

(** The constants of [Config], the lengths the codec knows ([usize::MAX], the
    maximal encoded length of a nonce and of a relayer id) and [T::DbWeight]. *)
Class MessagesConstants := {
  ActiveOutboundLanes : list LaneId;
  MaxUnrewardedRelayerEntriesAtInboundLane : Z;
  MaxUnconfirmedMessagesAtInboundLane : Z;
  MaximalOutboundPayloadSize : Z;
  DbWeight : RuntimeDbWeight;
  usize_max : Z;
  nonce_len : Z;
  relayer_id_len : Z;
}.

Record ProvedLaneMessages (M : Type) := Proved {
  lane_state : option OutboundLaneData;
  lane_messages : list M;
}.
Arguments Proved {M} _ _.
Arguments lane_state {M} _.
Arguments lane_messages {M} _.

(** [BTreeMap<LaneId, ProvedLaneMessages>]: the entries in the order of iteration,
    which is the order of the keys, without duplicates. *)
Definition ProvedMessages (M : Type) : Type := list (LaneId * ProvedLaneMessages M).

Class SourceHeaderChain (MessagesProof X : Type) := {
  messages_proof_size : MessagesProof -> Z;
  verify_messages_proof : MessagesProof -> Z -> X -> option (ProvedMessages Message);
}.

Class TargetHeaderChain (OutboundPayload AccountId DeliveryProof X : Type) := {
  delivery_proof_size : DeliveryProof -> Z;
  chain_verify_message : OutboundPayload -> bool;
  verify_messages_delivery_proof :
    DeliveryProof -> X -> option (LaneId * InboundLaneData AccountId);
}.

Class LaneMessageVerifier (OutboundPayload AccountId X : Type) := {
  lane_verify_message :
    RawOrigin AccountId -> LaneId -> OutboundLaneData -> OutboundPayload -> X -> bool;
}.

Class DeliveryPayments `{WeightOps} (AccountId X : Type) := {
  delivery_pay_reward : AccountId -> MessageNonce -> MessageNonce -> Weight -> X -> X;
}.

Class DeliveryConfirmationPayments (AccountId X : Type) := {
  confirmation_pay_reward :
    LaneId -> list (UnrewardedRelayer AccountId) -> AccountId -> MessageNonce * MessageNonce ->
    X -> X;
}.

(** [payload.encode()] and [DispatchPayload::decode]. *)
Class PayloadCodec (OutboundPayload InboundPayload : Type) := {
  encode_payload : OutboundPayload -> list Z;
  decode_payload : list Z -> option InboundPayload;
}.

(** ** Storage *)

Inductive Event `{WeightOps} (L : Type) :=
| MessageAccepted (lane_id : LaneId) (nonce : MessageNonce)
| MessagesReceived (status : list (ReceivedMessages L))
| MessagesDelivered (lane_id : LaneId) (messages : DeliveredMessages).
Arguments MessageAccepted {_ L} _ _.
Arguments MessagesReceived {_ L} _.
Arguments MessagesDelivered {_ L} _ _.

Inductive Error :=
| NotOperatingNormally
| InactiveOutboundLane
| MessageIsTooLarge
| MessageRejectedByChainVerifier
| MessageRejectedByLaneVerifier
| FailedToWithdrawMessageFee
| TooManyMessagesInTheProof
| InvalidMessagesProof
| InvalidMessagesDeliveryProof
| InvalidUnrewardedRelayers
| InvalidUnrewardedRelayersState
| MessageIsAlreadyDelivered
| MessageIsNotYetSent
| TryingToConfirmMoreMessagesThanExpected_
| BridgeModule (e : OwnedBridgeModuleError).

Section Storage.
Context `{WeightOps} (AccountId InboundRelayer L X : Type).

Record rest := Rest {
  PalletOwner : option AccountId;
  PalletOperatingMode : MessagesOperatingMode;
  OutboundLanes : gmap LaneId OutboundLaneData;
  OutboundMessages : gmap MessageKey (list Z);
  events : list (Event L);
  external : X;
}.

Record pallet := Pallet {
  InboundLanes : gmap LaneId (InboundLaneData InboundRelayer);
  pallet_rest : rest;
}.
End Storage.
Arguments Rest {_ AccountId L X} _ _ _ _ _ _.
Arguments PalletOwner {_ AccountId L X} _.
Arguments PalletOperatingMode {_ AccountId L X} _.
Arguments OutboundLanes {_ AccountId L X} _.
Arguments OutboundMessages {_ AccountId L X} _.
Arguments events {_ AccountId L X} _.
Arguments external {_ AccountId L X} _.
Arguments Pallet {_ AccountId InboundRelayer L X} _ _.
Arguments InboundLanes {_ AccountId InboundRelayer L X} _.
Arguments pallet_rest {_ AccountId InboundRelayer L X} _.

Section Updates.
Context `{WeightOps} {AccountId InboundRelayer L X : Type}.
Abbreviation rest := (rest AccountId L X).
Abbreviation pallet := (pallet AccountId InboundRelayer L X).

Definition deposit_event (e : Event L) (r : rest) : rest :=
  Rest (PalletOwner r) (PalletOperatingMode r) (OutboundLanes r) (OutboundMessages r)
    (events r ++ [e]) (external r).

Definition put_outbound (lanes : gmap LaneId OutboundLaneData)
  (messages : gmap MessageKey (list Z)) (r : rest) : rest :=
  Rest (PalletOwner r) (PalletOperatingMode r) lanes messages (events r) (external r).

Definition set_external (x : X) (r : rest) : rest :=
  Rest (PalletOwner r) (PalletOperatingMode r) (OutboundLanes r) (OutboundMessages r)
    (events r) x.

(** [OwnedBridgeModule] for the pallet. *)
#[global] Instance messages_module : OwnedBridgeModule pallet AccountId MessagesOperatingMode := {|
  owner_storage p := PalletOwner (pallet_rest p);
  put_owner o p :=
    let r := pallet_rest p in
    Pallet (InboundLanes p)
      (Rest o (PalletOperatingMode r) (OutboundLanes r) (OutboundMessages r) (events r)
         (external r));
  operating_mode_storage p := PalletOperatingMode (pallet_rest p);
  put_operating_mode m p :=
    let r := pallet_rest p in
    Pallet (InboundLanes p)
      (Rest (PalletOwner r) m (OutboundLanes r) (OutboundMessages r) (events r) (external r));
|}.

#[global] Instance messages_module_laws :
  OwnedBridgeModuleLaws pallet AccountId MessagesOperatingMode.
Proof. by split. Qed.
End Updates.

(** ** Lane storages *)

Section LaneStorages.
Context `{WeightOps} `{MessagesConstants} {AccountId InboundRelayer L X : Type}.
Abbreviation rest := (rest AccountId L X).

(** [RuntimeInboundLaneStorage]: the storage map, and the cell of cached data. *)
Record RuntimeInboundLaneStorage := RuntimeInbound {
  ri_lane_id : LaneId;
  cached_data : option (InboundLaneData InboundRelayer);
  ri_lanes : gmap LaneId (InboundLaneData InboundRelayer);
}.

Definition inbound_lane_storage (lane_id : LaneId)
  (lanes : gmap LaneId (InboundLaneData InboundRelayer)) : RuntimeInboundLaneStorage :=
  RuntimeInbound lane_id None lanes.

Definition get_inbound (lanes : gmap LaneId (InboundLaneData InboundRelayer)) (lane_id : LaneId) :
  InboundLaneData InboundRelayer :=
  default inbound_default (lanes !! lane_id).

Definition inbound_storage_data (s : RuntimeInboundLaneStorage) :
  InboundLaneData InboundRelayer * RuntimeInboundLaneStorage :=
  match cached_data s with
  | Some data => (data, s)
  | None =>
      let data := get_inbound (ri_lanes s) (ri_lane_id s) in
      (data, RuntimeInbound (ri_lane_id s) (Some data) (ri_lanes s))
  end.

Definition inbound_storage_set_data (data : InboundLaneData InboundRelayer)
  (s : RuntimeInboundLaneStorage) : RuntimeInboundLaneStorage :=
  RuntimeInbound (ri_lane_id s) (Some data) (<[ri_lane_id s := data]> (ri_lanes s)).

#[global] Instance runtime_inbound_storage :
  InboundLaneStorage RuntimeInboundLaneStorage InboundRelayer := {|
  il_id := ri_lane_id;
  il_max_unrewarded_relayer_entries _ := MaxUnrewardedRelayerEntriesAtInboundLane;
  il_max_unconfirmed_messages _ := MaxUnconfirmedMessagesAtInboundLane;
  il_data := inbound_storage_data;
  il_set_data := inbound_storage_set_data;
|}.

#[global] Instance runtime_inbound_storage_laws :
  InboundLaneStorageLaws RuntimeInboundLaneStorage InboundRelayer.
Proof.
  split; try done; intros s; simpl; unfold inbound_storage_data; by destruct (cached_data s) eqn:E;
    simpl; rewrite ?E.
Qed.

(** [StoredInboundLaneData::max_encoded_len]. *)
Definition max_encoded_len : Z :=
  default usize_max
    (encoded_size_hint usize_max nonce_len relayer_id_len
       (MaxUnrewardedRelayerEntriesAtInboundLane mod (usize_max + 1))).

Definition extra_proof_size_bytes (s : RuntimeInboundLaneStorage) :
  Z * RuntimeInboundLaneStorage :=
  let '(data, s) := inbound_storage_data s in
  let relayers_count := Z.of_nat (length (relayers data)) in
  let actual_encoded_len :=
    default usize_max (encoded_size_hint usize_max nonce_len relayer_id_len relayers_count) in
  (saturating_sub max_encoded_len actual_encoded_len, s).

(** [RuntimeOutboundLaneStorage]. *)
Record RuntimeOutboundLaneStorage := RuntimeOutbound {
  ro_lane_id : LaneId;
  ro_rest : rest;
}.

Definition outbound_lane (lane_id : LaneId) (r : rest) : RuntimeOutboundLaneStorage :=
  RuntimeOutbound lane_id r.

#[global] Instance runtime_outbound_storage : OutboundLaneStorage RuntimeOutboundLaneStorage := {|
  ol_id := ro_lane_id;
  ol_data s := default outbound_default (OutboundLanes (ro_rest s) !! ro_lane_id s);
  ol_set_data d s :=
    RuntimeOutbound (ro_lane_id s)
      (put_outbound (<[ro_lane_id s := d]> (OutboundLanes (ro_rest s)))
         (OutboundMessages (ro_rest s)) (ro_rest s));
  ol_message n s := OutboundMessages (ro_rest s) !! MessageKey_ (ro_lane_id s) n;
  ol_save_message n p s :=
    if Z.of_nat (length p) <=? MaximalOutboundPayloadSize
    then Some (RuntimeOutbound (ro_lane_id s)
           (put_outbound (OutboundLanes (ro_rest s))
              (<[MessageKey_ (ro_lane_id s) n := p]> (OutboundMessages (ro_rest s))) (ro_rest s)))
    else None;
  ol_remove_message n s :=
    RuntimeOutbound (ro_lane_id s)
      (put_outbound (OutboundLanes (ro_rest s))
         (delete (MessageKey_ (ro_lane_id s) n) (OutboundMessages (ro_rest s))) (ro_rest s));
|}.

#[global] Instance runtime_outbound_storage_laws :
  OutboundLaneStorageLaws RuntimeOutboundLaneStorage.
Proof.
  split; simpl; intros.
  - by rewrite lookup_insert_eq.
  - done.
  - by case_match; simplify_eq.
  - case_match; simplify_eq/=. rewrite lookup_insert. repeat case_decide; congruence.
  - done.
  - rewrite lookup_delete. repeat case_decide; congruence.
Qed.
End LaneStorages.
Arguments RuntimeInboundLaneStorage _ : clear implicits.
Arguments RuntimeOutboundLaneStorage {_} _ _ _.

(** ** Calls and hooks *)

Section Calls.
Context `{WeightOps} `{MessagesConstants} {Info : WeightInfoExt}.
Context {AccountId InboundRelayer OutboundPayload P L MessagesProof DeliveryProof X : Type}.
Context `{EqDecision AccountId} `{EqDecision InboundRelayer}.
Abbreviation rest := (rest AccountId L X).
Abbreviation pallet := (pallet AccountId InboundRelayer L X).
Context `{!SourceHeaderChain MessagesProof X}.
Context `{!TargetHeaderChain OutboundPayload AccountId DeliveryProof X}.
Context `{!LaneMessageVerifier OutboundPayload AccountId X}.
Context `{!DeliveryPayments AccountId X} `{!DeliveryConfirmationPayments AccountId X}.
Context `{!PayloadCodec OutboundPayload P} `{!MessageDispatch AccountId P L rest}.

(** [From<Message> for DispatchMessage]. *)
Definition dispatch_message_from (m : Message) : DispatchMessage P :=
  DispatchMessage_ (message_key m) (decode_payload (message_payload m)).

Definition verify_and_decode_messages_proof (proof : MessagesProof) (messages_count : Z) (x : X) :
  option (ProvedMessages (DispatchMessage P)) :=
  messages_by_lane ← verify_messages_proof proof messages_count x;
  Some (map (fun '(lane, lane_data) =>
          (lane, Proved (lane_state lane_data)
                   (map dispatch_message_from (lane_messages lane_data)))) messages_by_lane).

(** The local variables of [receive_messages_proof] inside the loops. *)
Record batch := Batch {
  b_lane : RuntimeInboundLaneStorage InboundRelayer;
  b_rest : rest;
  b_status : ReceivedMessages L;
  b_stopped : bool;
  dispatch_weight_left : Weight;
  b_actual_weight : Weight;
  total : Z;
  valid : Z;
}.

(** The body of the loop over the messages of a lane. *)
Definition receive_one (relayer_at_bridged_chain : InboundRelayer)
  (relayer_at_this_chain : AccountId) (b : batch) (message : DispatchMessage P) : batch :=
  let total := wrapping_add u64_max (total b) 1 in
  let nonce := key_nonce (dispatch_key message) in
  if b_stopped b then
    Batch (b_lane b) (b_rest b) (push_skipped_for_not_enough_weight (b_status b) nonce) true
      (dispatch_weight_left b) (b_actual_weight b) total (valid b)
  else
    let '(message_dispatch_weight, message) := dispatch_weight message in
    let nonce := key_nonce (dispatch_key message) in
    if any_gt message_dispatch_weight (dispatch_weight_left b) then
      Batch (b_lane b) (b_rest b) (push_skipped_for_not_enough_weight (b_status b) nonce) true
        (dispatch_weight_left b) (b_actual_weight b) total (valid b)
    else
      let '(receival_result, lane, r) :=
        receive_message (b_lane b) (b_rest b) relayer_at_bridged_chain relayer_at_this_chain
          nonce (dispatch_data message) in
      let '(valid, unspent) :=
        match receival_result with
        | Dispatched dispatch_result =>
            (wrapping_add u64_max (valid b) 1, unspent_weight dispatch_result)
        | _ => (valid b, message_dispatch_weight)
        end in
      let unspent := weight_min unspent message_dispatch_weight in
      Batch lane r (received_push (b_status b) nonce receival_result) false
        (weight_sub (dispatch_weight_left b) (weight_sub message_dispatch_weight unspent))
        (weight_saturating_sub (b_actual_weight b) unspent) total valid.

(** The variables of the loop over the lanes. *)
Record delivery := Delivery {
  d_inbound : gmap LaneId (InboundLaneData InboundRelayer);
  d_rest : rest;
  d_left : Weight;
  d_actual : Weight;
  d_total : Z;
  d_valid : Z;
  d_status : list (ReceivedMessages L);
}.

(** The body of the loop over the lanes. *)
Definition receive_lane (relayer_at_bridged_chain : InboundRelayer)
  (relayer_at_this_chain : AccountId) (d : delivery)
  (entry : LaneId * ProvedLaneMessages (DispatchMessage P)) : delivery :=
  let '(lane_id, lane_data) := entry in
  let lane := inbound_lane_storage lane_id (d_inbound d) in
  let '(lane_extra_proof_size_bytes, lane) := extra_proof_size_bytes lane in
  let actual_weight :=
    set_proof_size (d_actual d)
      (saturating_sub (proof_size (d_actual d)) lane_extra_proof_size_bytes) in
  let lane :=
    match lane_state lane_data with
    | Some lane_state => (receive_state_update lane lane_state).2
    | None => lane
    end in
  let b :=
    foldl (receive_one relayer_at_bridged_chain relayer_at_this_chain)
      (Batch lane (d_rest d) (received_new lane_id []) false (d_left d) actual_weight
         (d_total d) (d_valid d))
      (lane_messages lane_data) in
  Delivery (ri_lanes (b_lane b)) (b_rest b) (dispatch_weight_left b) (b_actual_weight b)
    (total b) (valid b) (d_status d ++ [b_status b]).

Definition receive_messages_proof (p : pallet) (origin : RawOrigin AccountId)
  (relayer_id_at_bridged_chain : InboundRelayer) (proof : MessagesProof) (messages_count : Z)
  (dispatch_weight : Weight) : outcome (DispatchError Error) (PostDispatchInfo * pallet) :=
  check? map_err (fun e => ModuleError (BridgeModule e)) (ensure_not_halted p) in
  let? relayer_id_at_this_chain := ensure_signed origin in
  check? ensure (messages_count <=? MaxUnconfirmedMessagesAtInboundLane)
    (ModuleError TooManyMessagesInTheProof) in
  let declared_weight :=
    receive_messages_proof_weight (messages_proof_size proof) messages_count dispatch_weight in
  let? messages :=
    ok_or (verify_and_decode_messages_proof proof messages_count (external (pallet_rest p)))
      (ModuleError InvalidMessagesProof) in
  let d :=
    foldl (receive_lane relayer_id_at_bridged_chain relayer_id_at_this_chain)
      (Delivery (InboundLanes p) (pallet_rest p) dispatch_weight declared_weight 0 0 [])
      messages in
  let x :=
    delivery_pay_reward relayer_id_at_this_chain (d_total d) (d_valid d) (d_actual d)
      (external (d_rest d)) in
  let r := deposit_event (MessagesReceived (d_status d)) (set_external x (d_rest d)) in
  Ok ({| actual_weight := Some (d_actual d); pays_fee := PaysYes |}, Pallet (d_inbound d) r).

Definition receive_messages_delivery_proof (p : pallet) (origin : RawOrigin AccountId)
  (proof : DeliveryProof) (relayers_state : UnrewardedRelayersState) :
  outcome (DispatchError Error) pallet :=
  check? map_err (fun e => ModuleError (BridgeModule e)) (ensure_not_halted p) in
  let? confirmation_relayer := ensure_signed origin in
  let? (lane_id, lane_data) :=
    ok_or (verify_messages_delivery_proof proof (external (pallet_rest p)))
      (ModuleError InvalidMessagesDeliveryProof) in
  check? ensure
    ((default u64_max (total_unrewarded_messages (relayers lane_data)) =?
        rs_total_messages relayers_state)
     && (Z.of_nat (length (relayers lane_data)) =? unrewarded_relayer_entries relayers_state))
    (ModuleError InvalidUnrewardedRelayersState) in
  check? ensure
    (MessagesPrimitives.last_delivered_nonce lane_data =? rs_last_delivered_nonce relayers_state)
    (ModuleError InvalidUnrewardedRelayersState) in
  let lane := outbound_lane lane_id (pallet_rest p) in
  let last_delivered_nonce := MessagesPrimitives.last_delivered_nonce lane_data in
  let '(result, lane) :=
    confirm_delivery lane (rs_total_messages relayers_state) last_delivered_nonce
      (relayers lane_data) in
  let? confirmed_messages :=
    match result with
    | ConfirmedMessages confirmed_messages => Ok (Some confirmed_messages)
    | NoNewConfirmations => Ok None
    | TryingToConfirmMoreMessagesThanExpected _ =>
        Err (ModuleError TryingToConfirmMoreMessagesThanExpected_)
    | _ => Err (ModuleError InvalidUnrewardedRelayers)
    end in
  let r := ro_rest lane in
  let r :=
    match confirmed_messages with
    | Some confirmed_messages =>
        let r := deposit_event (MessagesDelivered lane_id confirmed_messages) r in
        set_external
          (confirmation_pay_reward lane_id (relayers lane_data) confirmation_relayer
             (dm_begin confirmed_messages, dm_end confirmed_messages) (external r)) r
    | None => r
    end in
  Ok (Pallet (InboundLanes p) r).

Definition ensure_normal_operating_mode (r : rest) : outcome Error unit :=
  if decide (PalletOperatingMode r = Basic Normal) then Ok tt else Err NotOperatingNormally.

Record SendMessageArtifacts := Artifacts { art_nonce : MessageNonce; art_weight : Weight }.

(** [send_message] of the pallet, called from other pallets (also from a message
    dispatch); a failed [expect] in [save_message] is a panic. *)
Definition send_message (r : rest) (submitter : RawOrigin AccountId) (lane_id : LaneId)
  (payload : OutboundPayload) : outcome Error (SendMessageArtifacts * rest) :=
  check? ensure_normal_operating_mode r in
  check? ensure (bool_decide (lane_id ∈ ActiveOutboundLanes)) InactiveOutboundLane in
  check? ensure (chain_verify_message payload) MessageRejectedByChainVerifier in
  let lane := outbound_lane lane_id r in
  check? ensure (lane_verify_message submitter lane_id (ol_data lane) payload (external r))
    MessageRejectedByLaneVerifier in
  let encoded_payload := encode_payload payload in
  let encoded_payload_len := Z.of_nat (length encoded_payload) in
  check? ensure (encoded_payload_len <=? MaximalOutboundPayloadSize) MessageIsTooLarge in
  let? (nonce, lane) := expect (OutboundLane.send_message lane encoded_payload) in
  let r := deposit_event (MessageAccepted lane_id nonce) (ro_rest lane) in
  Ok (Artifacts nonce (reads_writes DbWeight 2 2), r).

(** The lane whose messages are pruned at the given block. *)
Definition active_lane_id (block_number : Z) : outcome Empty_set LaneId :=
  let active_lanes_len := Z.of_nat (length ActiveOutboundLanes) mod (u32_max + 1) in
  if active_lanes_len =? 0 then Panic
  else
    let active_lane_index := Z.min u32_max (block_number mod active_lanes_len) in
    expect (ActiveOutboundLanes !! Z.to_nat active_lane_index).

Definition on_idle (r : rest) (block_number : Z) (remaining_weight : Weight) :
  outcome Empty_set (Weight * rest) :=
  if negb (all_gte remaining_weight (reads_writes DbWeight 1 2)) then Ok (weight_zero, r)
  else
    let? active_lane_id := active_lane_id block_number in
    let active_lane := outbound_lane active_lane_id r in
    let used_weight := reads DbWeight 1 in
    let? (spent, active_lane) :=
      expect (prune_messages active_lane DbWeight (weight_sub remaining_weight used_weight)) in
    Ok (weight_add used_weight spent, ro_rest active_lane).

(** Genesis and the read-only functions. *)
Record GenesisConfig := Genesis {
  genesis_operating_mode : MessagesOperatingMode;
  genesis_owner : option AccountId;
}.

Definition genesis_build (c : GenesisConfig) (p : pallet) : pallet :=
  let r := pallet_rest p in
  let owner := match genesis_owner c with Some owner => Some owner | None => PalletOwner r end in
  Pallet (InboundLanes p)
    (Rest owner (genesis_operating_mode c) (OutboundLanes r) (OutboundMessages r) (events r)
       (external r)).

Definition outbound_message_data (p : pallet) (lane : LaneId) (nonce : MessageNonce) :
  option (list Z) :=
  OutboundMessages (pallet_rest p) !! MessageKey_ lane nonce.

Definition inbound_message_data (lane : LaneId) (payload : list Z) (nonce : MessageNonce) :
  Weight :=
  (dispatch_weight (MessageDispatch := MessageDispatch0)
     (DispatchMessage_ (MessageKey_ lane nonce) (decode_payload payload))).1.

Definition inbound_lane_data (p : pallet) (lane : LaneId) : InboundLaneData InboundRelayer :=
  get_inbound (InboundLanes p) lane.
End Calls.

(** ** The inbound lane storage behind its cache *)

Section CacheFacts.
Context `{MessagesConstants} {InboundRelayer : Type} `{EqDecision InboundRelayer}.
Implicit Types (s : RuntimeInboundLaneStorage InboundRelayer).

(** The cache, when filled, agrees with the storage map. *)
Definition coherent s : Prop :=
  forall d, cached_data s = Some d -> get_inbound (ri_lanes s) (ri_lane_id s) = d.

(** The operations of a lane: the cache stays coherent, other lanes stay as they
    are. *)
Record lane_step s s' : Prop := {
  ls_id : ri_lane_id s' = ri_lane_id s;
  ls_frame l : l <> ri_lane_id s -> ri_lanes s' !! l = ri_lanes s !! l;
  ls_coherent : coherent s -> coherent s';
}.

#[export] Instance lane_step_preorder : PreOrder lane_step.
Proof.
  split; [by intros s; split|]. intros s1 s2 s3 [Hi Hf Hc] [Hi' Hf' Hc'].
  split; [congruence| |by auto]. intros l Hl. rewrite Hf' by congruence. by apply Hf.
Qed.

Lemma coherent_data s : coherent s -> (il_data s).1 = get_inbound (ri_lanes s) (ri_lane_id s).
Proof.
  intros Hc. simpl. unfold inbound_storage_data. destruct (cached_data s) eqn:E; simpl; [|done].
  symmetry. by apply Hc.
Qed.

Lemma coherent_fresh (lane : LaneId) (lanes : gmap LaneId (InboundLaneData InboundRelayer)) :
  coherent (inbound_lane_storage lane lanes).
Proof. by intros d. Qed.

Lemma read_step s : lane_step s (il_data s).2.
Proof.
  simpl. unfold inbound_storage_data. destruct (cached_data s) eqn:E; simpl; [done|].
  split; [done|done|]. intros _ d. simpl. by intros [= <-].
Qed.

Lemma set_step (d : InboundLaneData InboundRelayer) s : lane_step s (il_set_data d s).
Proof.
  split; simpl; [done|intros l Hl; by rewrite lookup_insert_ne|].
  intros _ d'. simpl. intros [= <-]. unfold get_inbound. by rewrite lookup_insert_eq.
Qed.

Lemma receive_state_update_step s (o : OutboundLaneData) :
  lane_step s (receive_state_update s o).2.
Proof.
  unfold receive_state_update. rewrite (surjective_pairing (il_data s)).
  repeat case_match; simpl; try apply read_step; (etrans; [apply read_step|apply set_step]).
Qed.

Lemma receive_message_step `{WeightOps} {AccountId P L W : Type}
  `{!MessageDispatch AccountId P L W} s (w : W) (r : InboundRelayer) (a : AccountId) (n : Z)
  (p : option P) :
  lane_step s (receive_message s w r a n p).1.2.
Proof.
  unfold receive_message. rewrite (surjective_pairing (il_data s)).
  destruct (dispatch _ _ w). repeat case_match; simpl; try apply read_step;
    (etrans; [apply read_step|apply set_step]).
Qed.

(** Lanes the pallet keeps: the lane invariant, and room for one more nonce. *)
Definition lane_ok (d : InboundLaneData InboundRelayer) : Prop :=
  inbound_data_inv MaxUnrewardedRelayerEntriesAtInboundLane MaxUnconfirmedMessagesAtInboundLane d /\
  MessagesPrimitives.last_delivered_nonce d < u64_max.

Lemma extra_proof_size_bytes_step s :
  lane_step s (extra_proof_size_bytes s).2 /\ 0 <= (extra_proof_size_bytes s).1.
Proof.
  unfold extra_proof_size_bytes. pose proof (read_step s) as Hs. simpl in Hs.
  destruct (inbound_storage_data s) as [d s']. simpl in *. split; [done|word].
Qed.
End CacheFacts.

(** ** Delivering messages *)

(** The weight estimation may rewrite the payload, not the key. *)
Class MessageDispatchLaws {AccountId P L W : Type} `{MessageDispatch AccountId P L W} : Prop := {
  dispatch_weight_key m : dispatch_key (dispatch_weight m).2 = dispatch_key m;
}.

Section DeliveryFacts.
Context `{WeightLaws} `{MessagesConstants} {Info : WeightInfoExt}.
Context {AccountId InboundRelayer P L X : Type}.
Context `{EqDecision AccountId} `{EqDecision InboundRelayer}.
Abbreviation rest := (rest AccountId L X).
Context `{!MessageDispatch AccountId P L rest} `{!MessageDispatchLaws}.
Abbreviation batch := (batch (AccountId := AccountId) (InboundRelayer := InboundRelayer) (L := L)
  (X := X)).
Abbreviation lane_data b := ((il_data (b_lane b)).1).
Abbreviation delivered b := (MessagesPrimitives.last_delivered_nonce (lane_data b)).

(** What handling messages guarantees: only this lane changes, its invariant is
    kept, the weights go down, and the number of valid messages is the number of
    nonces the lane has advanced. *)
Record batch_step (b b' : batch) : Prop := {
  bs_lane : lane_step (b_lane b) (b_lane b');
  bs_ok : lane_ok (lane_data b');
  bs_actual : weight_le (b_actual_weight b') (b_actual_weight b);
  bs_left : weight_le (dispatch_weight_left b') (dispatch_weight_left b);
  bs_delivered : delivered b <= delivered b';
  bs_valid : valid b' = valid b + (delivered b' - delivered b);
  bs_confirmed : last_confirmed_nonce (lane_data b') = last_confirmed_nonce (lane_data b);
}.

Lemma left_after_le (left estimated unspent : Weight) :
  any_gt estimated left = false ->
  weight_le (weight_sub left (weight_sub estimated (weight_min unspent estimated))) left.
Proof.
  intros Hany. rewrite any_gt_spec in Hany.
  pose proof (ref_time_u64 unspent). pose proof (proof_size_u64 unspent).
  pose proof (ref_time_u64 estimated). pose proof (proof_size_u64 estimated). unfold is_u64 in *.
  assert (ref_time (weight_sub estimated (weight_min unspent estimated)) =
    ref_time estimated - Z.min (ref_time unspent) (ref_time estimated)) as Hr
    by (rewrite ref_time_sub; rewrite ref_time_min; lia).
  assert (proof_size (weight_sub estimated (weight_min unspent estimated)) =
    proof_size estimated - Z.min (proof_size unspent) (proof_size estimated)) as Hp
    by (rewrite proof_size_sub; rewrite proof_size_min; lia).
  split; [rewrite ref_time_sub; rewrite Hr; lia|rewrite proof_size_sub; rewrite Hp; lia].
Qed.

Lemma receive_one_step (r : InboundRelayer) (a : AccountId) (b : batch) (m : DispatchMessage P) :
  lane_ok (lane_data b) -> key_nonce (dispatch_key m) < u64_max -> 0 <= valid b < u64_max ->
  batch_step b (receive_one r a b m).
Proof.
  intros [Hinv Hmax] Hm Hv. unfold receive_one.
  assert (forall status stopped t,
    batch_step b (Batch (b_lane b) (b_rest b) status stopped (dispatch_weight_left b)
      (b_actual_weight b) t (valid b))) as Hskip
    by (intros; split; simpl; try done; lia).
  destruct (b_stopped b); [apply Hskip|].
  pose proof (dispatch_weight_key m) as Hkey.
  destruct (dispatch_weight m) as [est m'] eqn:Ew. simpl in Hkey.
  destruct (any_gt est (dispatch_weight_left b)) eqn:Eany; [apply Hskip|].
  destruct (receive_message (b_lane b) (b_rest b) r a (key_nonce (dispatch_key m'))
    (dispatch_data m')) as [[result s'] w'] eqn:Erecv.
  pose proof (receive_message_step (b_lane b) (b_rest b) r a (key_nonce (dispatch_key m'))
    (dispatch_data m')) as Hstep. rewrite Erecv in Hstep. simpl in Hstep.
  assert (inbound_inv (b_lane b)) as Hinv0 by exact Hinv.
  destruct (receive_message_inv (b_lane b) _ _ _ _ _ _ _ _ Hinv0 Hmax Erecv)
    as (Hinv' & Hconf & Hcase).
  destruct Hcase as [(dr & -> & Hn & Hd)|[Hno Hd]].
  - split; simpl in *; try done.
    + split; [exact Hinv'|]. rewrite Hd. congruence.
    + apply weight_saturating_sub_le.
    + by apply left_after_le.
    + rewrite Hd, Hn. lia.
    + rewrite wrapping_add_small by lia. rewrite Hd, Hn. lia.
  - destruct result as [dr| | |]; [by destruct (Hno dr)|..];
      (split; simpl in *; rewrite ?Hd; try done; try lia;
       [apply weight_saturating_sub_le|by apply left_after_le]).
Qed.

Lemma receive_one_counts (r : InboundRelayer) (a : AccountId) (b : batch) (m : DispatchMessage P) :
  0 <= valid b < u64_max ->
  total (receive_one r a b m) = wrapping_add u64_max (total b) 1 /\
  valid b <= valid (receive_one r a b m) <= valid b + 1.
Proof.
  intros Hv. unfold receive_one.
  destruct (b_stopped b); [simpl; split; [done|lia]|].
  destruct (dispatch_weight m) as [est m'].
  destruct (any_gt est _); [simpl; split; [done|lia]|].
  destruct (receive_message _ _ _ _ _ _) as [[result s'] w'].
  rewrite (wrapping_add_small u64_max (valid b)) by lia.
  destruct result; simpl; split; try done; lia.
Qed.

Lemma batch_step_refl (b : batch) : lane_ok (lane_data b) -> batch_step b b.
Proof. intros Hok. split; try done; lia. Qed.

Lemma batch_step_trans (b1 b2 b3 : batch) :
  batch_step b1 b2 -> batch_step b2 b3 -> batch_step b1 b3.
Proof.
  intros [] []. split; try done; try lia; try congruence; etrans; eauto.
Qed.

Lemma receive_many_step (r : InboundRelayer) (a : AccountId) (ms : list (DispatchMessage P))
  (b : batch) :
  lane_ok (lane_data b) -> Forall (fun m => key_nonce (dispatch_key m) < u64_max) ms ->
  0 <= valid b -> valid b + Z.of_nat (length ms) <= u64_max ->
  0 <= total b -> total b + Z.of_nat (length ms) <= u64_max ->
  let b' := foldl (receive_one r a) b ms in
  batch_step b b' /\ total b' = total b + Z.of_nat (length ms) /\
  valid b' <= valid b + Z.of_nat (length ms).
Proof.
  revert b. induction ms as [|m ms IH]; simpl; intros b Hok Hms Hv Hvl Ht Htl.
  { split_and!; [by apply batch_step_refl|lia|lia]. }
  apply Forall_cons in Hms as [Hm Hms].
  pose proof (receive_one_step r a b m Hok Hm ltac:(lia)) as Hstep.
  destruct (receive_one_counts r a b m ltac:(lia)) as [Htot Hval].
  rewrite wrapping_add_small in Htot by lia.
  destruct (IH (receive_one r a b m)) as (Hsteps & Htot' & Hval');
    [apply Hstep|done|lia|lia|lia|lia|].
  split_and!; [by eapply batch_step_trans|lia|lia].
Qed.

(** A lane never gets past the messages that are delivered to it. *)
Lemma receive_one_bound (r : InboundRelayer) (a : AccountId) (b : batch) (m : DispatchMessage P)
  (N : Z) :
  lane_ok (lane_data b) -> delivered b <= N -> key_nonce (dispatch_key m) <= N ->
  delivered (receive_one r a b m) <= N.
Proof.
  intros [Hinv Hmax] Hb Hm. unfold receive_one. destruct (b_stopped b); [done|].
  pose proof (dispatch_weight_key m) as Hkey.
  destruct (dispatch_weight m) as [est m'] eqn:Ew. simpl in Hkey.
  destruct (any_gt est (dispatch_weight_left b)); [done|].
  destruct (receive_message (b_lane b) (b_rest b) r a (key_nonce (dispatch_key m'))
    (dispatch_data m')) as [[result s'] w'] eqn:Erecv.
  assert (inbound_inv (b_lane b)) as Hinv0 by exact Hinv.
  destruct (receive_message_inv (b_lane b) _ _ _ _ _ _ _ _ Hinv0 Hmax Erecv) as (_ & _ & [(dr & -> & Hn & Hd)|[Hno Hd]]).
  - simpl in *. rewrite Hd. congruence.
  - destruct result; simpl in *; by rewrite Hd.
Qed.

Lemma receive_many_bound (r : InboundRelayer) (a : AccountId) (ms : list (DispatchMessage P))
  (b : batch) (N : Z) :
  lane_ok (lane_data b) -> Forall (fun m => key_nonce (dispatch_key m) < u64_max) ms ->
  0 <= valid b -> valid b + Z.of_nat (length ms) <= u64_max ->
  delivered b <= N -> Forall (fun m => key_nonce (dispatch_key m) <= N) ms ->
  delivered (foldl (receive_one r a) b ms) <= N.
Proof.
  revert b. induction ms as [|m ms IH]; simpl; intros b Hok Hms Hv Hvl Hb HN; [done|].
  apply Forall_cons in Hms as [Hm Hms]. apply Forall_cons in HN as [HmN HN].
  pose proof (receive_one_step r a b m Hok Hm ltac:(lia)) as Hstep.
  destruct (receive_one_counts r a b m ltac:(lia)) as [_ Hval].
  apply IH; [apply Hstep|done|lia|lia| |done]. by apply receive_one_bound.
Qed.

(** *** All lanes of a proof *)

Abbreviation delivery := (delivery (AccountId := AccountId) (InboundRelayer := InboundRelayer)
  (L := L) (X := X)).
Abbreviation delivered_at lanes l :=
  (MessagesPrimitives.last_delivered_nonce (get_inbound lanes l)).

Fixpoint delivered_sum (ids : list LaneId)
  (lanes : gmap LaneId (InboundLaneData InboundRelayer)) : Z :=
  match ids with
  | [] => 0
  | l :: ids => delivered_at lanes l + delivered_sum ids lanes
  end.

Fixpoint messages_in {M : Type} (ms : ProvedMessages M) : Z :=
  match ms with
  | [] => 0
  | (_, data) :: ms => Z.of_nat (length (lane_messages data)) + messages_in ms
  end.

Record delivery_step (ids : list LaneId) (d d' : delivery) : Prop := {
  ds_frame l : l ∉ ids -> d_inbound d' !! l = d_inbound d !! l;
  ds_ok l : lane_ok (get_inbound (d_inbound d) l) -> lane_ok (get_inbound (d_inbound d') l);
  ds_delivered l : delivered_at (d_inbound d) l <= delivered_at (d_inbound d') l;
  ds_actual : weight_le (d_actual d') (d_actual d);
  ds_left : weight_le (d_left d') (d_left d);
  ds_valid : d_valid d' = d_valid d + (delivered_sum ids (d_inbound d') - delivered_sum ids (d_inbound d));
}.

Lemma get_inbound_ext (lanes lanes' : gmap LaneId (InboundLaneData InboundRelayer)) (l : LaneId) :
  lanes !! l = lanes' !! l -> get_inbound lanes l = get_inbound lanes' l.
Proof. unfold get_inbound. by intros ->. Qed.

Lemma delivered_sum_ext (ids : list LaneId)
  (lanes lanes' : gmap LaneId (InboundLaneData InboundRelayer)) :
  (forall l, l ∈ ids -> lanes !! l = lanes' !! l) ->
  delivered_sum ids lanes = delivered_sum ids lanes'.
Proof.
  induction ids as [|l ids IH]; intros Heq; simpl; [done|].
  rewrite IH by (intros; apply Heq; set_solver). f_equal.
  rewrite (get_inbound_ext lanes lanes' l); [done|]. apply Heq. set_solver.
Qed.

(** The lane as the loop over its messages finds it. *)
Lemma open_lane_ok (lane_id : LaneId) (lanes : gmap LaneId (InboundLaneData InboundRelayer))
  (st : option OutboundLaneData) :
  lane_ok (get_inbound lanes lane_id) ->
  let s0 := inbound_lane_storage lane_id lanes in
  let s1 := (extra_proof_size_bytes s0).2 in
  let s2 := match st with Some o => (receive_state_update s1 o).2 | None => s1 end in
  lane_step s0 s2 /\ lane_ok (il_data s2).1 /\
  MessagesPrimitives.last_delivered_nonce (il_data s2).1 = delivered_at lanes lane_id.
Proof.
  intros [Hinv Hmax] s0 s1 s2. destruct (extra_proof_size_bytes_step s0) as [Hs1 _]. fold s1 in Hs1.
  pose proof (coherent_fresh lane_id lanes) as Hc0. fold s0 in Hc0.
  pose proof (ls_coherent _ _ Hs1 Hc0) as Hc1.
  assert ((il_data s1).1 = get_inbound lanes lane_id) as Hd1.
  { unfold s1, extra_proof_size_bytes. simpl. done. }
  assert (inbound_inv s1) as Hinv1 by (unfold inbound_inv; rewrite Hd1; exact Hinv).
  unfold s2. destruct st as [o|]; [|split_and!; [done|by rewrite Hd1|by rewrite Hd1]].
  destruct (receive_state_update s1 o) as [result s3] eqn:E.
  pose proof (receive_state_update_step s1 o) as Hs3. rewrite E in Hs3. simpl in Hs3 |- *.
  destruct (receive_state_update_inv s1 s3 o result Hinv1 E) as (Hinv3 & Hd3 & _).
  rewrite Hd1 in Hd3. split_and!; [by etrans|split; [exact Hinv3|simpl in *; lia]|exact Hd3].
Qed.

Lemma receive_lane_step (r : InboundRelayer) (a : AccountId) (d : delivery) (lane_id : LaneId)
  (data : ProvedLaneMessages (DispatchMessage P)) :
  let n := Z.of_nat (length (lane_messages data)) in
  (forall l, lane_ok (get_inbound (d_inbound d) l)) ->
  Forall (fun m => key_nonce (dispatch_key m) < u64_max) (lane_messages data) ->
  0 <= d_valid d -> d_valid d + n <= u64_max -> 0 <= d_total d -> d_total d + n <= u64_max ->
  let d' := receive_lane r a d (lane_id, data) in
  delivery_step [lane_id] d d' /\ d_total d' = d_total d + n /\ d_valid d' <= d_valid d + n.
Proof.
  intros n Hok Hms Hv Hvn Ht Htn. unfold receive_lane.
  set (s0 := inbound_lane_storage lane_id (d_inbound d)).
  pose proof (open_lane_ok lane_id (d_inbound d) (lane_state data) (Hok lane_id)) as Hopen.
  destruct (extra_proof_size_bytes_step s0) as [_ Hextra].
  cbv zeta in Hopen. fold s0 in Hopen. destruct (extra_proof_size_bytes s0) as [extra s1].
  cbn [fst snd] in Hopen, Hextra. cbv zeta. set (s2 := match lane_state data with Some _ => _ | None => s1 end) in *.
  destruct Hopen as (Hs2 & Hok2 & Hd2).
  set (w := set_proof_size _ _). set (b0 := Batch s2 _ _ _ _ w _ _).
  destruct (receive_many_step r a (lane_messages data) b0 Hok2 Hms Hv Hvn Ht Htn)
    as ([Hlane Hok' Hact Hleft Hdel Hval _] & Htot & Hvle).
  set (b := foldl _ b0 _) in *. simpl in Hlane, Hact, Hleft, Hdel, Hval, Htot, Hvle.
  pose proof (transitivity Hs2 Hlane) as [Hid Hframe Hcoh].
  specialize (Hcoh (coherent_fresh lane_id (d_inbound d))).
  pose proof (coherent_data _ Hcoh) as Hdata. rewrite Hid in Hdata. simpl in Hid, Hframe, Hdata, Hok'.
  rewrite Hdata in Hok', Hdel, Hval. simpl in Hd2. rewrite Hd2 in Hdel, Hval.
  split_and!; [|done|done]. split; simpl; try done.
  - intros l Hl. apply Hframe. set_solver.
  - intros l Hl. destruct (decide (l = lane_id)) as [->|Hne]; [done|].
    rewrite (get_inbound_ext (ri_lanes (b_lane b)) (d_inbound d)); [done|]. by apply Hframe.
  - intros l. destruct (decide (l = lane_id)) as [->|Hne]; [done|].
    rewrite (get_inbound_ext (ri_lanes (b_lane b)) (d_inbound d)); [done|]. by apply Hframe.
  - etrans; [exact Hact|]. apply set_proof_size_le. pose proof (proof_size_u64 (d_actual d)). word.
  - lia.
Qed.

Lemma receive_lane_bound (r : InboundRelayer) (a : AccountId) (d : delivery) (lane_id : LaneId)
  (data : ProvedLaneMessages (DispatchMessage P)) (N : Z) :
  let n := Z.of_nat (length (lane_messages data)) in
  (forall l, lane_ok (get_inbound (d_inbound d) l)) ->
  Forall (fun m => key_nonce (dispatch_key m) < u64_max) (lane_messages data) ->
  0 <= d_valid d -> d_valid d + n <= u64_max -> 0 <= d_total d -> d_total d + n <= u64_max ->
  delivered_at (d_inbound d) lane_id <= N ->
  Forall (fun m => key_nonce (dispatch_key m) <= N) (lane_messages data) ->
  delivered_at (d_inbound (receive_lane r a d (lane_id, data))) lane_id <= N.
Proof.
  intros n Hok Hms Hv Hvn Ht Htn Hb HN. unfold receive_lane.
  set (s0 := inbound_lane_storage lane_id (d_inbound d)).
  pose proof (open_lane_ok lane_id (d_inbound d) (lane_state data) (Hok lane_id)) as Hopen.
  cbv zeta in Hopen. fold s0 in Hopen. destruct (extra_proof_size_bytes s0) as [extra s1].
  cbn [fst snd] in Hopen. cbv zeta. set (s2 := match lane_state data with Some _ => _ | None => s1 end) in *.
  destruct Hopen as (Hs2 & Hok2 & Hd2). set (b0 := Batch s2 _ _ _ _ _ _ _).
  destruct (receive_many_step r a (lane_messages data) b0 Hok2 Hms Hv Hvn Ht Htn) as ([Hlane] & _).
  pose proof (receive_many_bound r a (lane_messages data) b0 N Hok2 Hms Hv Hvn) as Hbound.
  simpl in Hd2, Hlane, Hbound. rewrite Hd2 in Hbound. specialize (Hbound Hb HN).
  set (b := foldl _ b0 _) in *. pose proof (transitivity Hs2 Hlane) as [Hid _ Hcoh].
  specialize (Hcoh (coherent_fresh lane_id (d_inbound d))).
  pose proof (coherent_data _ Hcoh) as Hdata. rewrite Hid in Hdata. simpl in Hdata |- *.
  by rewrite Hdata in Hbound.
Qed.

Lemma delivery_step_trans (id : LaneId) (ids : list LaneId) (d1 d2 d3 : delivery) :
  id ∉ ids -> delivery_step [id] d1 d2 -> delivery_step ids d2 d3 ->
  delivery_step (id :: ids) d1 d3.
Proof.
  intros Hid [Hf1 Ho1 Hd1 Ha1 Hl1 Hv1] [Hf2 Ho2 Hd2 Ha2 Hl2 Hv2]. split.
  - intros l Hl. rewrite Hf2, Hf1 by set_solver. done.
  - intros l Hl. by apply Ho2, Ho1.
  - intros l. etrans; [apply Hd1|apply Hd2].
  - by etrans.
  - by etrans.
  - rewrite Hv2, Hv1. simpl. rewrite (get_inbound_ext (d_inbound d3) (d_inbound d2) id)
      by (by apply Hf2).
    rewrite (delivered_sum_ext ids (d_inbound d2) (d_inbound d1)); [lia|].
    intros l Hl. apply Hf1. set_solver.
Qed.

Lemma receive_lanes_step (r : InboundRelayer) (a : AccountId)
  (ms : ProvedMessages (DispatchMessage P)) (d : delivery) :
  NoDup ms.*1 -> (forall l, lane_ok (get_inbound (d_inbound d) l)) ->
  Forall (fun e => Forall (fun m => key_nonce (dispatch_key m) < u64_max) (lane_messages e.2)) ms ->
  0 <= d_valid d -> d_valid d + messages_in ms <= u64_max ->
  0 <= d_total d -> d_total d + messages_in ms <= u64_max ->
  let d' := foldl (receive_lane r a) d ms in
  delivery_step ms.*1 d d' /\ d_total d' = d_total d + messages_in ms.
Proof.
  revert d. induction ms as [|[id data] ms IH];
    intros d; cbn [foldl messages_in]; cbv zeta; intros Hnd Hok Hms Hv Hvn Ht Htn.
  { split; [|lia]. split; simpl; try done; lia. }
  rewrite fmap_cons in Hnd |- *. cbn [fst] in Hnd |- *.
  apply NoDup_cons in Hnd as [Hid Hnd]. apply Forall_cons in Hms as [Hm Hms]. simpl in Hm.
  assert (0 <= messages_in ms) by (clear; induction ms as [|[] ms IH]; simpl; lia).
  destruct (receive_lane_step r a d id data) as (Hstep & Htot & Hval); try done; try lia.
  set (d1 := receive_lane r a d (id, data)) in *.
  assert (d_valid d <= d_valid d1) as Hge
    by (pose proof (ds_valid _ _ _ Hstep) as Hvv; pose proof (ds_delivered _ _ _ Hstep id);
        cbn [delivered_sum] in Hvv; lia).
  destruct (IH d1) as [Hsteps Htot']; try done; try lia.
  { intros l. by apply (ds_ok _ _ _ Hstep). }
  split; [|lia]. by eapply delivery_step_trans.
Qed.
End DeliveryFacts.

(** ** What a delivery is charged for *)

Section Charges.
Context `{WeightLaws} `{MessagesConstants} {Info : WeightInfoExt}.
Context {AccountId InboundRelayer P L X : Type}.
Context `{EqDecision AccountId} `{EqDecision InboundRelayer}.
Abbreviation rest := (rest AccountId L X).
Context `{!MessageDispatch AccountId P L rest} `{!MessageDispatchLaws}.
Abbreviation batch := (batch (AccountId := AccountId) (InboundRelayer := InboundRelayer) (L := L)
  (X := X)).
Abbreviation delivery := (delivery (AccountId := AccountId) (InboundRelayer := InboundRelayer)
  (L := L) (X := X)).

(** The weight that is returned for a message: what its dispatch has not spent, and all of it when
    the lane has rejected the message. *)
Definition refund (m : DispatchMessage P) (result : ReceivalResult L) : Weight :=
  match result with
  | Dispatched r => weight_min (unspent_weight r) (dispatch_weight m).1
  | _ => (dispatch_weight m).1
  end.

(** The sum of a number [g] for every message of a lane that has a result, with that result. *)
Definition lane_sum (g : DispatchMessage P -> ReceivalResult L -> Z) (ms : list (DispatchMessage P))
  (st : ReceivedMessages L) : Z :=
  foldr Z.add 0 (zip_with (fun m r => g m r.2) ms (receive_results st)).

Fixpoint lanes_sum (g : DispatchMessage P -> ReceivalResult L -> Z) (ms : ProvedMessages (DispatchMessage P))
  (sts : list (ReceivedMessages L)) : Z :=
  match ms, sts with
  | (_, data) :: ms, st :: sts => lane_sum g (lane_messages data) st + lanes_sum g ms sts
  | _, _ => 0
  end.

(** The refund for a message, and what is spent on its dispatch, in one component of the weight;
    and one for every message that was dispatched. *)
Definition refund_of (f : Weight -> Z) (m : DispatchMessage P) (r : ReceivalResult L) : Z := f (refund m r).
Definition spent_on (f : Weight -> Z) (m : DispatchMessage P) (r : ReceivalResult L) : Z :=
  f (dispatch_weight m).1 - f (refund m r).
Definition dispatched_one (m : DispatchMessage P) (r : ReceivalResult L) : Z :=
  match r with Dispatched _ => 1 | _ => 0 end.

(** The part of the largest proof that a lane does not need, as it has fewer relayers. *)
Definition unused_proof_size (data : InboundLaneData InboundRelayer) : Z :=
  Z.max 0 (max_encoded_len
           - default usize_max
               (encoded_size_hint usize_max nonce_len relayer_id_len (Z.of_nat (length (relayers data))))).

Fixpoint unused_proof_sizes (ids : list LaneId)
  (lanes : gmap LaneId (InboundLaneData InboundRelayer)) : Z :=
  match ids with
  | [] => 0
  | l :: ids => unused_proof_size (get_inbound lanes l) + unused_proof_sizes ids lanes
  end.

(** The status of a lane names every message of the proof, in order: the results of those that were
    handled, then those that were skipped.  The first message that was skipped would have taken
    more than what is left of the weight for dispatch, of which there was [left_ref] and
    [left_proof] before this lane. *)
Record reported (left_ref left_proof : Z) (e : LaneId * ProvedLaneMessages (DispatchMessage P))
  (st : ReceivedMessages L) : Prop := {
  rp_lane : rm_lane st = e.1;
  rp_nonces : (receive_results st).*1 ++ skipped_for_not_enough_weight st
    = map (fun m => key_nonce (dispatch_key m)) (lane_messages e.2);
  rp_skipped : skipped_for_not_enough_weight st <> [] ->
    exists m, lane_messages e.2 !! length (receive_results st) = Some m /\
      (left_ref - lane_sum (spent_on ref_time) (lane_messages e.2) st < ref_time (dispatch_weight m).1 \/
       left_proof - lane_sum (spent_on proof_size) (lane_messages e.2) st < proof_size (dispatch_weight m).1);
}.

Fixpoint all_reported (left_ref left_proof : Z) (ms : ProvedMessages (DispatchMessage P))
  (sts : list (ReceivedMessages L)) : Prop :=
  match ms, sts with
  | [], [] => True
  | e :: ms, st :: sts =>
      reported left_ref left_proof e st /\
      all_reported (left_ref - lane_sum (spent_on ref_time) (lane_messages e.2) st)
        (left_proof - lane_sum (spent_on proof_size) (lane_messages e.2) st) ms sts
  | _, _ => False
  end.

Lemma lane_sum_push (g : DispatchMessage P -> ReceivalResult L -> Z) (ms : list (DispatchMessage P))
  (m : DispatchMessage P) (st : ReceivedMessages L) (n : Z) (r : ReceivalResult L) :
  length (receive_results st) = length ms ->
  lane_sum g (ms ++ [m]) (received_push st n r) = lane_sum g ms st + g m r.
Proof.
  intros Hl; unfold lane_sum; cbn [receive_results received_push]; rewrite zip_with_app by done.
  cbn [zip_with snd]; rewrite foldr_app; cbn [foldr].
  induction (zip_with _ ms _) as [|x l IH]; cbn [foldr]; lia.
Qed.

Lemma lane_sum_skip (g : DispatchMessage P -> ReceivalResult L -> Z) (ms : list (DispatchMessage P))
  (m : DispatchMessage P) (st : ReceivedMessages L) (n : Z) :
  (length (receive_results st) <= length ms)%nat ->
  lane_sum g (ms ++ [m]) (push_skipped_for_not_enough_weight st n) = lane_sum g ms st.
Proof.
  unfold lane_sum; cbn [receive_results push_skipped_for_not_enough_weight]; generalize (receive_results st).
  intros rs Hl; f_equal; revert rs Hl; induction ms as [|m' ms IH]; intros [|x rs] Hl; cbn in *; try done; [lia|].
  by rewrite IH by lia.
Qed.

Lemma lane_sum_bound (g : DispatchMessage P -> ReceivalResult L -> Z) (ms : list (DispatchMessage P))
  (st : ReceivedMessages L) :
  (forall m r, 0 <= g m r) ->
  0 <= lane_sum g ms st /\ ((forall m r, g m r <= 1) -> lane_sum g ms st <= Z.of_nat (length ms)).
Proof.
  intros Hg; unfold lane_sum; generalize (receive_results st); intros rs; revert rs.
  induction ms as [|m ms IH]; intros [|x rs]; cbn [zip_with foldr length]; try (split; intros; lia).
  destruct (IH rs) as [Hlo Hhi]; pose proof (Hg m x.2); split; [lia|]; intros Hone.
  specialize (Hhi Hone); pose proof (Hone m x.2); lia.
Qed.

(** The books of a batch: [ms] are the messages so far, [w] is the weight before the first one, [left]
    the weight for dispatch and [v] the number of valid messages. *)
Record accounted (w left : Weight) (v : Z) (lane : LaneId) (ms : list (DispatchMessage P)) (b : batch) : Prop := {
  ac_lane : rm_lane (b_status b) = lane;
  ac_nonces : (receive_results (b_status b)).*1 ++ skipped_for_not_enough_weight (b_status b)
    = map (fun m => key_nonce (dispatch_key m)) ms;
  ac_running : b_stopped b = false -> skipped_for_not_enough_weight (b_status b) = [];
  ac_stopped : b_stopped b = true ->
    exists m, ms !! length (receive_results (b_status b)) = Some m /\
      any_gt (dispatch_weight m).1 (dispatch_weight_left b) = true;
  ac_ref_time : ref_time (b_actual_weight b) = Z.max 0 (ref_time w - lane_sum (refund_of ref_time) ms (b_status b));
  ac_proof_size :
    proof_size (b_actual_weight b) = Z.max 0 (proof_size w - lane_sum (refund_of proof_size) ms (b_status b));
  ac_left_ref : ref_time (dispatch_weight_left b) = ref_time left - lane_sum (spent_on ref_time) ms (b_status b);
  ac_left_proof :
    proof_size (dispatch_weight_left b) = proof_size left - lane_sum (spent_on proof_size) ms (b_status b);
  ac_valid : valid b = (v + lane_sum dispatched_one ms (b_status b)) mod (u64_max + 1);
}.

Lemma accounted_length (w left : Weight) (v : Z) (lane : LaneId) (ms : list (DispatchMessage P)) (b : batch) :
  accounted w left v lane ms b ->
  (length (receive_results (b_status b)) + length (skipped_for_not_enough_weight (b_status b)) = length ms)%nat.
Proof.
  intros Hb; pose proof (f_equal length (ac_nonces _ _ _ _ _ _ Hb)) as E.
  by rewrite length_app, length_fmap, length_map in E.
Qed.

Lemma skip_accounted (w left : Weight) (v : Z) (lane : LaneId) (ms : list (DispatchMessage P))
  (m : DispatchMessage P) (b : batch) (t : Z) :
  accounted w left v lane ms b ->
  (b_stopped b = false -> any_gt (dispatch_weight m).1 (dispatch_weight_left b) = true) ->
  accounted w left v lane (ms ++ [m])
    (Batch (b_lane b) (b_rest b)
       (push_skipped_for_not_enough_weight (b_status b) (key_nonce (dispatch_key m))) true
       (dispatch_weight_left b) (b_actual_weight b) t (valid b)).
Proof.
  intros Hb Hgt; pose proof (accounted_length _ _ _ _ _ _ Hb) as Hl; destruct Hb as [Hlane Hn Hr Hs Hrt Hps Hlr Hlp Hv].
  split; cbn; [done| |done| |by rewrite lane_sum_skip by lia..].
  - by rewrite app_assoc, Hn, map_app.
  - intros _; destruct (b_stopped b) eqn:Estop.
    + destruct (Hs eq_refl) as (m' & Hm' & Hany); exists m'; split; [|done]; by apply lookup_app_l_Some.
    + exists m; split; [|by apply Hgt]; rewrite Hr in Hl by done; cbn in Hl.
      rewrite lookup_app_r by lia; by replace (_ - _)%nat with 0%nat by lia.
Qed.

(** What is left for dispatch once a message with the estimate [est] was handled. *)
Lemma left_after (left est unspent : Weight) :
  any_gt est left = false ->
  let left' := weight_sub left (weight_sub est (weight_min unspent est)) in
  ref_time left' = ref_time left - (ref_time est - ref_time (weight_min unspent est)) /\
  proof_size left' = proof_size left - (proof_size est - proof_size (weight_min unspent est)).
Proof.
  intros Hany; rewrite any_gt_spec in Hany; apply orb_false_iff in Hany as [Hr Hp].
  pose proof (ref_time_u64 unspent); pose proof (proof_size_u64 unspent).
  pose proof (ref_time_u64 est); pose proof (proof_size_u64 est); unfold is_u64 in *.
  pose proof (ref_time_min unspent est); pose proof (proof_size_min unspent est).
  split.
  - rewrite ref_time_sub; rewrite ref_time_sub; lia.
  - rewrite proof_size_sub; rewrite proof_size_sub; lia.
Qed.

Lemma receive_one_accounted (r : InboundRelayer) (a : AccountId) (w left : Weight) (v : Z) (lane : LaneId)
  (ms : list (DispatchMessage P)) (m : DispatchMessage P) (b : batch) :
  accounted w left v lane ms b -> accounted w left v lane (ms ++ [m]) (receive_one r a b m).
Proof.
  intros Hb; unfold receive_one; destruct (b_stopped b) eqn:Estop; [apply skip_accounted; congruence|].
  pose proof (dispatch_weight_key m) as Hkey.
  destruct (dispatch_weight m) as [est m'] eqn:Ew; cbn [snd] in Hkey; rewrite Hkey.
  destruct (any_gt est _) eqn:Eany; [apply skip_accounted; [done|]; by rewrite Ew|].
  pose proof (accounted_length _ _ _ _ _ _ Hb) as Hl; destruct Hb as [Hlane Hn Hr _ Hrt Hps Hlr Hlp Hv].
  rewrite (Hr Estop) in Hl, Hn; rewrite app_nil_r in Hn; cbn in Hl.
  destruct (receive_message _ _ _ _ _ _) as [[result s'] w'].
  set (p := match result with Dispatched _ => _ | _ => _ end).
  assert (weight_min p.2 est = refund m result
          /\ p.1 = (v + lane_sum dispatched_one ms (b_status b) + dispatched_one m result) mod (u64_max + 1)) as [Hp Hp1].
  { unfold p, refund; rewrite Ew, Hv; cbn [fst]; destruct result; cbn [fst snd dispatched_one].
    1: split; [done|]; unfold wrapping_add; by rewrite Z.add_mod_idemp_l by done.
    all: split; [apply weight_ext; rewrite ?ref_time_min, ?proof_size_min; lia | f_equal; lia]. }
  destruct p as [v' unspent]; cbn [fst snd] in Hp, Hp1.
  pose proof (left_after (dispatch_weight_left b) est unspent Eany) as [Har Hap]; rewrite Hp in *.
  pose proof (ref_time_u64 (refund m result)); pose proof (proof_size_u64 (refund m result)).
  split; cbn; [done| |auto|done|..]; rewrite ?lane_sum_push by lia.
  - by rewrite (Hr Estop), app_nil_r, fmap_app, Hn, map_app.
  - rewrite ref_time_saturating_sub, Hrt; change (refund_of ref_time m result) with (ref_time (refund m result)); word.
  - rewrite proof_size_saturating_sub, Hps; change (refund_of proof_size m result) with (proof_size (refund m result)); word.
  - rewrite Har, Hlr; assert (spent_on ref_time m result = ref_time est - ref_time (refund m result)) as ->
      by (unfold spent_on; by rewrite Ew); lia.
  - rewrite Hap, Hlp; assert (spent_on proof_size m result = proof_size est - proof_size (refund m result)) as ->
      by (unfold spent_on; by rewrite Ew); lia.
  - rewrite Hp1; f_equal; lia.
Qed.

Lemma receive_many_accounted (r : InboundRelayer) (a : AccountId) (w left : Weight) (v : Z) (lane : LaneId)
  (ms ms' : list (DispatchMessage P)) (b : batch) :
  accounted w left v lane ms b -> accounted w left v lane (ms ++ ms') (foldl (receive_one r a) b ms').
Proof.
  revert ms b; induction ms' as [|m ms' IH]; intros ms b Hb; cbn [foldl]; [by rewrite app_nil_r|].
  rewrite (cons_middle m ms ms'), app_assoc; by apply IH, receive_one_accounted.
Qed.

Lemma receive_many_lane (r : InboundRelayer) (a : AccountId) (ms : list (DispatchMessage P)) (b : batch) :
  lane_step (b_lane b) (b_lane (foldl (receive_one r a) b ms)).
Proof.
  revert b; induction ms as [|m ms IH]; intros b; cbn [foldl]; [done|]; etrans; [|apply IH].
  unfold receive_one; destruct (b_stopped b); [done|]; destruct (dispatch_weight m) as [est m'].
  destruct (any_gt est _); [done|].
  pose proof (receive_message_step (b_lane b) (b_rest b) r a (key_nonce (dispatch_key m')) (dispatch_data m')) as Hs.
  destruct (receive_message _ _ _ _ _ _) as [[result s'] w']; by destruct result.
Qed.

(** The books of the whole delivery, from [d] on. *)
Record charged_for (ms : ProvedMessages (DispatchMessage P)) (d d' : delivery) (sts : list (ReceivedMessages L)) :
  Prop := {
  cf_status : d_status d' = d_status d ++ sts;
  cf_reported : all_reported (ref_time (d_left d)) (proof_size (d_left d)) ms sts;
  cf_ref_time : ref_time (d_actual d') = Z.max 0 (ref_time (d_actual d) - lanes_sum (refund_of ref_time) ms sts);
  cf_proof_size :
    proof_size (d_actual d')
    = Z.max 0 (proof_size (d_actual d) - unused_proof_sizes ms.*1 (d_inbound d)
               - lanes_sum (refund_of proof_size) ms sts);
  cf_valid : d_valid d' = (d_valid d + lanes_sum dispatched_one ms sts) mod (u64_max + 1);
}.

Lemma accounted_start (s : RuntimeInboundLaneStorage InboundRelayer) (rst : rest) (lane : LaneId) (left w : Weight)
  (t v : Z) :
  is_u64 v -> accounted w left v lane [] (Batch s rst (received_new lane []) false left w t v).
Proof.
  intros Hv; pose proof (ref_time_u64 w); pose proof (proof_size_u64 w).
  split; try done; unfold lane_sum; cbn; try word; rewrite Z.add_0_r, Z.mod_small; word.
Qed.

Lemma accounted_reported (w left : Weight) (v : Z) (lane : LaneId) (data : ProvedLaneMessages (DispatchMessage P))
  (b : batch) :
  accounted w left v lane (lane_messages data) b ->
  reported (ref_time left) (proof_size left) (lane, data) (b_status b).
Proof.
  intros [Hl Hn Hr Hs _ _ Hlr Hlp _]; split; [done..|]; intros Hskip; cbn [snd].
  destruct (b_stopped b); [|by rewrite Hr in Hskip].
  destruct (Hs eq_refl) as (m & Hm & Hany); exists m; split; [done|].
  rewrite any_gt_spec, orb_true_iff, !Z.ltb_lt in Hany; lia.
Qed.

Lemma receive_lane_charged (r : InboundRelayer) (a : AccountId) (d : delivery) (lane : LaneId)
  (data : ProvedLaneMessages (DispatchMessage P)) :
  is_u64 (d_valid d) ->
  let d' := receive_lane r a d (lane, data) in
  (exists st, charged_for [(lane, data)] d d' [st] /\
     ref_time (d_left d') = ref_time (d_left d) - lane_sum (spent_on ref_time) (lane_messages data) st /\
     proof_size (d_left d') = proof_size (d_left d) - lane_sum (spent_on proof_size) (lane_messages data) st) /\
  forall l, l <> lane -> d_inbound d' !! l = d_inbound d !! l.
Proof.
  intros Hv; unfold receive_lane; set (s0 := inbound_lane_storage lane (d_inbound d)).
  destruct (extra_proof_size_bytes s0) as [extra s1] eqn:Eextra.
  assert (extra = unused_proof_size (get_inbound (d_inbound d) lane) /\ lane_step s0 s1) as [Hx Hs1].
  { pose proof (proj1 (extra_proof_size_bytes_step s0)) as Hs; rewrite Eextra in Hs; split; [|done].
    revert Eextra; unfold extra_proof_size_bytes, unused_proof_size; cbn; intros [= <- _]; unfold saturating_sub; lia. }
  set (s2 := match lane_state data with Some _ => _ | None => s1 end).
  assert (lane_step s0 s2) as Hs2.
  { etrans; [exact Hs1|]; unfold s2; destruct (lane_state data); [apply receive_state_update_step|done]. }
  set (w := set_proof_size _ _). set (b0 := Batch s2 _ _ _ _ w _ _).
  pose proof (receive_many_lane r a (lane_messages data) b0) as Hlane.
  assert (accounted w (d_left d) (d_valid d) lane [] b0) as Hacc by (by apply accounted_start).
  apply (receive_many_accounted r a w _ _ lane [] (lane_messages data)) in Hacc; cbn [app] in Hacc.
  pose proof (accounted_reported _ _ _ _ _ _ Hacc) as Hrep; destruct Hacc as [_ _ _ _ Hrt Hps Hlr Hlp Hval].
  set (b := foldl _ b0 _) in *; split.
  - exists (b_status b); split_and!; [|done..]; split; cbn; [done|by split|..].
    + rewrite Hrt; unfold w; rewrite ref_time_set_proof_size; f_equal; lia.
    + rewrite Hps; unfold w; pose proof (proof_size_u64 (d_actual d)) as Hu.
      assert (0 <= extra) by (rewrite Hx; unfold unused_proof_size; lia).
      rewrite proof_size_set_proof_size by word; rewrite <- Hx.
      pose proof (lane_sum_bound (refund_of proof_size) (lane_messages data) (b_status b)
        ltac:(intros; apply proof_size_u64)) as [? _]; word.
    + rewrite Hval; f_equal; lia.
  - intros l Hne; cbn; pose proof (transitivity Hs2 Hlane) as [_ Hframe _]; by apply Hframe.
Qed.

Lemma unused_proof_sizes_ext (ids : list LaneId) (lanes lanes' : gmap LaneId (InboundLaneData InboundRelayer)) :
  (forall l, l ∈ ids -> lanes !! l = lanes' !! l) -> unused_proof_sizes ids lanes = unused_proof_sizes ids lanes'.
Proof.
  induction ids as [|l ids IH]; intros Heq; cbn; [done|].
  rewrite IH by (intros; apply Heq; set_solver); f_equal.
  rewrite (get_inbound_ext lanes lanes' l); [done|]; apply Heq; set_solver.
Qed.

Lemma unused_proof_sizes_nonneg (ids : list LaneId) (lanes : gmap LaneId (InboundLaneData InboundRelayer)) :
  0 <= unused_proof_sizes ids lanes.
Proof. induction ids as [|l ids IH]; cbn; [lia|]; unfold unused_proof_size; lia. Qed.

Lemma lanes_sum_bound (g : DispatchMessage P -> ReceivalResult L -> Z) (ms : ProvedMessages (DispatchMessage P))
  (sts : list (ReceivedMessages L)) :
  (forall m r, 0 <= g m r) ->
  0 <= lanes_sum g ms sts /\ ((forall m r, g m r <= 1) -> lanes_sum g ms sts <= messages_in ms).
Proof.
  intros Hg; revert sts; induction ms as [|[l data] ms IH]; intros sts; [by destruct sts|].
  assert (0 <= messages_in ms) by (clear; induction ms as [|[] ms IH]; simpl; lia).
  destruct sts as [|st sts]; cbn [lanes_sum messages_in]; [split; intros; lia|].
  destruct (lane_sum_bound g (lane_messages data) st Hg) as [? Hlane], (IH sts) as [? Hlanes].
  split; [lia|]; intros Hone; specialize (Hlane Hone); specialize (Hlanes Hone); lia.
Qed.

(** The weight goes down by what the lanes do not need of the proof, and by the refunds. *)
Lemma receive_lanes_charged (r : InboundRelayer) (a : AccountId) (ms : ProvedMessages (DispatchMessage P))
  (d : delivery) :
  NoDup ms.*1 -> is_u64 (d_valid d) -> exists sts, charged_for ms d (foldl (receive_lane r a) d ms) sts.
Proof.
  revert d; induction ms as [|[lane data] ms IH]; intros d Hnd Hu.
  { exists []; pose proof (ref_time_u64 (d_actual d)); pose proof (proof_size_u64 (d_actual d)).
    split; cbn; [by rewrite app_nil_r|done|word|word|]; rewrite Z.add_0_r, Z.mod_small; word. }
  rewrite fmap_cons in Hnd; apply NoDup_cons in Hnd as [Hid Hnd]; cbn [fst foldl] in *.
  destruct (receive_lane_charged r a d lane data Hu) as [(st & [Hst Hrep Hrt Hps Hv] & Hlr & Hlp) Hframe].
  set (d1 := receive_lane r a d (lane, data)) in *.
  destruct (IH d1 Hnd) as (sts & [Hst' Hrep' Hrt' Hps' Hv']).
  { rewrite Hv; unfold is_u64; pose proof (Z.mod_pos_bound (d_valid d + lanes_sum dispatched_one [(lane, data)] [st])
      (u64_max + 1) ltac:(done)); lia. }
  exists (st :: sts); destruct Hrep as [Hrep _].
  rewrite (unused_proof_sizes_ext ms.*1 (d_inbound d1) (d_inbound d)) in Hps'
    by (intros l Hl; apply Hframe; set_solver).
  pose proof (lanes_sum_bound (refund_of ref_time) ms sts ltac:(intros; apply ref_time_u64)) as [? _].
  pose proof (lanes_sum_bound (refund_of proof_size) ms sts ltac:(intros; apply proof_size_u64)) as [? _].
  pose proof (unused_proof_sizes_nonneg ms.*1 (d_inbound d)).
  split; [by rewrite Hst', Hst, <- app_assoc| |..]; cbn in *; [by rewrite <- Hlr, <- Hlp|lia|lia|].
  rewrite Hv', Hv, Z.add_mod_idemp_l by done; f_equal; lia.
Qed.
End Charges.

(** ** Outbound lanes of the pallet *)

Section OutboundFacts.
Context `{WeightLaws} `{MessagesConstants} {AccountId L X : Type}.
Abbreviation rest := (rest AccountId L X).

Abbreviation outbound_data r l := (ol_data (outbound_lane l r)).

(** All outbound lanes are in order, with room for the next nonce. *)
Definition outbound_ok (r : rest) : Prop :=
  forall l, outbound_inv (outbound_lane l r) /\ latest_generated_nonce (outbound_data r l) < u64_max.

(** [r'] differs from [r] at most in the lane [l]. *)
Record outbound_frame (l : LaneId) (r r' : rest) : Prop := {
  of_lanes l' : l' <> l -> OutboundLanes r' !! l' = OutboundLanes r !! l';
  of_messages k : key_lane_id k <> l -> OutboundMessages r' !! k = OutboundMessages r !! k;
}.

Lemma outbound_lane_ext (l : LaneId) (r r' : rest) :
  OutboundLanes r' !! l = OutboundLanes r !! l ->
  (forall n, OutboundMessages r' !! MessageKey_ l n = OutboundMessages r !! MessageKey_ l n) ->
  outbound_inv (outbound_lane l r) -> outbound_inv (outbound_lane l r').
Proof.
  intros Hl Hm [H1' H2' H3' H4' H5']. split; simpl in *; rewrite ?Hl; try done.
  intros n. rewrite Hm. apply H5'.
Qed.

Lemma outbound_ok_frame (l : LaneId) (r r' : rest) :
  outbound_ok r -> outbound_frame l r r' -> outbound_inv (outbound_lane l r') ->
  latest_generated_nonce (outbound_data r' l) < u64_max -> outbound_ok r'.
Proof.
  intros Hok [Hl Hm] Hinv Hmax l'. destruct (decide (l' = l)) as [->|Hne]; [done|].
  destruct (Hok l') as [Hinv' Hmax']. split.
  - apply (outbound_lane_ext l' r); [by apply Hl| |done]. intros n. by apply Hm.
  - simpl in *. by rewrite Hl.
Qed.

(** The lane operations only touch their lane. *)
Lemma send_message_frame (l : LaneId) (r : rest) (p : list Z) (nonce : Z)
  (s : RuntimeOutboundLaneStorage AccountId L X) :
  OutboundLane.send_message (outbound_lane l r) p = Some (nonce, s) ->
  ro_lane_id s = l /\ outbound_frame l r (ro_rest s) /\
  ro_rest s = put_outbound (OutboundLanes (ro_rest s)) (OutboundMessages (ro_rest s)) r.
Proof.
  unfold OutboundLane.send_message. simpl. case_match; [|done]. simpl. intros [= <- <-]. simpl.
  split_and!; [done| |done]. split; simpl.
  - intros l' Hl. by rewrite lookup_insert_ne.
  - intros k Hk. rewrite lookup_insert_ne; [done|]. by intros <-.
Qed.

Lemma prune_loop_frame (fuel : nat) (ww two : Weight)
  (s s' : RuntimeOutboundLaneStorage AccountId L X) (d d' : OutboundLaneData)
  (spent spent' remaining : Weight) :
  prune_loop fuel ww two s d spent remaining = Some (s', d', spent') ->
  ro_lane_id s' = ro_lane_id s /\ outbound_frame (ro_lane_id s) (ro_rest s) (ro_rest s').
Proof.
  revert s d spent remaining. induction fuel as [|fuel IH]; intros s d spent remaining; simpl; [done|].
  case_match; [|intros [= <- <- <-]; by split].
  intros (Hid & [Hl Hm])%IH. simpl in *. split; [done|]. split; [done|].
  intros k Hk. rewrite Hm by done. simpl. rewrite lookup_delete_ne; [done|]. by intros <-.
Qed.

Lemma prune_messages_frame (l : LaneId) (r : rest) (db : RuntimeDbWeight)
  (remaining spent : Weight) (s : RuntimeOutboundLaneStorage AccountId L X) :
  prune_messages (outbound_lane l r) db remaining = Some (spent, s) ->
  ro_lane_id s = l /\ outbound_frame l r (ro_rest s).
Proof.
  unfold prune_messages. destruct (prune_loop _ _ _ _ _ _ _) as [[[s' d'] spent']|] eqn:E; [|done].
  apply prune_loop_frame in E as [Hid [Hl Hm]]. simpl in Hid, Hl, Hm.
  case_match; intros [= <- <-]; [|done]. simpl. split; [done|]. split; simpl; [|done].
  intros l' Hl'. rewrite lookup_insert_ne by congruence. by apply Hl.
Qed.
(** The owner, the mode, the events and the other pallets do not matter for the lanes. *)
Lemma outbound_ok_same (r r' : rest) :
  OutboundLanes r' = OutboundLanes r -> OutboundMessages r' = OutboundMessages r ->
  outbound_ok r -> outbound_ok r'.
Proof.
  intros Hl Hm Hok l. destruct (Hok l) as [Hinv Hmax]. split.
  - apply (outbound_lane_ext l r); [by rewrite Hl|intros n; by rewrite Hm|done].
  - simpl in *. by rewrite Hl.
Qed.

Lemma lane_send_ok (l : LaneId) (r : rest) (p : list Z) (nonce : Z)
  (s : RuntimeOutboundLaneStorage AccountId L X) :
  outbound_ok r -> latest_generated_nonce (outbound_data r l) + 1 < u64_max ->
  OutboundLane.send_message (outbound_lane l r) p = Some (nonce, s) -> outbound_ok (ro_rest s).
Proof.
  intros Hok Hroom Hsend. destruct (Hok l) as [Hinv Hmax].
  destruct (send_message_frame _ _ _ _ _ Hsend) as (Hid & Hframe & _).
  destruct (send_message_spec _ _ _ _ Hinv Hmax Hsend) as (-> & Hd & _).
  assert (outbound_lane l (ro_rest s) = s) as Hs by (destruct s; simpl in *; by subst).
  apply (outbound_ok_frame l r); [done|done|rewrite Hs; by eapply send_message_inv|].
  rewrite Hs, Hd. simpl in *. lia.
Qed.

Lemma lane_confirm_ok {Relayer : Type} (l : LaneId) (r : rest) (max latest : Z)
  (q : list (UnrewardedRelayer Relayer)) (res : ReceivalConfirmationResult)
  (s : RuntimeOutboundLaneStorage AccountId L X) :
  outbound_ok r -> confirm_delivery (outbound_lane l r) max latest q = (res, s) -> outbound_ok (ro_rest s).
Proof.
  intros Hok Hc. destruct (Hok l) as [Hinv Hmax].
  pose proof (confirm_delivery_inv _ _ _ _ _ _ Hinv Hc) as Hinv'.
  apply confirm_delivery_cases in Hc as [(b & _ & _ & _ & _ & _ & ->)|[-> _]]; [|done].
  apply (outbound_ok_frame l r); [done|..].
  - split; simpl; [intros l' Hl; by rewrite lookup_insert_ne|done].
  - by eapply outbound_lane_ext; [..|exact Hinv'].
  - simpl. rewrite lookup_insert_eq. done.
Qed.
End OutboundFacts.

(** ** Properties *)

(** What the trait documentation promises of a source header chain: the lanes of a
    proof are distinct (it is a map) and the proof never carries more than the
    declared number of messages.  The last condition is about the bridged chain: it has not
    used up its 64-bit nonces. *)
Class SourceHeaderChainLaws {MessagesProof X : Type} `{SourceHeaderChain MessagesProof X} : Prop := {
  proved_lanes_distinct proof n x ms :
    verify_messages_proof proof n x = Some ms -> NoDup ms.*1;
  proved_count proof n x ms :
    is_u32 n -> verify_messages_proof proof n x = Some ms -> messages_in ms <= n;
  proved_nonces proof n x ms : verify_messages_proof proof n x = Some ms ->
    Forall (fun e => Forall (fun m => key_nonce (message_key m) < u64_max) (lane_messages e.2)) ms;
}.

Section Properties.
Context `{WeightLaws} `{MessagesConstants} {Info : WeightInfoExt}.
Context {AccountId InboundRelayer OutboundPayload P L MessagesProof DeliveryProof X : Type}.
Context `{EqDecision AccountId} `{EqDecision InboundRelayer}.
Abbreviation rest := (rest AccountId L X).
Abbreviation pallet := (pallet AccountId InboundRelayer L X).
Context `{!SourceHeaderChain MessagesProof X} `{!SourceHeaderChainLaws}.
Context `{!TargetHeaderChain OutboundPayload AccountId DeliveryProof X}.
Context `{!LaneMessageVerifier OutboundPayload AccountId X}.
Context `{!DeliveryPayments AccountId X} `{!DeliveryConfirmationPayments AccountId X}.
Context `{!PayloadCodec OutboundPayload P} `{!MessageDispatch AccountId P L rest}.
Context `{!MessageDispatchLaws (AccountId := AccountId) (P := P) (L := L)}.

Lemma decoded_lanes (ms : ProvedMessages Message) :
  let ms' := map (fun '(lane, lane_data) =>
    (lane, Proved (lane_state lane_data)
      (map dispatch_message_from (lane_messages lane_data)))) ms in
  ms'.*1 = ms.*1 /\ messages_in ms' = messages_in ms /\
  (Forall (fun e => Forall (fun m => key_nonce (message_key m) < u64_max) (lane_messages e.2)) ms ->
   Forall (fun e => Forall (fun m => key_nonce (dispatch_key m) < u64_max) (lane_messages e.2)) ms').
Proof.
  induction ms as [|[l data] ms (IH1 & IH2 & IH3)]; simpl; [by split_and!|].
  rewrite length_map, IH2. split_and!; [f_equal; exact IH1|done|].
  intros [Hl Hms]%Forall_cons. apply Forall_cons. split; [|by apply IH3].
  simpl in *. by apply Forall_map.
Qed.

(** What the pallet makes of a verified proof. *)
Lemma decoded_proof (proof : MessagesProof) (count : Z) (x : X) (ms' : ProvedMessages (DispatchMessage P)) :
  verify_and_decode_messages_proof proof count x = Some ms' ->
  exists ms, verify_messages_proof proof count x = Some ms /\ ms'.*1 = ms.*1 /\
    messages_in ms' = messages_in ms /\
    Forall (fun e => Forall (fun m => key_nonce (dispatch_key m) < u64_max) (lane_messages e.2)) ms'.
Proof.
  unfold verify_and_decode_messages_proof. destruct (verify_messages_proof proof count x) as [ms|] eqn:E; [|done].
  intros [= <-]. destruct (decoded_lanes ms) as (Hkeys & Hin & Hnonces).
  exists ms. split_and!; [done..|]. by eapply Hnonces, proved_nonces.
Qed.

Lemma receive_proved_lanes (p : pallet) (relayer : InboundRelayer) (account : AccountId)
  (proof : MessagesProof) (count : Z) (w declared : Weight) (ms' : ProvedMessages (DispatchMessage P)) :
  (forall l, lane_ok (inbound_lane_data p l)) -> is_u32 count -> count <= MaxUnconfirmedMessagesAtInboundLane ->
  verify_and_decode_messages_proof proof count (external (pallet_rest p)) = Some ms' ->
  let d0 := Delivery (InboundLanes p) (pallet_rest p) w declared 0 0 [] in
  let d := foldl (receive_lane relayer account) d0 ms' in
  delivery_step ms'.*1 d0 d /\ d_total d = messages_in ms'.
Proof.
  intros Hok Hcount Hmax (ms & Ever & Hkeys & Hin & Hnonces)%decoded_proof d0 d.
  pose proof (proved_count _ _ _ _ Hcount Ever) as Hn. unfold is_u32, u32_max in Hcount.
  destruct (receive_lanes_step relayer account ms' d0) as [Hstep Htot].
  { rewrite Hkeys. by eapply proved_lanes_distinct. }
  { exact Hok. }
  { done. }
  1-4: simpl; word.
  split; [exact Hstep|]. exact Htot.
Qed.

Lemma active_lane_id_Ok (block_number : Z) :
  0 <= block_number -> ActiveOutboundLanes <> [] ->
  Z.of_nat (length ActiveOutboundLanes) <= u32_max ->
  exists lane, active_lane_id block_number = Ok lane.
Proof.
  intros Hb Hne Hlen. unfold active_lane_id.
  assert (length ActiveOutboundLanes <> 0%nat) by (by destruct ActiveOutboundLanes).
  rewrite (Z.mod_small (Z.of_nat _)) by lia. rewrite (proj2 (Z.eqb_neq _ 0)) by lia.
  set (n := Z.of_nat (length ActiveOutboundLanes)) in *.
  pose proof (Z.mod_pos_bound block_number n ltac:(lia)).
  destruct (lookup_lt_is_Some_2 ActiveOutboundLanes (Z.to_nat (Z.min u32_max (block_number mod n))))
    as [lane Hl]; [lia|]. exists lane. by rewrite Hl.
Qed.

Lemma idle_weight_le (remaining spent : Weight) :
  is_u64 (db_read DbWeight) -> all_gte remaining (reads_writes DbWeight 1 2) = true ->
  weight_le spent (weight_sub remaining (reads DbWeight 1)) ->
  weight_le (weight_add (reads DbWeight 1) spent) remaining.
Proof.
  intros Hread Hgte [Hr Hp]. rewrite all_gte_spec, reads_writes_spec, ref_time_saturating_add in Hgte.
  pose proof (ref_time_u64 (reads DbWeight 1)). pose proof (ref_time_u64 (writes DbWeight 2)).
  pose proof (ref_time_u64 remaining). pose proof (proof_size_u64 remaining).
  pose proof (proof_size_reads DbWeight 1).
  rewrite ref_time_sub in Hr by word. rewrite proof_size_sub in Hp by word.
  split; [rewrite ref_time_add by word; lia|rewrite proof_size_add by word; lia].
Qed.

(** Messages that are not newer than the last delivered one change no lane's position. *)
Lemma old_messages_not_delivered (p p' : pallet) (origin : RawOrigin AccountId)
  (relayer : InboundRelayer) (proof : MessagesProof) (count : Z) (w : Weight)
  (info : PostDispatchInfo) (lane : LaneId) (data : ProvedLaneMessages Message) :
  (forall l, lane_ok (inbound_lane_data p l)) -> is_u32 count ->
  verify_messages_proof proof count (external (pallet_rest p)) = Some [(lane, data)] ->
  Forall (fun m => key_nonce (message_key m) <= last_delivered_nonce (inbound_lane_data p lane))
    (lane_messages data) ->
  receive_messages_proof p origin relayer proof count w = Ok (info, p') ->
  forall l, last_delivered_nonce (inbound_lane_data p' l) = last_delivered_nonce (inbound_lane_data p l).
Proof.
  intros Hok Hcount Hver Hold. unfold receive_messages_proof.
  rewrite obind_Ok. intros (_ & _ & Hrun). apply obind_Ok in Hrun as (account & _ & Hrun).
  apply obind_Ok in Hrun as (_ & _ & Hrun). unfold verify_and_decode_messages_proof in Hrun.
  rewrite Hver in Hrun. cbn [mbind option_bind ok_or obind map foldl] in Hrun.
  destruct (decoded_lanes [(lane, data)]) as (_ & Hin & Hnonces).
  pose proof (proj1 (Forall_cons_1 _ _ _ (Hnonces (proved_nonces _ _ _ _ Hver)))) as Hms.
  clear Hnonces.
  pose proof (proved_count _ _ _ _ Hcount Hver) as Hn. cbn [messages_in map] in Hin, Hn.
  cbn [snd lane_messages] in Hin, Hn, Hms. set (d0 := Delivery _ _ _ _ _ _ _) in Hrun.
  set (data' := Proved _ _) in Hrun. unfold is_u32, u32_max in Hcount.
  assert (0 + Z.of_nat (length (lane_messages data')) <= u64_max) as Hlen
    by (unfold data'; cbn [lane_messages]; word).
  destruct (receive_lane_step relayer account d0 lane data' Hok Hms) as (Hstep & _);
    [done..|]. clear Hin Hn.
  pose proof (receive_lane_bound relayer account d0 lane data' _ Hok Hms ltac:(done) Hlen
    ltac:(done) Hlen ltac:(reflexivity)) as Hbound.
  injection Hrun as _ <-. intros l. destruct (decide (l = lane)) as [->|Hl].
  - apply Z.le_antisymm; [|apply (ds_delivered _ _ _ Hstep)]. apply Hbound.
    unfold data'. cbn [lane_messages]. by apply Forall_map.
  - unfold inbound_lane_data. cbn [InboundLanes]. f_equal. apply get_inbound_ext.
    apply (ds_frame _ _ _ Hstep). by intros ?%list_elem_of_singleton.
Qed.

Lemma receive_messages_proof_verified (p p' : pallet) (origin : RawOrigin AccountId)
  (relayer : InboundRelayer) (proof : MessagesProof) (count : Z) (w : Weight)
  (info : PostDispatchInfo) :
  receive_messages_proof p origin relayer proof count w = Ok (info, p') ->
  is_Some (verify_messages_proof proof count (external (pallet_rest p))).
Proof.
  intros Hrun. unfold receive_messages_proof in Hrun.
  apply obind_Ok in Hrun as (_ & _ & Hrun). apply obind_Ok in Hrun as (account & _ & Hrun).
  apply obind_Ok in Hrun as (_ & _ & Hrun). unfold verify_and_decode_messages_proof in Hrun.
  by destruct (verify_messages_proof _ _ _).
Qed.

(** A delivery that is not newer than what the lane knows is not recorded. *)
Lemma old_confirmation_changes_nothing (p p' : pallet) (origin : RawOrigin AccountId)
  (proof : DeliveryProof) (state : UnrewardedRelayersState) (lane : LaneId) :
  (forall l data, verify_messages_delivery_proof proof (external (pallet_rest p)) = Some (l, data) ->
     l = lane) ->
  rs_last_delivered_nonce state <=
    latest_received_nonce (ol_data (outbound_lane lane (pallet_rest p))) ->
  receive_messages_delivery_proof p origin proof state = Ok p' -> p' = p.
Proof.
  intros Hlane Hold Hrun. unfold receive_messages_delivery_proof in Hrun.
  apply obind_Ok in Hrun as (_ & _ & Hrun). apply obind_Ok in Hrun as (account & _ & Hrun).
  apply obind_Ok in Hrun as ([l data] & Hver & Hrun). apply ok_or_Ok in Hver.
  apply Hlane in Hver as ->. apply obind_Ok in Hrun as (_ & _ & Hrun).
  apply obind_Ok in Hrun as ([] & Hlast & Hrun). apply ensure_Ok, Z.eqb_eq in Hlast.
  unfold confirm_delivery in Hrun. rewrite (proj2 (Z.leb_le _ _)) in Hrun by lia.
  injection Hrun as <-. by destruct p.
Qed.


(** C24. A delivery confirmation is either refused without any effect, or the declared relayers
    state matches the proof; then only the lane of the proof can change, and only when
    the proof confirms something new: its confirmed nonce moves to the delivered one,
    the event names exactly the newly confirmed messages, and the payment procedure
    gets the queue of relayers and exactly that range.  All lane invariants are
    kept. *)
Theorem receive_messages_delivery_proof_correct (p : pallet) (origin : RawOrigin AccountId)
  (proof : DeliveryProof) (state : UnrewardedRelayersState) :
  outbound_ok (pallet_rest p) ->
  match receive_messages_delivery_proof p origin proof state with
  | Ok p' =>
      exists account lane_id data,
        is_halted p = false /\ origin = Signed account /\
        verify_messages_delivery_proof proof (external (pallet_rest p)) = Some (lane_id, data) /\
        rs_total_messages state = default u64_max (total_unrewarded_messages (relayers data)) /\
        unrewarded_relayer_entries state = Z.of_nat (length (relayers data)) /\
        rs_last_delivered_nonce state = last_delivered_nonce data /\
        InboundLanes p' = InboundLanes p /\ outbound_ok (pallet_rest p') /\
        let d := ol_data (outbound_lane lane_id (pallet_rest p)) in
        let confirmed := latest_received_nonce d in
        let latest := last_delivered_nonce data in
        if decide (latest <= confirmed) then p' = p
        else
          latest <= latest_generated_nonce d /\
          ensure_unrewarded_relayers_are_correct latest (relayers data) = Ok tt /\
          pallet_rest p' =
            Rest (PalletOwner (pallet_rest p)) (PalletOperatingMode (pallet_rest p))
              (<[lane_id := Outbound (oldest_unpruned_nonce d) latest (latest_generated_nonce d)]>
                 (OutboundLanes (pallet_rest p)))
              (OutboundMessages (pallet_rest p))
              (events (pallet_rest p) ++
                 [MessagesDelivered lane_id (Delivered (confirmed + 1) latest)])
              (confirmation_pay_reward lane_id (relayers data) account (confirmed + 1, latest)
                 (external (pallet_rest p)))
  | Err _ => True
  | Panic => False
  end.
Proof.
  intros Hok. unfold receive_messages_delivery_proof, ensure_not_halted.
  destruct (is_halted p) eqn:Ehalt; simpl; [done|].
  destruct origin as [|account| |]; simpl; try done.
  destruct (verify_messages_delivery_proof _ _) as [[lane_id data]|] eqn:Ever; simpl; [|done].
  destruct (_ && _) eqn:Etot; simpl; [|done]. apply andb_prop in Etot as [Etot Elen].
  destruct (_ =? rs_last_delivered_nonce state) eqn:Elast; simpl; [|done].
  destruct (confirm_delivery _ _ _ _) as [result s] eqn:Econf.
  destruct (Hok lane_id) as [Hinv Hmax].
  pose proof (lane_confirm_ok _ _ _ _ _ _ _ Hok Econf) as Hsok.
  pose proof Econf as Hcases. apply confirm_delivery_cases in Hcases.
  set (d := ol_data (outbound_lane lane_id (pallet_rest p))) in *. cbv zeta in Hcases.
  destruct Hcases as [(b & -> & Hb & Hlatest & Hle & Hens & Hs)|[-> Hno]].
  - cbn [obind]. cbv zeta. exists account, lane_id, data. split_and!; try done; try lia.
    + by apply (outbound_ok_same (ro_rest s)).
    + change (default outbound_default (OutboundLanes (pallet_rest p) !! lane_id)) with d.
      rewrite decide_False by lia. split_and!; [lia|done|]. subst s. simpl.
      rewrite wrapping_add_small in Hb by (destruct Hinv; unfold d in *; lia). by rewrite Hb.
  - destruct result as [dm| | | | |n]; simpl; try done; [by destruct (Hno dm)|].
    exists account, lane_id, data. split_and!; try done; try lia.
    assert (last_delivered_nonce data <= latest_received_nonce d) as Hold.
    { revert Econf. unfold confirm_delivery. fold d. cbv zeta.
      destruct (_ <=? latest_received_nonce d) eqn:E; [lia|].
      destruct (latest_generated_nonce d <? _); [done|]. case_match; [done|].
      destruct (ensure_unrewarded_relayers_are_correct _ _) as [|e|] eqn:Ee; [done| |done].
      intros [= ->]. by apply ensure_relayers_not_stale in Ee. }
    change (default outbound_default (OutboundLanes (pallet_rest p) !! lane_id)) with d.
    rewrite decide_True by done. by destruct p.
Qed.

(** C39. Sending a message never panics.  It succeeds exactly when the pallet operates normally,
    the lane is active, both verifiers accept the payload and it is not too large;
    then the message gets the next nonce of its lane, can be read back, and nothing
    else changes but the event.  Otherwise the error reports the first of these conditions, in
    this order, that does not hold. *)
Theorem send_message_correct (r : rest) (submitter : RawOrigin AccountId) (lane_id : LaneId)
  (payload : OutboundPayload) :
  outbound_ok r ->
  latest_generated_nonce (ol_data (outbound_lane lane_id r)) + 1 < u64_max ->
  let d := ol_data (outbound_lane lane_id r) in
  let nonce := latest_generated_nonce d + 1 in
  let size := Z.of_nat (length (encode_payload payload)) in
  match send_message r submitter lane_id payload with
  | Ok (artifacts, r') =>
      PalletOperatingMode r = Basic Normal /\ lane_id ∈ ActiveOutboundLanes /\
      chain_verify_message payload = true /\
      lane_verify_message submitter lane_id d payload (external r) = true /\
      size <= MaximalOutboundPayloadSize /\
      art_nonce artifacts = nonce /\ outbound_ok r' /\
      OutboundMessages r' = <[MessageKey_ lane_id nonce := encode_payload payload]> (OutboundMessages r) /\
      OutboundLanes r' =
        <[lane_id := Outbound (oldest_unpruned_nonce d) (latest_received_nonce d) nonce]>
          (OutboundLanes r) /\
      events r' = events r ++ [MessageAccepted lane_id nonce] /\ external r' = external r /\
      PalletOwner r' = PalletOwner r /\ PalletOperatingMode r' = PalletOperatingMode r
  | Err e =>
      e = NotOperatingNormally /\ PalletOperatingMode r <> Basic Normal \/
      PalletOperatingMode r = Basic Normal /\
      (e = InactiveOutboundLane /\ lane_id ∉ ActiveOutboundLanes \/
       lane_id ∈ ActiveOutboundLanes /\
       (e = MessageRejectedByChainVerifier /\ chain_verify_message payload = false \/
        chain_verify_message payload = true /\
        (e = MessageRejectedByLaneVerifier /\
           lane_verify_message submitter lane_id d payload (external r) = false \/
         lane_verify_message submitter lane_id d payload (external r) = true /\
         e = MessageIsTooLarge /\ MaximalOutboundPayloadSize < size)))
  | Panic => False
  end.
Proof.
  intros Hok Hroom d nonce size. unfold send_message, ensure_normal_operating_mode.
  destruct (decide (PalletOperatingMode r = Basic Normal)) as [Hmode|Hmode]; simpl; [|by left].
  case_bool_decide as Hactive; simpl; [|right; split; [done|by left]].
  destruct (chain_verify_message payload) eqn:Echain; simpl;
    [|right; split; [done|]; right; split; [done|by left]].
  fold d. destruct (lane_verify_message _ _ _ _ _) eqn:Elane; simpl;
    [|right; split; [done|]; right; split; [done|]; right; split; [done|by left]].
  fold size. destruct (size <=? MaximalOutboundPayloadSize) eqn:Esize; simpl;
    [|right; split; [done|]; right; split; [done|]; right; split; [done|]; right; split_and!; [done..|lia]].
  destruct (Hok lane_id) as [Hinv Hmax].
  destruct (OutboundLane.send_message _ _) as [[nonce' s]|] eqn:Esend; simpl.
  2: { revert Esend. unfold OutboundLane.send_message. simpl. fold size. by rewrite Esize. }
  pose proof (lane_send_ok _ _ _ _ _ Hok Hroom Esend) as Hsok.
  destruct (send_message_spec _ _ _ _ Hinv Hmax Esend) as (-> & Hd & _).
  revert Esend. unfold OutboundLane.send_message. simpl. fold size. rewrite Esize. simpl.
  intros [= _ Heq].
  change (default outbound_default (OutboundLanes r !! lane_id)) with d in Heq.
  rewrite wrapping_add_small in Heq by (destruct Hinv; unfold d in *; lia). fold nonce in Heq.
  assert (outbound_ok (deposit_event (MessageAccepted lane_id nonce) (ro_rest s))) as Hok'.
  { apply (outbound_ok_same (ro_rest s)); done. }
  split_and!; try done; try lia; by rewrite <- Heq.
Qed.

(** The idle hook returns for every block and budget, provided there is an active lane; it
    uses at most the weight it is given, keeps all lane invariants, and never removes
    a message whose delivery has not been confirmed. *)
Theorem on_idle_bounded (r : rest) (block_number : Z) (remaining : Weight) :
  outbound_ok r -> 0 <= block_number -> ActiveOutboundLanes <> [] ->
  Z.of_nat (length ActiveOutboundLanes) <= u32_max ->
  db_weight_ok DbWeight -> is_u64 (db_read DbWeight) ->
  exists used r',
    on_idle r block_number remaining = Ok (used, r') /\
    weight_le used remaining /\ outbound_ok r' /\
    (forall l n, latest_received_nonce (ol_data (outbound_lane l r)) < n ->
       OutboundMessages r' !! MessageKey_ l n = OutboundMessages r !! MessageKey_ l n).
Proof.
  intros Hok Hblock Hlanes Hlen Hdb Hread. unfold on_idle.
  pose proof (ref_time_u64 remaining) as Hr64. pose proof (proof_size_u64 remaining) as Hp64.
  destruct (all_gte remaining (reads_writes DbWeight 1 2)) eqn:Egte; simpl.
  2: { exists weight_zero, r. split_and!; try done.
       split; [rewrite weight_zero_ref_time|rewrite weight_zero_proof_size]; word. }
  destruct (active_lane_id_Ok block_number) as [lane Hlane]; [done..|]. rewrite Hlane. simpl.
  destruct (Hok lane) as [Hinv Hmax].
  assert (latest_received_nonce (ol_data (outbound_lane lane r)) < u64_max)
    by (destruct Hinv; simpl in *; lia).
  set (budget := weight_sub remaining (reads DbWeight 1)).
  destruct (prune_messages_le (outbound_lane lane r) DbWeight budget Hinv Hdb)
    as (spent & s & Hprune & Hle & Hkept); [done|].
  destruct (prune_messages_inv _ _ _ _ _ Hinv Hdb ltac:(done) Hprune) as (Hinv' & _ & Hg & _).
  destruct (prune_messages_frame _ _ _ _ _ _ Hprune) as [Hid Hframe].
  assert (outbound_lane lane (ro_rest s) = s) as Hs by (destruct s; simpl in *; by subst).
  rewrite Hprune. simpl. exists (weight_add (reads DbWeight 1) spent), (ro_rest s). split_and!; [done| | |].
  - by apply idle_weight_le.
  - apply (outbound_ok_frame lane r); [done|done|by rewrite Hs|]. rewrite Hs, Hg. done.
  - intros l n Hn. destruct (decide (l = lane)) as [->|Hne]; [|by apply Hframe].
    specialize (Hkept n Hn). rewrite <- Hs in Hkept. exact Hkept.
Qed.

(** Every active lane gets its turn: among any [n] consecutive blocks, where [n] is the
    number of active lanes, each of them is pruned once. *)
Theorem every_lane_gets_its_turn (start : Z) (i : nat) (lane : LaneId) :
  0 <= start -> ActiveOutboundLanes !! i = Some lane ->
  Z.of_nat (length ActiveOutboundLanes) <= u32_max ->
  exists block, start <= block < start + Z.of_nat (length ActiveOutboundLanes) /\
    active_lane_id block = Ok lane.
Proof.
  intros Hstart Hi Hlen. pose proof (lookup_lt_Some _ _ _ Hi) as Hlt.
  set (n := Z.of_nat (length ActiveOutboundLanes)) in *.
  exists (start + (Z.of_nat i - start) mod n).
  pose proof (Z.mod_pos_bound (Z.of_nat i - start) n ltac:(lia)).
  split; [lia|]. unfold active_lane_id. fold n.
  rewrite (Z.mod_small n) by lia. rewrite (proj2 (Z.eqb_neq n 0)) by lia.
  rewrite Zplus_mod_idemp_r. replace (start + (Z.of_nat i - start)) with (Z.of_nat i) by lia.
  rewrite Z.mod_small, Z.min_r, Nat2Z.id, Hi by lia. done.
Qed.

(** Only root and the owner can change the owner or the mode, and while the pallet is halted
    no message is sent or received and no delivery is confirmed. *)
Theorem halted_pallet_is_frozen (p : pallet) :
  (forall origin owner p', set_owner (E := Error) p origin owner = Ok p' ->
     may_manage p origin /\ owner_storage p' = owner) /\
  (forall origin mode p', set_operating_mode (E := Error) p origin mode = Ok p' ->
     may_manage p origin /\ operating_mode_storage p' = mode) /\
  (is_halted p = true ->
   (forall origin relayer proof count w,
      receive_messages_proof p origin relayer proof count w
      = Err (ModuleError (BridgeModule HaltedError))) /\
   (forall origin proof state,
      receive_messages_delivery_proof p origin proof state
      = Err (ModuleError (BridgeModule HaltedError))) /\
   (forall origin lane payload,
      send_message (pallet_rest p) origin lane payload = Err NotOperatingNormally)).
Proof.
  split_and!.
  - intros origin owner p' ([] & Hc & [= <-])%obind_Ok. split; [|done].
    by apply (ensure_owner_or_root_iff (E := Error)).
  - intros origin mode p' ([] & Hc & [= <-])%obind_Ok. split; [|done].
    by apply (ensure_owner_or_root_iff (E := Error)).
  - intros Hhalt. split_and!.
    + intros. unfold receive_messages_proof, ensure_not_halted. by rewrite Hhalt.
    + intros. unfold receive_messages_delivery_proof, ensure_not_halted. by rewrite Hhalt.
    + intros. unfold send_message, ensure_normal_operating_mode.
      rewrite decide_False; [done|]. intros Hm. unfold is_halted in Hhalt. simpl in Hhalt.
      by rewrite Hm in Hhalt.
Qed.
End Properties.

(** ** An instance: one lane, a relayer pallet that counts *)
Module OneLane.

Definition lane0 : LaneId := LaneId_ 0 0 0 0.

#[global] Instance constants : MessagesConstants := {|
  ActiveOutboundLanes := [lane0];
  MaxUnrewardedRelayerEntriesAtInboundLane := 4;
  MaxUnconfirmedMessagesAtInboundLane := 8;
  MaximalOutboundPayloadSize := 16;
  DbWeight := rocks_db;
  usize_max := u64_max;
  nonce_len := 8;
  relayer_id_len := 32;
|}.

#[global] Instance weights : WeightInfoExt := BridgeWeight rocks_db.

(** The other pallets: a log of the payments. *)
Definition X : Type := list (Z * Z).

(** A proof is the list of payloads, sent with the nonces from 1 on. *)
#[global] Instance source : SourceHeaderChain (list Message) X := {|
  messages_proof_size _ := 100;
  verify_messages_proof proof n _ :=
    if decide (Z.of_nat (length proof) = n /\
               Forall (fun m => key_nonce (message_key m) < u64_max) proof)
    then Some [(lane0, Proved None proof)] else None;
|}.

#[global] Instance source_laws : SourceHeaderChainLaws (X := X).
Proof.
  split; simpl; intros proof n x ms; case_decide as Hd; try done.
  - intros [= <-]. apply NoDup_singleton.
  - intros _ [= <-]. simpl. lia.
  - intros [= <-]. constructor; [apply Hd|constructor].
Qed.

#[global] Instance target : TargetHeaderChain (list Z) Z (InboundLaneData Z) X := {|
  delivery_proof_size _ := 100;
  chain_verify_message p := (length p <? 8)%nat;
  verify_messages_delivery_proof proof _ := Some (lane0, proof);
|}.

#[global] Instance verifier : LaneMessageVerifier (list Z) Z X := {|
  lane_verify_message _ _ _ _ _ := true;
|}.

#[global] Instance payments : DeliveryPayments Z X := {|
  delivery_pay_reward _ total valid _ x := x ++ [(total, valid)];
|}.

#[global] Instance confirmation_payments : DeliveryConfirmationPayments Z X := {|
  confirmation_pay_reward _ _ _ range x := x ++ [range];
|}.

#[global] Instance codec : PayloadCodec (list Z) (list Z) := {|
  encode_payload p := p;
  decode_payload p := Some p;
|}.

#[global] Instance dispatcher : MessageDispatch Z (list Z) unit (rest Z unit X) := {|
  dispatch_weight m := (from_parts 10 0, m);
  dispatch _ m r := (DispatchResult (from_parts 4 0) tt, r);
|}.

#[global] Instance dispatcher_laws : MessageDispatchLaws (W := rest Z unit X) (L := unit).
Proof. by split. Qed.

Definition rest0 : rest Z unit X := Rest None (Basic Normal) ∅ ∅ [] [].
Definition pallet0 : pallet Z Z unit X := Pallet ∅ rest0.

Lemma pallet0_lanes (l : LaneId) : lane_ok (inbound_lane_data pallet0 l).
Proof.
  assert (inbound_lane_data pallet0 l = inbound_default) as ->
    by (unfold inbound_lane_data, get_inbound; simpl; by rewrite lookup_empty).
  split; [|by vm_compute]. split; unfold last_delivered_nonce; simpl; try word; [exists 1; simpl; lia|done].
Qed.

Lemma rest0_ok : outbound_ok rest0.
Proof.
  intros l. split; [|simpl; rewrite lookup_empty; simpl; word].
  split; simpl; rewrite lookup_empty; simpl; try lia; [word|].
  intros n. rewrite lookup_empty. split; [by intros []|lia].
Qed.

(** One message sent and waiting for its confirmation. *)
Definition rest1 : rest Z unit X :=
  Rest None (Basic Normal) {[lane0 := Outbound 1 0 1]} {[MessageKey_ lane0 1 := [7]]}
    [MessageAccepted lane0 1] [].

Lemma rest1_ok : outbound_ok rest1.
Proof.
  apply (outbound_ok_frame lane0 rest0); [apply rest0_ok| | |].
  - split; simpl; intros k Hk; rewrite lookup_singleton_ne; try done. by intros <-.
  - split; simpl; rewrite ?lookup_singleton_eq; simpl; try lia; [word|].
    intros n. rewrite lookup_singleton_is_Some. split; [intros [= <-]; lia|intros].
    f_equal. lia.
  - simpl. rewrite lookup_singleton_eq. simpl. word.
Qed.
End OneLane.


Lemma receive_messages_delivery_proof_correct_witness :
  let data := Inbound [Unrewarded 5 (Delivered 1 1)] 0 in
  let p := Pallet ∅ OneLane.rest1 in
  exists p',
    receive_messages_delivery_proof (OutboundPayload := list Z) (InboundRelayer := Z)
      p (Signed 3) data (RelayersState 1 1 1 1) = Ok p' /\
    outbound_ok (pallet_rest p') /\ external (pallet_rest p') = [(1, 1)].
Proof.
  intros data p.
  pose proof (receive_messages_delivery_proof_correct (OutboundPayload := list Z)
    (InboundRelayer := Z) p (Signed 3) data (RelayersState 1 1 1 1) OneLane.rest1_ok) as H.
  set (c := receive_messages_delivery_proof _ _ _ _) in H |- *.
  assert (match c with Ok q => external (pallet_rest q) = [(1, 1)] | _ => False end) as Hx
    by reflexivity.
  destruct c as [p'|e|]; [|destruct Hx|destruct Hx].
  exists p'. destruct H as (_ & _ & _ & _ & _ & _ & _ & _ & _ & _ & Hok & _).
  split; [reflexivity|]. split; [exact Hok|exact Hx].
Defined.

Lemma send_message_correct_witness :
  exists artifacts r',
    send_message (P := list Z) (DeliveryProof := InboundLaneData Z) OneLane.rest1 (Signed 3)
      OneLane.lane0 [8; 9] = Ok (artifacts, r') /\
    art_nonce artifacts = 2 /\ outbound_ok r' /\
    OutboundMessages r' !! MessageKey_ OneLane.lane0 2 = Some [8; 9].
Proof.
  pose proof (send_message_correct (P := list Z) (DeliveryProof := InboundLaneData Z)
    OneLane.rest1 (Signed 3) OneLane.lane0 [8; 9] OneLane.rest1_ok
    ltac:(vm_compute; reflexivity)) as H.
  set (c := send_message _ _ _ _) in H |- *.
  assert (match c with Ok (_, q) => OutboundMessages q !! MessageKey_ OneLane.lane0 2 = Some [8; 9]
    | _ => False end) as Hx by reflexivity.
  destruct c as [[artifacts r']|e|]; [|destruct Hx|destruct Hx].
  exists artifacts, r'. destruct H as (_ & _ & _ & _ & _ & Hn & Hok & _).
  split; [reflexivity|]. split; [exact Hn|]. split; [exact Hok|exact Hx].
Defined.

Lemma on_idle_bounded_witness :
  exists used r', on_idle OneLane.rest1 7 (from_parts (10 ^ 9) 5) = Ok (used, r') /\
    weight_le used (from_parts (10 ^ 9) 5) /\ outbound_ok r'.
Proof.
  destruct (on_idle_bounded OneLane.rest1 7 (from_parts (10 ^ 9) 5) OneLane.rest1_ok)
    as (used & r' & Hrun & Hle & Hok & _).
  - lia.
  - discriminate.
  - simpl. word.
  - split; simpl; word.
  - simpl. word.
  - exists used, r'. split; [exact Hrun|]. split; [exact Hle|exact Hok].
Defined.

Lemma every_lane_gets_its_turn_witness :
  exists block, 10 <= block < 11 /\ active_lane_id block = Ok OneLane.lane0.
Proof.
  exact (every_lane_gets_its_turn 10 0 OneLane.lane0 ltac:(lia) eq_refl ltac:(simpl; word)).
Defined.

Lemma halted_pallet_is_frozen_witness :
  let p : pallet Z Z unit OneLane.X :=
    Pallet ∅ (Rest (Some 1) (Basic Halted) ∅ ∅ [] []) in
  send_message (P := list Z) (DeliveryProof := InboundLaneData Z) (pallet_rest p) Root
    OneLane.lane0 [1] = Err NotOperatingNormally.
Proof.
  intros p.
  destruct (halted_pallet_is_frozen (P := list Z) (OutboundPayload := list Z)
    (MessagesProof := list Message) (DeliveryProof := InboundLaneData Z) p) as (_ & _ & Hfrozen).
  apply Hfrozen. reflexivity.
Defined.
