(* ===== verification/MessagesTyping.v ===== *)
(** * modules/messages/src/lib.rs: the storage of the messages pallet is well typed

    Every public entry point of the pallet as a step on its storage, together with what the other
    pallets of the runtime can do to it, and the type of the storage: the bounds that the types of
    the storage items and the configuration of the pallet promise. *)

From S2P Require Import Prelude Substrate RuntimePrimitives MessagesPrimitives OutboundLane.
From S2P Require Import InboundLane MessagesWeights MessagesPallet.
From stdpp Require Import base numbers list gmap relations.
Local Open Scope Z_scope.

Section Typing.
Context `{WeightLaws} `{MessagesConstants} {Info : WeightInfoExt}.
Context {AccountId InboundRelayer OutboundPayload P L MessagesProof DeliveryProof X : Type}.
Context `{EqDecision AccountId} `{EqDecision InboundRelayer}.
Abbreviation rest := (rest AccountId L X).
Abbreviation pallet := (pallet AccountId InboundRelayer L X).
Context `{!SourceHeaderChain MessagesProof X} `{!SourceHeaderChainLaws}.
Context `{!TargetHeaderChain OutboundPayload AccountId DeliveryProof X}.
Context `{!LaneMessageVerifier OutboundPayload AccountId X}.
Context `{!DeliveryPayments AccountId X} `{!DeliveryConfirmationPayments AccountId X}.
Context `{!PayloadCodec OutboundPayload P} `{!MessageDispatch AccountId P L rest}.
Context `{!MessageDispatchLaws (AccountId := AccountId) (P := P) (L := L)}.

(** ** The type of the storage *)

(** [StoredMessagePayload] is a vector of at most [MaximalOutboundPayloadSize] bytes. *)
Definition payloads_bounded (r : rest) : Prop :=
  forall k v, OutboundMessages r !! k = Some v -> Z.of_nat (length v) <= MaximalOutboundPayloadSize.

(** Outbound lanes have ordered 64-bit nonces, with messages stored for exactly the nonces between
    the pruned and the generated ones. *)
Definition rest_typed (r : rest) : Prop := outbound_ok r /\ payloads_bounded r.

(** Inbound lanes have contiguous entries of relayers, no more of them and of unconfirmed messages
    than the configuration allows. *)
Definition pallet_typed (p : pallet) : Prop :=
  (forall l, lane_ok (inbound_lane_data p l)) /\ rest_typed (pallet_rest p).

(** ** Steps *)

(** What other pallets, a message dispatch among them, can do to the storage: they send messages
    with [send_message], deposit events and change their own storage.  A lane never gets as far as
    the last 64-bit nonce. *)
Inductive rest_step (r : rest) : rest -> Prop :=
| other_storage x es :
    rest_step r (Rest (PalletOwner r) (PalletOperatingMode r) (OutboundLanes r) (OutboundMessages r)
                   (events r ++ es) x)
| sends submitter lane payload artifacts r' :
    latest_generated_nonce (ol_data (outbound_lane lane r)) + 1 < u64_max ->
    send_message (OutboundPayload := OutboundPayload) (P := P) r submitter lane payload = Ok (artifacts, r') ->
    rest_step r r'.

Class DispatchIsolation : Prop := {
  dispatch_isolated a m (r : rest) : rtc rest_step r (dispatch a m r).2;
}.

(** The entry points of the pallet. *)
Inductive call_step (p : pallet) : pallet -> Prop :=
| call_receive_messages_proof origin relayer (proof : MessagesProof) count w info p' :
    is_u32 count ->
    receive_messages_proof (P := P) (OutboundPayload := OutboundPayload) p origin relayer proof count w
      = Ok (info, p') ->
    call_step p p'
| call_receive_messages_delivery_proof origin (proof : DeliveryProof) state p' :
    receive_messages_delivery_proof p origin proof state = Ok p' -> call_step p p'
| call_on_idle block remaining used r :
    0 <= block -> on_idle (pallet_rest p) block remaining = Ok (used, r) ->
    call_step p (Pallet (InboundLanes p) r)
| call_set_owner origin owner p' : set_owner (E := Error) p origin owner = Ok p' -> call_step p p'
| call_set_operating_mode origin mode p' :
    set_operating_mode (E := Error) p origin mode = Ok p' -> call_step p p'
| call_other r : rest_step (pallet_rest p) r -> call_step p (Pallet (InboundLanes p) r).

(** No entry point panics. *)
Record never_panics (p : pallet) : Prop := {
  receive_messages_proof_returns origin relayer (proof : MessagesProof) count w :
    receive_messages_proof (P := P) (OutboundPayload := OutboundPayload) p origin relayer proof count w <> Panic;
  receive_messages_delivery_proof_returns origin (proof : DeliveryProof) state :
    receive_messages_delivery_proof p origin proof state <> Panic;
  send_message_returns submitter lane payload :
    send_message (OutboundPayload := OutboundPayload) (P := P) (pallet_rest p) submitter lane payload <> Panic;
  on_idle_returns block remaining : 0 <= block -> on_idle (pallet_rest p) block remaining <> Panic;
}.

(** The configuration: there is an active lane, and the weights of the database are sane. *)
Record configuration_ok : Prop := {
  has_lanes : ActiveOutboundLanes <> [];
  lanes_u32 : Z.of_nat (length ActiveOutboundLanes) <= u32_max;
  entries_nonneg : 0 <= MaxUnrewardedRelayerEntriesAtInboundLane;
  unconfirmed_nonneg : 0 <= MaxUnconfirmedMessagesAtInboundLane;
  db_ok : db_weight_ok DbWeight;
  db_read_u64 : is_u64 (db_read DbWeight);
}.

(** ** Preservation *)

Lemma rest_typed_same (r r' : rest) :
  OutboundLanes r' = OutboundLanes r -> OutboundMessages r' = OutboundMessages r ->
  rest_typed r -> rest_typed r'.
Proof.
  intros Hl Hm [Hok Hb]. split; [by apply (outbound_ok_same r)|].
  intros k v. rewrite Hm. apply Hb.
Qed.

Lemma rest_step_typed (r r' : rest) : rest_step r r' -> rest_typed r -> rest_typed r'.
Proof.
  intros [x es|submitter lane payload artifacts r1 Hroom Hsend] Hr; [by apply (rest_typed_same r)|].
  unfold send_message in Hsend.
  apply obind_Ok in Hsend as (_ & _ & Hsend). apply obind_Ok in Hsend as (_ & _ & Hsend).
  apply obind_Ok in Hsend as (_ & _ & Hsend). apply obind_Ok in Hsend as (_ & _ & Hsend).
  apply obind_Ok in Hsend as ([] & Hsize%ensure_Ok%Z.leb_le & Hsend).
  apply obind_Ok in Hsend as ([nonce s] & Hs%expect_Ok & [= _ <-]).
  apply (rest_typed_same (ro_rest s)); [done..|]. destruct Hr as [Hok Hb].
  split; [by eapply lane_send_ok|]. intros k v.
  revert Hs. unfold OutboundLane.send_message. simpl. case_match; [|done]. simpl. intros [= _ <-]. simpl.
  rewrite lookup_insert_Some. intros [[_ <-]|[_ Hk]]; [done|by eapply Hb].
Qed.

Lemma rest_steps_typed (r r' : rest) : rtc rest_step r r' -> rest_typed r -> rest_typed r'.
Proof. induction 1; eauto using rest_step_typed. Qed.

Section Delivery.
Context (Hisolated : DispatchIsolation).

Lemma receive_one_rest (relayer : InboundRelayer) (a : AccountId) (b : batch) (m : DispatchMessage P) :
  rest_typed (b_rest b) -> rest_typed (b_rest (receive_one relayer a b m)).
Proof.
  intros Hr. unfold receive_one. destruct (b_stopped b); [done|].
  destruct (dispatch_weight m) as [w m']. destruct (any_gt _ _); [done|].
  unfold receive_message. destruct (il_data (b_lane b)) as [data s].
  repeat (case_match; simplify_eq; try done).
  all: simpl in *; eapply rest_steps_typed; [|exact Hr].
  all: match goal with E : dispatch _ ?x ?r = _ |- _ => pose proof (dispatch_isolated a x r) as Hd; by rewrite E in Hd end.
Qed.

Lemma receive_many_rest (relayer : InboundRelayer) (a : AccountId) (ms : list (DispatchMessage P)) (b : batch) :
  rest_typed (b_rest b) -> rest_typed (b_rest (foldl (receive_one relayer a) b ms)).
Proof. revert b. induction ms as [|m ms IH]; intros b Hb; [done|]. by apply IH, receive_one_rest. Qed.

Lemma receive_lanes_rest (relayer : InboundRelayer) (a : AccountId)
  (ms : list (LaneId * ProvedLaneMessages (DispatchMessage P))) (d : delivery) :
  rest_typed (d_rest d) -> rest_typed (d_rest (foldl (receive_lane relayer a) d ms)).
Proof.
  revert d. induction ms as [|[lane data] ms IH]; intros d Hr; [done|]. cbn [foldl]. apply IH.
  unfold receive_lane. destruct (extra_proof_size_bytes (inbound_lane_storage lane (d_inbound d))) as [n s].
  cbn [d_rest]. by apply receive_many_rest.
Qed.

Lemma receive_messages_proof_typed (p p' : pallet) (origin : RawOrigin AccountId) (relayer : InboundRelayer)
  (proof : MessagesProof) (count : Z) (w : Weight) (info : PostDispatchInfo) :
  is_u32 count -> pallet_typed p ->
  receive_messages_proof (P := P) (OutboundPayload := OutboundPayload) p origin relayer proof count w = Ok (info, p') ->
  pallet_typed p'.
Proof.
  intros Hcount [Hin Hr] Hrun. unfold receive_messages_proof in Hrun.
  apply obind_Ok in Hrun as (_ & _ & Hrun). apply obind_Ok in Hrun as (account & _ & Hrun).
  apply obind_Ok in Hrun as ([] & Hmax%ensure_Ok%Z.leb_le & Hrun).
  apply obind_Ok in Hrun as (ms & Hms%ok_or_Ok & Hrun). injection Hrun as _ <-.
  destruct (receive_proved_lanes p relayer account proof count w
    (receive_messages_proof_weight (messages_proof_size proof) count w) ms Hin Hcount Hmax Hms) as [[_ Ho _ _ _ _] _].
  split; [intros l; apply Ho, Hin|].
  by eapply rest_typed_same, receive_lanes_rest.
Qed.
End Delivery.

Lemma receive_messages_delivery_proof_typed (p p' : pallet) (origin : RawOrigin AccountId)
  (proof : DeliveryProof) (state : UnrewardedRelayersState) :
  pallet_typed p -> receive_messages_delivery_proof p origin proof state = Ok p' -> pallet_typed p'.
Proof.
  intros [Hin [Hok Hb]] Hrun. unfold receive_messages_delivery_proof in Hrun.
  apply obind_Ok in Hrun as (_ & _ & Hrun). apply obind_Ok in Hrun as (account & _ & Hrun).
  apply obind_Ok in Hrun as ([lane data] & _ & Hrun). apply obind_Ok in Hrun as (_ & _ & Hrun).
  apply obind_Ok in Hrun as (_ & _ & Hrun).
  destruct (confirm_delivery _ _ _ _) as [res s] eqn:Hc.
  apply obind_Ok in Hrun as (confirmed & _ & [= <-]). split; [exact Hin|].
  assert (rest_typed (ro_rest s)) as Hs.
  { split; [by eapply lane_confirm_ok|].
    apply confirm_delivery_cases in Hc as [(b & _ & _ & _ & _ & _ & ->)|[-> _]]; exact Hb. }
  destruct confirmed; [|done]. by apply (rest_typed_same (ro_rest s)).
Qed.

Lemma prune_keeps_payloads (fuel : nat) (ww two : Weight)
  (s s' : RuntimeOutboundLaneStorage AccountId L X) (d d' : OutboundLaneData) (spent spent' remaining : Weight) :
  prune_loop fuel ww two s d spent remaining = Some (s', d', spent') ->
  payloads_bounded (ro_rest s) -> payloads_bounded (ro_rest s').
Proof.
  revert s d spent remaining. induction fuel as [|fuel IH]; intros s d spent remaining; simpl; [done|].
  case_match; [|by intros [= <- <- <-]]. intros Hloop Hb. apply (IH _ _ _ _ Hloop). simpl.
  intros k v. simpl. rewrite lookup_delete_Some. intros [_ Hk]. by eapply Hb.
Qed.

Section Configured.
Context (Hconfig : configuration_ok).

Lemma on_idle_ok (r : rest) (block : Z) (remaining : Weight) :
  outbound_ok r -> 0 <= block ->
  exists used r', on_idle r block remaining = Ok (used, r') /\ outbound_ok r'.
Proof.
  intros Hok Hblock. destruct Hconfig.
  edestruct (on_idle_bounded r block remaining) as (used & r' & ? & _ & ? & _); eauto.
Qed.

Lemma on_idle_typed (r r' : rest) (block : Z) (remaining used : Weight) :
  rest_typed r -> 0 <= block -> on_idle r block remaining = Ok (used, r') -> rest_typed r'.
Proof.
  intros [Hok Hb] Hblock Hidle.
  destruct (on_idle_ok r block remaining Hok Hblock) as (used' & r1 & E & Hok').
  rewrite Hidle in E. injection E as <- <-. split; [done|].
  unfold on_idle in Hidle. destruct (negb _); [by injection Hidle as _ <-|].
  apply obind_Ok in Hidle as (lane & _ & Hidle).
  apply obind_Ok in Hidle as ([spent s] & Hp%expect_Ok & [= _ <-]). revert Hp. unfold prune_messages.
  destruct (prune_loop _ _ _ _ _ _ _) as [[[s' d'] sp]|] eqn:E; [|done].
  apply prune_keeps_payloads in E; [|exact Hb]. case_match; intros [= _ <-]; exact E.
Qed.
Lemma call_step_typed (Hisolated : DispatchIsolation) (p p' : pallet) :
  call_step p p' -> pallet_typed p -> pallet_typed p'.
Proof.
  intros Hstep Hp. pose proof Hp as [Hin Hr]. destruct Hstep as [| |block remaining used r Hblock Hidle| | |r Hstep].
  - by eapply receive_messages_proof_typed.
  - by eapply receive_messages_delivery_proof_typed.
  - split; [exact Hin|]. by eapply on_idle_typed.
  - match goal with E : set_owner _ _ _ = _ |- _ => apply obind_Ok in E as (_ & _ & [= <-]) end.
    split; [exact Hin|]. by apply (rest_typed_same (pallet_rest p)).
  - match goal with E : set_operating_mode _ _ _ = _ |- _ => apply obind_Ok in E as (_ & _ & [= <-]) end.
    split; [exact Hin|]. by apply (rest_typed_same (pallet_rest p)).
  - split; [exact Hin|]. by eapply rest_step_typed.
Qed.

(** ** Progress *)

Lemma typed_never_panics (p : pallet) : pallet_typed p -> never_panics p.
Proof.
  intros [Hin [Hok Hb]]. split.
  - intros origin relayer proof count w. unfold receive_messages_proof, ensure_not_halted.
    destruct (is_halted p), origin, (_ <=? _); simpl; try done. by destruct (verify_and_decode_messages_proof _ _ _).
  - intros origin proof state. unfold receive_messages_delivery_proof, ensure_not_halted.
    destruct (is_halted p), origin as [|account| |]; simpl; try done.
    destruct (verify_messages_delivery_proof _ _) as [[lane data]|]; simpl; [|done].
    destruct (_ && _); simpl; [|done]. destruct (_ =? rs_last_delivered_nonce state); simpl; [|done].
    by destruct (confirm_delivery _ _ _ _) as [[] s].
  - intros submitter lane payload. unfold send_message, ensure_normal_operating_mode.
    case_decide; simpl; [|done]. case_bool_decide; simpl; [|done].
    destruct (chain_verify_message payload); simpl; [|done].
    destruct (lane_verify_message _ _ _ _ _); simpl; [|done].
    destruct (_ <=? MaximalOutboundPayloadSize) eqn:Esize; simpl; [|done].
    unfold OutboundLane.send_message. simpl. by rewrite Esize.
  - intros block remaining Hblock.
    by destruct (on_idle_ok (pallet_rest p) block remaining Hok Hblock) as (used & r & -> & _).
Qed.

(** ** Genesis *)

(** The storage before genesis: nothing is stored, other pallets have the state [x]. *)
Definition empty_pallet (x : X) : pallet := Pallet ∅ (Rest None (Basic Normal) ∅ ∅ [] x).

Lemma genesis_typed (c : GenesisConfig) (x : X) : pallet_typed (genesis_build c (empty_pallet x)).
Proof.
  destruct Hconfig. split; [|split].
  - intros l. assert (inbound_lane_data (genesis_build c (empty_pallet x)) l = inbound_default) as ->
      by (unfold inbound_lane_data, get_inbound; simpl; by rewrite lookup_empty).
    split; [|unfold last_delivered_nonce; simpl; word].
    split; unfold last_delivered_nonce; simpl; try word; try lia; [exists 1; simpl; lia|done].
  - intros l. split; [|simpl; rewrite lookup_empty; simpl; word].
    split; simpl; rewrite lookup_empty; simpl; try lia; [word|].
    intros n. rewrite lookup_empty. split; [by intros []|lia].
  - intros k v. simpl. by rewrite lookup_empty.
Qed.

(** C22. The storage of the messages pallet stays well typed from genesis on: whatever calls,
    hooks and effects of other pallets follow, every inbound lane has contiguous entries within
    the configured numbers of relayers and unconfirmed messages, every outbound lane has ordered
    nonces with a payload of bounded size for exactly the unpruned ones, and no entry point of the
    pallet panics. *)
Theorem storage_is_well_typed (Hisolated : DispatchIsolation) (c : GenesisConfig) (x : X) (p : pallet) :
  rtc call_step (genesis_build c (empty_pallet x)) p -> pallet_typed p /\ never_panics p.
Proof.
  intros Hsteps. assert (pallet_typed p) as Hp.
  { pose proof (genesis_typed c x) as Hg. induction Hsteps; eauto using call_step_typed. }
  split; [exact Hp|]. by apply typed_never_panics.
Qed.
End Configured.

End Typing.

(** ** Two calls after genesis *)
Module SentAndHalted.

Definition config : GenesisConfig (AccountId := Z) := Genesis (Basic Normal) (Some 1).
Definition genesis : pallet Z Z unit OneLane.X := genesis_build config (empty_pallet []).

Lemma one_lane_ok : configuration_ok.
Proof. split; simpl; try done; try lia; vm_compute; repeat split; discriminate. Qed.

Lemma one_lane_isolated : DispatchIsolation (P := list Z) (DeliveryProof := InboundLaneData Z)
  (OutboundPayload := list Z) (AccountId := Z) (L := unit) (X := OneLane.X).
Proof. split. intros a m r. apply rtc_refl. Qed.

End SentAndHalted.

Lemma storage_is_well_typed_witness :
  exists artifacts r p',
    send_message (P := list Z) (DeliveryProof := InboundLaneData Z) (pallet_rest SentAndHalted.genesis)
      (Signed 3) OneLane.lane0 [7] = Ok (artifacts, r) /\
    set_operating_mode (E := Error) (Pallet (InboundLanes SentAndHalted.genesis) r) (Signed 1) (Basic Halted) = Ok p' /\
    pallet_typed p'.
Proof.
  set (c := send_message _ _ _ _).
  assert (match c with Ok (_, q) => PalletOwner q = Some 1 | _ => False end) as Hx by reflexivity.
  destruct c as [[artifacts r]|e|] eqn:Hc; [|destruct Hx..].
  exists artifacts, r.
  set (d := set_operating_mode _ _ _).
  assert (match d with Ok _ => True | _ => False end) as Hy.
  { unfold d, set_operating_mode, ensure_owner_or_root. simpl. rewrite Hx. done. }
  destruct d as [p'|e|] eqn:Hd; [|destruct Hy..].
  exists p'. split; [reflexivity|]. split; [reflexivity|].
  refine (proj1 (storage_is_well_typed (MessagesProof := list Message) (DeliveryProof := InboundLaneData Z)
    (OutboundPayload := list Z) (P := list Z) SentAndHalted.one_lane_ok SentAndHalted.one_lane_isolated
    SentAndHalted.config [] p' _)).
  eapply rtc_l; [eapply call_other, sends; [|exact Hc]; vm_compute; reflexivity|].
  eapply rtc_l; [eapply call_set_operating_mode; exact Hd|apply rtc_refl].
Defined.
