(* ===== verification/StorageProof.v ===== *)
(** * primitives/runtime/src/storage_proof.rs: storage proofs

    [StorageProofChecker] reads values of another chain's storage from a set of trie
    nodes that a relayer supplies, counts the nodes it was given and records the ones
    it visits.  The trie itself ([sp-trie]) is a parameter: a class with the database
    lookup and the recorded read, and a class with their documented behaviour. *)

From S2P Require Import Prelude.
From stdpp Require Import base numbers list gmap sets.
Local Open Scope Z_scope.

Inductive StorageProofError :=
| DuplicateNodesInProof
| UnusedNodesInTheProof
| StorageRootMismatch
| StorageValueUnavailable
| StorageValueEmpty
| StorageValueDecodeFailed.

#[export] Instance StorageProofError_eq_dec : EqDecision StorageProofError.
Proof. solve_decision. Defined.

(** [db_contains] is [HashDB::contains]; [read_trie_value] gives the encoded nodes that
    the recorder saw, and [None] on a trie error. *)
Class Trie (Node Hash Key Value : Type) `{Countable Node} := {
  db_contains : gset Node -> Hash -> bool;
  read_trie_value : gset Node -> Hash -> Key -> list Node * option (option Value);
}.

(** Reads only see nodes of the database.  The nodes are found by their hash, so the
    presence of other nodes does not change a read that succeeds. *)
Class TrieLaws (Node Hash Key Value : Type) `{Trie Node Hash Key Value} : Prop := {
  read_visits_db db root key n :
    n ∈ (read_trie_value (Value := Value) db root key).1 -> n ∈ db;
  read_monotone db db' root key (v : option Value) :
    db ⊆ db' -> (read_trie_value db root key).2 = Some v ->
    (read_trie_value db' root key).2 = Some v;
}.

Section StorageProof.
Context {Node Hash Key Value : Type} `{Trie Node Hash Key Value}.

Record StorageProofChecker := Checker {
  proof_nodes_count : Z;
  proof_root : Hash;
  proof_db : gset Node;
  recorder : list Node;
}.

Definition checker_new (root : Hash) (proof : list Node) :
  outcome StorageProofError StorageProofChecker :=
  let proof_nodes_count := Z.of_nat (length proof) in
  let proof : gset Node := list_to_set proof in
  if negb (proof_nodes_count =? Z.of_nat (size proof)) then Err DuplicateNodesInProof
  else
    if negb (db_contains proof root) then Err StorageRootMismatch
    else Ok (Checker proof_nodes_count root proof []).

Definition ensure_no_unused_nodes (c : StorageProofChecker) : outcome StorageProofError unit :=
  let visited_nodes : gset Node := list_to_set (recorder c) in
  let visited_nodes_count := Z.of_nat (size visited_nodes) in
  if proof_nodes_count c =? visited_nodes_count then Ok tt else Err UnusedNodesInTheProof.

(** The recorder keeps what the read has seen, also when it fails. *)
Definition read_value (c : StorageProofChecker) (key : Key) :
  outcome StorageProofError (option Value) * StorageProofChecker :=
  let (seen, r) := read_trie_value (proof_db c) (proof_root c) key in
  (ok_or r StorageValueUnavailable,
   Checker (proof_nodes_count c) (proof_root c) (proof_db c) (recorder c ++ seen)).

Definition read_and_decode_value {T : Type} (decode : Value -> option T) (c : StorageProofChecker)
  (key : Key) : outcome StorageProofError (option T) * StorageProofChecker :=
  let (r, c) := read_value c key in
  (let? v := r in
   match v with
   | Some v => let? t := ok_or (decode v) StorageValueDecodeFailed in Ok (Some t)
   | None => Ok None
   end, c).

Definition read_and_decode_mandatory_value {T : Type} (decode : Value -> option T)
  (c : StorageProofChecker) (key : Key) : outcome StorageProofError T * StorageProofChecker :=
  let (r, c) := read_and_decode_value decode c key in
  (let? v := r in ok_or v StorageValueEmpty, c).

Definition read_and_decode_opt_value {T : Type} (decode : Value -> option T)
  (c : StorageProofChecker) (key : Key) :
  outcome StorageProofError (option T) * StorageProofChecker :=
  let (r, c) := read_and_decode_value decode c key in
  (match r with
   | Ok v => Ok v
   | Err StorageValueUnavailable => Ok None
   | Err e => Err e
   | Panic => Panic
   end, c).

(** The checker after a sequence of reads. *)
Definition reads_of (c : StorageProofChecker) (keys : list Key) : StorageProofChecker :=
  fold_left (fun c key => (read_value c key).2) keys c.

Definition visited_by (db : gset Node) (root : Hash) (key : Key) (n : Node) : Prop :=
  n ∈ (read_trie_value db root key).1.

Lemma checker_new_Ok (root : Hash) (proof : list Node) (c : StorageProofChecker) :
  checker_new root proof = Ok c ->
  c = Checker (Z.of_nat (length proof)) root (list_to_set proof) [] /\ NoDup proof /\
  db_contains (list_to_set proof) root = true.
Proof.
  unfold checker_new. destruct (_ =? _) eqn:El; [|done]. destruct (db_contains _ _) eqn:Ec; [|done].
  simpl. intros [= <-]. split_and!; [done| |done]. apply Z.eqb_eq, Nat2Z.inj in El.
  by apply NoDup_of_size.
Qed.

Lemma checker_new_accepts (root : Hash) (proof : list Node) :
  (Z.of_nat (length proof) =? Z.of_nat (size (list_to_set proof : gset Node))) = true ->
  db_contains (list_to_set proof) root = true ->
  checker_new root proof = Ok (Checker (Z.of_nat (length proof)) root (list_to_set proof) []).
Proof. unfold checker_new. by intros -> ->. Qed.

Lemma reads_of_spec (c : StorageProofChecker) (keys : list Key) :
  proof_nodes_count (reads_of c keys) = proof_nodes_count c /\
  proof_root (reads_of c keys) = proof_root c /\ proof_db (reads_of c keys) = proof_db c /\
  forall n, n ∈ recorder (reads_of c keys) <->
    n ∈ recorder c \/ exists key, key ∈ keys /\ visited_by (proof_db c) (proof_root c) key n.
Proof.
  revert c. induction keys as [|key keys IH]; intros c; simpl.
  { split_and!; try done. intros n. split; [by left|]. intros [?|(key & Hin & _)]; [done|].
    by apply not_elem_of_nil in Hin. }
  destruct (IH (read_value c key).2) as (Hcount & Hroot & Hdb & Hrec).
  unfold read_value, visited_by in *. destruct (read_trie_value (proof_db c) _ _) as [seen r] eqn:E.
  simpl in *. split_and!; try done. intros n. unfold reads_of in Hrec. rewrite Hrec, elem_of_app.
  split.
  - intros [[?|Hs]|(k & Hk & Hv)]; [by left| |]; right.
    + exists key. rewrite E. split; [by left|done].
    + exists k. split; [by right|done].
  - intros [?|(k & [->|Hk]%elem_of_cons & Hv)]; [by left; left| |].
    + rewrite E in Hv. by left; right.
    + right. by exists k.
Qed.

Lemma read_value_state (c : StorageProofChecker) (key : Key) :
  proof_db (read_value c key).2 = proof_db c /\ proof_root (read_value c key).2 = proof_root c.
Proof. unfold read_value. by destruct (read_trie_value _ _ _). Qed.

Lemma mandatory_value_spec {T : Type} (decode : Value -> option T) (c : StorageProofChecker)
  (key : Key) :
  (read_and_decode_mandatory_value decode c key).2 = (read_value c key).2 /\
  forall t, (read_and_decode_mandatory_value decode c key).1 = Ok t <->
    exists v, (read_trie_value (proof_db c) (proof_root c) key).2 = Some (Some v) /\
      decode v = Some t.
Proof.
  unfold read_and_decode_mandatory_value, read_and_decode_value, read_value.
  destruct (read_trie_value _ _ _) as [seen [[v|]|]]; simpl; try by (split; [done|naive_solver]).
  split; [done|]. intros t. destruct (decode v) eqn:E; naive_solver.
Qed.

Lemma opt_value_spec {T : Type} (decode : Value -> option T) (c : StorageProofChecker)
  (key : Key) :
  (read_and_decode_opt_value decode c key).2 = (read_value c key).2 /\
  forall t, (read_and_decode_opt_value decode c key).1 = Ok t <->
    match (read_trie_value (proof_db c) (proof_root c) key).2 with
    | Some (Some v) => exists t', decode v = Some t' /\ t = Some t'
    | _ => t = None
    end.
Proof.
  unfold read_and_decode_opt_value, read_and_decode_value, read_value.
  destruct (read_trie_value _ _ _) as [seen [[v|]|]]; simpl; try by (split; [done|naive_solver]).
  split; [done|]. intros t. destruct (decode v) eqn:E; naive_solver.
Qed.
End StorageProof.
Arguments StorageProofChecker Node Hash {_ _}.

(** ** Properties *)

Section StorageProofProperties.
Context {Node Hash Key Value : Type} `{TrieLaws Node Hash Key Value}.

Lemma no_unused_nodes_iff (root : Hash) (proof : list Node)
  (c : StorageProofChecker Node Hash) (keys : list Key) :
  checker_new root proof = Ok c ->
  ensure_no_unused_nodes (reads_of c keys) = Ok tt <->
  forall n, n ∈ proof <->
    exists key, key ∈ keys /\ visited_by (Value := Value) (list_to_set proof) root key n.
Proof.
  intros (-> & Hnd & Hroot)%checker_new_Ok.
  destruct (reads_of_spec (Checker (Z.of_nat (length proof)) root (list_to_set proof) []) keys)
    as (Hcount & _ & _ & Hrec). simpl in *.
  generalize dependent (reads_of (Checker (Z.of_nat (length proof)) root (list_to_set proof) []) keys).
  intros c Hcount Hrec. setoid_rewrite elem_of_nil in Hrec. setoid_rewrite (left_id False or) in Hrec.
  set (visited := list_to_set (recorder c) : gset Node).
  assert (visited ⊆ list_to_set proof) as Hsub.
  { intros n Hn. apply elem_of_list_to_set, Hrec in Hn as (key & _ & Hv).
    by apply (read_visits_db _ _ _ _ Hv). }
  assert ((forall n, n ∈ proof <->
     exists key, key ∈ keys /\ visited_by (Value := Value) (list_to_set proof) root key n) <->
     (list_to_set proof : gset Node) = visited) as ->.
  { split.
    - intros Hall. apply set_eq. intros n. unfold visited.
      by rewrite !elem_of_list_to_set, Hrec, Hall.
    - intros Heq n. rewrite <- Hrec, <- !(elem_of_list_to_set (C := gset Node)), Heq. done. }
  unfold ensure_no_unused_nodes. fold visited. rewrite Hcount.
  rewrite <- (size_list_to_set (C := gset Node)) by done.
  destruct (_ =? _) eqn:E; split; try done.
  - intros _. apply Z.eqb_eq, Nat2Z.inj in E. symmetry. apply leibniz_equiv, set_subseteq_size_equiv; [done|lia].
  - intros Heq. rewrite Heq in E. lia.
Qed.

(** What a node promises when it proves storage: the nodes that it returns are distinct, the root
    is among them, each of them is met when one of the keys is read, and they are enough to
    read all keys. *)
Record honest_node {E : Type} (prove_storage : list Key -> Hash -> outcome E (list Node))
  (hash root : Hash) : Prop := {
  hn_distinct keys nodes : prove_storage keys hash = Ok nodes -> NoDup nodes;
  hn_root keys nodes : prove_storage keys hash = Ok nodes -> keys <> [] ->
    db_contains (list_to_set nodes : gset Node) root = true;
  hn_minimal keys nodes n : prove_storage keys hash = Ok nodes -> n ∈ nodes ->
    exists key, key ∈ keys /\ visited_by (Value := Value) (list_to_set nodes) root key n;
  hn_complete keys nodes key : prove_storage keys hash = Ok nodes -> key ∈ keys ->
    is_Some (read_trie_value (Value := Value) (list_to_set nodes) root key).2;
}.

Lemma honest_proof_is_accepted {E : Type} (prove_storage : list Key -> Hash -> outcome E (list Node))
  (hash root : Hash) (keys : list Key) (nodes : list Node) :
  honest_node prove_storage hash root -> prove_storage keys hash = Ok nodes -> keys <> [] ->
  let c := Checker (Z.of_nat (length nodes)) root (list_to_set nodes) [] in
  checker_new root nodes = Ok c /\ ensure_no_unused_nodes (reads_of c keys) = Ok tt.
Proof.
  intros Hnode Hnodes Hne c.
  assert (checker_new root nodes = Ok c) as Hnew.
  { apply checker_new_accepts; [|by eapply hn_root].
    rewrite size_list_to_set by (by eapply hn_distinct). by rewrite Z.eqb_refl. }
  split; [exact Hnew|]. apply (no_unused_nodes_iff root nodes _ keys Hnew). intros n. split.
  - intros Hn. by apply (hn_minimal _ _ _ Hnode _ _ _ Hnodes).
  - intros (k & _ & Hvis). apply read_visits_db in Hvis. by apply elem_of_list_to_set in Hvis.
Qed.

(** A relayer can neither repeat a trie node nor append one that is not needed: the check
    after the reads passes exactly when the proof lists every node that some read has
    visited, and each of them once. *)
Theorem storage_proof_is_minimal (root : Hash) (proof : list Node)
  (c : StorageProofChecker Node Hash) (keys : list Key) :
  checker_new root proof = Ok c ->
  NoDup proof /\
  (ensure_no_unused_nodes (reads_of c keys) = Ok tt <->
   forall n, n ∈ proof <->
     exists key, key ∈ keys /\ visited_by (Value := Value) (list_to_set proof) root key n).
Proof.
  intros Hc. split; [by apply checker_new_Ok in Hc as (_ & ? & _)|by apply no_unused_nodes_iff].
Qed.

(** Two proofs against the same state root never disagree: if both give an answer for a key,
    the answers are equal, whatever other nodes the proofs carry. *)
Theorem storage_proofs_agree (root : Hash) (proof1 proof2 : list Node)
  (c1 c2 : StorageProofChecker Node Hash) (keys1 keys2 : list Key) (key : Key)
  (v1 v2 : option Value) :
  checker_new root proof1 = Ok c1 -> checker_new root proof2 = Ok c2 ->
  (read_value (reads_of c1 keys1) key).1 = Ok v1 ->
  (read_value (reads_of c2 keys2) key).1 = Ok v2 ->
  v1 = v2.
Proof.
  intros (-> & _)%checker_new_Ok (-> & _)%checker_new_Ok.
  assert (forall proof keys v,
    (read_value (reads_of (Checker (Z.of_nat (length proof)) root (list_to_set proof) []) keys)
       key).1 = Ok v ->
    (read_trie_value (list_to_set proof1 ∪ list_to_set proof ∪ list_to_set proof2) root key).2
      = Some v) as Hread.
  { intros proof keys v Hr.
    destruct (reads_of_spec (Checker (Z.of_nat (length proof)) root (list_to_set proof) []) keys)
      as (_ & Eroot & Edb & _). unfold read_value in Hr. rewrite Eroot, Edb in Hr. simpl in Hr.
    destruct (read_trie_value (list_to_set proof) root key) as [seen r] eqn:E. simpl in Hr.
    apply ok_or_Ok in Hr. eapply read_monotone; [|rewrite E; exact Hr]. set_solver. }
  intros Hr1%Hread Hr2%Hread.
  replace (list_to_set proof1 ∪ list_to_set proof1 ∪ list_to_set proof2) with
    (list_to_set proof1 ∪ list_to_set proof2 ∪ list_to_set proof2 : gset Node) in Hr1 by set_solver.
  congruence.
Qed.
End StorageProofProperties.

(** ** A trie of depth two

    A node is a value and the hashes of its children by key; its hash is its code. *)
Module SmallTrie.

Definition node : Type := Z * list (Z * positive).
Definition hash (n : node) : positive := encode n.

Definition find_node (db : gset node) (h : positive) : option node :=
  n ← decode h; if decide (n ∈ db) then Some n else None.

Definition child (n : node) (key : Z) : option positive :=
  snd <$> list_find (fun p => p.1 = key) n.2 ≫= fun p => Some p.2.

Definition read (db : gset node) (root : positive) (key : Z) : list node * option (option Z) :=
  match find_node db root with
  | None => ([], None)
  | Some n =>
      match child n key with
      | None => ([n], Some None)
      | Some h =>
          match find_node db h with
          | None => ([n], None)
          | Some m => ([n; m], Some (Some m.1))
          end
      end
  end.

#[global] Instance trie : Trie node positive Z Z := {|
  db_contains db root := match find_node db root with Some _ => true | None => false end;
  read_trie_value := read;
|}.

Lemma find_node_in (db : gset node) (h : positive) (n : node) : find_node db h = Some n -> n ∈ db.
Proof. unfold find_node. destruct (decode h); simpl; [|done]. case_decide; naive_solver. Qed.

Lemma find_node_mono (db db' : gset node) (h : positive) (n : node) :
  db ⊆ db' -> find_node db h = Some n -> find_node db' h = Some n.
Proof.
  intros Hs. unfold find_node. destruct (decode h) as [m|]; simpl; [|done].
  case_decide; [|done]. intros [= ->]. by rewrite decide_True by set_solver.
Qed.

#[global] Instance trie_laws : TrieLaws node positive Z Z.
Proof.
  split.
  - intros db root key n. simpl. unfold read.
    destruct (find_node db root) as [r|] eqn:Er; simpl; [|by intros ?%not_elem_of_nil].
    destruct (child r key) as [h|]; simpl; [destruct (find_node db h) as [m|] eqn:Em; simpl|].
    + intros [->|[->|?%not_elem_of_nil]%elem_of_cons]%elem_of_cons; try done; by eapply find_node_in.
    + intros [->|?%not_elem_of_nil]%elem_of_cons; try done; by eapply find_node_in.
    + intros [->|?%not_elem_of_nil]%elem_of_cons; try done; by eapply find_node_in.
  - intros db db' root key v Hs. simpl. unfold read.
    destruct (find_node db root) as [r|] eqn:Er; simpl; [|done].
    rewrite (find_node_mono _ _ _ _ Hs Er). destruct (child r key) as [h|]; simpl; [|done].
    destruct (find_node db h) as [m|] eqn:Em; simpl; [|done].
    by rewrite (find_node_mono _ _ _ _ Hs Em).
Qed.

Definition leaf1 : node := (41, []).
Definition leaf2 : node := (42, []).
Definition top : node := (0, [(1, hash leaf1); (2, hash leaf2)]).

Definition short_proof : list node := [top; leaf2].
Definition long_proof : list node := [top; leaf1; leaf2].
Definition short : StorageProofChecker node positive := Checker 2 (hash top) (list_to_set short_proof) [].
Definition long : StorageProofChecker node positive := Checker 3 (hash top) (list_to_set long_proof) [].

Lemma short_accepted : checker_new (hash top) short_proof = Ok short.
Proof. apply checker_new_accepts; vm_compute; reflexivity. Qed.

Lemma long_accepted : checker_new (hash top) long_proof = Ok long.
Proof. apply checker_new_accepts; vm_compute; reflexivity. Qed.
End SmallTrie.

Lemma storage_proof_is_minimal_witness :
  NoDup SmallTrie.short_proof /\
  ensure_no_unused_nodes (reads_of SmallTrie.short [2]) = Ok tt /\
  ensure_no_unused_nodes (reads_of SmallTrie.short [1]) = Err UnusedNodesInTheProof.
Proof.
  split; [|split; vm_compute; reflexivity].
  exact (proj1 (storage_proof_is_minimal _ _ _ [2] SmallTrie.short_accepted)).
Defined.

Lemma storage_proofs_agree_witness :
  (read_value (reads_of SmallTrie.short []) 2).1 = Ok (Some 42) /\
  (read_value (reads_of SmallTrie.long [1]) 2).1 = Ok (Some 42) /\ Some 42 = Some 42.
Proof.
  assert ((read_value (reads_of SmallTrie.short []) 2).1 = Ok (Some 42)) as H1
    by (vm_compute; reflexivity).
  assert ((read_value (reads_of SmallTrie.long [1]) 2).1 = Ok (Some 42)) as H2
    by (vm_compute; reflexivity).
  split; [exact H1|]. split; [exact H2|].
  exact (storage_proofs_agree _ _ _ _ _ _ _ _ _ _ SmallTrie.short_accepted
    SmallTrie.long_accepted H1 H2).
Defined.
