(* ===== verification/HeaderChain.v ===== *)
(** * primitives/header-chain/src/lib.rs: header chains and authority sets

    The interface [HeaderChain] through which the other pallets read finalized
    state roots, the data the GRANDPA pallet stores, and the reader of GRANDPA logs
    in header digests.  The storage proof checker of [sp-trie] and the decoding of
    digest items are parameters. *)

From S2P Require Import Prelude RuntimePrimitives.
From stdpp Require Import base numbers list.
Local Open Scope Z_scope.

(** Header data that is stored on-chain. *)
Record StoredHeaderData (Hash : Type) := StoredHeader { sh_number : Z; sh_state_root : Hash }.
Arguments StoredHeader {Hash} _ _.
Arguments sh_number {Hash} _.
Arguments sh_state_root {Hash} _.

Definition stored_header_build {H Hash : Type} `{Header H Hash} (h : H) : StoredHeaderData Hash :=
  StoredHeader (hdr_number h) (hdr_state_root h).

Inductive HeaderChainError (ProofError : Type) :=
| UnknownHeader
| StorageProof (e : ProofError).
Arguments UnknownHeader {ProofError}.
Arguments StorageProof {ProofError} _.

(** The trait [HeaderChain], over the state [S] of the pallet that implements it. *)
Class HeaderChain (S Hash : Type) := {
  finalized_header_state_root : S -> Hash -> option Hash;
}.

Definition parse_finalized_storage_proof {S Hash RawProof Checker ProofError R : Type}
  `{HeaderChain S Hash} (checker_new : Hash -> RawProof -> outcome ProofError Checker) (s : S)
  (header_hash : Hash) (storage_proof : RawProof) (parse : Checker -> R) :
  outcome (HeaderChainError ProofError) R :=
  let? state_root := ok_or (finalized_header_state_root s header_hash) UnknownHeader in
  let? storage_proof_checker := map_err StorageProof (checker_new state_root storage_proof) in
  Ok (parse storage_proof_checker).

Record AuthoritySet (AuthorityId : Type) := Authorities {
  authorities : list (AuthorityId * Z);
  set_id : Z;
}.
Arguments Authorities {AuthorityId} _ _.
Arguments authorities {AuthorityId} _.
Arguments set_id {AuthorityId} _.

Record InitializationData (H AuthorityId : Type) := InitData {
  init_header : H;
  init_authority_list : list (AuthorityId * Z);
  init_set_id : Z;
  init_operating_mode : BasicOperatingMode;
}.
Arguments InitData {H AuthorityId} _ _ _ _.
Arguments init_header {H AuthorityId} _.
Arguments init_authority_list {H AuthorityId} _.
Arguments init_set_id {H AuthorityId} _.
Arguments init_operating_mode {H AuthorityId} _.

(** ** GRANDPA logs ([sp_consensus_grandpa]) *)

Record ScheduledChange (AuthorityId : Type) := Scheduled {
  next_authorities : list (AuthorityId * Z);
  change_delay : Z;
}.
Arguments Scheduled {AuthorityId} _ _.
Arguments next_authorities {AuthorityId} _.
Arguments change_delay {AuthorityId} _.

Inductive ConsensusLog (AuthorityId : Type) :=
| ScheduledChangeLog (c : ScheduledChange AuthorityId)
| ForcedChangeLog (median_last_finalized : Z) (c : ScheduledChange AuthorityId)
| OnDisabledLog (authority_index : Z)
| PauseLog (delay : Z)
| ResumeLog (delay : Z).
Arguments ScheduledChangeLog {AuthorityId} _.
Arguments ForcedChangeLog {AuthorityId} _ _.
Arguments OnDisabledLog {AuthorityId} _.
Arguments PauseLog {AuthorityId} _.
Arguments ResumeLog {AuthorityId} _.

(** A header with a digest; [grandpa_log] is a digest item read as a GRANDPA consensus
    log ([try_to] with the GRANDPA engine id). *)
Class GrandpaHeader (H DigestItem AuthorityId : Type) := {
  hdr_digest : H -> list DigestItem;
  grandpa_log : DigestItem -> option (ConsensusLog AuthorityId);
}.

(** [Digest::convert_first]. *)
Fixpoint convert_first {A B : Type} (f : A -> option B) (l : list A) : option B :=
  match l with
  | [] => None
  | x :: l' => match f x with Some y => Some y | None => convert_first f l' end
  end.

Section LogReader.
Context {H DigestItem AuthorityId : Type} `{GrandpaHeader H DigestItem AuthorityId}.

Definition scheduled_change_of (log : ConsensusLog AuthorityId) : option (ScheduledChange AuthorityId) :=
  match log with
  | ScheduledChangeLog change => Some change
  | _ => None
  end.

(** [GrandpaConsensusLogReader::find_authorities_change]: the first GRANDPA log, if it
    is a scheduled change. *)
Definition find_authorities_change (digest : list DigestItem) : option (ScheduledChange AuthorityId) :=
  convert_first grandpa_log digest ≫= scheduled_change_of.

Definition schedules_authorities_change (digest : list DigestItem) : bool :=
  bool_decide (is_Some (find_authorities_change digest)).
End LogReader.

Lemma convert_first_Some {A B : Type} (f : A -> option B) (l : list A) (y : B) :
  convert_first f l = Some y <->
  exists l1 x l2, l = l1 ++ x :: l2 /\ f x = Some y /\ Forall (fun z => f z = None) l1.
Proof.
  induction l as [|x l IH]; simpl.
  { split; [done|]. intros ([|] & x & l2 & Hl & _); done. }
  destruct (f x) as [z|] eqn:E.
  - split.
    + intros [= ->]. exists [], x, l. by split_and!.
    + intros ([|w l1] & x' & l2 & Hl & Hx & Hall); simplify_eq/=; [congruence|].
      apply Forall_cons in Hall as [Hw _]. congruence.
  - rewrite IH. split.
    + intros (l1 & x' & l2 & -> & Hx & Hall). exists (x :: l1), x', l2. split_and!; try done.
      by constructor.
    + intros ([|w l1] & x' & l2 & Hl & Hx & Hall); simplify_eq/=.
      apply Forall_cons in Hall as [_ Hall]. by exists l1, x', l2.
Qed.
