(* ===== verification/Justification.v ===== *)
(** * primitives/header-chain/src/justification.rs: GRANDPA justifications

    Verification of a finality justification, in the strict mode that the pallet
    uses and in the mode that relayers use to optimise a justification.  The voter
    set ([finality_grandpa::VoterSet]) and the signature check of
    [sp_consensus_grandpa] are parameters. *)

From S2P Require Import Prelude RuntimePrimitives.
From stdpp Require Import base numbers list gmap sets relations.
Local Open Scope Z_scope.

(** The lookup and the threshold of [finality_grandpa::VoterSet]. *)
Record VoterSet (AuthorityId : Type) `{Countable AuthorityId} := Voters {
  voter_weights : gmap AuthorityId Z;
  threshold : Z;
}.
Arguments Voters {AuthorityId _ _} _ _.
Arguments voter_weights {AuthorityId _ _} _.
Arguments threshold {AuthorityId _ _} _.

Definition total_weight {AuthorityId : Type} `{Countable AuthorityId}
  (voters : VoterSet AuthorityId) : Z :=
  map_fold (fun _ w acc => w + acc) 0 (voter_weights voters).

(** What the crate documents: weights are positive, their sum fits into 64 bits,
    and the threshold is positive and can be reached. *)
Record voter_set_ok {AuthorityId : Type} `{Countable AuthorityId}
  (voters : VoterSet AuthorityId) : Prop := {
  vs_positive a w : voter_weights voters !! a = Some w -> 0 < w;
  vs_total : total_weight voters <= u64_max;
  vs_threshold : 0 < threshold voters <= total_weight voters;
}.

(** The threshold that [VoterSet::new] computes: all but the less than one third of the weight
    that may be faulty. *)
Definition bft_threshold {AuthorityId : Type} `{Countable AuthorityId}
  (voters : VoterSet AuthorityId) : Prop :=
  threshold voters = total_weight voters - (total_weight voters - 1) / 3.

Inductive Error :=
| JustificationDecode
| InvalidJustificationTarget
| RedundantVotesInJustification
| UnknownAuthorityVote
| DuplicateAuthorityVote
| InvalidAuthoritySignature
| PrecommitIsNotCommitDescendant
| TooLowCumulativeWeight
| ExtraHeadersInVotesAncestries.

(** [u32] arithmetic: the quotient is smaller than the length. *)
Definition required_justification_precommits (authorities_set_length : Z) : Z :=
  wrapping_sub u32_max authorities_set_length (saturating_sub authorities_set_length 1 / 3).

Section Justification.
Context {Hash AuthorityId Signature H : Type}.
Context `{Countable Hash} `{Countable AuthorityId} `{Header H Hash}.

Record Precommit := Precommit_ { target_hash : Hash; target_number : Z }.

Record SignedPrecommit := SignedPrecommit_ {
  precommit : Precommit;
  signature : Signature;
  signed_id : AuthorityId;
}.

Record Commit := Commit_ {
  commit_target_hash : Hash;
  commit_target_number : Z;
  precommits : list SignedPrecommit;
}.

Record GrandpaJustification := Grandpa {
  round : Z;
  commit : Commit;
  votes_ancestries : list H;
}.

(** ** Votes ancestries *)

Record AncestryChain := Ancestry {
  parents : gmap Hash Hash;
  unvisited : gset Hash;
}.

Definition ancestry_new (ancestry : list H) : AncestryChain :=
  foldl (fun c ancestor =>
      Ancestry (<[hdr_hash ancestor := hdr_parent_hash ancestor]> (parents c))
        ({[hdr_hash ancestor]} ∪ unvisited c))
    (Ancestry ∅ ∅) ancestry.

(** The loop of [ensure_descendant]; [Panic] is an exhausted [fuel]. *)
Fixpoint descendant_loop (fuel : nat) (c : AncestryChain) (commit_target current_hash : Hash) :
  outcome Error AncestryChain :=
  match fuel with
  | O => Panic
  | S fuel =>
      if decide (current_hash = commit_target) then Ok c
      else
        let is_visited_before := negb (bool_decide (current_hash ∈ unvisited c)) in
        let c := Ancestry (parents c) (unvisited c ∖ {[current_hash]}) in
        match parents c !! current_hash with
        | Some parent_hash =>
            if is_visited_before then Ok c
            else descendant_loop fuel c commit_target parent_hash
        | None => Err PrecommitIsNotCommitDescendant
        end
  end.

(** Every iteration but the last removes a hash from the unvisited ones. *)
Definition ensure_descendant (c : AncestryChain) (commit_target precommit_target : Hash) :
  outcome Error AncestryChain :=
  descendant_loop (S (size (unvisited c))) c commit_target precommit_target.

(** ** Verification *)

(** The trait [VerificationCallbacks], on a state [C]. *)
Class VerificationCallbacks (C : Type) := {
  on_unkown_authority : C -> nat -> outcome Error C;
  on_duplicate_authority_vote : C -> nat -> outcome Error C;
  on_redundant_authority_vote : C -> nat -> outcome Error C;
}.

#[local] Instance StrictVerificationCallbacks : VerificationCallbacks unit := {|
  on_unkown_authority _ _ := Err UnknownAuthorityVote;
  on_duplicate_authority_vote _ _ := Err DuplicateAuthorityVote;
  on_redundant_authority_vote _ _ := Err RedundantVotesInJustification;
|}.

#[local] Instance OptimizationCallbacks : VerificationCallbacks (list nat) := {|
  on_unkown_authority l precommit_idx := Ok (l ++ [precommit_idx]);
  on_duplicate_authority_vote l precommit_idx := Ok (l ++ [precommit_idx]);
  on_redundant_authority_vote l precommit_idx := Ok (l ++ [precommit_idx]);
|}.

(** [check_message_signature_with_buffer]: precommit, authority, signature, round and
    set id. *)
Variable check_message_signature : Precommit -> AuthorityId -> Signature -> Z -> Z -> bool.

Section WithCallbacks.
Context {C : Type} `{VerificationCallbacks C}.

(** The local variables of the loop over the precommits. *)
Record verifier := Verifier {
  v_chain : AncestryChain;
  v_votes : gset AuthorityId;
  cumulative_weight : Z;
  v_callbacks : C;
}.

Definition with_callbacks (v : verifier) (c : C) : verifier :=
  Verifier (v_chain v) (v_votes v) (cumulative_weight v) c.

(** One iteration. *)
Definition verify_precommit (authorities_set_id : Z) (voters : VoterSet AuthorityId)
  (j : GrandpaJustification) (precommit_idx : nat) (signed : SignedPrecommit) (v : verifier) :
  outcome Error verifier :=
  if threshold voters <=? cumulative_weight v then
    let? c := on_redundant_authority_vote (v_callbacks v) precommit_idx in
    Ok (with_callbacks v c)
  else
    match voter_weights voters !! signed_id signed with
    | None =>
        let? c := on_unkown_authority (v_callbacks v) precommit_idx in
        Ok (with_callbacks v c)
    | Some weight =>
        if bool_decide (signed_id signed ∈ v_votes v) then
          let? c := on_duplicate_authority_vote (v_callbacks v) precommit_idx in
          Ok (with_callbacks v c)
        else
          let votes := {[signed_id signed]} ∪ v_votes v in
          check? ensure
            (negb (target_number (precommit signed) <? commit_target_number (commit j)))
            PrecommitIsNotCommitDescendant in
          let? chain :=
            ensure_descendant (v_chain v) (commit_target_hash (commit j))
              (target_hash (precommit signed)) in
          let? weight := expect (checked_add u64_max (cumulative_weight v) weight) in
          check? ensure
            (check_message_signature (precommit signed) (signed_id signed) (signature signed)
               (round j) authorities_set_id)
            InvalidAuthoritySignature in
          Ok (Verifier chain votes weight (v_callbacks v))
    end.

Fixpoint verify_precommits (authorities_set_id : Z) (voters : VoterSet AuthorityId)
  (j : GrandpaJustification) (precommit_idx : nat) (l : list SignedPrecommit) (v : verifier) :
  outcome Error verifier :=
  match l with
  | [] => Ok v
  | signed :: l' =>
      let? v := verify_precommit authorities_set_id voters j precommit_idx signed v in
      verify_precommits authorities_set_id voters j (S precommit_idx) l' v
  end.

Definition verify_justification_with_callbacks (finalized_target : Hash * Z)
  (authorities_set_id : Z) (voters : VoterSet AuthorityId) (j : GrandpaJustification)
  (callbacks : C) : outcome Error C :=
  check? ensure
    (bool_decide ((commit_target_hash (commit j), commit_target_number (commit j))
                  = finalized_target))
    InvalidJustificationTarget in
  let? v :=
    verify_precommits authorities_set_id voters j 0 (precommits (commit j))
      (Verifier (ancestry_new (votes_ancestries j)) ∅ 0 callbacks) in
  check? ensure (bool_decide (unvisited (v_chain v) = ∅)) ExtraHeadersInVotesAncestries in
  check? ensure (threshold voters <=? cumulative_weight v) TooLowCumulativeWeight in
  Ok (v_callbacks v).
End WithCallbacks.

Definition verify_justification (finalized_target : Hash * Z) (authorities_set_id : Z)
  (voters : VoterSet AuthorityId) (j : GrandpaJustification) : outcome Error unit :=
  verify_justification_with_callbacks finalized_target authorities_set_id voters j tt.

(** [Vec::remove] panics out of range. *)
Definition vec_remove {A : Type} (i : nat) (l : list A) : outcome Error (list A) :=
  if (i <? length l)%nat then Ok (delete i l) else Panic.

Definition optimize (invalid : list nat) (j : GrandpaJustification) :
  outcome Error GrandpaJustification :=
  let? l :=
    foldr (fun invalid_precommit_idx c => obind c (vec_remove invalid_precommit_idx))
      (Ok (precommits (commit j))) invalid in
  Ok (Grandpa (round j)
        (Commit_ (commit_target_hash (commit j)) (commit_target_number (commit j)) l)
        (votes_ancestries j)).

Definition verify_and_optimize_justification (finalized_target : Hash * Z)
  (authorities_set_id : Z) (voters : VoterSet AuthorityId) (j : GrandpaJustification) :
  outcome Error GrandpaJustification :=
  let? invalid :=
    verify_justification_with_callbacks finalized_target authorities_set_id voters j [] in
  optimize invalid j.

(** [max_reasonable_size]: the maximal encoded lengths of a number, a hash and an
    authority id, and the two constants of [ChainWithGrandpa]. *)
Definition max_reasonable_size (number_len hash_len authority_len
  reasonable_headers average_header_size required_precommits : Z) : Z :=
  let saturated_into_u32 x := Z.min u32_max x in
  let signed_precommit_size :=
    saturated_into_u32
      (saturating_add u64_max
         (saturating_add u64_max (saturating_add u64_max number_len hash_len) 64) authority_len) in
  let max_expected_signed_commit_size :=
    saturating_add u32_max
      (saturating_add u32_max
         (saturating_mul u32_max signed_precommit_size required_precommits)
         (saturated_into_u32 number_len))
      (saturated_into_u32 hash_len) in
  let max_expected_votes_ancestries_size :=
    saturating_mul u32_max reasonable_headers average_header_size in
  saturating_add u32_max (saturating_add u32_max 8 max_expected_signed_commit_size)
    max_expected_votes_ancestries_size.
End Justification.
Arguments Precommit : clear implicits.
Arguments Precommit_ {Hash} _ _.
Arguments target_hash {Hash} _.
Arguments target_number {Hash} _.
Arguments SignedPrecommit : clear implicits.
Arguments SignedPrecommit_ {Hash AuthorityId Signature} _ _ _.
Arguments precommit {Hash AuthorityId Signature} _.
Arguments signature {Hash AuthorityId Signature} _.
Arguments signed_id {Hash AuthorityId Signature} _.
Arguments Commit : clear implicits.
Arguments Commit_ {Hash AuthorityId Signature} _ _ _.
Arguments commit_target_hash {Hash AuthorityId Signature} _.
Arguments commit_target_number {Hash AuthorityId Signature} _.
Arguments precommits {Hash AuthorityId Signature} _.
Arguments GrandpaJustification : clear implicits.
Arguments Grandpa {Hash AuthorityId Signature H} _ _ _.
Arguments round {Hash AuthorityId Signature H} _.
Arguments commit {Hash AuthorityId Signature H} _.
Arguments votes_ancestries {Hash AuthorityId Signature H} _.
Arguments AncestryChain Hash {_ _}.
#[global] Existing Instance StrictVerificationCallbacks.
#[global] Existing Instance OptimizationCallbacks.

(** ** Ancestry *)

Section AncestryFacts.
Context {Hash : Type} `{Countable Hash}.
Implicit Types (c : AncestryChain Hash).

Definition parent_of (m : gmap Hash Hash) (child parent : Hash) : Prop := m !! child = Some parent.

(** [h] is [target] or a descendant of it along the parent links of [m]. *)
Definition descends (m : gmap Hash Hash) (target h : Hash) : Prop := rtc (parent_of m) h target.

Definition visited c (h : Hash) : Prop := is_Some (parents c !! h) /\ h ∉ unvisited c.

(** No chain of parent hashes is a cycle: a property of the hash function. *)
Definition acyclic (m : gmap Hash Hash) : Prop :=
  exists rank : Hash -> nat, forall child parent, parent_of m child parent -> (rank parent < rank child)%nat.

(** The loop never runs out of fuel. *)
Lemma descendant_loop_total (fuel : nat) c (target cur : Hash) :
  (size (unvisited c) < fuel)%nat -> descendant_loop fuel c target cur <> Panic.
Proof.
  revert c cur. induction fuel as [|fuel IH]; intros c cur Hfuel; [lia|]. simpl.
  destruct (decide (cur = target)); [done|].
  destruct (parents c !! cur) as [parent|]; [|done].
  case_bool_decide as Hin; simpl; [|done]. apply IH. simpl.
  assert (size ({[cur]} : gset Hash) <= size (unvisited c))%nat by (apply subseteq_size; set_solver).
  rewrite size_difference, size_singleton in * by set_solver. lia.
Qed.

(** What an accepted walk shows, when the hashes seen before descend from the
    target or are above the current one. *)
Lemma descendant_loop_sound (rank : Hash -> nat) (fuel : nat) c c' (target cur : Hash) :
  (forall child parent, parent_of (parents c) child parent -> (rank parent < rank child)%nat) ->
  (forall h, visited c h -> descends (parents c) target h \/ (rank cur < rank h)%nat) ->
  descendant_loop fuel c target cur = Ok c' ->
  descends (parents c) target cur /\ parents c' = parents c /\ unvisited c' ⊆ unvisited c /\
  (forall h, visited c' h -> visited c h \/ descends (parents c) target h).
Proof.
  intros Hrank. revert c cur Hrank. induction fuel as [|fuel IH]; intros c cur Hrank Hseen; [done|].
  simpl. destruct (decide (cur = target)) as [->|Hne].
  { intros [= <-]. split_and!; [apply rtc_refl|done|done|by left]. }
  destruct (parents c !! cur) as [parent|] eqn:Hparent; [|done].
  case_bool_decide as Hin; simpl.
  - intros Hloop. apply IH in Hloop as (Hdesc & Hp & Hu & Hvis); simpl in *.
    + assert (descends (parents c) target cur) as Hcur by (by eapply rtc_l).
      split_and!; [done|done|set_solver|]. intros h [[Hs Hn]|Hd]%Hvis; [|by right]. simpl in *.
      destruct (decide (h = cur)) as [->|Hne']; [by right|]. left. split; [done|set_solver].
    + done.
    + intros h [Hs Hn]. simpl in *. pose proof (Hrank _ _ Hparent) as Hlt.
      destruct (decide (h = cur)) as [->|Hne']; [by right|].
      destruct (Hseen h) as [?|?]; [split; [done|set_solver]|by left|right; lia].
  - intros [= <-]. simpl. split_and!; [|done|set_solver|].
    + destruct (Hseen cur) as [?|?]; [by split; [|done]|done|lia].
    + intros h [Hs Hn]. left. split; [done|]. simpl in Hn. set_solver.
Qed.

Lemma ancestry_new_unvisited {Hdr : Type} `{Header Hdr Hash} (l : list Hdr) :
  unvisited (ancestry_new l) = dom (parents (ancestry_new l)).
Proof.
  unfold ancestry_new. induction l as [|h l IH] using rev_ind; [set_solver|].
  rewrite foldl_app. simpl. rewrite IH, dom_insert_L. done.
Qed.

Lemma ancestry_new_elem {Hdr : Type} `{Header Hdr Hash} (l : list Hdr) (h : Hdr) :
  h ∈ l -> hdr_hash h ∈ unvisited (ancestry_new l).
Proof.
  unfold ancestry_new. induction l as [|h' l IH] using rev_ind; [by intros ?%elem_of_nil|].
  rewrite foldl_app, elem_of_app, list_elem_of_singleton. simpl. intros [Hh| ->]; [|set_solver].
  apply elem_of_union_r. by apply IH.
Qed.
End AncestryFacts.

(** ** Weights of voters *)

Section VoterFacts.
Context {AuthorityId : Type} `{Countable AuthorityId}.
Implicit Types (m : gmap AuthorityId Z) (ids : list AuthorityId).

Fixpoint weight_of m ids : Z :=
  match ids with
  | [] => 0
  | a :: ids' => default 0 (m !! a) + weight_of m ids'
  end.

Lemma weight_of_app m ids ids' : weight_of m (ids ++ ids') = weight_of m ids + weight_of m ids'.
Proof. induction ids as [|a ids IH]; simpl; lia. Qed.

Lemma weight_of_delete m a ids : a ∉ ids -> weight_of (delete a m) ids = weight_of m ids.
Proof.
  induction ids as [|b ids IH]; simpl; [done|]. intros [Hab Hin]%not_elem_of_cons.
  rewrite lookup_delete_ne by done. by rewrite IH.
Qed.

Lemma map_fold_weights_nonneg m :
  (forall a w, m !! a = Some w -> 0 < w) -> 0 <= map_fold (fun _ w acc => w + acc) 0 m.
Proof.
  induction m as [|a w m Hm IH] using map_ind; intros Hpos; [by rewrite map_fold_empty|].
  rewrite map_fold_insert_L by (done || (intros; lia)).
  specialize (Hpos a w) as Hw. rewrite lookup_insert_eq in Hw. specialize (Hw eq_refl).
  enough (0 <= map_fold (fun _ w acc => w + acc) 0 m) by lia. apply IH. intros b v Hb.
  apply (Hpos b). rewrite lookup_insert_ne; [done|]. intros <-. congruence.
Qed.

(** Distinct voters weigh at most as much as all of them. *)
Lemma weight_of_le m ids :
  (forall a w, m !! a = Some w -> 0 < w) -> NoDup ids ->
  weight_of m ids <= map_fold (fun _ w acc => w + acc) 0 m.
Proof.
  revert m. induction ids as [|a ids IH]; intros m Hpos Hnd; simpl.
  { by apply map_fold_weights_nonneg. }
  apply NoDup_cons in Hnd as [Ha Hnd].
  assert (forall b v, delete a m !! b = Some v -> 0 < v) as Hpos'
    by (intros b v [_ Hb]%lookup_delete_Some; by eapply Hpos).
  destruct (m !! a) as [w|] eqn:Hw; simpl.
  - rewrite (map_fold_delete_L _ _ a w m) by (done || (intros; lia)).
    specialize (IH (delete a m) Hpos' Hnd). rewrite weight_of_delete in IH by done. lia.
  - by apply IH.
Qed.
End VoterFacts.

(** ** The verification loop *)

Section VerifyFacts.
Context {Hash AuthorityId Signature Hdr : Type}.
Context `{Countable Hash} `{Countable AuthorityId} `{Header Hdr Hash}.
Abbreviation SignedPrecommit := (SignedPrecommit Hash AuthorityId Signature).
Abbreviation GrandpaJustification := (GrandpaJustification Hash AuthorityId Signature Hdr).
Variable check_message_signature :
  Precommit Hash -> AuthorityId -> Signature -> Z -> Z -> bool.
Variables (set_id : Z) (voters : VoterSet AuthorityId) (j : GrandpaJustification).
Hypothesis Hvoters : voter_set_ok voters.

Abbreviation links := (parents (ancestry_new (votes_ancestries j))).
(** A vote of a member of the voter set that is signed for this round and set. *)
Record signed_vote (s : SignedPrecommit) : Prop := {
  sv_known : is_Some (voter_weights voters !! signed_id s);
  sv_number : commit_target_number (commit j) <= target_number (precommit s);
  sv_signature : check_message_signature (precommit s) (signed_id s) (signature s) (round j) set_id
    = true;
}.

(** A vote that counts for the target of the commit. *)
Record good_vote (s : SignedPrecommit) : Prop := {
  gv_known : is_Some (voter_weights voters !! signed_id s);
  gv_number : commit_target_number (commit j) <= target_number (precommit s);
  gv_descends : descends links (commit_target_hash (commit j)) (target_hash (precommit s));
  gv_signature : check_message_signature (precommit s) (signed_id s) (signature s) (round j) set_id
    = true;
}.

(** The verifier after the votes [V] have been counted: the tally, and the ancestry. *)
Record tallied {C : Type} (v : verifier (Hash := Hash) (AuthorityId := AuthorityId) (C := C))
  (V : list SignedPrecommit) : Prop := {
  ta_signed : Forall signed_vote V;
  ta_nodup : NoDup (signed_id <$> V);
  ta_votes : v_votes v = list_to_set (signed_id <$> V);
  ta_weight : cumulative_weight v = weight_of (voter_weights voters) (signed_id <$> V);
}.

Record counted {C : Type} (v : verifier (C := C)) (V : list SignedPrecommit) : Prop := {
  ct_tallied : tallied v V;
  ct_descend : Forall (fun s => descends links (commit_target_hash (commit j)) (target_hash (precommit s))) V;
  ct_parents : parents (v_chain v) = links;
  ct_visited h : visited (v_chain v) h -> descends links (commit_target_hash (commit j)) h;
}.

Lemma counted_good {C : Type} (v : verifier (C := C)) (V : list SignedPrecommit) :
  counted v V -> Forall good_vote V.
Proof.
  intros [[Hs _ _ _] Hd _ _]. apply Forall_forall. intros s Hin. rewrite Forall_forall in Hs, Hd.
  destruct (Hs s Hin). split; [done|done|by apply Hd|done].
Qed.

Lemma tallied_start {C : Type} (chain : AncestryChain Hash) (c : C) : tallied (Verifier chain ∅ 0 c) [].
Proof. split; simpl; try done. constructor. Qed.

Lemma tallied_callbacks {C : Type} (v : verifier (C := C)) (V : list SignedPrecommit) (c : C) :
  tallied v V -> tallied (with_callbacks v c) V.
Proof. intros []. by split. Qed.

Lemma counted_start {C : Type} (c : C) :
  counted (Verifier (ancestry_new (votes_ancestries j)) ∅ 0 c) [].
Proof.
  split; simpl; try done; [apply tallied_start|].
  intros h [Hs Hn]. simpl in *. destruct Hn. rewrite ancestry_new_unvisited. by apply elem_of_dom.
Qed.

Lemma counted_callbacks {C : Type} (v : verifier (C := C)) (V : list SignedPrecommit) (c : C) :
  counted v V -> counted (with_callbacks v c) V.
Proof. intros []. split; [by apply tallied_callbacks|done..]. Qed.

(** The sum of the weights cannot overflow. *)
Lemma tallied_room {C : Type} (v : verifier (C := C)) (V : list SignedPrecommit) (a : AuthorityId)
  (w : Z) :
  tallied v V -> a ∉ v_votes v -> voter_weights voters !! a = Some w ->
  checked_add u64_max (cumulative_weight v) w = Some (cumulative_weight v + w).
Proof.
  intros [_ Hnd Hvotes Hw] Ha Hl. apply checked_add_Some. split; [done|].
  rewrite Hvotes in Ha. assert (a ∉ signed_id <$> V) as Ha' by set_solver.
  pose proof (weight_of_le (voter_weights voters) (a :: (signed_id <$> V)) (vs_positive _ Hvoters))
    as Hle. simpl in Hle. rewrite Hl in Hle. simpl in Hle.
  pose proof (vs_total _ Hvoters). unfold total_weight in *. rewrite Hw.
  specialize (Hle ltac:(by constructor)). lia.
Qed.

(** A step skips the vote, or adds it to the tally after it was found to descend. *)
Lemma verify_precommit_tallied {C : Type} {cb : VerificationCallbacks C} (idx : nat)
  (s : SignedPrecommit) (v v' : verifier (C := C)) (V : list SignedPrecommit) :
  tallied v V -> verify_precommit check_message_signature set_id voters j idx s v = Ok v' ->
  (exists c, v' = with_callbacks v c) \/
  (tallied v' (V ++ [s]) /\ v_callbacks v' = v_callbacks v /\
   ensure_descendant (v_chain v) (commit_target_hash (commit j)) (target_hash (precommit s)) =
     Ok (v_chain v')).
Proof.
  intros Hc. unfold verify_precommit.
  destruct (threshold voters <=? cumulative_weight v).
  { intros (c & _ & [= <-])%obind_Ok. left. by exists c. }
  destruct (voter_weights voters !! signed_id s) as [w|] eqn:Hw.
  2: { intros (c & _ & [= <-])%obind_Ok. left. by exists c. }
  case_bool_decide as Hin. { intros (c & _ & [= <-])%obind_Ok. left. by exists c. }
  intros ([] & Hnum%ensure_Ok & Hrest)%obind_Ok.
  apply obind_Ok in Hrest as (chain & Hens & Hrest).
  rewrite (tallied_room v V _ w Hc Hin Hw) in Hrest. simpl in Hrest.
  apply obind_Ok in Hrest as ([] & Hsig%ensure_Ok & [= <-]). right. split; [|done].
  destruct Hc as [Hgood Hnd Hvotes Hcw]. rewrite Hvotes in Hin. rewrite elem_of_list_to_set in Hin.
  split; simpl; rewrite ?fmap_app; simpl; try done.
  - apply Forall_app. split; [done|]. constructor; [|constructor]. split; [by eexists|lia|done].
  - apply NoDup_app. split_and!; [done| |apply NoDup_singleton]. set_solver.
  - rewrite Hvotes, list_to_set_app_L. simpl. set_solver.
  - rewrite Hcw, weight_of_app. simpl. rewrite Hw. simpl. lia.
Qed.

Lemma verify_precommits_tallied {C : Type} {cb : VerificationCallbacks C} (l : list SignedPrecommit)
  (idx : nat) (v v' : verifier (C := C)) (V : list SignedPrecommit) :
  tallied v V -> verify_precommits check_message_signature set_id voters j idx l v = Ok v' ->
  exists V', V' `sublist_of` l /\ tallied v' (V ++ V').
Proof.
  revert idx v V. induction l as [|s l IH]; intros idx v V Hc; simpl.
  { intros [= <-]. exists []. rewrite app_nil_r. by split. }
  intros (v1 & Hone & Hrest)%obind_Ok.
  destruct (verify_precommit_tallied idx s v v1 V Hc Hone) as [[c ->]|[Hc1 _]].
  - apply (IH _ _ V) in Hrest as (V' & Hsub & Hc'); [|by apply tallied_callbacks].
    exists V'. split; [by apply sublist_cons|done].
  - apply (IH _ _ (V ++ [s])) in Hrest as (V' & Hsub & Hc'); [|done].
    exists (s :: V'). split; [by apply sublist_skip|]. by rewrite <- app_assoc in Hc'.
Qed.

(** *** No panics *)

Record callbacks_total {C : Type} (cb : VerificationCallbacks C) : Prop := {
  cb_unkown c i : on_unkown_authority c i <> Panic;
  cb_duplicate c i : on_duplicate_authority_vote c i <> Panic;
  cb_redundant c i : on_redundant_authority_vote c i <> Panic;
}.

Lemma obind_no_panic {E A B : Type} (c : outcome E A) (k : A -> outcome E B) :
  c <> Panic -> (forall a, c = Ok a -> k a <> Panic) -> obind c k <> Panic.
Proof. intros Hc Hk. destruct c; simpl; [by apply Hk|done|done]. Qed.

Lemma ensure_no_panic {E : Type} (b : bool) (e : E) : ensure b e <> Panic.
Proof. by destruct b. Qed.

Lemma verify_precommit_total {C : Type} {cb : VerificationCallbacks C} (idx : nat)
  (s : SignedPrecommit) (v : verifier (C := C)) (V : list SignedPrecommit) :
  callbacks_total cb -> tallied v V ->
  verify_precommit check_message_signature set_id voters j idx s v <> Panic.
Proof.
  intros [] Hc. unfold verify_precommit.
  destruct (threshold voters <=? cumulative_weight v); [by apply obind_no_panic|].
  destruct (voter_weights voters !! signed_id s) as [w|] eqn:Hw; [|by apply obind_no_panic].
  case_bool_decide as Hin; [by apply obind_no_panic|].
  apply obind_no_panic; [apply ensure_no_panic|intros _ _].
  apply obind_no_panic; [apply descendant_loop_total; lia|intros chain _].
  rewrite (tallied_room v V _ w Hc Hin Hw). simpl.
  apply obind_no_panic; [apply ensure_no_panic|done].
Qed.

Lemma verify_precommits_total {C : Type} {cb : VerificationCallbacks C}
  (l : list SignedPrecommit) (idx : nat) (v : verifier (C := C)) (V : list SignedPrecommit) :
  callbacks_total cb -> tallied v V ->
  verify_precommits check_message_signature set_id voters j idx l v <> Panic.
Proof.
  intros Hcb. revert idx v V. induction l as [|s l IH]; intros idx v V Hc; simpl; [done|].
  apply obind_no_panic; [by eapply verify_precommit_total|]. intros v1 Hone.
  destruct (verify_precommit_tallied idx s v v1 V Hc Hone) as [[c ->]|[Hc1 _]];
    eauto using tallied_callbacks.
Qed.

Lemma verify_with_callbacks_total {C : Type} {cb : VerificationCallbacks C}
  (target : Hash * Z) (c : C) :
  callbacks_total cb ->
  verify_justification_with_callbacks check_message_signature target set_id voters j c <> Panic.
Proof.
  intros Hcb. unfold verify_justification_with_callbacks.
  apply obind_no_panic; [apply ensure_no_panic|intros _ _].
  apply obind_no_panic; [by eapply verify_precommits_total, tallied_start|intros v _].
  apply obind_no_panic; [apply ensure_no_panic|intros _ _].
  apply obind_no_panic; [apply ensure_no_panic|done].
Qed.

(** *** What the votes prove *)

Hypothesis Hacyclic : acyclic links.

Lemma counted_descendant {C : Type} (v : verifier (C := C)) (V : list SignedPrecommit)
  (h : Hash) (c' : AncestryChain Hash) :
  counted v V ->
  ensure_descendant (v_chain v) (commit_target_hash (commit j)) h = Ok c' ->
  descends links (commit_target_hash (commit j)) h /\ parents c' = links /\
  (forall h', visited c' h' -> descends links (commit_target_hash (commit j)) h').
Proof.
  intros [_ _ Hp Hvis] Hens. destruct Hacyclic as [rank Hrank].
  unfold ensure_descendant in Hens.
  apply (descendant_loop_sound rank) in Hens as (Hd & Hp' & _ & Hv).
  - rewrite Hp in Hd, Hp', Hv. split_and!; [done|done|]. intros h' [?|?]%Hv; [|done].
    by apply Hvis.
  - rewrite Hp. exact Hrank.
  - intros h' Hh. left. rewrite Hp. by apply Hvis.
Qed.

Lemma verify_precommit_sound {C : Type} {cb : VerificationCallbacks C} (idx : nat)
  (s : SignedPrecommit) (v v' : verifier (C := C)) (V : list SignedPrecommit) :
  counted v V -> verify_precommit check_message_signature set_id voters j idx s v = Ok v' ->
  (exists c, v' = with_callbacks v c) \/
  (counted v' (V ++ [s]) /\ v_callbacks v' = v_callbacks v).
Proof.
  intros Hc Hs. destruct (verify_precommit_tallied _ _ _ _ _ (ct_tallied _ _ Hc) Hs)
    as [?|(Ht & Hcb & Hens)]; [by left|right]. split; [|done].
  destruct (counted_descendant v V _ _ Hc Hens) as (Hd & Hp & Hvis).
  split; [done| |done|done]. apply Forall_app. split; [by apply Hc|by constructor].
Qed.

Lemma verify_precommits_sound {C : Type} `{VerificationCallbacks C} (l : list SignedPrecommit)
  (idx : nat) (v v' : verifier (C := C)) (V : list SignedPrecommit) :
  counted v V -> verify_precommits check_message_signature set_id voters j idx l v = Ok v' ->
  exists V', V' `sublist_of` l /\ counted v' (V ++ V').
Proof.
  revert idx v V. induction l as [|s l IH]; intros idx v V Hc; simpl.
  { intros [= <-]. exists []. rewrite app_nil_r. by split. }
  intros (v1 & Hone & Hrest)%obind_Ok.
  destruct (verify_precommit_sound idx s v v1 V Hc Hone) as [[c ->]|[Hc1 _]].
  - apply (IH _ _ V) in Hrest as (V' & Hsub & Hc'); [|by apply counted_callbacks].
    exists V'. split; [by apply sublist_cons|done].
  - apply (IH _ _ (V ++ [s])) in Hrest as (V' & Hsub & Hc'); [|done].
    exists (s :: V'). split; [by apply sublist_skip|]. by rewrite <- app_assoc in Hc'.
Qed.

(** What an accepted justification proves. *)
Lemma verify_with_callbacks_sound {C : Type} {cb : VerificationCallbacks C}
  (target : Hash * Z) (c c' : C) :
  verify_justification_with_callbacks check_message_signature target set_id voters j c = Ok c' ->
  (commit_target_hash (commit j), commit_target_number (commit j)) = target /\
  exists V, V `sublist_of` precommits (commit j) /\ Forall good_vote V /\
    NoDup (signed_id <$> V) /\
    threshold voters <= weight_of (voter_weights voters) (signed_id <$> V) /\
    (forall h, h ∈ votes_ancestries j -> descends links (commit_target_hash (commit j)) (hdr_hash h)).
Proof.
  unfold verify_justification_with_callbacks.
  intros ([] & Ht%ensure_Ok%bool_decide_eq_true & (v & Hrun & Hrest)%obind_Ok)%obind_Ok.
  apply obind_Ok in Hrest as ([] & Hun%ensure_Ok%bool_decide_eq_true & Hrest).
  apply obind_Ok in Hrest as ([] & Hthr%ensure_Ok & _).
  apply (verify_precommits_sound _ _ _ _ []) in Hrun as (V & Hsub & Hc);
    [|apply counted_start]. simpl in Hc. pose proof (counted_good _ _ Hc) as Hgood.
  destruct Hc as [[_ Hnd _ Hw] _ Hp Hvis]. simpl in *. split; [done|]. exists V. split_and!; try done; [lia|].
  intros h Hh. apply Hvis. split; [|by rewrite Hun].
  rewrite Hp. apply elem_of_dom. rewrite <- ancestry_new_unvisited. by apply ancestry_new_elem.
Qed.

(** *** Strict verification skips nothing *)

Lemma verify_precommits_strict (l : list SignedPrecommit) (idx : nat)
  (v v' : verifier (C := unit)) (V : list SignedPrecommit) :
  counted v V -> verify_precommits check_message_signature set_id voters j idx l v = Ok v' ->
  counted v' (V ++ l).
Proof.
  revert idx v V. induction l as [|s l IH]; intros idx v V Hc; simpl.
  { intros [= <-]. by rewrite app_nil_r. }
  intros (v1 & Hone & Hrest)%obind_Ok.
  assert (counted v1 (V ++ [s])) as Hc1.
  { destruct (verify_precommit_sound idx s v v1 V Hc Hone) as [[c ->]|[Hc1 _]]; [|done].
    exfalso. revert Hone. unfold verify_precommit. simpl.
    destruct (threshold voters <=? cumulative_weight v) eqn:Et; [done|].
    destruct (voter_weights voters !! signed_id s) as [w|] eqn:Hw; [|done].
    case_bool_decide as Hin; [done|].
    intros ([] & _ & (chain & _ & Hrest')%obind_Ok)%obind_Ok.
    apply obind_Ok in Hrest' as (w' & _ & ([] & _ & [= _ Heq _])%obind_Ok). set_solver. }
  replace (V ++ s :: l) with ((V ++ [s]) ++ l) by (by rewrite <- app_assoc).
  by eapply IH.
Qed.
End VerifyFacts.

(** ** Optimisation *)

Section OptimizeFacts.
Context {Hash AuthorityId Signature Hdr : Type}.
Context `{Countable Hash} `{Countable AuthorityId} `{Header Hdr Hash}.
Abbreviation SignedPrecommit := (SignedPrecommit Hash AuthorityId Signature).
Abbreviation GrandpaJustification := (GrandpaJustification Hash AuthorityId Signature Hdr).
Variable check_message_signature :
  Precommit Hash -> AuthorityId -> Signature -> Z -> Z -> bool.
Variables (set_id : Z) (voters : VoterSet AuthorityId).

Definition strict (v : verifier (Hash := Hash) (AuthorityId := AuthorityId) (C := list nat)) :
  verifier (C := unit) :=
  Verifier (v_chain v) (v_votes v) (cumulative_weight v) tt.

(** One precommit in both modes: either the optimiser notes its index and keeps the
    rest of its state, or the strict verifier does the same step. *)
Lemma verify_precommit_optimize (j : GrandpaJustification) (idx idx' : nat) (s : SignedPrecommit)
  (v v' : verifier (C := list nat)) :
  verify_precommit check_message_signature set_id voters j idx s v = Ok v' ->
  (v' = with_callbacks v (v_callbacks v ++ [idx])) \/
  (v_callbacks v' = v_callbacks v /\
   verify_precommit check_message_signature set_id voters j idx' s (strict v) = Ok (strict v')).
Proof.
  unfold verify_precommit. simpl.
  destruct (threshold voters <=? cumulative_weight v); [intros [= <-]; by left|].
  destruct (voter_weights voters !! signed_id s) as [w|]; [|intros [= <-]; by left].
  case_bool_decide; [intros [= <-]; by left|].
  intros ([] & Hn & Hrest)%obind_Ok. rewrite Hn. simpl.
  apply obind_Ok in Hrest as (chain & Hens & Hrest). rewrite Hens. simpl.
  apply obind_Ok in Hrest as (w' & Hw & Hrest). rewrite Hw. simpl.
  apply obind_Ok in Hrest as ([] & Hsig & [= <-]). rewrite Hsig. by right.
Qed.

(** [remove_at] is the loop of [optimize], with indices counted from [off]. *)
Definition remove_at {A : Type} (off : nat) (idxs : list nat) (l : list A) : outcome Error (list A) :=
  foldr (fun i c => obind c (vec_remove (i - off))) (Ok l) idxs.

Lemma remove_at_keep {A : Type} (off : nat) (idxs : list nat) (x : A) (l l' : list A) :
  Forall (fun i => off < i)%nat idxs -> remove_at (S off) idxs l = Ok l' ->
  remove_at off idxs (x :: l) = Ok (x :: l').
Proof.
  unfold remove_at. revert l'. induction idxs as [|i idxs IH]; simpl; intros l' Hall.
  { by intros [= ->]. }
  apply Forall_cons in Hall as [Hi Hall]. intros (l1 & Hl1 & Hrem)%obind_Ok.
  rewrite (IH l1 Hall Hl1). simpl. unfold vec_remove in *. simpl.
  replace (i - off)%nat with (S (i - S off)) by lia. simpl.
  destruct (i - S off <? length l1)%nat eqn:E; [|done]. injection Hrem as <-.
  by replace (S (i - S off) <? S (length l1))%nat with true
    by (symmetry; apply Nat.ltb_lt; apply Nat.ltb_lt in E; lia).
Qed.

Lemma remove_at_drop {A : Type} (off : nat) (idxs : list nat) (x : A) (l l' : list A) :
  Forall (fun i => off < i)%nat idxs -> remove_at (S off) idxs l = Ok l' ->
  remove_at off (off :: idxs) (x :: l) = Ok l'.
Proof.
  intros Hall Hrem. unfold remove_at. simpl. fold (remove_at off idxs (x :: l)).
  rewrite (remove_at_keep off idxs x l l' Hall Hrem). simpl.
  by rewrite Nat.sub_diag.
Qed.

Lemma verify_precommits_optimize (j : GrandpaJustification) (l : list SignedPrecommit)
  (idx idx' : nat) (v v' : verifier (C := list nat)) :
  verify_precommits check_message_signature set_id voters j idx l v = Ok v' ->
  exists idxs kept,
    v_callbacks v' = v_callbacks v ++ idxs /\ Forall (fun i => idx <= i)%nat idxs /\
    remove_at idx idxs l = Ok kept /\ kept `sublist_of` l /\
    verify_precommits check_message_signature set_id voters j idx' kept (strict v) = Ok (strict v').
Proof.
  revert idx idx' v. induction l as [|s l IH]; intros idx idx' v; simpl.
  { intros [= <-]. exists [], []. rewrite app_nil_r. by split_and!. }
  intros (v1 & Hone & Hrest)%obind_Ok.
  destruct (verify_precommit_optimize j idx idx' s v v1 Hone) as [->|[Hcb Hstrict]].
  - destruct (IH _ idx' _ Hrest) as (idxs & kept & Hcbs & Hall & Hrem & Hsub & Hrun). simpl in *.
    exists (idx :: idxs), kept. split_and!; try done.
    + by rewrite Hcbs, <- app_assoc.
    + constructor; [lia|]. eapply Forall_impl; [done|]. simpl. lia.
    + apply remove_at_drop; [|done]. eapply Forall_impl; [done|]. simpl. lia.
    + by apply sublist_cons.
  - destruct (IH _ (S idx') _ Hrest) as (idxs & kept & Hcbs & Hall & Hrem & Hsub & Hrun).
    exists idxs, (s :: kept). split_and!.
    + by rewrite Hcbs, Hcb.
    + eapply Forall_impl; [done|]. simpl. lia.
    + apply remove_at_keep; [|done]. eapply Forall_impl; [done|]. simpl. lia.
    + by apply sublist_skip.
    + simpl. by rewrite Hstrict.
Qed.

(** The precommits of a justification are only read by the loop. *)
Definition set_precommits (j : GrandpaJustification) (l : list SignedPrecommit) :
  GrandpaJustification :=
  Grandpa (round j)
    (Commit_ (commit_target_hash (commit j)) (commit_target_number (commit j)) l)
    (votes_ancestries j).

Lemma verify_precommits_set {C : Type} `{VerificationCallbacks C} (j : GrandpaJustification)
  (l l' : list SignedPrecommit) (idx : nat) (v : verifier (C := C)) :
  verify_precommits check_message_signature set_id voters (set_precommits j l') idx l v =
  verify_precommits check_message_signature set_id voters j idx l v.
Proof.
  revert idx v. induction l as [|s l IH]; intros idx v; simpl; [done|].
  change (verify_precommit check_message_signature set_id voters (set_precommits j l') idx s v)
    with (verify_precommit check_message_signature set_id voters j idx s v).
  destruct (verify_precommit _ _ _ j idx s v); simpl; [apply IH|done|done].
Qed.

Lemma verified_can_be_optimized (target : Hash * Z) (j : GrandpaJustification) (invalid : list nat) :
  verify_justification_with_callbacks check_message_signature target set_id voters j [] = Ok invalid ->
  exists kept, optimize invalid j = Ok (set_precommits j kept) /\
    kept `sublist_of` precommits (commit j) /\
    verify_justification check_message_signature target set_id voters (set_precommits j kept) = Ok tt.
Proof.
  unfold verify_justification_with_callbacks.
  intros ([] & Ht & (v & Hrun & Hrest)%obind_Ok)%obind_Ok.
  apply obind_Ok in Hrest as ([] & Hun & Hrest).
  apply obind_Ok in Hrest as ([] & Hthr & [= <-]).
  destruct (verify_precommits_optimize j _ 0 0 _ _ Hrun)
    as (idxs & kept & Hcbs & _ & Hrem & Hsub & Hstrict). simpl in Hcbs. rewrite Hcbs.
  assert (foldr (fun i c => obind c (vec_remove i)) (Ok (precommits (commit j))) idxs = Ok kept)
    as Hfold.
  { rewrite <- Hrem. unfold remove_at. clear. induction idxs as [|i idxs IH]; simpl; [done|].
    by rewrite IH, Nat.sub_0_r. }
  exists kept. unfold optimize. rewrite Hfold. split_and!; [done..|].
  unfold verify_justification, verify_justification_with_callbacks. simpl.
  rewrite Ht. simpl. rewrite verify_precommits_set.
  change (Verifier (ancestry_new (votes_ancestries j)) ∅ 0 tt) with
    (strict (Verifier (ancestry_new (votes_ancestries j)) ∅ 0 [])).
  rewrite Hstrict. simpl. rewrite Hun. simpl. by rewrite Hthr.
Qed.

Lemma optimize_is_strict (target : Hash * Z) (j j' : GrandpaJustification) :
  verify_and_optimize_justification check_message_signature target set_id voters j = Ok j' ->
  j' = set_precommits j (precommits (commit j')) /\
  precommits (commit j') `sublist_of` precommits (commit j) /\
  verify_justification check_message_signature target set_id voters j' = Ok tt.
Proof.
  intros (invalid & Hv & Hopt)%obind_Ok.
  apply verified_can_be_optimized in Hv as (kept & Hkept & Hsub & Hstrict).
  rewrite Hkept in Hopt. by injection Hopt as <-.
Qed.

(** Optimising never panics, and what it accepts has a signed vote. *)
Lemma verify_and_optimize_cases (target : Hash * Z) (j : GrandpaJustification) :
  voter_set_ok voters ->
  match verify_and_optimize_justification check_message_signature target set_id voters j with
  | Ok _ => exists s, s ∈ precommits (commit j) /\
      check_message_signature (precommit s) (signed_id s) (signature s) (round j) set_id = true
  | Err _ => True
  | Panic => False
  end.
Proof.
  intros Hvoters. unfold verify_and_optimize_justification.
  destruct (verify_justification_with_callbacks _ _ _ _ _ []) as [invalid|e|] eqn:Ev; simpl; [|done|].
  - pose proof Ev as (kept & -> & _)%verified_can_be_optimized.
    apply obind_Ok in Ev as ([] & _ & (v & Hrun & Hrest)%obind_Ok).
    apply obind_Ok in Hrest as ([] & _ & ([] & Hthr%ensure_Ok & _)%obind_Ok).
    apply (verify_precommits_tallied _ _ _ _ Hvoters _ _ _ _ []) in Hrun
      as (V & Hsub & [Hgood _ _ Hw]); [|apply tallied_start]. simpl in *.
    pose proof (vs_threshold _ Hvoters) as [Hpos _].
    destruct V as [|s V]; [simpl in Hw; lia|]. apply Forall_cons in Hgood as [Hs _].
    exists s. split; [|by apply sv_signature in Hs]. eapply elem_of_sublist; [|exact Hsub]. by left.
  - revert Ev. by apply verify_with_callbacks_total.
Qed.

(** A step the strict verifier accepts is the same step for the optimiser. *)
Lemma verify_precommit_relax (j : GrandpaJustification) (idx idx' : nat) (s : SignedPrecommit)
  (v : verifier (C := list nat)) (v' : verifier (C := unit)) :
  verify_precommit check_message_signature set_id voters j idx s (strict v) = Ok v' ->
  exists v1, verify_precommit check_message_signature set_id voters j idx' s v = Ok v1 /\
    strict v1 = v' /\ v_callbacks v1 = v_callbacks v.
Proof.
  unfold verify_precommit. simpl.
  destruct (threshold voters <=? cumulative_weight v); [done|].
  destruct (voter_weights voters !! signed_id s) as [w|]; [|done].
  case_bool_decide; [done|].
  intros ([] & Hn & Hrest)%obind_Ok. rewrite Hn. simpl.
  apply obind_Ok in Hrest as (chain & Hens & Hrest). rewrite Hens. simpl.
  apply obind_Ok in Hrest as (w' & Hw & Hrest). rewrite Hw. simpl.
  apply obind_Ok in Hrest as ([] & Hsig & [= <-]). rewrite Hsig. simpl. by eexists.
Qed.

Lemma verify_precommits_relax (j : GrandpaJustification) (l : list SignedPrecommit)
  (idx idx' : nat) (v : verifier (C := list nat)) (v' : verifier (C := unit)) :
  verify_precommits check_message_signature set_id voters j idx l (strict v) = Ok v' ->
  exists v1, verify_precommits check_message_signature set_id voters j idx' l v = Ok v1 /\
    strict v1 = v' /\ v_callbacks v1 = v_callbacks v.
Proof.
  revert idx idx' v. induction l as [|s l IH]; intros idx idx' v; simpl.
  { intros [= <-]. by exists v. }
  intros (v1 & Hone & Hrest)%obind_Ok.
  apply (verify_precommit_relax _ _ idx') in Hone as (v2 & -> & <- & Hcb). simpl.
  destruct (IH _ (S idx') v2 Hrest) as (v3 & -> & Hs & Hcb'). exists v3. by rewrite Hcb'.
Qed.

Lemma strict_is_optimal (target : Hash * Z) (j : GrandpaJustification) :
  verify_justification check_message_signature target set_id voters j = Ok tt ->
  verify_and_optimize_justification check_message_signature target set_id voters j = Ok j.
Proof.
  unfold verify_and_optimize_justification, verify_justification,
    verify_justification_with_callbacks.
  intros ([] & Ht & (v & Hrun & Hrest)%obind_Ok)%obind_Ok.
  apply obind_Ok in Hrest as ([] & Hun & Hrest).
  apply obind_Ok in Hrest as ([] & Hthr & _).
  change (Verifier (ancestry_new (votes_ancestries j)) ∅ 0 tt) with
    (strict (Verifier (ancestry_new (votes_ancestries j)) ∅ 0 [])) in Hrun.
  apply (verify_precommits_relax _ _ _ 0) in Hrun as (v1 & Hrun & <- & Hcb).
  rewrite Ht. simpl. rewrite Hrun. simpl in *. rewrite Hun. simpl. rewrite Hthr. simpl.
  rewrite Hcb. by destruct j as [? [] ?].
Qed.
End OptimizeFacts.

Lemma bft_supermajority {AuthorityId : Type} `{Countable AuthorityId}
  (voters : VoterSet AuthorityId) (weight : Z) :
  bft_threshold voters -> threshold voters <= weight -> 2 * total_weight voters < 3 * weight.
Proof.
  unfold bft_threshold. pose proof (Z.mul_div_le (total_weight voters - 1) 3 ltac:(lia)). lia.
Qed.

(** ** Properties *)

(** C5. A justification that the pallet accepts proves finality: it commits to the given target,
    all its precommits are votes of distinct members of the voter set, properly
    signed for its round and set, for blocks that descend from the target along the
    submitted headers and are not below it, the votes carry more than two thirds of the
    weight of the whole set, and every submitted header descends from the target.
    Verification never panics.  That chains of parent hashes have no cycles is a property
    of the hash function, and the threshold is the one that [VoterSet::new] computes. *)
Theorem verify_justification_sound {Hash AuthorityId Signature Hdr : Type} `{Countable Hash}
  `{Countable AuthorityId} `{Header Hdr Hash}
  (check_signature : Precommit Hash -> AuthorityId -> Signature -> Z -> Z -> bool)
  (target : Hash * Z) (set_id : Z) (voters : VoterSet AuthorityId)
  (j : GrandpaJustification Hash AuthorityId Signature Hdr) :
  let links := parents (ancestry_new (votes_ancestries j)) in
  voter_set_ok voters -> bft_threshold voters -> acyclic links ->
  match verify_justification check_signature target set_id voters j with
  | Ok _ =>
      (commit_target_hash (commit j), commit_target_number (commit j)) = target /\
      Forall (fun s =>
          is_Some (voter_weights voters !! signed_id s) /\ target.2 <= target_number (precommit s) /\
          descends links target.1 (target_hash (precommit s)) /\
          check_signature (precommit s) (signed_id s) (signature s) (round j) set_id = true)
        (precommits (commit j)) /\
      NoDup (signed_id <$> precommits (commit j)) /\
      2 * total_weight voters <
        3 * weight_of (voter_weights voters) (signed_id <$> precommits (commit j)) /\
      (forall h, h ∈ votes_ancestries j -> descends links target.1 (hdr_hash h))
  | Err _ => True
  | Panic => False
  end.
Proof.
  intros links Hok Hbft Hac. destruct (verify_justification _ _ _ _ _) as [[]|e|] eqn:E; [|done|].
  2: { revert E. by apply verify_with_callbacks_total. }
  pose proof (verify_with_callbacks_sound _ _ _ _ Hok Hac _ _ _ E)
    as (Ht & _ & _ & _ & _ & _ & Hh).
  unfold verify_justification, verify_justification_with_callbacks in E.
  apply obind_Ok in E as ([] & _ & (v & Hrun & Hrest)%obind_Ok).
  apply obind_Ok in Hrest as ([] & _ & Hrest).
  apply obind_Ok in Hrest as ([] & Hthr%ensure_Ok & _).
  apply (verify_precommits_strict _ _ _ _ Hok Hac _ _ _ _ []) in Hrun
    as Hc; [|apply counted_start]. pose proof (counted_good _ _ _ _ _ _ Hc) as Hgood.
  destruct Hc as [[_ Hnd _ Hw] _ _ _]. simpl in *.
  rewrite <- Ht. simpl. split_and!; [done| |done|by apply bft_supermajority; [|lia]|done].
  eapply Forall_impl; [exact Hgood|]. by intros s [].
Qed.

(** C37. Optimising a justification gives one that the strict verification accepts for the same
    target; it differs from the original only in dropped precommits, and a
    justification that is already acceptable is left as it is. *)
Theorem optimized_justification_is_strict {Hash AuthorityId Signature Hdr : Type}
  `{Countable Hash} `{Countable AuthorityId} `{Header Hdr Hash}
  (check_signature : Precommit Hash -> AuthorityId -> Signature -> Z -> Z -> bool)
  (target : Hash * Z) (set_id : Z) (voters : VoterSet AuthorityId)
  (j : GrandpaJustification Hash AuthorityId Signature Hdr) :
  (forall j', verify_and_optimize_justification check_signature target set_id voters j = Ok j' ->
     verify_justification check_signature target set_id voters j' = Ok tt /\
     round j' = round j /\ votes_ancestries j' = votes_ancestries j /\
     commit_target_hash (commit j') = commit_target_hash (commit j) /\
     commit_target_number (commit j') = commit_target_number (commit j) /\
     precommits (commit j') `sublist_of` precommits (commit j)) /\
  (verify_justification check_signature target set_id voters j = Ok tt ->
     verify_and_optimize_justification check_signature target set_id voters j = Ok j).
Proof.
  split; [|apply strict_is_optimal].
  intros j' (Hj & Hsub & Hv)%optimize_is_strict. rewrite Hj in Hsub |- *. simpl in *.
  split_and!; try done. by rewrite <- Hj.
Qed.

(** The number of precommits that a justification needs, when all votes weigh the same, is
    the smallest one above two thirds of the authorities; so any two sufficient sets
    of authorities have more than a third of all authorities in common. *)
Theorem required_precommits_supermajority (n : Z) :
  1 <= n <= u32_max ->
  let r := required_justification_precommits n in
  1 <= r <= n /\ 2 * n < 3 * r /\ 3 * (r - 1) <= 2 * n /\ n < 3 * (2 * r - n).
Proof.
  intros Hn r. unfold r, required_justification_precommits, saturating_sub.
  rewrite Z.max_r by lia. pose proof (Z.div_mod (n - 1) 3 ltac:(lia)).
  pose proof (Z.mod_pos_bound (n - 1) 3 ltac:(lia)).
  rewrite wrapping_sub_small; [lia|lia|lia].
Qed.

(** ** A small voter set *)
Module SmallSet.

Record hdr := Hdr { h_number : Z; h_hash : Z; h_parent : Z }.

#[global] Instance hdr_header : Header hdr Z := {|
  hdr_number := h_number;
  hdr_hash := h_hash;
  hdr_parent_hash := h_parent;
  hdr_state_root := h_hash;
|}.

(** Four voters with one vote each. *)
Definition voters : VoterSet Z := Voters {[1 := 1; 2 := 1; 3 := 1; 4 := 1]} 3.

Lemma voters_ok : voter_set_ok voters.
Proof.
  split; [|by vm_compute|by vm_compute; split].
  intros a w. simpl. rewrite !lookup_insert_Some, lookup_singleton_Some. intros Ha.
  assert (w = 1) as -> by naive_solver. lia.
Qed.

(** A signature is valid when it is the sum of what it signs. *)
Definition check (p : Precommit Z) (id sig round set_id : Z) : bool :=
  sig =? target_hash p + target_number p + id + round + set_id.

Definition vote (id hash number : Z) : SignedPrecommit Z Z Z :=
  SignedPrecommit_ (Precommit_ hash number) (hash + number + id + 5 + 9) id.

(** Block 10 at height 1 is finalised by votes for it and for its child 11; voter 7 is
    unknown, voter 1 votes twice, voter 4 is not needed. *)
Definition j : GrandpaJustification Z Z Z hdr :=
  Grandpa 5 (Commit_ 10 1
    [vote 7 11 2; vote 1 11 2; vote 1 10 1; vote 2 10 1; vote 3 11 2; vote 4 10 1])
    [Hdr 2 11 10].

Definition j_optimized : GrandpaJustification Z Z Z hdr :=
  Grandpa 5 (Commit_ 10 1 [vote 1 11 2; vote 2 10 1; vote 3 11 2]) [Hdr 2 11 10].

Lemma links_acyclic : acyclic (parents (ancestry_new (votes_ancestries j_optimized))).
Proof.
  exists Z.to_nat. intros c p. unfold parent_of, ancestry_new. simpl.
  rewrite lookup_insert_Some, lookup_empty. intros [[<- <-]|[_ ?]]; [lia|done].
Qed.
End SmallSet.

Lemma verify_justification_sound_witness :
  verify_justification SmallSet.check (10, 1) 9 SmallSet.voters SmallSet.j_optimized = Ok tt /\
  2 * 4 < 3 * weight_of (voter_weights SmallSet.voters)
         (signed_id <$> precommits (commit SmallSet.j_optimized)).
Proof.
  pose proof (verify_justification_sound SmallSet.check (10, 1) 9 SmallSet.voters
    SmallSet.j_optimized SmallSet.voters_ok eq_refl SmallSet.links_acyclic) as H.
  assert (verify_justification SmallSet.check (10, 1) 9 SmallSet.voters SmallSet.j_optimized
    = Ok tt) as E by reflexivity.
  rewrite E in H. split; [exact E|]. destruct H as (_ & _ & _ & Hw & _). exact Hw.
Defined.

Lemma optimized_justification_is_strict_witness :
  verify_and_optimize_justification SmallSet.check (10, 1) 9 SmallSet.voters SmallSet.j
    = Ok SmallSet.j_optimized /\
  verify_justification SmallSet.check (10, 1) 9 SmallSet.voters SmallSet.j_optimized = Ok tt.
Proof.
  destruct (optimized_justification_is_strict SmallSet.check (10, 1) 9 SmallSet.voters SmallSet.j)
    as [Hopt _].
  assert (verify_and_optimize_justification SmallSet.check (10, 1) 9 SmallSet.voters SmallSet.j
    = Ok SmallSet.j_optimized) as E by reflexivity.
  split; [exact E|]. destruct (Hopt _ E) as [Hv _]. exact Hv.
Defined.

Lemma required_precommits_supermajority_witness :
  2 * 100 < 3 * required_justification_precommits 100.
Proof. apply (required_precommits_supermajority 100). word. Defined.
