(* ===== verification/GrandpaPallet.v ===== *)
(** * modules/grandpa/src: the GRANDPA light client pallet

    lib.rs (calls, storage, authority set changes, the ring buffer of imported
    headers), storage_types.rs (the stored authority set) and call_ext.rs (checks
    on calls that run before dispatch).  Parameters: [VoterSet::new] and the
    signature check of the GRANDPA crates, the encoded sizes, and the benchmarked
    weight of the call. *)

From S2P Require Import Prelude RingBuffer Substrate RuntimePrimitives HeaderChain Justification.
From stdpp Require Import base numbers list gmap relations.
Local Open Scope Z_scope.

Inductive Error :=
| InvalidJustification
| InvalidAuthoritySet
| TooManyRequests
| OldHeader
| UnsupportedScheduledChange
| NotInitialized
| AlreadyInitialized
| TooManyAuthoritiesInSet
| BridgeModule (e : OwnedBridgeModuleError).

(** The constants of [Config] and of [ChainWithGrandpa], the lengths known to the
    codec, and the benchmarked weight of [submit_finality_proof]. *)
Class GrandpaConfig `{WeightOps} := {
  MaxRequests : Z;
  HeadersToKeep : Z;
  MAX_AUTHORITIES_COUNT : Z;
  REASONABLE_HEADERS_IN_JUSTIFICATON_ANCESTRY : Z;
  MAX_HEADER_SIZE : Z;
  AVERAGE_HEADER_SIZE_IN_JUSTIFICATION : Z;
  number_len : Z;
  hash_len : Z;
  authority_id_len : Z;
  authority_len : Z;
  submit_finality_proof_weight : Z -> Z -> Weight;
}.

Section Grandpa.
Context `{WeightOps} `{!GrandpaConfig}.
Context {AccountId Hash AuthorityId Signature DigestItem Hdr : Type}.
Context `{EqDecision AccountId} `{Countable Hash} `{Countable AuthorityId}.
Context `{Header Hdr Hash} `{!GrandpaHeader Hdr DigestItem AuthorityId}.
Abbreviation GrandpaJustification := (GrandpaJustification Hash AuthorityId Signature Hdr).

Variable check_message_signature :
  Precommit Hash -> AuthorityId -> Signature -> Z -> Z -> bool.
Variable voter_set_new : list (AuthorityId * Z) -> option (VoterSet AuthorityId).
Variables (header_encoded_size : Hdr -> Z) (justification_encoded_size : GrandpaJustification -> Z).

(** ** Storage *)

Record pallet := Pallet {
  RequestCount : Z;
  InitialHash : option Hash; (* [None]: not written yet, read as the default hash *)
  BestFinalized : option (HeaderId Hash);
  ImportedHashes : gmap Z Hash;
  ImportedHashesPointer : Z;
  ImportedHeaders : gmap Hash (StoredHeaderData Hash);
  CurrentAuthoritySet : AuthoritySet AuthorityId;
  PalletOwner : option AccountId;
  PalletOperatingMode : BasicOperatingMode;
}.

Definition empty_pallet : pallet := Pallet 0 None None ∅ 0 ∅ (Authorities [] 0) None Normal.

Definition put_request_count (n : Z) (p : pallet) : pallet :=
  Pallet n (InitialHash p) (BestFinalized p) (ImportedHashes p) (ImportedHashesPointer p)
    (ImportedHeaders p) (CurrentAuthoritySet p) (PalletOwner p) (PalletOperatingMode p).

Definition put_authority_set (a : AuthoritySet AuthorityId) (p : pallet) : pallet :=
  Pallet (RequestCount p) (InitialHash p) (BestFinalized p) (ImportedHashes p)
    (ImportedHashesPointer p) (ImportedHeaders p) a (PalletOwner p) (PalletOperatingMode p).

Definition put_initial (hash : Hash) (p : pallet) : pallet :=
  Pallet (RequestCount p) (Some hash) (BestFinalized p) (ImportedHashes p) 0
    (ImportedHeaders p) (CurrentAuthoritySet p) (PalletOwner p) (PalletOperatingMode p).

Definition put_mode (m : BasicOperatingMode) (p : pallet) : pallet :=
  Pallet (RequestCount p) (InitialHash p) (BestFinalized p) (ImportedHashes p)
    (ImportedHashesPointer p) (ImportedHeaders p) (CurrentAuthoritySet p) (PalletOwner p) m.

#[global] Instance grandpa_module : OwnedBridgeModule pallet AccountId BasicOperatingMode := {|
  owner_storage := PalletOwner;
  put_owner o p :=
    Pallet (RequestCount p) (InitialHash p) (BestFinalized p) (ImportedHashes p)
      (ImportedHashesPointer p) (ImportedHeaders p) (CurrentAuthoritySet p) o
      (PalletOperatingMode p);
  operating_mode_storage := PalletOperatingMode;
  put_operating_mode := put_mode;
|}.

#[global] Instance grandpa_module_laws : OwnedBridgeModuleLaws pallet AccountId BasicOperatingMode.
Proof. by split. Qed.

#[global] Instance grandpa_header_chain : HeaderChain pallet Hash := {|
  finalized_header_state_root p header_hash := sh_state_root <$> ImportedHeaders p !! header_hash;
|}.

Definition best_finalized_number (p : pallet) : option Z := header_number <$> BestFinalized p.

(** ** The stored authority set *)

(** [BoundedVec::try_from] fails on a list that is too long. *)
Definition stored_authority_set_try_new (l : list (AuthorityId * Z)) (set_id : Z) :
  outcome Error (AuthoritySet AuthorityId) :=
  if Z.of_nat (length l) <=? MAX_AUTHORITIES_COUNT then Ok (Authorities l set_id)
  else Err TooManyAuthoritiesInSet.

Definition unused_proof_size (a : AuthoritySet AuthorityId) : Z :=
  let single_authority_max_encoded_len := authority_len in
  let extra_authorities :=
    saturating_sub MAX_AUTHORITIES_COUNT (Z.of_nat (length (authorities a)) mod (u32_max + 1)) in
  saturating_mul u64_max single_authority_max_encoded_len extra_authorities.

(** ** Reading header digests *)

Definition forced_change_of (log : ConsensusLog AuthorityId) :
  option (Z * ScheduledChange AuthorityId) :=
  match log with
  | ForcedChangeLog delay change => Some (delay, change)
  | _ => None
  end.

Definition find_scheduled_change (header : Hdr) : option (ScheduledChange AuthorityId) :=
  convert_first (fun l => grandpa_log l ≫= scheduled_change_of) (hdr_digest header).

Definition find_forced_change (header : Hdr) : option (Z * ScheduledChange AuthorityId) :=
  convert_first (fun l => grandpa_log l ≫= forced_change_of) (hdr_digest header).

(** ** call_ext.rs *)

Record SubmitFinalityProofInfo := FinalityInfo {
  block_number : Z;
  extra_weight : Weight;
  extra_size : Z;
}.

Definition fits_limits (i : SubmitFinalityProofInfo) : bool :=
  weight_is_zero (extra_weight i) && (extra_size i =? 0).

Definition check_obsolete (p : pallet) (finality_target : Z) : outcome Error unit :=
  let? best_finalized := ok_or (BestFinalized p) NotInitialized in
  if finality_target <=? header_number best_finalized then Err OldHeader else Ok tt.

Definition was_successful (p : pallet) (finality_target : Z) : bool :=
  match BestFinalized p with
  | Some best_finalized => header_number best_finalized =? finality_target
  | None => false
  end.

Definition max_expected_call_size (required_precommits : Z) : Z :=
  saturating_add u32_max MAX_HEADER_SIZE
    (max_reasonable_size number_len hash_len authority_id_len
       REASONABLE_HEADERS_IN_JUSTIFICATON_ANCESTRY AVERAGE_HEADER_SIZE_IN_JUSTIFICATION
       required_precommits).

(** [saturated_into] of a length. *)
Definition saturated_u32 (n : Z) : Z := Z.min u32_max n.

Definition submit_finality_proof_info_from_args (finality_target : Hdr)
  (justification : GrandpaJustification) : SubmitFinalityProofInfo :=
  let precommits_len :=
    saturated_u32 (Z.of_nat (length (precommits (commit justification)))) in
  let votes_ancestries_len :=
    saturated_u32 (Z.of_nat (length (votes_ancestries justification))) in
  let extra_weight :=
    if REASONABLE_HEADERS_IN_JUSTIFICATON_ANCESTRY <? votes_ancestries_len
    then submit_finality_proof_weight precommits_len votes_ancestries_len
    else weight_zero in
  let actual_call_size :=
    saturated_u32
      (saturating_add u64_max (header_encoded_size finality_target)
         (justification_encoded_size justification)) in
  FinalityInfo (hdr_number finality_target) extra_weight
    (saturating_sub actual_call_size (max_expected_call_size precommits_len)).

(** A runtime call, as far as this pallet looks at it. *)
Inductive Call :=
| submit_finality_proof_call (finality_target : Hdr) (justification : GrandpaJustification)
| other_call.

Definition submit_finality_proof_info (c : Call) : option SubmitFinalityProofInfo :=
  match c with
  | submit_finality_proof_call finality_target justification =>
      Some (submit_finality_proof_info_from_args finality_target justification)
  | other_call => None
  end.

Inductive Validity := Valid | Stale | InvalidCall.

Definition check_obsolete_submit_finality_proof (p : pallet) (c : Call) : Validity :=
  match submit_finality_proof_info c with
  | None => Valid
  | Some finality_proof =>
      match check_obsolete p (block_number finality_proof) with
      | Ok _ => Valid
      | Err OldHeader => Stale
      | _ => InvalidCall
      end
  end.

(** ** Calls *)

Definition try_enact_authority_change (header : Hdr) (current_set_id : Z) (p : pallet) :
  outcome Error (bool * pallet) :=
  check? ensure (bool_decide (find_forced_change header = None)) UnsupportedScheduledChange in
  match find_scheduled_change header with
  | Some change =>
      check? ensure (change_delay change =? 0) UnsupportedScheduledChange in
      let? next :=
        stored_authority_set_try_new (next_authorities change)
          (wrapping_add u64_max current_set_id 1) in
      Ok (true, put_authority_set next p)
  | None => Ok (false, p)
  end.

Definition verify_justification (justification : GrandpaJustification) (hash : Hash) (number : Z)
  (authority_set : AuthoritySet AuthorityId) : outcome Error unit :=
  let? voter_set := ok_or (voter_set_new (authorities authority_set)) InvalidAuthoritySet in
  map_err (fun _ => InvalidJustification)
    (Justification.verify_justification check_message_signature (hash, number)
       (set_id authority_set) voter_set justification).

(** [HeadersToKeep] is the divisor of a remainder. *)
Definition insert_header (header : Hdr) (hash : Hash) (p : pallet) : outcome Error pallet :=
  let index := ImportedHashesPointer p in
  let pruning := ImportedHashes p !! index in
  let headers := <[hash := stored_header_build header]> (ImportedHeaders p) in
  if HeadersToKeep =? 0 then Panic
  else
    let headers := match pruning with Some old => delete old headers | None => headers end in
    Ok (Pallet (RequestCount p) (InitialHash p) (Some (HeaderId_ (hdr_number header) hash))
          (<[index := hash]> (ImportedHashes p))
          (wrapping_add u32_max index 1 mod HeadersToKeep) headers (CurrentAuthoritySet p)
          (PalletOwner p) (PalletOperatingMode p)).

Definition lift {A : Type} (c : outcome Error A) : outcome (DispatchError Error) A :=
  map_err ModuleError c.

Definition submit_finality_proof (p : pallet) (finality_target : Hdr)
  (justification : GrandpaJustification) :
  outcome (DispatchError Error) (PostDispatchInfo * pallet) :=
  check? lift (map_err BridgeModule (ensure_not_halted p)) in
  check? ensure (RequestCount p <? MaxRequests) (ModuleError TooManyRequests) in
  let hash := hdr_hash finality_target in
  let number := hdr_number finality_target in
  check? lift (check_obsolete p number) in
  let authority_set := CurrentAuthoritySet p in
  let unused_proof_size := unused_proof_size authority_set in
  let set_id := set_id authority_set in
  check? lift (verify_justification justification hash number authority_set) in
  let? (is_authorities_change_enacted, p) :=
    lift (try_enact_authority_change finality_target set_id p) in
  let may_refund_call_fee :=
    is_authorities_change_enacted &&
    fits_limits (submit_finality_proof_info_from_args finality_target justification) in
  let p := put_request_count (wrapping_add u32_max (RequestCount p) 1) p in
  let? p := lift (insert_header finality_target hash p) in
  let pays_fee := if may_refund_call_fee then PaysNo else PaysYes in
  let pre_dispatch_weight :=
    submit_finality_proof_weight
      (saturated_u32 (Z.of_nat (length (precommits (commit justification)))))
      (saturated_u32 (Z.of_nat (length (votes_ancestries justification)))) in
  let actual :=
    set_proof_size pre_dispatch_weight
      (saturating_sub (proof_size pre_dispatch_weight) unused_proof_size) in
  Ok ({| actual_weight := Some actual; pays_fee := pays_fee |}, p).

Definition initialize_bridge (init_params : InitializationData Hdr AuthorityId) (p : pallet) :
  outcome Error pallet :=
  let? authority_set :=
    stored_authority_set_try_new (init_authority_list init_params) (init_set_id init_params) in
  let header := init_header init_params in
  let initial_hash := hdr_hash header in
  let p := put_initial initial_hash p in
  let? p := insert_header header initial_hash p in
  let p := put_authority_set authority_set p in
  Ok (put_mode (init_operating_mode init_params) p).

Definition initialize (p : pallet) (origin : RawOrigin AccountId)
  (init_data : InitializationData Hdr AuthorityId) : outcome (DispatchError Error) pallet :=
  check? ensure_owner_or_root p origin in
  let init_allowed := bool_decide (BestFinalized p = None) in
  check? ensure init_allowed (ModuleError AlreadyInitialized) in
  lift (initialize_bridge init_data p).

Definition on_initialize (p : pallet) : pallet :=
  put_request_count (saturating_sub (RequestCount p) 1) p.

Record GenesisConfig := Genesis {
  genesis_owner : option AccountId;
  genesis_init_data : option (InitializationData Hdr AuthorityId);
}.

(** [None] is the failed [expect]. *)
Definition genesis_build (c : GenesisConfig) (p : pallet) : option pallet :=
  let p := match genesis_owner c with Some owner => put_owner (Some owner) p | None => p end in
  match genesis_init_data c with
  | Some init_data =>
      match initialize_bridge init_data p with
      | Ok p => Some p
      | _ => None
      end
  | None => Some (put_mode Halted p)
  end.
End Grandpa.
Arguments pallet AccountId Hash AuthorityId {_ _}.

(** ** The history behind a state *)

Section History.
Context `{WeightOps} `{!GrandpaConfig}.
Context {AccountId Hash AuthorityId Signature DigestItem Hdr : Type}.
Context `{EqDecision AccountId} `{Countable Hash} `{Countable AuthorityId}.
Context `{Header Hdr Hash} `{!GrandpaHeader Hdr DigestItem AuthorityId}.
Abbreviation GrandpaJustification := (GrandpaJustification Hash AuthorityId Signature Hdr).
Abbreviation pallet := (pallet AccountId Hash AuthorityId).
Context (check_message_signature : Precommit Hash -> AuthorityId -> Signature -> Z -> Z -> bool)
  (voter_set_new : list (AuthorityId * Z) -> option (VoterSet AuthorityId))
  (header_encoded_size : Hdr -> Z) (justification_encoded_size : GrandpaJustification -> Z).

Abbreviation submit_finality_proof :=
  (submit_finality_proof check_message_signature voter_set_new header_encoded_size
     justification_encoded_size).

(** The set in force after [h] is final, when [a] was in force before: unchanged, or
    the one that [h] schedules without delay. *)
Definition handoff (a : AuthoritySet AuthorityId) (h : Hdr) (a' : AuthoritySet AuthorityId) : Prop :=
  find_forced_change h = None /\
  match find_scheduled_change h with
  | Some change =>
      change_delay change = 0 /\ Z.of_nat (length (next_authorities change)) <= MAX_AUTHORITIES_COUNT /\
      a' = Authorities (next_authorities change) (wrapping_add u64_max (set_id a) 1)
  | None => a' = a
  end.

(** [hs] (newest first) are headers that were finalized one after another, starting
    from the trusted [h0] and [a0]: each one is higher than the one before and
    justified by the authority set in force at that point, and the sets change only
    as the finalized headers say. *)
Inductive finality_chain (a0 : AuthoritySet AuthorityId) (h0 : Hdr) :
  list Hdr -> AuthoritySet AuthorityId -> Prop :=
| fc_init : finality_chain a0 h0 [h0] a0
| fc_import prev hs a h (j : GrandpaJustification) voters a' :
    finality_chain a0 h0 (prev :: hs) a ->
    hdr_number prev < hdr_number h ->
    voter_set_new (authorities a) = Some voters ->
    Justification.verify_justification check_message_signature (hdr_hash h, hdr_number h)
      (set_id a) voters j = Ok tt ->
    handoff a h a' ->
    finality_chain a0 h0 (h :: prev :: hs) a'.

Definition entry_of (h : Hdr) : Hash * StoredHeaderData Hash := (hdr_hash h, stored_header_build h).

Definition ring_of (p : pallet) : ring Hash (StoredHeaderData Hash) :=
  Ring (ImportedHashes p) (ImportedHashesPointer p) (ImportedHeaders p).

(** The state of a pallet with that history: the best header is the newest one, and
    the newest [HeadersToKeep] headers are stored. *)
Record tracks (a0 : AuthoritySet AuthorityId) (h0 : Hdr) (hs : list Hdr) (p : pallet) : Prop := {
  tr_chain : finality_chain a0 h0 hs (CurrentAuthoritySet p);
  tr_best : BestFinalized p = header_id <$> head hs;
  tr_initial : InitialHash p = Some (hdr_hash h0);
  tr_ring : ring_repr HeadersToKeep (ring_of p) (take (Z.to_nat HeadersToKeep) (entry_of <$> hs));
}.

Record untouched (p : pallet) : Prop := {
  un_best : BestFinalized p = None;
  un_ring : ring_of p = Ring ∅ 0 ∅;
}.

(** Everything that can happen to the pallet.  A failed call leaves the state as it
    is, so only successful ones are steps. *)
Inductive step (p : pallet) : pallet -> Prop :=
| StepSubmit h j info p' : submit_finality_proof p h j = Ok (info, p') -> step p p'
| StepInitialize origin d p' : initialize p origin d = Ok p' -> step p p'
| StepSetOwner origin o p' : set_owner (E := Error) p origin o = Ok p' -> step p p'
| StepSetMode origin m p' : set_operating_mode (E := Error) p origin m = Ok p' -> step p p'
| StepBlock : step p (on_initialize p).

Hypothesis Hkeep : 0 < HeadersToKeep <= u32_max.
(** The hash of a header determines its number. *)
Hypothesis Hhash : forall h1 h2 : Hdr, hdr_hash h1 = hdr_hash h2 -> hdr_number h1 = hdr_number h2.

Lemma finality_chain_numbers (a0 a : AuthoritySet AuthorityId) (h0 : Hdr) (hs : list Hdr) :
  finality_chain a0 h0 hs a ->
  exists best rest, hs = best :: rest /\ forall h, h ∈ hs -> hdr_number h <= hdr_number best.
Proof.
  induction 1 as [|prev hs a h j voters a' _ (best & rest & [= <- <-] & IH) Hlt _ _ _].
  { exists h0, []. split; [done|]. intros h ->%list_elem_of_singleton. lia. }
  exists h, (prev :: hs). split; [done|]. intros h' [->|Hin]%elem_of_cons; [lia|].
  specialize (IH h' Hin). lia.
Qed.

Lemma insert_header_ring (h : Hdr) (p p' : pallet) :
  0 <= ImportedHashesPointer p < HeadersToKeep ->
  insert_header h (hdr_hash h) p = Ok p' ->
  ring_of p' = ring_insert HeadersToKeep (ring_of p) (hdr_hash h) (stored_header_build h) /\
  BestFinalized p' = Some (header_id h) /\ CurrentAuthoritySet p' = CurrentAuthoritySet p /\
  InitialHash p' = InitialHash p /\ RequestCount p' = RequestCount p /\
  PalletOwner p' = PalletOwner p /\ PalletOperatingMode p' = PalletOperatingMode p.
Proof.
  intros Hp. unfold insert_header. rewrite (proj2 (Z.eqb_neq _ _)) by lia.
  intros [= <-]. unfold ring_of, ring_insert. simpl.
  rewrite wrapping_add_small by lia. done.
Qed.

Lemma insert_header_total (h : Hdr) (hash : Hash) (p : pallet) :
  exists p', insert_header h hash p = Ok p'.
Proof. unfold insert_header. rewrite (proj2 (Z.eqb_neq _ _)) by lia. by eexists. Qed.

Lemma queue_insert_take (hs : list Hdr) (h : Hdr) :
  queue_insert HeadersToKeep (take (Z.to_nat HeadersToKeep) (entry_of <$> hs)) (hdr_hash h)
    (stored_header_build h) =
  take (Z.to_nat HeadersToKeep) (entry_of <$> h :: hs).
Proof.
  rewrite queue_insert_prefix by lia. done.
Qed.

(** The new hash is not among the stored ones. *)
Lemma new_hash_fresh (a0 a : AuthoritySet AuthorityId) (h0 h prev : Hdr) (hs : list Hdr) (n : nat) :
  finality_chain a0 h0 (prev :: hs) a -> hdr_number prev < hdr_number h ->
  hdr_hash h ∉ (take n (entry_of <$> prev :: hs)).*1.
Proof.
  intros Hc Hlt Hin. destruct (finality_chain_numbers _ _ _ _ Hc) as (best & rest & [= <- <-] & Hall).
  rewrite fmap_take in Hin. apply elem_of_take in Hin as (i & Hi & _).
  rewrite <- list_fmap_compose in Hi. apply list_elem_of_lookup_2 in Hi.
  apply list_elem_of_fmap in Hi as (h' & Heq & Hin'). simpl in Heq.
  specialize (Hall h' Hin'). apply Hhash in Heq. lia.
Qed.

Lemma lift_Ok {A : Type} (c : outcome Error A) (a : A) : lift c = Ok a <-> c = Ok a.
Proof. apply map_err_Ok. Qed.

Lemma try_enact_spec (h : Hdr) (p p' : pallet) (b : bool) :
  try_enact_authority_change h (set_id (CurrentAuthoritySet p)) p = Ok (b, p') ->
  handoff (CurrentAuthoritySet p) h (CurrentAuthoritySet p') /\
  p' = put_authority_set (CurrentAuthoritySet p') p /\
  b = bool_decide (is_Some (find_scheduled_change h)).
Proof.
  unfold try_enact_authority_change, handoff.
  intros ([] & Hforced%ensure_Ok%bool_decide_eq_true & Hrest)%obind_Ok.
  destruct (find_scheduled_change h) as [change|] eqn:Ec.
  - apply obind_Ok in Hrest as ([] & Hdelay%ensure_Ok & (next & Hnext & [= <- <-])%obind_Ok).
    unfold stored_authority_set_try_new in Hnext.
    destruct (Z.of_nat (length (next_authorities change)) <=? _) eqn:El; [|done].
    injection Hnext as <-. simpl. split_and!; try done; lia.
  - injection Hrest as <- <-. split_and!; try done. by destruct p.
Qed.

(** What a successful submission has checked and done. *)
Lemma submit_spec (p p' : pallet) (h : Hdr) (j : GrandpaJustification) (info : PostDispatchInfo) :
  submit_finality_proof p h j = Ok (info, p') ->
  exists best voters p1,
    is_halted p = false /\ RequestCount p < MaxRequests /\
    BestFinalized p = Some best /\ header_number best < hdr_number h /\
    voter_set_new (authorities (CurrentAuthoritySet p)) = Some voters /\
    Justification.verify_justification check_message_signature (hdr_hash h, hdr_number h)
      (set_id (CurrentAuthoritySet p)) voters j = Ok tt /\
    handoff (CurrentAuthoritySet p) h (CurrentAuthoritySet p1) /\
    p1 = put_request_count (wrapping_add u32_max (RequestCount p) 1)
           (put_authority_set (CurrentAuthoritySet p1) p) /\
    insert_header h (hdr_hash h) p1 = Ok p' /\
    pays_fee info =
      (if bool_decide (is_Some (find_scheduled_change h)) &&
          fits_limits (submit_finality_proof_info_from_args header_encoded_size
                         justification_encoded_size h j)
       then PaysNo else PaysYes).
Proof.
  unfold GrandpaPallet.submit_finality_proof.
  intros ([] & Hhalt%lift_Ok%map_err_Ok%ensure_not_halted_Ok & Hrest)%obind_Ok.
  apply obind_Ok in Hrest as ([] & Hreq%ensure_Ok & Hrest).
  apply obind_Ok in Hrest as ([] & Hobs%lift_Ok & Hrest).
  apply obind_Ok in Hrest as ([] & Hver%lift_Ok & Hrest).
  apply obind_Ok in Hrest as ([b p1] & Hen%lift_Ok & Hrest).
  apply obind_Ok in Hrest as (p2 & Hins%lift_Ok & [= <- <-]).
  unfold check_obsolete in Hobs. apply obind_Ok in Hobs as (best & Hbest%ok_or_Ok & Hlt).
  case_match eqn:Elt; [done|].
  apply obind_Ok in Hver as (voters & Hvoters%ok_or_Ok & Hver%map_err_Ok).
  apply try_enact_spec in Hen as (Hhand & Hp1 & ->).
  exists best, voters, (put_request_count (wrapping_add u32_max (RequestCount p1) 1) p1).
  split_and!; try done; try lia. simpl. rewrite Hp1. simpl. by rewrite <- Hp1.
Qed.

Lemma tracks_ext (a0 : AuthoritySet AuthorityId) (h0 : Hdr) (hs : list Hdr) (p p' : pallet) :
  tracks a0 h0 hs p -> CurrentAuthoritySet p' = CurrentAuthoritySet p ->
  BestFinalized p' = BestFinalized p -> InitialHash p' = InitialHash p -> ring_of p' = ring_of p ->
  tracks a0 h0 hs p'.
Proof. intros [Hc Hb Hi Hr] Ea Eb Ei Er. split; [by rewrite Ea|congruence|congruence|by rewrite Er]. Qed.

Lemma submit_tracks (a0 : AuthoritySet AuthorityId) (h0 : Hdr) (hs : list Hdr) (p p' : pallet)
  (h : Hdr) (j : GrandpaJustification) (info : PostDispatchInfo) :
  tracks a0 h0 hs p -> submit_finality_proof p h j = Ok (info, p') ->
  tracks a0 h0 (h :: hs) p'.
Proof.
  intros [Hc Hb Hi Hr] Hsub.
  destruct (submit_spec _ _ _ _ _ Hsub) as
    (best & voters & p1 & _ & _ & Hbest & Hlt & Hvoters & Hver & Hhand & Hp1 & Hins & _).
  destruct (finality_chain_numbers _ _ _ _ Hc) as (prev & rest & -> & _).
  rewrite Hb in Hbest. simpl in Hbest. injection Hbest as <-. simpl in Hlt.
  assert (ring_of p1 = ring_of p /\ InitialHash p1 = InitialHash p) as [Er Ei]
    by (rewrite Hp1; done).
  pose proof (repr_pointer _ _ _ Hr) as Hptr. rewrite <- Er in Hptr.
  destruct (insert_header_ring h p1 p' Hptr Hins) as (Hring & Hbest' & Ha & Hi' & _).
  split.
  - rewrite Ha. by eapply fc_import.
  - done.
  - congruence.
  - rewrite Hring, Er, <- queue_insert_take. apply ring_insert_repr; [lia| |done].
    by eapply new_hash_fresh.
Qed.

Lemma initialize_bridge_tracks (d : InitializationData Hdr AuthorityId) (p p' : pallet) :
  untouched p -> initialize_bridge d p = Ok p' ->
  tracks (CurrentAuthoritySet p') (init_header d) [init_header d] p' /\
  CurrentAuthoritySet p' = Authorities (init_authority_list d) (init_set_id d) /\
  PalletOperatingMode p' = init_operating_mode d /\ RequestCount p' = RequestCount p.
Proof.
  intros [Hb Hr]. unfold initialize_bridge.
  intros (a & Ha & (p1 & Hins & [= <-])%obind_Ok)%obind_Ok.
  unfold stored_authority_set_try_new in Ha. case_match; [|done]. injection Ha as <-.
  apply insert_header_ring in Hins as (Hring & Hbest & _ & Hinit & Hreq & _); [|simpl; lia].
  split_and!; try done. split.
  - constructor.
  - done.
  - done.
  - change (ring_of (put_mode _ (put_authority_set _ p1))) with (ring_of p1). rewrite Hring.
    replace (ring_of (put_initial _ p)) with (Ring ∅ 0 ∅ : ring Hash (StoredHeaderData Hash))
      by (unfold ring_of in *; simpl; congruence).
    rewrite <- queue_insert_take. simpl. rewrite take_nil.
    apply ring_insert_repr; [lia|set_solver|]. apply ring_repr_empty. lia.
Qed.

(** *** Runs *)

Definition consistent (p : pallet) : Prop :=
  untouched p \/ exists a0 h0 hs, tracks a0 h0 hs p.

Lemma step_consistent (p p' : pallet) : consistent p -> step p p' -> consistent p'.
Proof.
  intros Hc Hstep. destruct Hstep as [h j info p' Hs|origin d p' Hs|origin o p' Hs|origin m p' Hs|].
  - destruct Hc as [[Hb _]|(a0 & h0 & hs & Ht)].
    + apply submit_spec in Hs as (best & ? & ? & _ & _ & Hbest & _). congruence.
    + right. exists a0, h0, (h :: hs). by eapply submit_tracks.
  - unfold initialize in Hs. apply obind_Ok in Hs as ([] & _ & Hs).
    apply obind_Ok in Hs as ([] & Hb%ensure_Ok%bool_decide_eq_true & Hs%lift_Ok).
    destruct Hc as [Hu|(a0 & h0 & hs & [Hch Hbest _ _])].
    + apply initialize_bridge_tracks in Hs as [Ht _]; [|done]. right. by eexists _, _, _.
    + destruct (finality_chain_numbers _ _ _ _ Hch) as (best & rest & -> & _). by rewrite Hb in Hbest.
  - apply obind_Ok in Hs as ([] & _ & [= <-]). destruct Hc as [[]|(a0 & h0 & hs & [])]; [by left|].
    right. by exists a0, h0, hs.
  - apply obind_Ok in Hs as ([] & _ & [= <-]). destruct Hc as [[]|(a0 & h0 & hs & [])]; [by left|].
    right. by exists a0, h0, hs.
  - destruct Hc as [[]|(a0 & h0 & hs & [])]; [by left|]. right. by exists a0, h0, hs.
Qed.

Lemma genesis_consistent (c : GenesisConfig) (p : pallet) :
  genesis_build c empty_pallet = Some p -> consistent p.
Proof.
  unfold genesis_build. set (p0 := match genesis_owner c with Some _ => _ | None => _ end).
  assert (untouched p0) as Hu by (unfold p0; destruct (genesis_owner c); done).
  destruct (genesis_init_data c) as [d|].
  - destruct (initialize_bridge d p0) as [p1| |] eqn:E; [|done|done]. intros [= <-].
    apply initialize_bridge_tracks in E as [Ht _]; [|done]. right. by eexists _, _, _.
  - intros [= <-]. left. by destruct Hu.
Qed.

Lemma run_consistent (c : GenesisConfig) (p0 p : pallet) :
  genesis_build c empty_pallet = Some p0 -> rtc step p0 p -> consistent p.
Proof. intros Hg%genesis_consistent Hrun. induction Hrun; eauto using step_consistent. Qed.

(** What the ring of a tracked pallet stores. *)
Lemma tracks_stored (a0 : AuthoritySet AuthorityId) (h0 : Hdr) (hs : list Hdr) (p : pallet) :
  tracks a0 h0 hs p ->
  Z.of_nat (size (ImportedHeaders p)) <= HeadersToKeep /\
  (forall hash data, ImportedHeaders p !! hash = Some data <->
     exists i h, hs !! i = Some h /\ Z.of_nat i < HeadersToKeep /\
       hdr_hash h = hash /\ stored_header_build h = data).
Proof.
  intros [_ _ _ Hr]. split; [exact (ring_repr_size _ _ _ Hr)|]. intros hash data.
  pose proof (repr_nodup _ _ _ Hr) as Hnd. pose proof (repr_items _ _ _ Hr) as Hit. simpl in Hit.
  rewrite Hit, <- elem_of_list_to_map by done. rewrite elem_of_take. split.
  - intros (i & Hi & Hlt). apply list_lookup_fmap_Some in Hi as (h & Heq & Hh).
    unfold entry_of in Heq. injection Heq as -> ->. exists i, h. split_and!; [done|lia|done|done].
  - intros (i & h & Hh & Hlt & <- & <-). exists i. split; [|lia].
    rewrite list_lookup_fmap, Hh. done.
Qed.

(** ** Properties *)

(** C2. Every state the pallet can reach has a history of finalized headers behind it: from the
    trusted initial header and authority set on, each header is higher than the one
    before and carries a justification that verifies under the authority set in force
    at that point, and the authority set only changes as the finalized headers
    schedule it.  The best header is the newest of them; the state roots that the
    pallet serves are those of the newest [HeadersToKeep] headers, all of them and no
    others; and at most that many are stored. *)
Theorem light_client_history (c : GenesisConfig) (p0 p : pallet) :
  genesis_build c empty_pallet = Some p0 -> rtc step p0 p ->
  match BestFinalized p with
  | None => forall hash, finalized_header_state_root p hash = None
  | Some best =>
      exists a0 h0 newest older,
        finality_chain a0 h0 (newest :: older) (CurrentAuthoritySet p) /\
        best = header_id newest /\ InitialHash p = Some (hdr_hash h0) /\
        Z.of_nat (size (ImportedHeaders p)) <= HeadersToKeep /\
        forall hash root,
          finalized_header_state_root p hash = Some root <->
          exists i h, (newest :: older) !! i = Some h /\ Z.of_nat i < HeadersToKeep /\
            hdr_hash h = hash /\ hdr_state_root h = root
  end.
Proof.
  intros Hg Hrun. destruct (run_consistent _ _ _ Hg Hrun) as [[-> Hr]|(a0 & h0 & hs & Ht)].
  { intros hash. simpl. unfold ring_of in Hr. injection Hr as _ _ ->. by rewrite lookup_empty. }
  destruct (finality_chain_numbers _ _ _ _ (tr_chain _ _ _ _ Ht)) as (newest & older & -> & _).
  rewrite (tr_best _ _ _ _ Ht). simpl. exists a0, h0, newest, older.
  destruct (tracks_stored _ _ _ _ Ht) as [Hsize Hst].
  split_and!; [by apply Ht|done|by apply Ht|done|]. intros hash root.
  rewrite fmap_Some. setoid_rewrite Hst. split.
  - intros (data & (i & h & Hh & Hi & <- & <-) & ->). by exists i, h.
  - intros (i & h & Hh & Hi & <- & <-). exists (stored_header_build h). split; [by exists i, h|done].
Qed.

(** The best finalized header never goes back, and once the pallet is initialized it cannot
    be initialized again. *)
Theorem best_finalized_monotone (p p' : pallet) (best : HeaderId Hash) :
  rtc step p p' -> BestFinalized p = Some best ->
  exists best', BestFinalized p' = Some best' /\ header_number best <= header_number best' /\
    forall origin d,
      initialize p' origin d = Err BadOrigin \/
      initialize p' origin d = Err (ModuleError AlreadyInitialized).
Proof.
  clear Hkeep Hhash. intros Hrun. revert best. induction Hrun as [p|p p1 p2 Hstep Hrun IH]; intros best Hbest.
  - exists best. split_and!; [done|lia|]. intros origin d. unfold initialize.
    destruct (ensure_owner_or_root_cases (E := Error) p origin) as [-> | ->]; [right|by left].
    simpl. by rewrite Hbest.
  - assert (exists best1, BestFinalized p1 = Some best1 /\ header_number best <= header_number best1)
      as (best1 & Hb1 & Hle).
    { destruct Hstep as [h j info p' Hs|origin d p' Hs|origin o p' Hs|origin m p' Hs|].
      - apply submit_spec in Hs as (b & _ & q & _ & _ & Hb & Hlt & _ & _ & _ & _ & Hins & _).
        revert Hins. unfold insert_header. case_match; [done|]. intros [= <-]. simpl.
        eexists. split; [done|]. simpl. rewrite Hbest in Hb. injection Hb as <-. lia.
      - apply obind_Ok in Hs as ([] & _ & Hs).
        apply obind_Ok in Hs as ([] & Hb%ensure_Ok%bool_decide_eq_true & _). congruence.
      - apply obind_Ok in Hs as ([] & _ & [= <-]). exists best. split; [done|lia].
      - apply obind_Ok in Hs as ([] & _ & [= <-]). exists best. split; [done|lia].
      - exists best. split; [done|lia]. }
    destruct (IH best1 Hb1) as (best2 & Hb2 & Hle2 & Hinit). exists best2. split_and!; [done|lia|done].
Qed.

Definition verified (a : AuthoritySet AuthorityId) (h : Hdr) (j : GrandpaJustification) : Prop :=
  exists voters, voter_set_new (authorities a) = Some voters /\
    Justification.verify_justification check_message_signature (hdr_hash h, hdr_number h)
      (set_id a) voters j = Ok tt.

Definition accepts_requests (p : pallet) : Prop :=
  is_halted p = false /\ RequestCount p < MaxRequests.

Definition is_new (p : pallet) (h : Hdr) : Prop :=
  exists best, BestFinalized p = Some best /\ header_number best < hdr_number h.

(** Why a submission is refused: the condition that is violated, while all conditions that are
    checked before it hold. *)
Definition refusal (p : pallet) (h : Hdr) (j : GrandpaJustification) (e : DispatchError Error) : Prop :=
  let a := CurrentAuthoritySet p in
  match e with
  | ModuleError (BridgeModule HaltedError) => is_halted p = true
  | ModuleError TooManyRequests => is_halted p = false /\ MaxRequests <= RequestCount p
  | ModuleError NotInitialized => accepts_requests p /\ BestFinalized p = None
  | ModuleError OldHeader =>
      accepts_requests p /\
      exists best, BestFinalized p = Some best /\ hdr_number h <= header_number best
  | ModuleError InvalidAuthoritySet =>
      accepts_requests p /\ is_new p h /\ voter_set_new (authorities a) = None
  | ModuleError InvalidJustification =>
      accepts_requests p /\ is_new p h /\ is_Some (voter_set_new (authorities a)) /\ ~ verified a h j
  | ModuleError UnsupportedScheduledChange =>
      accepts_requests p /\ is_new p h /\ verified a h j /\
      (find_forced_change h <> None \/
       exists change, find_scheduled_change h = Some change /\ change_delay change <> 0)
  | ModuleError TooManyAuthoritiesInSet =>
      accepts_requests p /\ is_new p h /\ verified a h j /\ find_forced_change h = None /\
      exists change, find_scheduled_change h = Some change /\ change_delay change = 0 /\
        MAX_AUTHORITIES_COUNT < Z.of_nat (length (next_authorities change))
  | _ => False
  end.

Lemma submit_cases (p : pallet) (h : Hdr) (j : GrandpaJustification) :
  (forall l voters, voter_set_new l = Some voters -> voter_set_ok voters) ->
  (exists info p', submit_finality_proof p h j = Ok (info, p')) \/
  (exists e, submit_finality_proof p h j = Err e /\ refusal p h j e).
Proof.
  intros Hvs. unfold GrandpaPallet.submit_finality_proof, ensure_not_halted.
  destruct (is_halted p) eqn:Eh; simpl; [right; by eexists|].
  destruct (RequestCount p <? MaxRequests) eqn:Er; simpl;
    [|right; eexists; split; [done|simpl; split; [done|lia]]].
  assert (accepts_requests p) as Hacc by (split; [done|lia]).
  unfold check_obsolete. destruct (BestFinalized p) as [best|] eqn:Eb; simpl; [|right; by eexists].
  destruct (hdr_number h <=? header_number best) eqn:El; simpl.
  { right. eexists. split; [done|]. split; [done|]. exists best. split; [done|lia]. }
  assert (is_new p h) as Hnew by (exists best; split; [done|lia]).
  unfold GrandpaPallet.verify_justification.
  destruct (voter_set_new _) as [voters|] eqn:Ev; simpl; [|right; by eexists].
  destruct (Justification.verify_justification _ _ _ _ _) as [[]|e|] eqn:Ej; simpl.
  2: { right. eexists. split; [done|]. split_and!; [done..|rewrite Ev; by eexists|].
       intros (voters' & Hv' & Hj'). simplify_eq. congruence. }
  2: { exfalso. revert Ej. apply verify_with_callbacks_total; [by eapply Hvs|done]. }
  assert (verified (CurrentAuthoritySet p) h j) as Hver by (by exists voters).
  unfold try_enact_authority_change.
  case_bool_decide as Ef; simpl; [|right; eexists; split; [done|by split_and!; try left]].
  destruct (find_scheduled_change h) as [change|] eqn:Ec; simpl.
  2: { destruct (insert_header_total h (hdr_hash h)
         (put_request_count (wrapping_add u32_max (RequestCount p) 1) p)) as [p' ->].
       left. by eexists _, _. }
  destruct (change_delay change =? 0) eqn:Ed; simpl.
  2: { right. eexists. split; [done|]. split_and!; [done..|]. right. exists change. split; [done|lia]. }
  unfold stored_authority_set_try_new. destruct (Z.of_nat _ <=? MAX_AUTHORITIES_COUNT) eqn:Em; simpl.
  2: { right. eexists. split; [done|]. split_and!; [done..|]. exists change. split_and!; [done|lia..]. }
  match goal with |- context [insert_header h (hdr_hash h) ?q] =>
    destruct (insert_header_total h (hdr_hash h) q) as [p' ->] end.
  left. by eexists _, _.
Qed.

(** C32. A finality proof is accepted exactly when the pallet operates, the request limit leaves
    room, the header is new, its justification verifies under the current authority
    set, and its digest asks for nothing but an immediate and not too large change of
    authorities.  Then it is the new best header and is stored with its number and state
    root at the current position of the ring of hashes, whose old header is dropped; it
    counts as one request, enacts the change, and is free of charge only if it enacts a
    change and stays within the expected limits; nothing else changes.  Otherwise the
    first violated condition is reported. *)
Theorem submit_finality_proof_correct (p : pallet) (h : Hdr) (j : GrandpaJustification) :
  0 <= ImportedHashesPointer p < HeadersToKeep -> 0 <= RequestCount p -> MaxRequests <= u32_max ->
  (forall l voters, voter_set_new l = Some voters -> voter_set_ok voters) ->
  let a := CurrentAuthoritySet p in
  let position := ImportedHashesPointer p in
  match submit_finality_proof p h j with
  | Ok (info, p') =>
      is_halted p = false /\ RequestCount p < MaxRequests /\
      (exists best, BestFinalized p = Some best /\ header_number best < hdr_number h) /\
      verified a h j /\ handoff a h (CurrentAuthoritySet p') /\
      BestFinalized p' = Some (header_id h) /\ RequestCount p' = RequestCount p + 1 /\
      ImportedHeaders p' =
        (let stored := <[hdr_hash h := StoredHeader (hdr_number h) (hdr_state_root h)]>
                         (ImportedHeaders p) in
         match ImportedHashes p !! position with
         | Some old => delete old stored
         | None => stored
         end) /\
      ImportedHashes p' = <[position := hdr_hash h]> (ImportedHashes p) /\
      ImportedHashesPointer p' = (position + 1) mod HeadersToKeep /\
      InitialHash p' = InitialHash p /\
      PalletOwner p' = PalletOwner p /\ PalletOperatingMode p' = PalletOperatingMode p /\
      (pays_fee info = PaysNo <->
         is_Some (find_scheduled_change h) /\
         fits_limits (submit_finality_proof_info_from_args header_encoded_size
                        justification_encoded_size h j) = true)
  | Err e => refusal p h j e
  | Panic => False
  end.
Proof.
  intros Hptr Hreq0 Hmax Hvs a position.
  destruct (submit_cases p h j Hvs) as [(info & p' & Es)|(e & -> & He)]; [|done].
  rewrite Es.
  destruct (submit_spec _ _ _ _ _ Es) as
    (best & voters & p1 & Hhalt & Hreq & Hbest & Hlt & Hvoters & Hver & Hhand & Hp1 & Hins & Hfee).
  assert (0 <= ImportedHashesPointer p1 < HeadersToKeep) as Hptr1 by (rewrite Hp1; done).
  destruct (insert_header_ring h p1 p' Hptr1 Hins) as (Hring & Hb' & Ha & Hi & Hr & Ho & Hm).
  assert (ring_of p1 = ring_of p) as Hr1 by (by rewrite Hp1). rewrite Hr1 in Hring.
  unfold ring_of, ring_insert in Hring. injection Hring as Hhashes Hpos Hheaders.
  split_and!; try done.
  - by exists best.
  - by exists voters.
  - by rewrite Ha.
  - rewrite Hr, Hp1. simpl. rewrite wrapping_add_small by lia. done.
  - rewrite Hi, Hp1. done.
  - rewrite Ho, Hp1. done.
  - rewrite Hm, Hp1. done.
  - rewrite Hfee. destruct (fits_limits _); case_bool_decide; simpl; naive_solver.
Qed.

(** A run with the numbers of imported headers and of started blocks. *)
Inductive counted_run (p : pallet) : nat -> nat -> pallet -> Prop :=
| RunNil : counted_run p 0 0 p
| RunSubmit imports blocks p1 h j info p2 :
    counted_run p imports blocks p1 -> submit_finality_proof p1 h j = Ok (info, p2) ->
    counted_run p (S imports) blocks p2
| RunBlock imports blocks p1 :
    counted_run p imports blocks p1 -> counted_run p imports (S blocks) (on_initialize p1)
| RunOther imports blocks p1 p2 :
    counted_run p imports blocks p1 -> step p1 p2 -> RequestCount p2 = RequestCount p1 ->
    counted_run p imports blocks p2.

(** The request limit bounds the work: in any run, whatever the calls, no more headers are
    imported than [MaxRequests] plus the number of blocks started; and the request
    count never exceeds the limit. *)
Theorem imports_are_rate_limited (p p' : pallet) (imports blocks : nat) :
  0 <= RequestCount p <= MaxRequests -> MaxRequests <= u32_max ->
  counted_run p imports blocks p' ->
  0 <= RequestCount p' <= MaxRequests /\
  RequestCount p + Z.of_nat imports <= RequestCount p' + Z.of_nat blocks /\
  Z.of_nat imports <= MaxRequests + Z.of_nat blocks.
Proof.
  clear Hkeep Hhash. intros Hp Hmax Hrun. enough (0 <= RequestCount p' <= MaxRequests /\
    RequestCount p + Z.of_nat imports <= RequestCount p' + Z.of_nat blocks) by lia.
  induction Hrun as [|imports blocks p1 h j info p2 _ IH Hs|imports blocks p1 _ IH|
    imports blocks p1 p2 _ IH _ Heq]; [lia| | |lia].
  - apply submit_spec in Hs as (best & voters & q & _ & Hreq & _ & _ & _ & _ & _ & Hq & Hins & _).
    assert (RequestCount p2 = RequestCount q) as ->
      by (revert Hins; unfold insert_header; case_match; [done|]; by intros [= <-]).
    rewrite Hq. simpl. rewrite wrapping_add_small by lia. lia.
  - unfold on_initialize. simpl. unfold saturating_sub. lia.
Qed.

(** The pre-dispatch check agrees with the call: it passes only finality proofs for headers
    above the best one, every proof it refuses would fail, and a call that succeeds was
    not successful before and is afterwards. *)
Theorem obsolete_check_agrees (p : pallet) (h : Hdr) (j : GrandpaJustification) :
  let call := submit_finality_proof_call h j in
  let check := check_obsolete_submit_finality_proof header_encoded_size
                 justification_encoded_size p call in
  (check = Valid <->
     exists best, BestFinalized p = Some best /\ header_number best < hdr_number h) /\
  (forall info p', submit_finality_proof p h j = Ok (info, p') ->
     check = Valid /\ was_successful p (hdr_number h) = false /\
     was_successful p' (hdr_number h) = true).
Proof.
  clear Hkeep Hhash. intros call check.
  assert (check = Valid <->
    exists best, BestFinalized p = Some best /\ header_number best < hdr_number h) as Hcheck.
  { unfold check, check_obsolete_submit_finality_proof, check_obsolete. simpl.
    destruct (BestFinalized p) as [best|]; simpl; [|naive_solver].
    destruct (_ <=? header_number best) eqn:E; [|naive_solver lia]. split; [done|].
    intros (b & [= <-] & Hlt). lia. }
  split; [done|]. intros info p' Hs.
  apply submit_spec in Hs as (best & voters & q & _ & _ & Hbest & Hlt & _ & _ & _ & _ & Hins & _).
  split_and!; [apply Hcheck; by exists best| |].
  - unfold was_successful. rewrite Hbest. lia.
  - revert Hins. unfold insert_header. case_match; [done|]. intros [= <-].
    unfold was_successful. simpl. lia.
Qed.

(** The two readers of GRANDPA digests agree on the change they find, but the reader of the
    relayer library ([find_authorities_change]) only looks at the first GRANDPA log: it
    misses the change that the pallet enacts exactly when another GRANDPA log precedes
    it. *)
Theorem log_readers_compared (h : Hdr) (change : ScheduledChange AuthorityId) :
  find_scheduled_change h = Some change ->
  (find_authorities_change (hdr_digest h) = Some change \/
   find_authorities_change (hdr_digest h) = None) /\
  (find_authorities_change (hdr_digest h) = None <->
   exists l1 item log l2,
     hdr_digest h = l1 ++ item :: l2 /\ Forall (fun x => grandpa_log x = None) l1 /\
     grandpa_log item = Some log /\ scheduled_change_of log = None).
Proof.
  unfold find_scheduled_change, find_authorities_change. generalize (hdr_digest h) as d. intros d Hc.
  assert (convert_first grandpa_log d ≫= scheduled_change_of = Some change \/
    exists log, convert_first grandpa_log d = Some log /\ scheduled_change_of log = None) as Hor.
  { induction d as [|item l IH]; simpl in *; [done|].
    destruct (grandpa_log item) as [log|] eqn:El; simpl in *; [|by apply IH].
    destruct (scheduled_change_of log) as [c|] eqn:Es; simpl in *; [by left|right; by exists log]. }
  split.
  - destruct Hor as [?|(log & -> & Hn)]; [by left|by right].
  - destruct Hor as [Hs|(log & Hl & Hn)].
    + rewrite Hs. split; [done|]. intros (l1 & item & log & l2 & Hd & Hall & Hi & Hn).
      assert (convert_first grandpa_log d = Some log) as Hf
        by (apply convert_first_Some; by exists l1, item, l2).
      rewrite Hf in Hs. simpl in Hs. congruence.
    + rewrite Hl. simpl. split; [intros _|done].
      apply convert_first_Some in Hl as (l1 & item & l2 & Hd & Hi & Hall).
      by exists l1, item, log, l2.
Qed.
End History.

(** ** A small bridge *)
Module SmallBridge.

Record hdr := Hdr { h_number : Z; h_id : Z; h_parent : Z * Z; h_root : Z * Z; h_logs : list (ConsensusLog Z) }.

(** A hash is the number and an identifier. *)
#[global] Instance hdr_header : Header hdr (Z * Z) := {|
  hdr_number := h_number;
  hdr_hash h := (h_number h, h_id h);
  hdr_parent_hash := h_parent;
  hdr_state_root := h_root;
|}.

#[global] Instance hdr_grandpa : GrandpaHeader hdr (ConsensusLog Z) Z := {|
  hdr_digest := h_logs;
  grandpa_log l := Some l;
|}.

#[global] Instance config : GrandpaConfig := {|
  MaxRequests := 2;
  HeadersToKeep := 2;
  MAX_AUTHORITIES_COUNT := 8;
  REASONABLE_HEADERS_IN_JUSTIFICATON_ANCESTRY := 8;
  MAX_HEADER_SIZE := 100;
  AVERAGE_HEADER_SIZE_IN_JUSTIFICATION := 50;
  number_len := 4;
  hash_len := 32;
  authority_id_len := 32;
  authority_len := 40;
  submit_finality_proof_weight n m := from_parts (1000 + n + m) 5000;
|}.

Definition check (p : Precommit (Z * Z)) (id sig round set_id : Z) : bool := sig =? id + round + set_id.

Definition voters_new (l : list (Z * Z)) : option (VoterSet Z) :=
  if decide (l = [(1, 1); (2, 1); (3, 1); (4, 1)]) then Some SmallSet.voters else None.

Lemma voters_new_ok (l : list (Z * Z)) (v : VoterSet Z) : voters_new l = Some v -> voter_set_ok v.
Proof.
  unfold voters_new. destruct (decide _); [|done]. intros [= <-]. apply SmallSet.voters_ok.
Qed.

Definition four : list (Z * Z) := [(1, 1); (2, 1); (3, 1); (4, 1)].
Definition h0 : hdr := Hdr 1 0 (0, 0) (7, 1) [].
Definition h1 : hdr := Hdr 3 0 (2, 0) (7, 3) [ScheduledChangeLog (Scheduled four 0)].

Definition vote (id : Z) : SignedPrecommit (Z * Z) Z Z := SignedPrecommit_ (Precommit_ (3, 0) 3) (id + 5 + 9) id.
Definition j1 : GrandpaJustification (Z * Z) Z Z hdr :=
  Grandpa 5 (Commit_ (3, 0) 3 [vote 1; vote 2; vote 3]) [].

Definition genesis : GenesisConfig (AccountId := Z) :=
  Genesis (Some 1) (Some (InitData h0 four 9 Normal)).

Definition p0 : pallet Z (Z * Z) Z :=
  Pallet 0 (Some (1, 0)) (Some (HeaderId_ 1 (1, 0))) {[0 := (1, 0)]} 1
    {[(1, 0) := StoredHeader 1 (7, 1)]} (Authorities four 9) (Some 1) Normal.

Lemma headers_genesis : genesis_build genesis empty_pallet = Some p0.
Proof. vm_compute. reflexivity. Qed.

Abbreviation submit := (submit_finality_proof (AccountId := Z) check voters_new
  (fun _ => 60) (fun _ => 200)).

Definition p1 : pallet Z (Z * Z) Z :=
  Pallet 1 (Some (1, 0)) (Some (HeaderId_ 3 (3, 0))) {[0 := (1, 0); 1 := (3, 0)]} 0
    {[(1, 0) := StoredHeader 1 (7, 1); (3, 0) := StoredHeader 3 (7, 3)]} (Authorities four 10)
    (Some 1) Normal.

Lemma submit_h1 : exists info, submit p0 h1 j1 = Ok (info, p1) /\ pays_fee info = PaysNo.
Proof. eexists. split; reflexivity. Qed.

Lemma hash_number (h h' : hdr) : hdr_hash h = hdr_hash h' -> hdr_number h = hdr_number h'.
Proof. simpl. congruence. Qed.

Lemma HeadersToKeep_ok : 0 < HeadersToKeep <= u32_max.
Proof. simpl. word. Qed.

Abbreviation run := (rtc (step (AccountId := Z) check voters_new (fun _ => 60) (fun _ => 200))).

Lemma headers_reachable : run p0 p1.
Proof. destruct submit_h1 as (info & Hs & _). by eapply rtc_once, StepSubmit. Qed.
End SmallBridge.

Lemma light_client_history_witness :
  exists a0 h0 (newest : SmallBridge.hdr) older,
    finality_chain SmallBridge.check SmallBridge.voters_new a0 h0 (newest :: older)
      (CurrentAuthoritySet SmallBridge.p1) /\
    HeaderId_ 3 (3, 0) = header_id newest.
Proof.
  destruct (light_client_history SmallBridge.check SmallBridge.voters_new (fun _ => 60)
    (fun _ => 200) SmallBridge.HeadersToKeep_ok SmallBridge.hash_number SmallBridge.genesis SmallBridge.p0
    SmallBridge.p1 SmallBridge.headers_genesis SmallBridge.headers_reachable)
    as (a0 & h0 & newest & older & Hc & Hb & _).
  exists a0, h0, newest, older. split; [exact Hc|exact Hb].
Defined.

Lemma best_finalized_monotone_witness :
  exists best', BestFinalized SmallBridge.p1 = Some best' /\ 1 <= header_number best'.
Proof.
  destruct (best_finalized_monotone SmallBridge.check SmallBridge.voters_new (fun _ => 60)
    (fun _ => 200) SmallBridge.p0 SmallBridge.p1 (HeaderId_ 1 (1, 0)) SmallBridge.headers_reachable
    eq_refl) as (best' & Hb & Hle & _).
  exists best'. split; [exact Hb|exact Hle].
Defined.

Lemma submit_finality_proof_correct_witness :
  exists info, SmallBridge.submit SmallBridge.p0 SmallBridge.h1 SmallBridge.j1
    = Ok (info, SmallBridge.p1) /\
  handoff (CurrentAuthoritySet SmallBridge.p0) SmallBridge.h1 (CurrentAuthoritySet SmallBridge.p1).
Proof.
  pose proof (submit_finality_proof_correct SmallBridge.check SmallBridge.voters_new (fun _ => 60)
    (fun _ => 200) SmallBridge.HeadersToKeep_ok SmallBridge.p0 SmallBridge.h1 SmallBridge.j1
    ltac:(simpl; lia) ltac:(simpl; lia) ltac:(simpl; word) SmallBridge.voters_new_ok) as H.
  destruct SmallBridge.submit_h1 as (info & Hs & _). rewrite Hs in H.
  exists info. split; [exact Hs|]. destruct H as (_ & _ & _ & _ & Hh & _). exact Hh.
Defined.

Lemma imports_are_rate_limited_witness : Z.of_nat 1 <= MaxRequests + Z.of_nat 0.
Proof.
  destruct SmallBridge.submit_h1 as (info & Hs & _).
  apply (imports_are_rate_limited SmallBridge.check SmallBridge.voters_new (fun _ => 60)
    (fun _ => 200) SmallBridge.p0 SmallBridge.p1 1 0).
  - simpl. lia.
  - simpl. word.
  - eapply RunSubmit; [apply RunNil|exact Hs].
Defined.

Lemma obsolete_check_agrees_witness :
  was_successful SmallBridge.p1 (hdr_number SmallBridge.h1) = true.
Proof.
  destruct SmallBridge.submit_h1 as (info & Hs & _).
  destruct (obsolete_check_agrees SmallBridge.check SmallBridge.voters_new (fun _ => 60)
    (fun _ => 200) SmallBridge.p0 SmallBridge.h1 SmallBridge.j1) as [_ Hok].
  destruct (Hok _ _ Hs) as (_ & _ & Hw). exact Hw.
Defined.

Lemma log_readers_compared_witness :
  let c := Scheduled SmallBridge.four 0 in
  let h := SmallBridge.Hdr 3 0 (2, 0) (7, 3) [PauseLog 1; ScheduledChangeLog c] in
  find_scheduled_change h = Some c /\
  find_authorities_change (hdr_digest h) = None.
Proof.
  intros c h. split; [reflexivity|].
  refine (proj2 (proj2 (log_readers_compared h c eq_refl)) _).
  exists [], (PauseLog 1), (PauseLog 1), [ScheduledChangeLog c].
  split; [reflexivity|]. split; [constructor|]. split; reflexivity.
Defined.
