(* ===== verification/ParachainsPallet.v ===== *)
(** * modules/parachains/src: the parachain heads pallet

    lib.rs (import of parachain heads that are proved against a finalized relay chain
    header), call_ext.rs (checks that run before dispatch), weights_ext.rs, and the
    head data builders of primitives/parachains.  The relay chain headers are those of
    the GRANDPA pallet, and the proofs are read by the checker of [StorageProof].
    Parameters: the trie, the storage key of a head, the codec, the hash of a head, and
    the benchmarked weights. *)

From S2P Require Import Prelude RingBuffer Substrate RuntimePrimitives HeaderChain StorageProof.
From S2P Require Import Justification GrandpaPallet.
From stdpp Require Import base numbers list gmap relations sets.
Local Open Scope Z_scope.

(** ** primitives/parachains *)

Record BestParaHeadHash (Hash : Type) := BestHead {
  at_relay_block_number : Z;
  head_hash : Hash;
}.
Arguments BestHead {Hash} _ _.
Arguments at_relay_block_number {Hash} _.
Arguments head_hash {Hash} _.

#[export] Instance BestParaHeadHash_eq_dec {Hash : Type} `{EqDecision Hash} :
  EqDecision (BestParaHeadHash Hash).
Proof. solve_decision. Defined.

Record ParaInfo (Hash : Type) := ParaInfo_ {
  best_head_hash : BestParaHeadHash Hash;
  next_imported_hash_position : Z;
}.
Arguments ParaInfo_ {Hash} _ _.
Arguments best_head_hash {Hash} _.
Arguments next_imported_hash_position {Hash} _.

(** A parachain type: its identifier and the codec of its header and of the header data
    that is stored. *)
Record Parachain (Bytes Hash : Type) := Parachain_ {
  PARACHAIN_ID : Z;
  decode_header : Bytes -> option (Z * Hash);
  encode_stored : StoredHeaderData Hash -> Bytes;
  decode_stored : Bytes -> option (StoredHeaderData Hash);
}.
Arguments Parachain_ {Bytes Hash} _ _ _ _.
Arguments PARACHAIN_ID {Bytes Hash} _.
Arguments decode_header {Bytes Hash} _ _.
Arguments encode_stored {Bytes Hash} _ _.
Arguments decode_stored {Bytes Hash} _ _.

Class ParaStoredHeaderDataBuilder (Bytes : Type) := {
  supported_parachains : Z;
  try_build : Z -> Bytes -> option Bytes;
}.

Section Builders.
Context {Bytes Hash : Type}.

Definition single_try_build (c : Parachain Bytes Hash) (para_id : Z) (para_head : Bytes) :
  option Bytes :=
  if para_id =? PARACHAIN_ID c then
    '(number, state_root) ← decode_header c para_head;
    Some (encode_stored c (StoredHeader number state_root))
  else None.

Definition SingleParaStoredHeaderDataBuilder (c : Parachain Bytes Hash) :
  ParaStoredHeaderDataBuilder Bytes := {|
  supported_parachains := 1;
  try_build := single_try_build c;
|}.

Fixpoint tuple_try_build (cs : list (Parachain Bytes Hash)) (para_id : Z) (para_head : Bytes) :
  option Bytes :=
  match cs with
  | [] => None
  | c :: cs =>
      match single_try_build c para_id para_head with
      | Some data => Some data
      | None => tuple_try_build cs para_id para_head
      end
  end.

(** The implementation for tuples of parachains. *)
Definition TupleParaStoredHeaderDataBuilder (cs : list (Parachain Bytes Hash)) :
  ParaStoredHeaderDataBuilder Bytes := {|
  supported_parachains := fold_left (fun result _ => wrapping_add u32_max result 1) cs 0;
  try_build := tuple_try_build cs;
|}.
End Builders.

(** ** weights_ext.rs *)

Definition DEFAULT_PARACHAIN_HEAD_SIZE : Z := 384.
Definition EXTRA_STORAGE_PROOF_SIZE : Z := 1024.

(** The constants of [Config], [frame_system]'s database weights and the benchmarked
    weights. *)
Class ParachainsConfig `{WeightOps} := {
  HeadsToKeep : Z;
  MaxParaHeadDataSize : Z;
  DbWeight : RuntimeDbWeight;
  submit_parachain_heads_with_n_parachains : Z -> Weight;
  submit_parachain_heads_with_1kb_proof : Weight;
  submit_parachain_heads_with_16kb_proof : Weight;
  expected_extra_storage_proof_size : Z;
}.

Section Weights.
Context `{WeightOps} `{!ParachainsConfig}.

Definition parachain_head_storage_write_weight (db_weight : RuntimeDbWeight) : Weight :=
  writes db_weight 2.

Definition parachain_head_pruning_weight (db_weight : RuntimeDbWeight) : Weight :=
  writes db_weight 1.

Definition storage_proof_size_overhead (extra_proof_bytes : Z) : Weight :=
  let extra_byte_weight :=
    weight_div
      (weight_sub submit_parachain_heads_with_16kb_proof submit_parachain_heads_with_1kb_proof)
      (15 * 1024) in
  weight_saturating_mul extra_byte_weight extra_proof_bytes.

Definition submit_parachain_heads_weight (db_weight : RuntimeDbWeight) (proof_size : Z)
  (parachains_count : Z) : Weight :=
  let base_weight := submit_parachain_heads_with_n_parachains parachains_count in
  let expected_proof_size :=
    saturating_add u32_max
      (saturating_mul u32_max parachains_count DEFAULT_PARACHAIN_HEAD_SIZE)
      expected_extra_storage_proof_size in
  let proof_size_overhead :=
    storage_proof_size_overhead (saturating_sub proof_size expected_proof_size) in
  let pruning_weight :=
    weight_saturating_mul (parachain_head_pruning_weight db_weight) parachains_count in
  weight_saturating_add (weight_saturating_add base_weight proof_size_overhead) pruning_weight.
End Weights.

(** ** The pallet *)

Inductive Event (Hash : Type) :=
| UntrackedParachainRejected (parachain : Z)
| MissingParachainHead (parachain : Z)
| IncorrectParachainHeadHash (parachain : Z) (parachain_head_hash actual_parachain_head_hash : Hash)
| RejectedObsoleteParachainHead (parachain : Z) (parachain_head_hash : Hash)
| RejectedLargeParachainHead (parachain : Z) (parachain_head_hash : Hash) (parachain_head_size : Z)
| UpdatedParachainHead (parachain : Z) (parachain_head_hash : Hash).
Arguments UntrackedParachainRejected {Hash} _.
Arguments MissingParachainHead {Hash} _.
Arguments IncorrectParachainHeadHash {Hash} _ _ _.
Arguments RejectedObsoleteParachainHead {Hash} _ _.
Arguments RejectedLargeParachainHead {Hash} _ _ _.
Arguments UpdatedParachainHead {Hash} _ _.

Inductive Error :=
| UnknownRelayChainBlock
| InvalidRelayChainBlockNumber
| HeaderChain_ (e : HeaderChainError StorageProofError)
| UnknownParaHead
| StorageRootMismatch_
| FailedToExtractStateRoot
| BridgeModule (e : OwnedBridgeModuleError).

Record SubmitParachainHeadsInfo (Hash : Type) := HeadsInfo {
  hi_at_relay_block_number : Z;
  hi_para_id : Z;
  hi_para_head_hash : Hash;
}.
Arguments HeadsInfo {Hash} _ _ _.
Arguments hi_at_relay_block_number {Hash} _.
Arguments hi_para_id {Hash} _.
Arguments hi_para_head_hash {Hash} _.

Record pallet (AccountId Hash Bytes : Type) `{Countable Hash} := Pallet {
  PalletOwner : option AccountId;
  PalletOperatingMode : BasicOperatingMode;
  ParasInfo : gmap Z (ParaInfo Hash);
  ImportedParaHeads : gmap (Z * Hash) Bytes;
  ImportedParaHashes : gmap (Z * Z) Hash;
  events : list (Event Hash);
}.
Arguments Pallet {AccountId Hash Bytes _ _} _ _ _ _ _ _.
Arguments PalletOwner {AccountId Hash Bytes _ _} _.
Arguments PalletOperatingMode {AccountId Hash Bytes _ _} _.
Arguments ParasInfo {AccountId Hash Bytes _ _} _.
Arguments ImportedParaHeads {AccountId Hash Bytes _ _} _.
Arguments ImportedParaHashes {AccountId Hash Bytes _ _} _.
Arguments events {AccountId Hash Bytes _ _} _.

Section Parachains.
Context `{WeightOps} `{!ParachainsConfig}.
Context {AccountId Hash AuthorityId Node Key Bytes : Type}.
Context `{EqDecision AccountId} `{Countable Hash} `{Countable AuthorityId}.
Context `{Trie Node Hash Key Bytes} `{!ParaStoredHeaderDataBuilder Bytes}.
Abbreviation pallet := (pallet AccountId Hash Bytes).
Abbreviation Event := (Event Hash).
Abbreviation relay_pallet := (GrandpaPallet.pallet AccountId Hash AuthorityId).
Abbreviation Checker := (StorageProofChecker Node Hash).

(** [parachain_head_storage_key_at_source], [ParaHead::decode], [ParaHead::hash], the
    encoded size of head data and the length of a trie node. *)
Variables (parachain_head_storage_key : Z -> Key) (decode_para_head : Bytes -> option Bytes)
  (para_head_hash : Bytes -> Hash) (encoded_size : Bytes -> Z) (node_len : Node -> Z).

Definition empty_pallet : pallet := Pallet None Normal ∅ ∅ ∅ [].

Definition put_mode (m : BasicOperatingMode) (p : pallet) : pallet :=
  Pallet (PalletOwner p) m (ParasInfo p) (ImportedParaHeads p) (ImportedParaHashes p) (events p).

Definition put_paras_info (i : gmap Z (ParaInfo Hash)) (p : pallet) : pallet :=
  Pallet (PalletOwner p) (PalletOperatingMode p) i (ImportedParaHeads p) (ImportedParaHashes p)
    (events p).

Definition deposit_event (e : Event) (p : pallet) : pallet :=
  Pallet (PalletOwner p) (PalletOperatingMode p) (ParasInfo p) (ImportedParaHeads p)
    (ImportedParaHashes p) (events p ++ [e]).

#[global] Instance parachains_module : OwnedBridgeModule pallet AccountId BasicOperatingMode := {|
  owner_storage := PalletOwner;
  put_owner o p :=
    Pallet o (PalletOperatingMode p) (ParasInfo p) (ImportedParaHeads p) (ImportedParaHashes p)
      (events p);
  operating_mode_storage := PalletOperatingMode;
  put_operating_mode := put_mode;
|}.

#[global] Instance parachains_module_laws :
  OwnedBridgeModuleLaws pallet AccountId BasicOperatingMode.
Proof. by split. Qed.

(** *** call_ext.rs *)

Definition is_obsolete (p : pallet) (update : SubmitParachainHeadsInfo Hash) : bool :=
  match ParasInfo p !! hi_para_id update with
  | None => false
  | Some stored_best_head =>
      if hi_at_relay_block_number update <=?
         at_relay_block_number (best_head_hash stored_best_head) then true
      else bool_decide (head_hash (best_head_hash stored_best_head) = hi_para_head_hash update)
  end.

Definition was_successful (p : pallet) (update : SubmitParachainHeadsInfo Hash) : bool :=
  match ParasInfo p !! hi_para_id update with
  | Some stored_best_head =>
      bool_decide (best_head_hash stored_best_head =
        BestHead (hi_at_relay_block_number update) (hi_para_head_hash update))
  | None => false
  end.

(** A runtime call, as far as this pallet looks at it. *)
Inductive Call :=
| submit_parachain_heads_call (at_relay_block : Z * Hash) (parachains : list (Z * Hash))
    (parachain_heads_proof : list Node)
| other_call.

Definition one_entry_submit_parachain_heads_info (c : Call) :
  option (SubmitParachainHeadsInfo Hash) :=
  match c with
  | submit_parachain_heads_call at_relay_block [(para_id, para_head_hash)] _ =>
      Some (HeadsInfo at_relay_block.1 para_id para_head_hash)
  | _ => None
  end.

Definition submit_parachain_heads_info_for (c : Call) (para_id : Z) :
  option (SubmitParachainHeadsInfo Hash) :=
  update ← one_entry_submit_parachain_heads_info c;
  if hi_para_id update =? para_id then Some update else None.

Definition check_obsolete_submit_parachain_heads (p : pallet) (c : Call) : Validity :=
  match one_entry_submit_parachain_heads_info c with
  | None => Valid
  | Some update => if is_obsolete p update then Stale else Valid
  end.

(** *** Reading the stored heads *)

Definition best_parachain_info (p : pallet) (parachain : Z) : option (ParaInfo Hash) :=
  ParasInfo p !! parachain.

Definition parachain_head (p : pallet) (parachain : Z) (hash : Hash) : option Bytes :=
  ImportedParaHeads p !! (parachain, hash).

Definition best_parachain_head (p : pallet) (parachain : Z) : option Bytes :=
  info ← ParasInfo p !! parachain;
  ImportedParaHeads p !! (parachain, head_hash (best_head_hash info)).

Definition best_parachain_head_hash (p : pallet) (parachain : Z) : option Hash :=
  info ← ParasInfo p !! parachain;
  Some (head_hash (best_head_hash info)).

(** [None] is a codec error. *)
Definition best_parachain_head_id (p : pallet) (c : Parachain Bytes Hash) :
  option (option (HeaderId Hash)) :=
  let parachain := PARACHAIN_ID c in
  match best_parachain_head_hash p parachain with
  | None => Some None
  | Some best_head_hash =>
      match parachain_head p parachain best_head_hash with
      | None => Some None
      | Some encoded_head =>
          data ← decode_stored c encoded_head;
          Some (Some (HeaderId_ (sh_number data) best_head_hash))
      end
  end.

(** [ParachainHeaders]: the heads of one parachain as a header chain. *)
Definition parachain_headers (c : Parachain Bytes Hash) : HeaderChain pallet Hash := {|
  finalized_header_state_root p hash :=
    head ← parachain_head p (PARACHAIN_ID c) hash;
    h ← decode_stored c head;
    Some (sh_state_root h);
|}.

(** *** Import of parachain heads *)

(** [<ParaHeadsProof as Size>::size]. *)
Definition para_heads_proof_size (proof : list Node) : Z :=
  let total := fold_left (fun sum node => saturating_add u64_max sum (node_len node)) proof 0 in
  if total <=? u32_max then total else u32_max.

Definition read_parachain_head (storage : Checker) (parachain : Z) :
  outcome StorageProofError (option Bytes) * Checker :=
  let parachain_head_key := parachain_head_storage_key parachain in
  read_and_decode_value decode_para_head storage parachain_head_key.

(** [BoundedStorageValue::try_from_inner]; the error holds the size of the value. *)
Definition try_from_inner (value : Bytes) : outcome Z Bytes :=
  let value_size := encoded_size value in
  let maximal_size := MaxParaHeadDataSize in
  if maximal_size <? value_size then Err value_size else Ok value.

Record UpdateParachainHeadArtifacts := Artifacts {
  best_head : ParaInfo Hash;
  prune_happened : bool;
}.

(** The events stay when the update is refused.  A zero [HeadsToKeep] is the divisor of
    a remainder. *)
Definition update_parachain_head {E : Type} (p : pallet) (parachain : Z)
  (stored_best_head : option (ParaInfo Hash)) (new_at_relay_block_number : Z)
  (new_head_data : Bytes) (new_head_hash : Hash) :
  outcome E (option UpdateParachainHeadArtifacts * pallet) :=
  let update := HeadsInfo new_at_relay_block_number parachain new_head_hash in
  if is_obsolete p update then
    Ok (None, deposit_event (RejectedObsoleteParachainHead parachain new_head_hash) p)
  else
    match try_from_inner new_head_data with
    | Err value_size =>
        Ok (None, deposit_event
          (RejectedLargeParachainHead parachain new_head_hash (value_size mod (u32_max + 1))) p)
    | Panic => Panic
    | Ok updated_head_data =>
        let position := default 0 (next_imported_hash_position <$> stored_best_head) in
        let head_hash_to_prune := ImportedParaHashes p !! (parachain, position) in
        if HeadsToKeep =? 0 then Panic
        else
          let updated_best_para_head :=
            ParaInfo_ (BestHead new_at_relay_block_number new_head_hash)
              (wrapping_add u32_max position 1 mod HeadsToKeep) in
          let hashes := <[(parachain, position) := new_head_hash]> (ImportedParaHashes p) in
          let heads := <[(parachain, new_head_hash) := updated_head_data]> (ImportedParaHeads p) in
          let prune_happened := bool_decide (is_Some head_hash_to_prune) in
          let heads :=
            match head_hash_to_prune with
            | Some head_hash_to_prune => delete (parachain, head_hash_to_prune) heads
            | None => heads
            end in
          Ok (Some (Artifacts updated_best_para_head prune_happened),
              deposit_event (UpdatedParachainHead parachain new_head_hash)
                (Pallet (PalletOwner p) (PalletOperatingMode p) (ParasInfo p) heads hashes (events p)))
    end.

(** One turn of the loop over [parachains]; [weight] is the weight that is left after
    the refunds. *)
Definition submit_head {E : Type} (relay_block_number : Z) (storage : Checker) (p : pallet)
  (weight : Weight) (entry : Z * Hash) : outcome E (Checker * pallet * Weight) :=
  let (parachain, parachain_head_hash) := entry in
  let (head, storage) := read_parachain_head storage parachain in
  match head with
  | Ok (Some parachain_head) =>
      let actual_parachain_head_hash := para_head_hash parachain_head in
      if bool_decide (parachain_head_hash <> actual_parachain_head_hash) then
        Ok (storage, deposit_event (IncorrectParachainHeadHash parachain parachain_head_hash
              actual_parachain_head_hash) p, weight)
      else
        match try_build parachain parachain_head with
        | None => Ok (storage, deposit_event (UntrackedParachainRejected parachain) p, weight)
        | Some parachain_head_data =>
            let? (artifacts, p) :=
              update_parachain_head p parachain (ParasInfo p !! parachain) relay_block_number
                parachain_head_data parachain_head_hash in
            let p :=
              match artifacts with
              | Some a => put_paras_info (<[parachain := best_head a]> (ParasInfo p)) p
              | None => p
              end in
            let is_update_happened := bool_decide (is_Some artifacts) in
            let weight :=
              if negb is_update_happened then
                weight_saturating_sub weight (parachain_head_storage_write_weight DbWeight)
              else weight in
            let is_prune_happened := default false (prune_happened <$> artifacts) in
            let weight :=
              if negb is_prune_happened then
                weight_saturating_sub weight (parachain_head_pruning_weight DbWeight)
              else weight in
            Ok (storage, p, weight)
        end
  | Ok None => Ok (storage, deposit_event (MissingParachainHead parachain) p, weight)
  | Err _ => Ok (storage, deposit_event (MissingParachainHead parachain) p, weight)
  | Panic => Panic
  end.

Fixpoint submit_heads {E : Type} (relay_block_number : Z) (storage : Checker) (p : pallet)
  (weight : Weight) (parachains : list (Z * Hash)) : outcome E (Checker * pallet * Weight) :=
  match parachains with
  | [] => Ok (storage, p, weight)
  | entry :: parachains =>
      let? (storage, p, weight) := submit_head relay_block_number storage p weight entry in
      submit_heads relay_block_number storage p weight parachains
  end.

(** The weight is [Copy] and the closure is a [move] closure: the refunds are made on the
    closure's own copy, which is dropped with it. *)
Definition submit_parachain_heads (g : relay_pallet) (p : pallet) (at_relay_block : Z * Hash)
  (parachains : list (Z * Hash)) (parachain_heads_proof : list Node) :
  outcome (DispatchError Error) (PostDispatchInfo * pallet) :=
  check? map_err ModuleError (map_err BridgeModule (ensure_not_halted p)) in
  let (relay_block_number, relay_block_hash) := at_relay_block in
  let? relay_block :=
    ok_or (ImportedHeaders g !! relay_block_hash) (ModuleError UnknownRelayChainBlock) in
  check? ensure (sh_number relay_block =? relay_block_number)
    (ModuleError InvalidRelayChainBlockNumber) in
  let actual_weight :=
    submit_parachain_heads_weight DbWeight (para_heads_proof_size parachain_heads_proof)
      (Z.of_nat (length parachains) mod (u32_max + 1)) in
  let closure (storage : Checker) : outcome (HeaderChainError StorageProofError) pallet :=
    let? (storage, p, _) := submit_heads relay_block_number storage p actual_weight parachains in
    check? map_err StorageProof (ensure_no_unused_nodes storage) in
    Ok p in
  let? p :=
    map_err (fun e => ModuleError (HeaderChain_ e))
      (let? r := parse_finalized_storage_proof checker_new g relay_block_hash
                   parachain_heads_proof closure in r) in
  Ok ({| actual_weight := Some actual_weight; pays_fee := PaysYes |}, p).

(** *** Genesis and storage bounds *)

Record GenesisConfig := Genesis {
  genesis_operating_mode : BasicOperatingMode;
  genesis_owner : option AccountId;
}.

Definition genesis_build (c : GenesisConfig) (p : pallet) : pallet :=
  let p := put_mode (genesis_operating_mode c) p in
  match genesis_owner c with
  | Some owner => put_owner (Some owner) p
  | None => p
  end.

Definition MaybeMaxParachains : option Z := Some supported_parachains.

Definition MaybeMaxTotalParachainHashes : option Z :=
  Some (saturating_mul u32_max supported_parachains HeadsToKeep).
End Parachains.
Arguments Call Hash Node : clear implicits.

(** ** Histories of imported heads *)

Record imported (Hash Bytes : Type) := Imported {
  im_relay : Z;
  im_hash : Hash;
  im_data : Bytes;
}.
Arguments Imported {Hash Bytes} _ _ _.
Arguments im_relay {Hash Bytes} _.
Arguments im_hash {Hash Bytes} _.
Arguments im_data {Hash Bytes} _.

Section Heads.
Context `{WeightOps} `{!ParachainsConfig}.
Context {AccountId Hash AuthorityId Node Key Bytes : Type}.
Context `{EqDecision AccountId} `{Countable Hash} `{Countable AuthorityId}.
Context `{Trie Node Hash Key Bytes} `{!ParaStoredHeaderDataBuilder Bytes}.
Abbreviation pallet := (pallet AccountId Hash Bytes).
Abbreviation relay_pallet := (GrandpaPallet.pallet AccountId Hash AuthorityId).
Abbreviation Checker := (StorageProofChecker Node Hash).
Abbreviation imported := (imported Hash Bytes).
Context (parachain_head_storage_key : Z -> Key) (decode_para_head : Bytes -> option Bytes)
  (para_head_hash : Bytes -> Hash) (encoded_size : Bytes -> Z) (node_len : Node -> Z).
Abbreviation read_parachain_head :=
  (read_parachain_head parachain_head_storage_key decode_para_head).
Abbreviation submit_head :=
  (submit_head parachain_head_storage_key decode_para_head para_head_hash encoded_size).
Abbreviation submit_heads :=
  (submit_heads parachain_head_storage_key decode_para_head para_head_hash encoded_size).
Abbreviation submit_parachain_heads :=
  (submit_parachain_heads parachain_head_storage_key decode_para_head para_head_hash encoded_size
     node_len).

Definition position (p : pallet) (para : Z) : Z :=
  default 0 (next_imported_hash_position <$> ParasInfo p !! para).

(** The ring buffer of one parachain. *)
Definition ring_at (p : pallet) (para : Z) : ring Hash Bytes :=
  Ring (row (ImportedParaHashes p) para) (position p para) (row (ImportedParaHeads p) para).

(** Nothing that concerns [para] has changed. *)
Definition same_para (para : Z) (p p' : pallet) : Prop :=
  ParasInfo p' !! para = ParasInfo p !! para /\ ring_at p' para = ring_at p para.

(** A head that the proof behind [storage] gives for [para]. *)
Definition head_read (storage : Checker) (para : Z) (head : Bytes) : Prop :=
  (read_parachain_head storage para).1 = Ok (Some head).

(** What makes a head importable: it is proved, its hash is the declared one, the
    parachain is tracked, the head is newer than the best one and not too large. *)
Definition importable (storage : Checker) (p : pallet) (n para : Z) (hash : Hash) (data : Bytes) :
  Prop :=
  is_obsolete p (HeadsInfo n para hash) = false /\ encoded_size data <= MaxParaHeadDataSize /\
  exists head, head_read storage para head /\ para_head_hash head = hash /\
    try_build para head = Some data.

(** The two pallet states around the import of a head. *)
Definition imports (n para : Z) (hash : Hash) (data : Bytes) (p p' : pallet) : Prop :=
  ParasInfo p' !! para =
    Some (ParaInfo_ (BestHead n hash) (wrapping_add u32_max (position p para) 1 mod HeadsToKeep)) /\
  slots (ring_at p' para) = <[position p para := hash]> (slots (ring_at p para)) /\
  items (ring_at p' para) =
    match slots (ring_at p para) !! position p para with
    | Some old => delete old (<[hash := data]> (items (ring_at p para)))
    | None => <[hash := data]> (items (ring_at p para))
    end.

Hypothesis Hkeep : 0 < HeadsToKeep <= u32_max.

Lemma same_para_refl (para : Z) (p : pallet) : same_para para p p.
Proof. done. Qed.

Lemma update_spec {E : Type} (p p' : pallet) (para n : Z) (data : Bytes) (hash : Hash)
  (a : option UpdateParachainHeadArtifacts) :
  update_parachain_head (E := E) encoded_size p para (ParasInfo p !! para) n data hash = Ok (a, p') ->
  PalletOwner p' = PalletOwner p /\ PalletOperatingMode p' = PalletOperatingMode p /\
  ParasInfo p' = ParasInfo p /\
  match a with
  | Some a =>
      is_obsolete p (HeadsInfo n para hash) = false /\ encoded_size data <= MaxParaHeadDataSize /\
      (forall para', para' <> para -> same_para para' p p') /\
      imports n para hash data p (put_paras_info (<[para := best_head a]> (ParasInfo p')) p')
  | None =>
      (is_obsolete p (HeadsInfo n para hash) = true \/ MaxParaHeadDataSize < encoded_size data) /\
      forall para', same_para para' p p'
  end.
Proof.
  unfold update_parachain_head, try_from_inner.
  destruct (is_obsolete p _) eqn:Eo; [intros [= <- <-]; split_and!; try done; by left|].
  destruct (_ <? encoded_size data) eqn:Es.
  { intros [= <- <-]. split_and!; try done. right. lia. }
  rewrite (proj2 (Z.eqb_neq _ _)) by lia. intros [= <- <-]. simpl.
  split_and!; try done; [lia| |].
  - intros para' Hne. split; [done|]. unfold ring_at, position. simpl.
    assert (forall (m : gmap (Z * Z) Hash) j x, row (<[(para, j) := x]> m) para' = row m para') as Hrow.
    { intros m j x. apply map_eq. intros k. rewrite !lookup_row, lookup_insert_ne; congruence. }
    rewrite Hrow. f_equal. apply map_eq. intros k. rewrite !lookup_row.
    destruct (ImportedParaHashes p !! _);
      rewrite ?lookup_delete_ne, lookup_insert_ne by congruence; done.
  - unfold imports, ring_at, position. simpl. rewrite lookup_insert_eq.
    destruct (ParasInfo p !! para); simpl; rewrite row_insert, lookup_row; split_and!; try done;
      destruct (ImportedParaHashes p !! _); by rewrite ?row_delete, row_insert.
Qed.

(** One entry: an importable head is imported, any other entry only leaves an event. *)
Lemma submit_head_spec {E : Type} (n : Z) (storage storage' : Checker) (p p' : pallet) (w w' : Weight)
  (para : Z) (hash : Hash) :
  submit_head n storage p w (para, hash) = (Ok (storage', p', w') : outcome E _) ->
  storage' = (read_parachain_head storage para).2 /\
  PalletOwner p' = PalletOwner p /\ PalletOperatingMode p' = PalletOperatingMode p /\
  (forall para', para' <> para -> same_para para' p p') /\
  ((exists data, importable storage p n para hash data /\ imports n para hash data p p') \/
   ((forall data, ~ importable storage p n para hash data) /\ same_para para p p')).
Proof.
  unfold ParachainsPallet.submit_head, importable, head_read.
  destruct (read_parachain_head storage para) as [r c] eqn:Er. simpl.
  destruct r as [[head|]|e|]; simpl; [| | |done];
    [|intros [= <- <- <-]; split_and!; try done; right; split; [|done];
      by intros data (_ & _ & head & [=] & _)..].
  case_bool_decide as Eh.
  { intros [= <- <- <-]. split_and!; try done. right. split; [|done].
    intros data (_ & _ & h & [= <-] & Hh & _). by destruct Eh. }
  destruct (try_build para head) as [data|] eqn:Eb.
  2: { intros [= <- <- <-]. split_and!; try done. right. split; [|done].
       intros data (_ & _ & h & [= <-] & _ & Hb). congruence. }
  intros ([a q] & Hu & [= <- <- <-])%obind_Ok.
  apply update_spec in Hu as (Ho & Hm & Hinfo & Ha).
  destruct a as [a|].
  - destruct Ha as (Hobs & Hsize & Hother & Himp). simpl. split_and!; try done.
    + intros para' Hne. destruct (Hother para' Hne) as [Hi Hr]. unfold same_para, ring_at, position in *.
      simpl in *. rewrite Hinfo, !lookup_insert_ne by congruence. by rewrite Hinfo in Hr.
    + left. exists data. split; [|done]. split_and!; try done. exists head. by split_and!.
  - destruct Ha as (Hwhy & Hsame). split_and!; try done. right.
    split; [|apply Hsame]. intros d (Hobs & Hsize & head' & [= <-] & _ & Hb').
    destruct Hwhy as [?|?]; [congruence|]. simplify_eq. lia.
Qed.

(** *** The loop over the entries *)

Definition head_step (n : Z) (storage : Checker) (entry : Z * Hash) (p p' : pallet) : Prop :=
  PalletOwner p' = PalletOwner p /\ PalletOperatingMode p' = PalletOperatingMode p /\
  (forall para', para' <> entry.1 -> same_para para' p p') /\
  ((exists data, importable storage p n entry.1 entry.2 data /\ imports n entry.1 entry.2 data p p') \/
   ((forall data, ~ importable storage p n entry.1 entry.2 data) /\ same_para entry.1 p p')).

Inductive head_steps (n : Z) (storage : Checker) : list (Z * Hash) -> pallet -> pallet -> Prop :=
| hs_nil p : head_steps n storage [] p p
| hs_cons entry l p p1 p' :
    head_step n storage entry p p1 -> head_steps n storage l p1 p' ->
    head_steps n storage (entry :: l) p p'.

(** Reads only depend on the proof, not on what was read before. *)
Definition same_proof (c c' : Checker) : Prop :=
  proof_db c' = proof_db c /\ proof_root c' = proof_root c.

Lemma read_head_next (c : Checker) (para : Z) :
  (read_parachain_head c para).2 = (read_value c (parachain_head_storage_key para)).2 /\
  same_proof c (read_parachain_head c para).2.
Proof.
  unfold ParachainsPallet.read_parachain_head, read_and_decode_value, read_value, same_proof.
  destruct (read_trie_value _ _ _). done.
Qed.

Lemma head_read_same (c c' : Checker) (para : Z) (head : Bytes) :
  same_proof c c' -> head_read c' para head <-> head_read c para head.
Proof.
  unfold head_read, ParachainsPallet.read_parachain_head, read_and_decode_value, read_value.
  intros [-> ->]. destruct (read_trie_value _ _ _). done.
Qed.

Lemma head_step_same (n : Z) (c c' : Checker) (entry : Z * Hash) (p p' : pallet) :
  same_proof c c' -> head_step n c' entry p p' -> head_step n c entry p p'.
Proof.
  intros Hc (Ho & Hm & Hf & Hcase). split_and!; try done.
  assert (forall data, importable c' p n entry.1 entry.2 data <->
    importable c p n entry.1 entry.2 data) as Hiff.
  { intros data. unfold importable. by setoid_rewrite (head_read_same c c' _ _ Hc). }
  setoid_rewrite Hiff in Hcase. done.
Qed.

Lemma head_steps_same (n : Z) (c c' : Checker) (l : list (Z * Hash)) (p p' : pallet) :
  same_proof c c' -> head_steps n c' l p p' -> head_steps n c l p p'.
Proof. intros Hc. induction 1; econstructor; eauto using head_step_same. Qed.

Lemma submit_heads_steps {E : Type} (n : Z) (c c' : Checker) (p p' : pallet) (w w' : Weight)
  (l : list (Z * Hash)) :
  submit_heads n c p w l = (Ok (c', p', w') : outcome E _) ->
  head_steps n c l p p' /\ c' = reads_of c (parachain_head_storage_key <$> l.*1).
Proof.
  revert c p w. induction l as [|[para hash] l IH]; intros c p w.
  { intros [= <- <- <-]. split; [constructor|done]. }
  simpl. intros ([[c1 p1] w1] & Hs & Hrest)%obind_Ok.
  apply submit_head_spec in Hs as (-> & Hs). apply IH in Hrest as [Hsteps ->].
  destruct (read_head_next c para) as [Hnext Hsame]. split.
  - econstructor; [exact Hs|]. by eapply head_steps_same.
  - unfold reads_of. simpl. by rewrite Hnext.
Qed.

Lemma submit_heads_total {E : Type} (n : Z) (c : Checker) (p : pallet) (w : Weight)
  (l : list (Z * Hash)) :
  exists r, submit_heads n c p w l = (Ok r : outcome E _).
Proof.
  revert c p w. induction l as [|[para hash] l IH]; intros c p w; [by eexists|].
  assert (exists r, submit_head n c p w (para, hash) = (Ok r : outcome E _)) as [[[c1 p1] w1] Hs].
  { unfold ParachainsPallet.submit_head. destruct (read_parachain_head c para) as [r c1] eqn:Er.
    assert (r <> Panic) as Hr.
    { intros ->. unfold ParachainsPallet.read_parachain_head, read_and_decode_value, read_value in Er.
      destruct (read_trie_value _ _ _) as [seen [[v|]|]]; simpl in Er;
        [destruct (decode_para_head v); simpl in Er|..]; congruence. }
    destruct r as [[head|]|e|]; [|by eexists..|done]. case_bool_decide; [by eexists|].
    destruct (try_build para head); [|by eexists]. unfold update_parachain_head, try_from_inner.
    destruct (is_obsolete _ _); [by eexists|]. destruct (_ <? _); [by eexists|].
    rewrite (proj2 (Z.eqb_neq _ _)) by lia. by eexists. }
  destruct (IH c1 p1 w1) as [r Hr]. exists r. cbn [ParachainsPallet.submit_heads]. rewrite Hs. exact Hr.
Qed.

(** What a successful submission has checked, and the run of its loop. *)
Lemma submit_loop_spec (g : relay_pallet) (p p' : pallet) (n : Z) (hash : Hash)
  (parachains : list (Z * Hash)) (proof : list Node) (info : PostDispatchInfo) :
  submit_parachain_heads g p (n, hash) parachains proof = Ok (info, p') ->
  let weight := submit_parachain_heads_weight DbWeight (para_heads_proof_size node_len proof)
                  (Z.of_nat (length parachains) mod (u32_max + 1)) in
  exists root c c' left,
    is_halted p = false /\ ImportedHeaders g !! hash = Some (StoredHeader n root) /\
    checker_new root proof = Ok c /\
    submit_heads n c p weight parachains
      = (Ok (c', p', left) : outcome (HeaderChainError StorageProofError) _) /\
    ensure_no_unused_nodes c' = Ok tt /\
    info = {| actual_weight := Some weight; pays_fee := PaysYes |}.
Proof.
  intros Hs weight. unfold ParachainsPallet.submit_parachain_heads in Hs.
  apply obind_Ok in Hs as ([] & Hh%map_err_Ok%map_err_Ok%ensure_not_halted_Ok & Hrest).
  apply obind_Ok in Hrest as ([m root] & Hblock%ok_or_Ok & Hrest).
  apply obind_Ok in Hrest as ([] & Hn%ensure_Ok & Hrest). simpl in Hn.
  apply obind_Ok in Hrest as (p1 & Hp1%map_err_Ok & [= <- <-]).
  apply obind_Ok in Hp1 as (r & Hparse & ->). unfold parse_finalized_storage_proof in Hparse.
  simpl in Hparse. rewrite Hblock in Hparse. simpl in Hparse.
  apply obind_Ok in Hparse as (c & Hc%map_err_Ok & [= Hloop]).
  apply obind_Ok in Hloop as ([[c' q] w] & Hloop & ([] & Hu%map_err_Ok & [= ->])%obind_Ok).
  exists root, c, c', w. apply Z.eqb_eq in Hn as ->. split_and!; done.
Qed.

Lemma submit_heads_weight `{!WeightLaws} {E : Type} (n : Z) (c c' : Checker) (p p' : pallet)
  (w w' : Weight) (l : list (Z * Hash)) :
  submit_heads n c p w l = (Ok (c', p', w') : outcome E _) -> weight_le w' w.
Proof.
  revert c p w. induction l as [|[para hash] l IH]; intros c p w.
  { by intros [= <- <- <-]. }
  cbn [ParachainsPallet.submit_heads]. intros ([[c1 p1] w1] & Hs & Hrest)%obind_Ok.
  etrans; [by eapply IH|]. clear IH Hrest. revert Hs. unfold ParachainsPallet.submit_head.
  destruct (read_parachain_head c para) as [[[head|]|e|] c2]; [|by intros [= <- <- <-]..|done].
  case_bool_decide; [by intros [= <- <- <-]|].
  destruct (try_build para head); [|by intros [= <- <- <-]].
  intros ([a q] & _ & [= <- <- <-])%obind_Ok.
  destruct (negb (bool_decide _)), (negb (default _ _)); try (etrans; [apply weight_saturating_sub_le|]);
    by try apply weight_saturating_sub_le.
Qed.

(** What a successful submission has checked and done. *)
Lemma submit_heads_spec (g : relay_pallet) (p p' : pallet) (n : Z) (hash : Hash)
  (parachains : list (Z * Hash)) (proof : list Node) (info : PostDispatchInfo) :
  submit_parachain_heads g p (n, hash) parachains proof = Ok (info, p') ->
  exists root c,
    is_halted p = false /\ ImportedHeaders g !! hash = Some (StoredHeader n root) /\
    checker_new root proof = Ok c /\ head_steps n c parachains p p' /\
    ensure_no_unused_nodes (reads_of c (parachain_head_storage_key <$> parachains.*1)) = Ok tt /\
    info = {| actual_weight := Some (submit_parachain_heads_weight DbWeight
                (para_heads_proof_size node_len proof)
                (Z.of_nat (length parachains) mod (u32_max + 1)));
              pays_fee := PaysYes |}.
Proof.
  intros (root & c & c' & left & Hh & Hb & Hc & [Hsteps ->]%submit_heads_steps & Hu & ->)%submit_loop_spec.
  exists root, c. by split_and!.
Qed.

(** *** The invariant *)

(** The relay chain states that submissions are checked against. *)
Context (G : relay_pallet -> Prop).

(** An imported head was read from a proof against the state root of a relay chain
    header with the recorded number that the GRANDPA pallet had accepted. *)
Definition proved (para : Z) (e : imported) : Prop :=
  exists g relay_hash root proof c head,
    G g /\ ImportedHeaders g !! relay_hash = Some (StoredHeader (im_relay e) root) /\
    checker_new root proof = Ok c /\ head_read c para head /\
    para_head_hash head = im_hash e /\ try_build para head = Some (im_data e) /\
    encoded_size (im_data e) <= MaxParaHeadDataSize.

(** Each head differs from the one before and was read at a higher relay block. *)
Fixpoint progressing (l : list imported) : Prop :=
  match l with
  | e :: (e' :: _) as l' => im_relay e' < im_relay e /\ im_hash e' <> im_hash e /\ progressing l'
  | _ => True
  end.

Definition best_of (e : imported) : BestParaHeadHash Hash := BestHead (im_relay e) (im_hash e).
Definition entry_of (e : imported) : Hash * Bytes := (im_hash e, im_data e).

(** [l] are the heads of [para] that were imported so far, newest first. *)
Record para_ok (para : Z) (l : list imported) (p : pallet) : Prop := {
  po_best : best_head_hash <$> ParasInfo p !! para = best_of <$> head l;
  po_progress : progressing l;
  po_proved : Forall (proved para) l;
  po_bounded : ring_bounded HeadsToKeep (ring_at p para);
  po_ring : NoDup (im_hash <$> l) ->
    ring_repr HeadsToKeep (ring_at p para) (take (Z.to_nat HeadsToKeep) (entry_of <$> l));
}.

Definition heads_ok (p : pallet) : Prop := forall para, exists l, para_ok para l p.

Lemma para_ok_same (para : Z) (l : list imported) (p p' : pallet) :
  para_ok para l p -> same_para para p p' -> para_ok para l p'.
Proof. intros [Hb Hp Hpr Hbd Hr] [Hi Hring]. split; rewrite ?Hi, ?Hring; done. Qed.

Lemma imports_ring (n para : Z) (hash : Hash) (data : Bytes) (p p' : pallet) :
  0 <= position p para < HeadsToKeep -> imports n para hash data p p' ->
  ring_at p' para = ring_insert HeadsToKeep (ring_at p para) hash data.
Proof.
  intros Hpos (Hi & Hs & Hit). unfold ring_insert. rewrite wrapping_add_small in Hi by lia.
  simpl in *. rewrite <- Hs, <- Hit. unfold ring_at at 1, position. by rewrite Hi.
Qed.

(** The obsolescence check is what makes the history progress. *)
Lemma not_obsolete_progress (para n : Z) (hash : Hash) (data : Bytes) (l : list imported) (p : pallet) :
  best_head_hash <$> ParasInfo p !! para = best_of <$> head l ->
  is_obsolete p (HeadsInfo n para hash) = false -> progressing l ->
  progressing (Imported n hash data :: l).
Proof.
  clear Hkeep. unfold is_obsolete. simpl. intros Hb Hobs Hpr. destruct l as [|e l]; [done|].
  destruct (ParasInfo p !! para) as [info|]; [|done]. simpl in Hb. injection Hb as Hb.
  rewrite Hb in Hobs. simpl in Hobs. case_match eqn:El; [done|].
  apply bool_decide_eq_false in Hobs. simpl. split_and!; [lia|done|done].
Qed.

Lemma importable_proved (g : relay_pallet) (relay_hash root : Hash) (proof : list Node) (c : Checker)
  (p : pallet) (n para : Z) (hash : Hash) (data : Bytes) :
  G g -> ImportedHeaders g !! relay_hash = Some (StoredHeader n root) ->
  checker_new root proof = Ok c -> importable c p n para hash data ->
  proved para (Imported n hash data).
Proof.
  intros Hg Hh Hc (_ & Hsize & hd & Hread & Hhash & Hbuild).
  exists g, relay_hash, root, proof, c, hd. by split_and!.
Qed.

Lemma head_step_ok (g : relay_pallet) (relay_hash root : Hash) (proof : list Node) (c : Checker)
  (n : Z) (entry : Z * Hash) (p p' : pallet) :
  G g -> ImportedHeaders g !! relay_hash = Some (StoredHeader n root) ->
  checker_new root proof = Ok c -> head_step n c entry p p' -> heads_ok p -> heads_ok p'.
Proof.
  intros Hg Hh Hc (_ & _ & Hframe & Hcase) Hok para. destruct (Hok para) as [l Hl].
  destruct (decide (para = entry.1)) as [->|Hne].
  2: { exists l. by eapply para_ok_same; [|apply Hframe]. }
  destruct Hcase as [(data & Himp & Himps)|[_ Hsame]]; [|exists l; by eapply para_ok_same].
  pose proof (importable_proved _ _ _ _ _ _ _ _ _ _ Hg Hh Hc Himp) as Hproved.
  destruct Hl as [Hb Hp Hpr Hbd Hr]. exists (Imported n entry.2 data :: l).
  pose proof (imports_ring _ _ _ _ _ _ (rb_pointer _ _ Hbd) Himps) as Hring. split.
  - destruct Himps as [-> _]. done.
  - eapply not_obsolete_progress; [exact Hb|apply Himp|done].
  - by constructor.
  - rewrite Hring. by apply ring_insert_bounded.
  - intros Hnd. rewrite fmap_cons in Hnd. apply NoDup_cons in Hnd as [Hnew Hnd].
    rewrite Hring, fmap_cons. change (entry_of (Imported n entry.2 data)) with (entry.2, data).
    rewrite <- queue_insert_prefix by lia.
    apply ring_insert_repr; [lia| |by apply Hr]. intros Hin. apply Hnew.
    rewrite fmap_take in Hin. apply elem_of_take in Hin as (i & Hi & _).
    rewrite <- list_fmap_compose in Hi. by apply list_elem_of_lookup_2 in Hi.
Qed.

Lemma head_steps_ok (g : relay_pallet) (relay_hash root : Hash) (proof : list Node) (c : Checker)
  (n : Z) (l : list (Z * Hash)) (p p' : pallet) :
  G g -> ImportedHeaders g !! relay_hash = Some (StoredHeader n root) ->
  checker_new root proof = Ok c -> head_steps n c l p p' -> heads_ok p -> heads_ok p'.
Proof. intros Hg Hh Hc. induction 1; eauto using head_step_ok. Qed.

(** Everything that can happen to the pallet; only successful calls are steps. *)
Inductive step (p : pallet) : pallet -> Prop :=
| StepSubmit g at_relay_block parachains proof info p' :
    G g -> submit_parachain_heads g p at_relay_block parachains proof = Ok (info, p') -> step p p'
| StepSetOwner origin o p' : set_owner (E := Error) p origin o = Ok p' -> step p p'
| StepSetMode origin m p' : set_operating_mode (E := Error) p origin m = Ok p' -> step p p'.

Lemma step_ok (p p' : pallet) : step p p' -> heads_ok p -> heads_ok p'.
Proof.
  intros Hstep Hok. destruct Hstep as [g [n hash] l proof info p' Hg Hs|origin o p' Hs|origin m p' Hs].
  - apply submit_heads_spec in Hs as (root & c & _ & Hh & Hc & Hsteps & _).
    by eapply head_steps_ok.
  - apply obind_Ok in Hs as ([] & _ & [= <-]). intros para. destruct (Hok para) as [l Hl].
    exists l. by eapply para_ok_same.
  - apply obind_Ok in Hs as ([] & _ & [= <-]). intros para. destruct (Hok para) as [l Hl].
    exists l. by eapply para_ok_same.
Qed.

Lemma genesis_ok (c : GenesisConfig) : heads_ok (genesis_build c empty_pallet).
Proof.
  intros para. exists [].
  assert (ring_at (genesis_build c empty_pallet) para = Ring ∅ 0 ∅) as Hring.
  { unfold genesis_build. destruct (genesis_owner c); unfold ring_at, position; simpl;
      rewrite lookup_empty; f_equal; apply map_eq; intros k; by rewrite lookup_row, !lookup_empty. }
  split; rewrite ?Hring; try done.
  - unfold genesis_build. destruct (genesis_owner c); simpl; by rewrite lookup_empty.
  - apply ring_bounded_empty. lia.
  - intros _. simpl. rewrite take_nil. apply ring_repr_empty. lia.
Qed.

Lemma run_ok (c : GenesisConfig) (p : pallet) : rtc step (genesis_build c empty_pallet) p -> heads_ok p.
Proof.
  intros Hrun. pose proof (genesis_ok c) as Hok. induction Hrun; eauto using step_ok.
Qed.

(** What the ring of a parachain stores when no head hash recurs. *)
Lemma para_ok_stored (para : Z) (l : list imported) (p : pallet) :
  para_ok para l p -> NoDup (im_hash <$> l) ->
  forall hash data, parachain_head p para hash = Some data <->
    exists i e, l !! i = Some e /\ Z.of_nat i < HeadsToKeep /\ im_hash e = hash /\ im_data e = data.
Proof.
  intros Hok Hnd hash data. pose proof (po_ring _ _ _ Hok Hnd) as Hr.
  pose proof (repr_nodup _ _ _ Hr) as Hnd'. pose proof (repr_items _ _ _ Hr) as Hit. simpl in Hit.
  unfold parachain_head. rewrite <- lookup_row, Hit, <- elem_of_list_to_map by done.
  rewrite elem_of_take. split.
  - intros (i & Hi & Hlt). apply list_lookup_fmap_Some in Hi as (e & Heq & He).
    unfold entry_of in Heq. injection Heq as -> ->. exists i, e. split_and!; [done|lia|done|done].
  - intros (i & e & He & Hlt & <- & <-). exists i. split; [|lia]. by rewrite list_lookup_fmap, He.
Qed.

(** *** The effect of one submission *)

Lemma same_para_trans (para : Z) (p1 p2 p3 : pallet) :
  same_para para p1 p2 -> same_para para p2 p3 -> same_para para p1 p3.
Proof. intros [] []. split; congruence. Qed.

(** After an import at relay block [n], nothing more is imported at [n]. *)
Lemma import_once (n para : Z) (hash hash' : Hash) (data : Bytes) (p p' : pallet) :
  imports n para hash data p p' -> is_obsolete p' (HeadsInfo n para hash') = true.
Proof. intros [Hi _]. unfold is_obsolete. simpl. rewrite Hi. simpl. by rewrite Z.leb_refl. Qed.

Lemma head_steps_frozen (n : Z) (c : Checker) (l : list (Z * Hash)) (p p' : pallet) (para : Z) :
  head_steps n c l p p' -> (forall hash, is_obsolete p (HeadsInfo n para hash) = true) ->
  same_para para p p'.
Proof.
  induction 1 as [|[para' hash'] l p p1 p' (_ & _ & Hframe & Hcase) _ IH]; intros Hobs; [done|].
  assert (same_para para p p1) as Hs.
  { destruct (decide (para = para')) as [->|Hne]; [|by apply Hframe].
    destruct Hcase as [(data & (Ho & _) & _)|[_ Hs]]; [|done]. simpl in Ho. by rewrite Hobs in Ho. }
  eapply same_para_trans; [exact Hs|]. apply IH. intros hash. specialize (Hobs hash).
  unfold is_obsolete in *. simpl in *. by destruct Hs as [-> _].
Qed.

Lemma importable_same (n : Z) (c : Checker) (p p' : pallet) (para : Z) (hash : Hash) (data : Bytes) :
  same_para para p p' -> importable c p n para hash data <-> importable c p' n para hash data.
Proof. intros [Hi _]. unfold importable, is_obsolete. simpl. by rewrite Hi. Qed.

(** For every parachain, a submission either imports one listed head or changes nothing
    (and then none of the listed heads was importable). *)
Lemma head_steps_effect (n : Z) (c : Checker) (l : list (Z * Hash)) (p p' : pallet) (para : Z) :
  head_steps n c l p p' ->
  (exists hash data, (para, hash) ∈ l /\ importable c p n para hash data /\
     imports n para hash data p p') \/
  ((forall hash data, (para, hash) ∈ l -> ~ importable c p n para hash data) /\ same_para para p p').
Proof.
  induction 1 as [|[para' hash'] l p p1 p' (_ & _ & Hframe & Hcase) Hrest IH].
  { right. split; [|done]. intros hash data Hin. by apply not_elem_of_nil in Hin. }
  simpl in *. destruct (decide (para = para')) as [->|Hne].
  - destruct Hcase as [(data & Himp & Himps)|[Hno Hs]].
    + left. exists hash', data. split_and!; [by left|done|].
      assert (same_para para' p1 p') as [Hi Hr].
      { eapply head_steps_frozen; [exact Hrest|]. intros h. by eapply import_once. }
      destruct Himps as (Ei & Es & Et). split_and!; [by rewrite Hi|by rewrite Hr|by rewrite Hr].
    + destruct IH as [(hash & data & Hin & Himp & Ei & Es & Et)|[Hno' Hs']].
      * left. exists hash, data. split; [by right|]. rewrite (importable_same n c p p1) by done.
        split; [done|]. destruct Hs as [Hi Hr]. unfold position in *. rewrite Hi, Hr in *. done.
      * right. split; [|by eapply same_para_trans]. intros hash data [[= <-]|Hin]%elem_of_cons; [done|].
        rewrite (importable_same n c p p1) by done. by apply Hno'.
  - assert (same_para para p p1) as Hs by (by apply Hframe).
    destruct IH as [(hash & data & Hin & Himp & Ei & Es & Et)|[Hno' Hs']].
    + left. exists hash, data. split; [by right|]. rewrite (importable_same n c p p1) by done.
      split; [done|]. destruct Hs as [Hi Hr]. unfold position in *. rewrite Hi, Hr in *. done.
    + right. split; [|by eapply same_para_trans]. intros hash data [[=]|Hin]%elem_of_cons; [done|].
      rewrite (importable_same n c p p1) by done. by apply Hno'.
Qed.

Lemma head_steps_management (n : Z) (c : Checker) (l : list (Z * Hash)) (p p' : pallet) :
  head_steps n c l p p' ->
  PalletOwner p' = PalletOwner p /\ PalletOperatingMode p' = PalletOperatingMode p.
Proof.
  induction 1 as [|entry l p p1 p' (Ho & Hm & _) _ [IHo IHm]]; [done|]. split; congruence.
Qed.

Definition head_keys (parachains : list (Z * Hash)) : list Key :=
  parachain_head_storage_key <$> parachains.*1.

Definition declared_weight (parachains : list (Z * Hash)) (proof : list Node) : Weight :=
  submit_parachain_heads_weight DbWeight (para_heads_proof_size node_len proof)
    (Z.of_nat (length parachains) mod (u32_max + 1)).

(** Why a submission fails as a whole. *)
Definition heads_refusal (g : relay_pallet) (p : pallet) (n : Z) (hash : Hash)
  (parachains : list (Z * Hash)) (proof : list Node) (e : DispatchError Error) : Prop :=
  match e with
  | ModuleError (BridgeModule HaltedError) => is_halted p = true
  | ModuleError UnknownRelayChainBlock => ImportedHeaders g !! hash = None
  | ModuleError InvalidRelayChainBlockNumber =>
      exists b, ImportedHeaders g !! hash = Some b /\ sh_number b <> n
  | ModuleError (HeaderChain_ (StorageProof e)) =>
      exists root, ImportedHeaders g !! hash = Some (StoredHeader n root) /\
        (checker_new root proof = Err e \/
         exists c, checker_new root proof = Ok c /\
           ensure_no_unused_nodes (reads_of c (head_keys parachains)) = Err e)
  | _ => False
  end.

Lemma submit_heads_cases (g : relay_pallet) (p : pallet) (n : Z) (hash : Hash)
  (parachains : list (Z * Hash)) (proof : list Node) :
  (exists info p', submit_parachain_heads g p (n, hash) parachains proof = Ok (info, p')) \/
  (exists e, submit_parachain_heads g p (n, hash) parachains proof = Err e /\
     heads_refusal g p n hash parachains proof e).
Proof.
  unfold ParachainsPallet.submit_parachain_heads, ensure_not_halted.
  destruct (is_halted p) eqn:Eh; [right; by eexists|]. simpl.
  destruct (ImportedHeaders g !! hash) as [[m root]|] eqn:Eb; [|right; by eexists]. simpl.
  destruct (m =? n) eqn:En; simpl.
  2: { right. eexists. split; [done|]. simpl. exists (StoredHeader m root). simpl. split; [done|lia]. }
  apply Z.eqb_eq in En as ->. unfold parse_finalized_storage_proof. simpl. rewrite Eb. simpl.
  destruct (checker_new root proof) as [c|e|] eqn:Ec; simpl.
  - match goal with |- context [submit_heads n c p ?w parachains] =>
      destruct (submit_heads_total (E := HeaderChainError StorageProofError) n c p w parachains)
        as [[[c' p'] w'] Hs] end.
    rewrite Hs. simpl. apply submit_heads_steps in Hs as [_ ->].
    destruct (ensure_no_unused_nodes _) as [[]|e|] eqn:Eu; simpl.
    + left. by eexists _, _.
    + right. eexists. split; [done|]. simpl. exists root. split; [done|]. right. by exists c.
    + exfalso. revert Eu. unfold ensure_no_unused_nodes. by case_match.
  - right. eexists. split; [done|]. simpl. exists root. split; [done|]. by left.
  - exfalso. revert Ec. unfold checker_new. repeat case_match; done.
Qed.

(** *** Properties *)

(** C33. A submission of parachain heads fails as a whole only if the pallet is halted, the relay
    block is unknown or has another number, or the proof is malformed, does not match
    the state root, or carries nodes that no listed head needs.  Otherwise every
    listed head that is proved, has the declared hash, belongs to a tracked parachain,
    is newer than the best one and fits the size limit becomes the best head of its
    parachain; and for every parachain without such a head, listed or not, nothing
    changes. *)
Theorem submit_parachain_heads_correct (g : relay_pallet) (p : pallet) (n : Z) (hash : Hash)
  (parachains : list (Z * Hash)) (proof : list Node) :
  match submit_parachain_heads g p (n, hash) parachains proof with
  | Ok (info, p') =>
      exists root c,
        is_halted p = false /\ ImportedHeaders g !! hash = Some (StoredHeader n root) /\
        checker_new root proof = Ok c /\
        ensure_no_unused_nodes (reads_of c (head_keys parachains)) = Ok tt /\
        PalletOwner p' = PalletOwner p /\ PalletOperatingMode p' = PalletOperatingMode p /\
        forall para,
          (exists head_hash data, (para, head_hash) ∈ parachains /\
             importable c p n para head_hash data /\ imports n para head_hash data p p') \/
          ((forall head_hash data, (para, head_hash) ∈ parachains ->
              ~ importable c p n para head_hash data) /\
           same_para para p p')
  | Err e => heads_refusal g p n hash parachains proof e
  | Panic => False
  end.
Proof.
  destruct (submit_heads_cases g p n hash parachains proof) as [(info & p' & Hs)|(e & -> & He)]; [|done].
  rewrite Hs. apply submit_heads_spec in Hs as (root & c & Hh & Hb & Hc & Hsteps & Hu & _).
  destruct (head_steps_management _ _ _ _ _ Hsteps) as [Ho Hm].
  exists root, c. split_and!; try done. intros para. by apply head_steps_effect.
Qed.

(** The refunds of [submit_parachain_heads] are lost: the loop deducts the weight of the
    writes and of the pruning that did not happen from its own copy of the weight, and
    the call reports the full declared weight whatever the loop has computed. *)
Theorem refunded_weight_is_lost `{!WeightLaws} (g : relay_pallet) (p p' : pallet) (n : Z)
  (hash : Hash) (parachains : list (Z * Hash)) (proof : list Node) (info : PostDispatchInfo) :
  submit_parachain_heads g p (n, hash) parachains proof = Ok (info, p') ->
  actual_weight info = Some (declared_weight parachains proof) /\
  exists root c c' left,
    ImportedHeaders g !! hash = Some (StoredHeader n root) /\ checker_new root proof = Ok c /\
    submit_heads n c p (declared_weight parachains proof) parachains
      = (Ok (c', p', left) : outcome (HeaderChainError StorageProofError) _) /\
    weight_le left (declared_weight parachains proof).
Proof.
  clear Hkeep. intros (root & c & c' & left & _ & Hb & Hc & Hloop & _ & ->)%submit_loop_spec.
  split; [done|]. exists root, c, c', left. split_and!; try done. by eapply submit_heads_weight.
Qed.

(** The pre-dispatch check for calls with a single head agrees with the call: a call that is
    refused as stale would not change anything about its parachain, and a call has
    changed the best head exactly when it was not stale before and counts as
    successful afterwards. *)
Theorem obsolete_heads_check_agrees (g : relay_pallet) (p p' : pallet) (n : Z) (hash : Hash)
  (para : Z) (head_hash : Hash) (proof : list Node) (info : PostDispatchInfo) :
  submit_parachain_heads g p (n, hash) [(para, head_hash)] proof = Ok (info, p') ->
  let call := submit_parachain_heads_call (n, hash) [(para, head_hash)] proof in
  let update := HeadsInfo n para head_hash in
  (check_obsolete_submit_parachain_heads p call = Stale -> same_para para p p') /\
  (check_obsolete_submit_parachain_heads p call = Valid /\ was_successful p' update = true <->
   best_parachain_info p' para <> best_parachain_info p para).
Proof.
  intros (root & c & _ & _ & _ & Hsteps & _)%submit_heads_spec call update.
  unfold check_obsolete_submit_parachain_heads, best_parachain_info. simpl. fold update.
  destruct (head_steps_effect _ _ _ _ _ para Hsteps)
    as [(h & data & Hin & [Hobs _] & Hi & _)|[_ Hsame]].
  - apply list_elem_of_singleton in Hin as [= ->]. unfold update. rewrite Hobs. split; [done|].
    split; [intros _|intros _; split; [done|]].
    + intros Heq. unfold is_obsolete in Hobs. simpl in Hobs. rewrite <- Heq, Hi in Hobs. simpl in Hobs.
      by rewrite Z.leb_refl in Hobs.
    + unfold was_successful. simpl. rewrite Hi. by apply bool_decide_eq_true.
  - split; [done|]. destruct Hsame as [Hi _]. rewrite Hi. split; [|by intros []]. intros [Hv Hs].
    destruct (is_obsolete p update) eqn:Eo; [done|]. unfold is_obsolete, was_successful in *.
    simpl in *. rewrite Hi in Hs. destruct (ParasInfo p !! para) as [i|]; [|done].
    apply bool_decide_eq_true in Hs. rewrite Hs in Eo. simpl in Eo. by rewrite Z.leb_refl in Eo.
Qed.
End Heads.

(** ** The heads are final *)

Section FinalHeads.
Context `{WeightOps} `{!ParachainsConfig} `{!GrandpaConfig}.
Context {AccountId Hash AuthorityId Signature DigestItem Hdr Node Key Bytes : Type}.
Context `{EqDecision AccountId} `{Countable Hash} `{Countable AuthorityId}.
Context `{Header Hdr Hash} `{!GrandpaHeader Hdr DigestItem AuthorityId}.
Context `{Trie Node Hash Key Bytes} `{!ParaStoredHeaderDataBuilder Bytes}.
Abbreviation pallet := (pallet AccountId Hash Bytes).
Abbreviation relay_pallet := (GrandpaPallet.pallet AccountId Hash AuthorityId).
Abbreviation GrandpaJustification := (GrandpaJustification Hash AuthorityId Signature Hdr).
Context (check_message_signature : Precommit Hash -> AuthorityId -> Signature -> Z -> Z -> bool)
  (voter_set_new : list (AuthorityId * Z) -> option (VoterSet AuthorityId))
  (header_encoded_size : Hdr -> Z) (justification_encoded_size : GrandpaJustification -> Z).
Context (parachain_head_storage_key : Z -> Key) (decode_para_head : Bytes -> option Bytes)
  (para_head_hash : Bytes -> Hash) (encoded_size : Bytes -> Z) (node_len : Node -> Z).

(** The states that the GRANDPA pallet of the relay chain can reach. *)
Definition relay_reachable (g : relay_pallet) : Prop :=
  exists c g0, GrandpaPallet.genesis_build c GrandpaPallet.empty_pallet = Some g0 /\
    rtc (GrandpaPallet.step check_message_signature voter_set_new header_encoded_size
           justification_encoded_size) g0 g.

(** The two pallets in one runtime, and the data that the GRANDPA pallet was initialized with, by
    its genesis or by its owner or root: the trusted start. *)
Record bridge := Bridge {
  relay : relay_pallet;
  paras : pallet;
  trusted : option (InitializationData Hdr AuthorityId);
}.

(** Everything that can happen to them.  The parachains pallet reads the GRANDPA pallet as it is
    at that moment. *)
Inductive bridge_step (b : bridge) : bridge -> Prop :=
| BridgeSubmit h (j : GrandpaJustification) info g :
    GrandpaPallet.submit_finality_proof check_message_signature voter_set_new header_encoded_size
      justification_encoded_size (relay b) h j = Ok (info, g) ->
    bridge_step b (Bridge g (paras b) (trusted b))
| BridgeInitialize origin d g :
    GrandpaPallet.initialize (relay b) origin d = Ok g ->
    bridge_step b (Bridge g (paras b) (Some d))
| BridgeSetOwner origin o g :
    set_owner (E := GrandpaPallet.Error) (relay b) origin o = Ok g ->
    bridge_step b (Bridge g (paras b) (trusted b))
| BridgeSetMode origin m g :
    set_operating_mode (E := GrandpaPallet.Error) (relay b) origin m = Ok g ->
    bridge_step b (Bridge g (paras b) (trusted b))
| BridgeBlock : bridge_step b (Bridge (GrandpaPallet.on_initialize (relay b)) (paras b) (trusted b))
| BridgeParas p :
    step parachain_head_storage_key decode_para_head para_head_hash encoded_size node_len
      (eq (relay b)) (paras b) p ->
    bridge_step b (Bridge (relay b) p (trusted b)).

(** The head is what a storage proof gives under the key of the parachain in the state of one of
    the relay chain headers [hs]. *)
Definition final_head (hs : list Hdr) (para : Z) (e : imported Hash Bytes) : Prop :=
  exists (h : Hdr) (proof : list Node) value head,
    h ∈ hs /\ hdr_number h = im_relay e /\
    db_contains (list_to_set proof : gset Node) (hdr_state_root h) = true /\
    (read_trie_value (list_to_set proof) (hdr_state_root h) (parachain_head_storage_key para)).2
      = Some (Some value) /\
    decode_para_head value = Some head /\
    para_head_hash head = im_hash e /\ try_build para head = Some (im_data e).

Hypothesis Hkeep : 0 < HeadsToKeep <= u32_max.
Hypothesis Hrelay_keep : 0 < HeadersToKeep <= u32_max.
Hypothesis Hhash : forall h1 h2 : Hdr, hdr_hash h1 = hdr_hash h2 -> hdr_number h1 = hdr_number h2.

Abbreviation tracks := (GrandpaPallet.tracks check_message_signature voter_set_new).
Abbreviation heads_step := (step (AuthorityId := AuthorityId) parachain_head_storage_key
  decode_para_head para_head_hash encoded_size node_len).

Definition trusted_set (d : InitializationData Hdr AuthorityId) : AuthoritySet AuthorityId :=
  Authorities (init_authority_list d) (init_set_id d).

(** The relay chain states of a history that has come to [hs]. *)
Definition relay_past (d : InitializationData Hdr AuthorityId) (hs : list Hdr) (g : relay_pallet) :
  Prop :=
  exists hs', tracks (trusted_set d) (init_header d) hs' g /\ hs' `suffix_of` hs.

Definition bridge_ok (p0 : pallet) (b : bridge) : Prop :=
  match trusted b with
  | None => untouched (relay b) /\ rtc (heads_step untouched) p0 (paras b)
  | Some d =>
      exists hs, tracks (trusted_set d) (init_header d) hs (relay b) /\
        rtc (heads_step (fun g => untouched g \/ relay_past d hs g)) p0 (paras b)
  end.

Lemma heads_step_mono (G G' : relay_pallet -> Prop) (p p' : pallet) :
  (forall g, G g -> G' g) -> heads_step G p p' -> heads_step G' p p'.
Proof.
  intros HG [g at_relay l proof info q' Hg Hs| |];
    [eapply StepSubmit; eauto|by eapply StepSetOwner|by eapply StepSetMode].
Qed.

Lemma heads_run_mono (G G' : relay_pallet -> Prop) (p p' : pallet) :
  (forall g, G g -> G' g) -> rtc (heads_step G) p p' -> rtc (heads_step G') p p'.
Proof. intros HG. apply rtc_subrel. intros q q'. by apply heads_step_mono. Qed.

Lemma relay_past_mono (d : InitializationData Hdr AuthorityId) (h : Hdr) (hs : list Hdr)
  (g : relay_pallet) :
  untouched g \/ relay_past d hs g -> untouched g \/ relay_past d (h :: hs) g.
Proof.
  intros [Hu|(hs' & Ht & Hs)]; [by left|right]. exists hs'. split; [done|].
  by apply suffix_cons_r.
Qed.

(** Steps of the relay chain pallet that do not touch the headers. *)
Lemma bridge_ok_ext (p0 : pallet) (b : bridge) (g : relay_pallet) :
  CurrentAuthoritySet g = CurrentAuthoritySet (relay b) -> BestFinalized g = BestFinalized (relay b) ->
  InitialHash g = InitialHash (relay b) -> ring_of g = ring_of (relay b) ->
  bridge_ok p0 b -> bridge_ok p0 (Bridge g (paras b) (trusted b)).
Proof.
  intros Ea Eb Ei Er. unfold bridge_ok. simpl. destruct (trusted b) as [d|].
  - intros (hs & Ht & Hp). exists hs. split; [by eapply tracks_ext|done].
  - intros [[Hb Hr] Hp]. split; [split; congruence|done].
Qed.

Lemma bridge_submit_ok (p0 : pallet) (b : bridge) (h : Hdr) (j : GrandpaJustification)
  (info : PostDispatchInfo) (g : relay_pallet) :
  GrandpaPallet.submit_finality_proof check_message_signature voter_set_new header_encoded_size
    justification_encoded_size (relay b) h j = Ok (info, g) ->
  bridge_ok p0 b -> bridge_ok p0 (Bridge g (paras b) (trusted b)).
Proof.
  intros Hs. unfold bridge_ok. simpl. destruct (trusted b) as [d|].
  - intros (hs & Ht & Hp). exists (h :: hs). split; [by eapply submit_tracks|].
    eapply heads_run_mono; [|exact Hp]. intros g'. apply relay_past_mono.
  - intros [[Hb _] _]. apply submit_spec in Hs as (best & ? & ? & _ & _ & Hbest & _). congruence.
Qed.

Lemma bridge_initialize_ok (p0 : pallet) (b : bridge) (origin : RawOrigin AccountId)
  (d : InitializationData Hdr AuthorityId) (g : relay_pallet) :
  GrandpaPallet.initialize (relay b) origin d = Ok g ->
  bridge_ok p0 b -> bridge_ok p0 (Bridge g (paras b) (Some d)).
Proof.
  intros Hs. apply obind_Ok in Hs as ([] & _ & Hs).
  apply obind_Ok in Hs as ([] & Hb%ensure_Ok%bool_decide_eq_true & Hs%lift_Ok).
  unfold bridge_ok. simpl. destruct (trusted b) as [d'|].
  - intros (hs & [Hch Hbest _ _] & _).
    destruct (finality_chain_numbers _ _ _ _ _ _ Hch) as (best & rest & -> & _).
    by rewrite Hb in Hbest.
  - intros [Hu Hp]. exists [init_header d].
    apply (initialize_bridge_tracks check_message_signature voter_set_new) in Hs
      as (Ht & Ha & _); [|done..].
    rewrite Ha in Ht. split; [exact Ht|]. eapply heads_run_mono; [|exact Hp]. by left.
Qed.

Lemma bridge_step_ok (p0 : pallet) (b b' : bridge) :
  bridge_step b b' -> bridge_ok p0 b -> bridge_ok p0 b'.
Proof.
  intros Hstep. destruct Hstep as [h j info g Hs|origin d g Hs|origin o g Hs|origin m g Hs| |p Hs].
  - by eapply bridge_submit_ok.
  - by eapply bridge_initialize_ok.
  - apply obind_Ok in Hs as ([] & _ & [= <-]). by apply bridge_ok_ext.
  - apply obind_Ok in Hs as ([] & _ & [= <-]). by apply bridge_ok_ext.
  - by apply bridge_ok_ext.
  - unfold bridge_ok. simpl. destruct (trusted b) as [d|].
    + intros (hs & Ht & Hp). exists hs. split; [done|]. eapply rtc_r; [exact Hp|].
      eapply heads_step_mono; [|exact Hs]. intros g <-. right. by exists hs.
    + intros [Hu Hp]. split; [done|]. eapply rtc_r; [exact Hp|].
      eapply heads_step_mono; [|exact Hs]. by intros g <-.
Qed.

Lemma bridge_genesis_ok (gc : GrandpaPallet.GenesisConfig) (g : relay_pallet) (p : pallet) :
  GrandpaPallet.genesis_build gc GrandpaPallet.empty_pallet = Some g ->
  bridge_ok p (Bridge g p (genesis_init_data gc)).
Proof.
  unfold GrandpaPallet.genesis_build, bridge_ok. simpl.
  set (g0 := match GrandpaPallet.genesis_owner gc with Some _ => _ | None => _ end).
  assert (untouched g0) as Hu by (unfold g0; destruct (GrandpaPallet.genesis_owner gc); done).
  destruct (genesis_init_data gc) as [d|].
  - destruct (initialize_bridge d g0) as [g1| |] eqn:E; [|done|done]. intros [= <-].
    apply (initialize_bridge_tracks check_message_signature voter_set_new) in E
      as (Ht & Ha & _); [|done..].
    exists [init_header d]. rewrite Ha in Ht. split; [exact Ht|apply rtc_refl].
  - intros [= <-]. split; [by destruct Hu|apply rtc_refl].
Qed.

Lemma bridge_run_ok (gc : GrandpaPallet.GenesisConfig) (g0 : relay_pallet) (p0 : pallet) (b : bridge) :
  GrandpaPallet.genesis_build gc GrandpaPallet.empty_pallet = Some g0 ->
  rtc bridge_step (Bridge g0 p0 (genesis_init_data gc)) b -> bridge_ok p0 b.
Proof.
  intros Hg Hrun. apply (bridge_genesis_ok _ _ p0) in Hg. induction Hrun; eauto using bridge_step_ok.
Qed.

Lemma untouched_proves_nothing (para : Z) (e : imported Hash Bytes) :
  ~ proved parachain_head_storage_key decode_para_head para_head_hash encoded_size
      (untouched (AuthorityId := AuthorityId) (AccountId := AccountId)) para e.
Proof.
  intros (g & relay_hash & root & proof & c & head & [_ Hr] & Hh & _).
  unfold ring_of in Hr. injection Hr as _ _ Hemp. by rewrite Hemp, lookup_empty in Hh.
Qed.

Lemma head_read_value (root : Hash) (proof : list Node) (c : StorageProofChecker Node Hash)
  (para : Z) (head : Bytes) :
  checker_new root proof = Ok c -> head_read parachain_head_storage_key decode_para_head c para head ->
  db_contains (list_to_set proof : gset Node) root = true /\
  exists value,
    (read_trie_value (list_to_set proof) root (parachain_head_storage_key para)).2
      = Some (Some value) /\ decode_para_head value = Some head.
Proof.
  intros (-> & _ & Hroot)%checker_new_Ok. unfold head_read, read_parachain_head.
  unfold read_and_decode_value, read_value. simpl.
  destruct (read_trie_value _ _ _) as [seen [[value|]|]]; simpl; [|done..].
  destruct (decode_para_head value) eqn:Ed; simpl; [|done]. intros [= ->].
  split; [done|]. by exists value.
Qed.

Lemma proved_final (d : InitializationData Hdr AuthorityId) (hs : list Hdr) (para : Z)
  (e : imported Hash Bytes) :
  proved parachain_head_storage_key decode_para_head para_head_hash encoded_size
    (fun g => untouched g \/ relay_past d hs g) para e ->
  final_head hs para e.
Proof.
  intros (g & relay_hash & root & proof & c & head & [Hu|(hs' & Ht & Hs)] & Hrest).
  { destruct (untouched_proves_nothing para e). exists g, relay_hash, root, proof, c, head.
    by split. }
  destruct Hrest as (Hh & Hc & Hread & Hhead & Hbuild & _).
  apply tracks_stored in Ht as [_ Hstored]; [|done].
  apply Hstored in Hh as (i & h & Hi & _ & _ & Hdata).
  unfold stored_header_build in Hdata. injection Hdata as Hn Hroot. subst root.
  destruct (head_read_value _ _ _ _ _ Hc Hread) as (Hdb & value & Hv & Hd).
  exists h, proof, value, head. split_and!; try done.
  destruct Hs as [k ->]. apply elem_of_app. right. by eapply list_elem_of_lookup_2.
Qed.

End FinalHeads.

(** ** Storage bounds *)

Section Bounds.
Context `{WeightOps} `{!ParachainsConfig}.
Context {AccountId Hash AuthorityId Node Key Bytes : Type}.
Context `{EqDecision AccountId} `{Countable Hash} `{Countable AuthorityId}.
Context `{Trie Node Hash Key Bytes} (chains : list (Parachain Bytes Hash)).
Abbreviation pallet := (pallet AccountId Hash Bytes).
Context (parachain_head_storage_key : Z -> Key) (decode_para_head : Bytes -> option Bytes)
  (para_head_hash : Bytes -> Hash) (encoded_size : Bytes -> Z) (node_len : Node -> Z)
  (G : GrandpaPallet.pallet AccountId Hash AuthorityId -> Prop).

#[local] Instance tuple_builder : ParaStoredHeaderDataBuilder Bytes :=
  TupleParaStoredHeaderDataBuilder chains.

Definition tracked : gset Z := list_to_set (PARACHAIN_ID <$> chains).

Lemma tuple_try_build_tracked (cs : list (Parachain Bytes Hash)) (para : Z) (head data : Bytes) :
  tuple_try_build cs para head = Some data -> para ∈ PARACHAIN_ID <$> cs.
Proof.
  induction cs as [|c cs IH]; simpl; [done|]. unfold single_try_build.
  destruct (para =? PARACHAIN_ID c) eqn:E; [|intros ?; right; by apply IH].
  intros _. apply Z.eqb_eq in E as ->. left.
Qed.

Lemma supported_length (cs : list (Parachain Bytes Hash)) (n : Z) :
  0 <= n -> n + Z.of_nat (length cs) <= u32_max ->
  fold_left (fun result _ => wrapping_add u32_max result 1) cs n = n + Z.of_nat (length cs).
Proof.
  revert n. induction cs as [|c cs IH]; intros n Hn Hl; simpl in *; [lia|].
  rewrite wrapping_add_small by lia. rewrite IH; lia.
Qed.

(** Only tracked parachains leave anything in the storage. *)
Lemma untracked_empty (para : Z) (l : list (imported Hash Bytes)) (p : pallet) :
  para_ok parachain_head_storage_key decode_para_head para_head_hash encoded_size G para l p ->
  para ∉ tracked ->
  ParasInfo p !! para = None /\ row (ImportedParaHeads p) para = ∅ /\
  row (ImportedParaHashes p) para = ∅.
Proof.
  intros [Hb _ Hpr _ Hr] Hno. destruct l as [|e l].
  - simpl in *. specialize (Hr (NoDup_nil_2)). rewrite take_nil in Hr. split_and!.
    + by destruct (ParasInfo p !! para).
    + by pose proof (repr_items _ _ _ Hr).
    + by pose proof (ring_repr_no_slots _ _ Hr).
  - apply Forall_cons in Hpr as [(g & rh & root & proof & c & hd & _ & _ & _ & _ & _ & Hbuild & _) _].
    destruct Hno. apply elem_of_list_to_set. by eapply tuple_try_build_tracked.
Qed.

Hypothesis Hkeep : 0 < HeadsToKeep <= u32_max.

(** The storage declares bounds on the number of its entries, and they hold: with the builder
    for a tuple of at most 30 parachains, in every reachable state the pallet has at
    most [MaybeMaxParachains] parachain infos, and at most
    [MaybeMaxTotalParachainHashes] heads and as many hashes. *)
Theorem stored_heads_are_bounded (c : GenesisConfig (AccountId := AccountId)) (p : pallet) :
  (length chains <= 30)%nat -> Z.of_nat (length chains) * HeadsToKeep <= u32_max ->
  rtc (step parachain_head_storage_key decode_para_head para_head_hash encoded_size node_len G)
    (genesis_build c empty_pallet) p ->
  exists max_parachains max_hashes,
    MaybeMaxParachains = Some max_parachains /\ MaybeMaxTotalParachainHashes = Some max_hashes /\
    Z.of_nat (size (ParasInfo p)) <= max_parachains /\
    Z.of_nat (size (ImportedParaHeads p)) <= max_hashes /\
    Z.of_nat (size (ImportedParaHashes p)) <= max_hashes.
Proof.
  intros Hlen Hprod Hrun. apply run_ok in Hrun; [|done]. eexists _, _. split_and!; [done|done|..].
  all: unfold supported_parachains; simpl; rewrite supported_length by word.
  all: rewrite Z.add_0_l.
  all: assert (size tracked <= length chains)%nat as Htr
    by (unfold tracked; etrans; [apply size_list_to_set_le|]; by rewrite length_fmap).
  - rewrite <- (size_dom (D := gset Z)). assert (dom (ParasInfo p) ⊆ tracked) as Hs%subseteq_size.
    { intros para [info Hi]%elem_of_dom. destruct (decide (para ∈ tracked)) as [?|Hno]; [done|].
      destruct (Hrun para) as [l Hl]. apply untracked_empty in Hl as [? _]; [congruence|done]. }
    lia.
  - assert (Z.of_nat (size (ImportedParaHeads p)) <= Z.of_nat (size tracked) * HeadsToKeep) as Hs.
    { apply rows_size.
      - intros para h [x Hx]. destruct (decide (para ∈ tracked)) as [?|Hno]; [done|].
        destruct (Hrun para) as [l Hl]. apply untracked_empty in Hl as (_ & He & _); [|done].
        by rewrite <- lookup_row, He, lookup_empty in Hx.
      - intros para. destruct (Hrun para) as [l Hl].
        pose proof (po_bounded _ _ _ _ _ _ _ _ Hl) as [? ?]%ring_bounded_size. simpl in *. lia. }
    unfold saturating_mul. nia.
  - assert (Z.of_nat (size (ImportedParaHashes p)) <= Z.of_nat (size tracked) * HeadsToKeep) as Hs.
    { apply rows_size.
      - intros para h [x Hx]. destruct (decide (para ∈ tracked)) as [?|Hno]; [done|].
        destruct (Hrun para) as [l Hl]. apply untracked_empty in Hl as (_ & _ & He); [|done].
        by rewrite <- lookup_row, He, lookup_empty in Hx.
      - intros para. destruct (Hrun para) as [l Hl].
        pose proof (po_bounded _ _ _ _ _ _ _ _ Hl) as [? _]%ring_bounded_size. simpl in *. lia. }
    unfold saturating_mul. nia.
Qed.
End Bounds.

(** ** Two parachains behind a small relay chain *)
Module SmallHeads.

Record hdr := Hdr { h_number : Z; h_root : positive }.

#[global] Instance hdr_header : Header hdr positive := {|
  hdr_number := h_number;
  hdr_hash h := encode (h_number h, h_root h);
  hdr_parent_hash _ := 1%positive;
  hdr_state_root := h_root;
|}.

#[global] Instance hdr_grandpa : GrandpaHeader hdr unit Z := {|
  hdr_digest _ := [];
  grandpa_log _ := None;
|}.

#[global] Instance config : ParachainsConfig := {|
  HeadsToKeep := 2;
  MaxParaHeadDataSize := 100;
  DbWeight := {| db_read := 25; db_write := 100 |};
  submit_parachain_heads_with_n_parachains n := from_parts (1000 * n) 5000;
  submit_parachain_heads_with_1kb_proof := from_parts 2000 5000;
  submit_parachain_heads_with_16kb_proof := from_parts 20000 5000;
  expected_extra_storage_proof_size := EXTRA_STORAGE_PROOF_SIZE;
|}.

Definition chain (id : Z) : Parachain Z positive :=
  Parachain_ id (fun b => Some (b, encode b)) sh_number (fun b => Some (StoredHeader b (encode b))).

Definition chains : list (Parachain Z positive) := [chain 1; chain 2].
#[global] Instance builder : ParaStoredHeaderDataBuilder Z := TupleParaStoredHeaderDataBuilder chains.

Definition head_hash_of (head : Z) : positive := encode head.

Abbreviation submit := (submit_parachain_heads (AccountId := Z) (AuthorityId := Z)
  (fun para => para) Some head_hash_of (fun _ => 40) (fun _ => 60)).

Definition relay_header : hdr := Hdr 5 (SmallTrie.hash SmallTrie.top).
Definition relay_hash : positive := hdr_hash relay_header.

Definition g : GrandpaPallet.pallet Z positive Z :=
  GrandpaPallet.Pallet 0 (Some relay_hash) (Some (HeaderId_ 5 relay_hash)) {[0 := relay_hash]} 1
    {[relay_hash := StoredHeader 5 (SmallTrie.hash SmallTrie.top)]} (Authorities [] 0) None Normal.

Lemma g_genesis :
  GrandpaPallet.genesis_build (GrandpaPallet.Genesis None (Some (InitData relay_header [] 0 Normal)))
    GrandpaPallet.empty_pallet = Some g.
Proof. reflexivity. Qed.

Definition genesis : GenesisConfig (AccountId := Z) := Genesis Normal None.
Definition p0 : pallet Z positive Z := genesis_build genesis empty_pallet.
Definition p1 : pallet Z positive Z :=
  Pallet None Normal {[2 := ParaInfo_ (BestHead 5 (head_hash_of 42)) 1]}
    {[(2, head_hash_of 42) := 42]} {[(2, 0) := head_hash_of 42]}
    [UpdatedParachainHead 2 (head_hash_of 42)].

Lemma heads_submitted :
  exists info, submit g p0 (5, relay_hash) [(2, head_hash_of 42)] SmallTrie.short_proof = Ok (info, p1).
Proof.
  assert (match submit g p0 (5, relay_hash) [(2, head_hash_of 42)] SmallTrie.short_proof with
          | Ok (_, p) => Some p
          | _ => None
          end = Some p1) as Hp by (vm_compute; reflexivity).
  destruct (submit _ _ _ _ _) as [[info q]| |]; [|discriminate Hp..].
  injection Hp as ->. exists info. reflexivity.
Qed.

Lemma HeadsToKeep_ok : 0 < HeadsToKeep <= u32_max.
Proof. simpl. word. Qed.

Lemma head_hash_number (h1 h2 : hdr) : hdr_hash h1 = hdr_hash h2 -> hdr_number h1 = hdr_number h2.
Proof. simpl. intros Heq. apply (inj encode) in Heq. congruence. Qed.

Abbreviation no_signatures := (fun _ _ (_ : Z) _ _ => false).

Lemma g_reachable :
  relay_reachable (Hdr := hdr) no_signatures SmallBridge.voters_new (fun _ => 0) (fun _ => 0) g.
Proof. eexists _, g. split; [exact g_genesis|]. apply rtc_refl. Qed.

Lemma heads_reachable (G : GrandpaPallet.pallet Z positive Z -> Prop) :
  G g -> rtc (step (fun para => para) Some head_hash_of (fun _ => 40) (fun _ => 60) G) p0 p1.
Proof. intros Hg. destruct heads_submitted as [info Hs]. by eapply rtc_once, StepSubmit. Qed.

Definition init_data : InitializationData hdr Z := InitData relay_header [] 0 Normal.
Definition b1 := Bridge g p1 (Some init_data).

Lemma b1_reachable :
  rtc (bridge_step no_signatures SmallBridge.voters_new (fun _ => 0) (fun _ => 0) (fun para => para)
         Some head_hash_of (fun _ => 40) (fun _ => 60)) (Bridge g p0 (Some init_data)) b1.
Proof.
  destruct heads_submitted as [info Hs]. eapply rtc_once, BridgeParas. by eapply StepSubmit.
Qed.
End SmallHeads.


Lemma submit_parachain_heads_correct_witness :
  0 < HeadsToKeep <= u32_max /\
  match SmallHeads.submit SmallHeads.g SmallHeads.p0 (5, SmallHeads.relay_hash)
          [(2, SmallHeads.head_hash_of 42)] SmallTrie.short_proof with
  | Ok (_, p') => was_successful p' (HeadsInfo 5 2 (SmallHeads.head_hash_of 42)) = true
  | _ => False
  end.
Proof.
  split; [exact SmallHeads.HeadsToKeep_ok|].
  pose proof (submit_parachain_heads_correct (fun para => para) Some SmallHeads.head_hash_of
    (fun _ => 40) (fun _ => 60) SmallHeads.HeadsToKeep_ok SmallHeads.g SmallHeads.p0 5 SmallHeads.relay_hash
    [(2, SmallHeads.head_hash_of 42)] SmallTrie.short_proof) as H.
  destruct SmallHeads.heads_submitted as [info Hs]. rewrite Hs in H |- *.
  destruct H as (root & c & _ & _ & _ & _ & _ & _ & Hpara).
  destruct (Hpara 2) as [(h & data & Hin & _ & Hi & _)|[_ [Hi _]]]; [|discriminate Hi].
  vm_compute. reflexivity.
Defined.

Lemma refunded_weight_is_lost_witness :
  let declared := declared_weight (fun _ : SmallTrie.node => 60) [(2, SmallHeads.head_hash_of 42)]
                    SmallTrie.short_proof in
  exists info c' left,
    SmallHeads.submit SmallHeads.g SmallHeads.p0 (5, SmallHeads.relay_hash)
      [(2, SmallHeads.head_hash_of 42)] SmallTrie.short_proof = Ok (info, SmallHeads.p1) /\
    actual_weight info = Some declared /\
    submit_heads (fun para => para) Some SmallHeads.head_hash_of (fun _ => 40) 5 SmallTrie.short
      SmallHeads.p0 declared [(2, SmallHeads.head_hash_of 42)]
      = (Ok (c', SmallHeads.p1, left) : outcome (HeaderChainError StorageProofError) _) /\
    ref_time declared = 1100 /\ ref_time left = 1000.
Proof.
  intros declared. destruct SmallHeads.heads_submitted as [info Hs].
  destruct (refunded_weight_is_lost (fun para => para) Some SmallHeads.head_hash_of (fun _ => 40)
    (fun _ => 60) SmallHeads.g SmallHeads.p0 SmallHeads.p1 5 SmallHeads.relay_hash
    [(2, SmallHeads.head_hash_of 42)] SmallTrie.short_proof info Hs)
    as (Hw & root & c & c' & left & Hh & Hc & Hloop & _).
  assert (root = SmallTrie.hash SmallTrie.top) as ->.
  { assert (ImportedHeaders SmallHeads.g !! SmallHeads.relay_hash =
      Some (StoredHeader 5 (SmallTrie.hash SmallTrie.top))) as Hg by (vm_compute; reflexivity).
    rewrite Hg in Hh. injection Hh as ->. reflexivity. }
  rewrite SmallTrie.short_accepted in Hc. injection Hc as <-.
  exists info, c', left. split; [exact Hs|]. split; [exact Hw|]. split; [exact Hloop|].
  split; [vm_compute; reflexivity|].
  assert (match submit_heads (fun para => para) Some SmallHeads.head_hash_of (fun _ => 40) 5
            SmallTrie.short SmallHeads.p0 declared [(2, SmallHeads.head_hash_of 42)]
            : outcome (HeaderChainError StorageProofError) _ with
          | Ok (_, _, w) => Some (ref_time w)
          | _ => None
          end = Some 1000) as Hr by (vm_compute; reflexivity).
  unfold declared in Hr. rewrite Hloop in Hr. injection Hr as Hr. exact Hr.
Defined.

Lemma obsolete_heads_check_agrees_witness :
  best_parachain_info SmallHeads.p1 2 <> best_parachain_info SmallHeads.p0 2.
Proof.
  destruct SmallHeads.heads_submitted as [info Hs].
  apply (obsolete_heads_check_agrees (fun para => para) Some SmallHeads.head_hash_of (fun _ => 40)
    (fun _ => 60) SmallHeads.HeadsToKeep_ok SmallHeads.g SmallHeads.p0 SmallHeads.p1 5
    SmallHeads.relay_hash 2 (SmallHeads.head_hash_of 42) SmallTrie.short_proof info Hs).
  split; vm_compute; reflexivity.
Defined.

Lemma stored_heads_are_bounded_witness :
  exists max_parachains max_hashes,
    MaybeMaxParachains = Some max_parachains /\ MaybeMaxTotalParachainHashes = Some max_hashes /\
    Z.of_nat (size (ParasInfo SmallHeads.p1)) <= max_parachains /\
    Z.of_nat (size (ImportedParaHeads SmallHeads.p1)) <= max_hashes /\
    Z.of_nat (size (ImportedParaHashes SmallHeads.p1)) <= max_hashes.
Proof.
  refine (stored_heads_are_bounded SmallHeads.chains (fun para => para) Some
    SmallHeads.head_hash_of (fun _ => 40) (fun _ => 60) (fun _ => True) SmallHeads.HeadsToKeep_ok
    SmallHeads.genesis SmallHeads.p1 _ _ (SmallHeads.heads_reachable _ I)).
  - vm_compute. repeat constructor.
  - simpl. word.
Defined.
