(* ===== verification/BeefyPallet.v ===== *)
(** * modules/beefy/src: the BEEFY light client pallet

    lib.rs (calls and storage) and utils.rs (verification of commitments and MMR
    leaves), with the data of primitives/beefy.  Parameters: the signature check and the
    encoding of commitments, the decoding of the MMR root in a payload, the Merkle root
    of an authority set, the hash of an MMR leaf and the MMR proof check. *)

From S2P Require Import Prelude RingBuffer Substrate RuntimePrimitives.
From stdpp Require Import base numbers list gmap relations sets.
Local Open Scope Z_scope.

(** ** Data *)

Record BeefyAuthoritySetInfo (MmrHash : Type) := AuthoritySetInfo {
  info_id : Z;
  info_len : Z;
  info_root : MmrHash;
}.
Arguments AuthoritySetInfo {MmrHash} _ _ _.
Arguments info_id {MmrHash} _.
Arguments info_len {MmrHash} _.
Arguments info_root {MmrHash} _.

Record BeefyAuthoritySet (AuthorityId : Type) := AuthoritySet_ {
  validators : list AuthorityId;
  validators_id : Z;
}.
Arguments AuthoritySet_ {AuthorityId} _ _.
Arguments validators {AuthorityId} _.
Arguments validators_id {AuthorityId} _.

Record BeefyCommitment (Payload : Type) := Commitment {
  payload : Payload;
  block_number : Z;
  validator_set_id : Z;
}.
Arguments Commitment {Payload} _ _ _.
Arguments payload {Payload} _.
Arguments block_number {Payload} _.
Arguments validator_set_id {Payload} _.

Record SignedCommitment (Payload Signature : Type) := Signed_ {
  commitment : BeefyCommitment Payload;
  signatures : list (option Signature);
}.
Arguments Signed_ {Payload Signature} _ _.
Arguments commitment {Payload Signature} _.
Arguments signatures {Payload Signature} _.

Record BeefyMmrLeaf (Hash MmrHash Extra : Type) := MmrLeaf {
  leaf_parent_number_and_hash : Z * Hash;
  beefy_next_authority_set : BeefyAuthoritySetInfo MmrHash;
  leaf_extra : Extra;
}.
Arguments MmrLeaf {Hash MmrHash Extra} _ _ _.
Arguments leaf_parent_number_and_hash {Hash MmrHash Extra} _.
Arguments beefy_next_authority_set {Hash MmrHash Extra} _.
Arguments leaf_extra {Hash MmrHash Extra} _.

Record ImportedCommitment (Hash MmrHash : Type) := Imported {
  parent_number_and_hash : Z * Hash;
  mmr_root : MmrHash;
}.
Arguments Imported {Hash MmrHash} _ _.
Arguments parent_number_and_hash {Hash MmrHash} _.
Arguments mmr_root {Hash MmrHash} _.

Record ImportedCommitmentsInfoData := InfoData {
  best_block_number : Z;
  next_block_number_index : Z;
}.

Record InitializationData (MmrHash : Type) := InitData {
  init_operating_mode : BasicOperatingMode;
  init_best_block_number : Z;
  init_authority_set : BeefyAuthoritySetInfo MmrHash;
}.
Arguments InitData {MmrHash} _ _ _.
Arguments init_operating_mode {MmrHash} _.
Arguments init_best_block_number {MmrHash} _.
Arguments init_authority_set {MmrHash} _.

Inductive Error :=
| NotInitialized
| AlreadyInitialized
| InvalidInitialAuthoritySet
| TooManyRequests
| OldCommitment
| InvalidCommitmentValidatorSetId
| InvalidValidatorSetId
| InvalidCommitmentSignaturesLen
| InvalidValidatorSetLen
| NotEnoughCorrectSignatures
| MmrRootMissingFromCommitment
| MmrProofVerificationFailed
| InvalidValidatorSetRoot
| BridgeModule (e : OwnedBridgeModuleError).

Class BeefyConfig := {
  MaxRequests : Z;
  CommitmentsToKeep : Z;
}.

Record pallet (AccountId Hash MmrHash : Type) := Pallet {
  RequestCount : Z;
  ImportedCommitmentsInfo : option ImportedCommitmentsInfoData;
  ImportedBlockNumbers : gmap Z Z;
  ImportedCommitments : gmap Z (ImportedCommitment Hash MmrHash);
  CurrentAuthoritySetInfo : BeefyAuthoritySetInfo MmrHash;
  PalletOwner : option AccountId;
  PalletOperatingMode : BasicOperatingMode;
}.
Arguments Pallet {AccountId Hash MmrHash} _ _ _ _ _ _ _.
Arguments RequestCount {AccountId Hash MmrHash} _.
Arguments ImportedCommitmentsInfo {AccountId Hash MmrHash} _.
Arguments ImportedBlockNumbers {AccountId Hash MmrHash} _.
Arguments ImportedCommitments {AccountId Hash MmrHash} _.
Arguments CurrentAuthoritySetInfo {AccountId Hash MmrHash} _.
Arguments PalletOwner {AccountId Hash MmrHash} _.
Arguments PalletOperatingMode {AccountId Hash MmrHash} _.

Section Beefy.
Context `{BeefyConfig}.
Context {AccountId Hash MmrHash AuthorityId Signature Payload Message Extra MmrProof MerkleLeaf : Type}.
Context `{EqDecision AccountId} `{EqDecision MmrHash}.
Abbreviation pallet := (pallet AccountId Hash MmrHash).
Abbreviation SignedCommitment := (SignedCommitment Payload Signature).
Abbreviation BeefyAuthoritySet := (BeefyAuthoritySet AuthorityId).
Abbreviation BeefyAuthoritySetInfo := (BeefyAuthoritySetInfo MmrHash).
Abbreviation BeefyMmrLeaf := (BeefyMmrLeaf Hash MmrHash Extra).

Variables (encode_commitment : BeefyCommitment Payload -> Message)
  (verify : AuthorityId -> Signature -> Message -> bool)
  (get_mmr_root : Payload -> option MmrHash)
  (to_merkle_leaf : AuthorityId -> MerkleLeaf) (merkle_root : list MerkleLeaf -> MmrHash)
  (hash_leaf : BeefyMmrLeaf -> MmrHash)
  (verify_mmr_leaves_proof : MmrHash -> list MmrHash -> MmrProof -> bool).

(** ** utils.rs *)

Definition get_authorities_mmr_root (authorities : list AuthorityId) : MmrHash :=
  let merkle_leafs := to_merkle_leaf <$> authorities in
  merkle_root merkle_leafs.

Definition verify_authority_set (authority_set_info : BeefyAuthoritySetInfo)
  (authority_set : BeefyAuthoritySet) : outcome Error unit :=
  check? ensure (validators_id authority_set =? info_id authority_set_info) InvalidValidatorSetId in
  check? ensure (Z.of_nat (length (validators authority_set)) =? info_len authority_set_info)
    InvalidValidatorSetLen in
  let root := get_authorities_mmr_root (validators authority_set) in
  ensure (bool_decide (root = info_root authority_set_info)) InvalidValidatorSetRoot.

Definition signatures_required (validators_len : Z) : Z :=
  validators_len - saturating_sub validators_len 1 / 3.

(** The loop over the validators and their signatures, with its early exit. *)
Fixpoint count_signatures (msg : Message) (l : list (AuthorityId * option Signature))
  (missing_signatures : Z) : Z :=
  match l with
  | [] => missing_signatures
  | (authority, maybe_sig) :: l =>
      match maybe_sig with
      | Some sig =>
          if verify authority sig msg then
            let missing_signatures := saturating_sub missing_signatures 1 in
            if missing_signatures =? 0 then missing_signatures
            else count_signatures msg l missing_signatures
          else count_signatures msg l missing_signatures
      | None => count_signatures msg l missing_signatures
      end
  end.

Definition verify_signatures (c : SignedCommitment) (authority_set : BeefyAuthoritySet) :
  outcome Error unit :=
  check? ensure (Z.of_nat (length (signatures c)) =? Z.of_nat (length (validators authority_set)))
    InvalidCommitmentSignaturesLen in
  let msg := encode_commitment (commitment c) in
  let missing_signatures := signatures_required (Z.of_nat (length (validators authority_set))) in
  let missing_signatures :=
    count_signatures msg (zip (validators authority_set) (signatures c)) missing_signatures in
  ensure (missing_signatures =? 0) NotEnoughCorrectSignatures.

Definition extract_mmr_root (c : SignedCommitment) : outcome Error MmrHash :=
  ok_or (get_mmr_root (payload (commitment c))) MmrRootMissingFromCommitment.

Definition verify_commitment (c : SignedCommitment) (authority_set_info : BeefyAuthoritySetInfo)
  (authority_set : BeefyAuthoritySet) : outcome Error MmrHash :=
  check? ensure (validator_set_id (commitment c) =? info_id authority_set_info)
    InvalidCommitmentValidatorSetId in
  check? ensure (Z.of_nat (length (signatures c)) =? info_len authority_set_info)
    InvalidCommitmentSignaturesLen in
  check? verify_authority_set authority_set_info authority_set in
  check? verify_signatures c authority_set in
  extract_mmr_root c.

Definition verify_beefy_mmr_leaf (mmr_leaf : BeefyMmrLeaf) (mmr_proof : MmrProof)
  (mmr_root : MmrHash) : outcome Error unit :=
  let mmr_leaf_hash := hash_leaf mmr_leaf in
  ensure (verify_mmr_leaves_proof mmr_root [mmr_leaf_hash] mmr_proof) MmrProofVerificationFailed.

(** ** lib.rs *)

Definition empty_pallet (default_root : MmrHash) : pallet :=
  Pallet 0 None ∅ ∅ (AuthoritySetInfo 0 0 default_root) None Normal.

Definition put_request_count (n : Z) (p : pallet) : pallet :=
  Pallet n (ImportedCommitmentsInfo p) (ImportedBlockNumbers p) (ImportedCommitments p)
    (CurrentAuthoritySetInfo p) (PalletOwner p) (PalletOperatingMode p).

Definition put_authority_set (a : BeefyAuthoritySetInfo) (p : pallet) : pallet :=
  Pallet (RequestCount p) (ImportedCommitmentsInfo p) (ImportedBlockNumbers p)
    (ImportedCommitments p) a (PalletOwner p) (PalletOperatingMode p).

Definition put_mode (m : BasicOperatingMode) (p : pallet) : pallet :=
  Pallet (RequestCount p) (ImportedCommitmentsInfo p) (ImportedBlockNumbers p)
    (ImportedCommitments p) (CurrentAuthoritySetInfo p) (PalletOwner p) m.

#[global] Instance beefy_module : OwnedBridgeModule pallet AccountId BasicOperatingMode := {|
  owner_storage := PalletOwner;
  put_owner o p :=
    Pallet (RequestCount p) (ImportedCommitmentsInfo p) (ImportedBlockNumbers p)
      (ImportedCommitments p) (CurrentAuthoritySetInfo p) o (PalletOperatingMode p);
  operating_mode_storage := PalletOperatingMode;
  put_operating_mode := put_mode;
|}.

#[global] Instance beefy_module_laws : OwnedBridgeModuleLaws pallet AccountId BasicOperatingMode.
Proof. by split. Qed.

Definition on_initialize (p : pallet) : pallet :=
  put_request_count (saturating_sub (RequestCount p) 1) p.

Definition initialize (init_data : InitializationData MmrHash) (p : pallet) : outcome Error pallet :=
  if info_len (init_authority_set init_data) =? 0 then Err InvalidInitialAuthoritySet
  else
    Ok (Pallet (RequestCount p) (Some (InfoData (init_best_block_number init_data) 0))
          (ImportedBlockNumbers p) (ImportedCommitments p) (init_authority_set init_data)
          (PalletOwner p) (init_operating_mode init_data)).

Definition initialize_call (p : pallet) (origin : RawOrigin AccountId)
  (init_data : InitializationData MmrHash) : outcome (DispatchError Error) pallet :=
  check? ensure_owner_or_root p origin in
  let is_initialized := bool_decide (is_Some (ImportedCommitmentsInfo p)) in
  check? ensure (negb is_initialized) (ModuleError AlreadyInitialized) in
  map_err ModuleError (initialize init_data p).

(** Importing the commitment; [CommitmentsToKeep] is the divisor of a remainder. *)
Definition import_commitment (info : ImportedCommitmentsInfoData) (number : Z)
  (data : ImportedCommitment Hash MmrHash) (p : pallet) : outcome Error pallet :=
  let block_number_index := next_block_number_index info in
  let to_prune := ImportedBlockNumbers p !! block_number_index in
  let commitments := <[number := data]> (ImportedCommitments p) in
  let numbers := <[block_number_index := number]> (ImportedBlockNumbers p) in
  if CommitmentsToKeep =? 0 then Panic
  else
    let info := InfoData number (wrapping_add u32_max block_number_index 1 mod CommitmentsToKeep) in
    let commitments :=
      match to_prune with
      | Some old_block_number => delete old_block_number commitments
      | None => commitments
      end in
    Ok (Pallet (RequestCount p) (Some info) numbers commitments (CurrentAuthoritySetInfo p)
          (PalletOwner p) (PalletOperatingMode p)).

Definition submit_commitment (p : pallet) (origin : RawOrigin AccountId) (c : SignedCommitment)
  (validator_set : BeefyAuthoritySet) (mmr_leaf : BeefyMmrLeaf) (mmr_proof : MmrProof) :
  outcome (DispatchError Error) pallet :=
  check? map_err ModuleError (map_err BridgeModule (ensure_not_halted p)) in
  check? ensure_signed origin in
  check? ensure (RequestCount p <? MaxRequests) (ModuleError TooManyRequests) in
  let? commitments_info := ok_or (ImportedCommitmentsInfo p) (ModuleError NotInitialized) in
  check? ensure (best_block_number commitments_info <? block_number (commitment c))
    (ModuleError OldCommitment) in
  let current_authority_set_info := CurrentAuthoritySetInfo p in
  let? mmr_root :=
    map_err ModuleError (verify_commitment c current_authority_set_info validator_set) in
  check? map_err ModuleError (verify_beefy_mmr_leaf mmr_leaf mmr_proof mmr_root) in
  let p := put_request_count (wrapping_add u32_max (RequestCount p) 1) p in
  let p :=
    if info_id current_authority_set_info <? info_id (beefy_next_authority_set mmr_leaf)
    then put_authority_set (beefy_next_authority_set mmr_leaf) p
    else p in
  map_err ModuleError
    (import_commitment commitments_info (block_number (commitment c))
       (Imported (leaf_parent_number_and_hash mmr_leaf) mmr_root) p).

Record GenesisConfig := Genesis {
  genesis_owner : option AccountId;
  genesis_init_data : option (InitializationData MmrHash);
}.

(** [None] is the failed [expect]. *)
Definition genesis_build (c : GenesisConfig) (p : pallet) : option pallet :=
  let p := match genesis_owner c with Some owner => put_owner (Some owner) p | None => p end in
  match genesis_init_data c with
  | Some init_data =>
      match initialize init_data p with
      | Ok p => Some p
      | _ => None
      end
  | None => Some (put_mode Halted p)
  end.
End Beefy.

(** ** Signatures *)

Section Signatures.
Context {AuthorityId Signature Payload Message : Type}.
Context (encode_commitment : BeefyCommitment Payload -> Message)
  (verify : AuthorityId -> Signature -> Message -> bool).

Definition signed_entry (msg : Message) (entry : AuthorityId * option Signature) : bool :=
  match entry.2 with
  | Some sig => verify entry.1 sig msg
  | None => false
  end.

(** The positions of the validators whose signature is correct. *)
Fixpoint signer_indices (msg : Message) (i : nat) (l : list (AuthorityId * option Signature)) :
  list nat :=
  match l with
  | [] => []
  | entry :: l =>
      if signed_entry msg entry then i :: signer_indices msg (S i) l else signer_indices msg (S i) l
  end.

Lemma signer_indices_elem (msg : Message) (l : list (AuthorityId * option Signature)) (i j : nat) :
  j ∈ signer_indices msg i l <->
  exists k entry, j = (i + k)%nat /\ l !! k = Some entry /\ signed_entry msg entry = true.
Proof.
  revert i. induction l as [|x l IH]; intros i; simpl.
  { split; [by intros ?%not_elem_of_nil|]. by intros (k & e & _ & ? & _). }
  assert (j ∈ signer_indices msg (S i) l <->
    exists k entry, j = (i + S k)%nat /\ l !! k = Some entry /\ signed_entry msg entry = true) as Hl.
  { rewrite IH. by setoid_rewrite Nat.add_succ_r. }
  destruct (signed_entry msg x) eqn:E; [rewrite elem_of_cons|]; rewrite Hl; split.
  - intros [->|(k & e & -> & Hk & He)]; [exists 0%nat, x|exists (S k), e]; split_and!; try done; lia.
  - intros ([|k] & e & -> & Hk & He); [left; lia|right]. by exists k, e.
  - intros (k & e & -> & Hk & He). by exists (S k), e.
  - intros ([|k] & e & -> & Hk & He); simplify_eq/=; [congruence|]. by exists k, e.
Qed.

Lemma signer_indices_NoDup (msg : Message) (l : list (AuthorityId * option Signature)) (i : nat) :
  NoDup (signer_indices msg i l).
Proof.
  revert i. induction l as [|x l IH]; intros i; simpl; [constructor|].
  destruct (signed_entry msg x); [|done]. constructor; [|done].
  intros (k & e & Hk & _)%signer_indices_elem. lia.
Qed.

(** The early exit does not change the result. *)
Lemma count_signatures_spec (msg : Message) (l : list (AuthorityId * option Signature)) (m : Z)
  (i : nat) :
  0 <= m ->
  count_signatures verify msg l m = saturating_sub m (Z.of_nat (length (signer_indices msg i l))).
Proof.
  revert m i. induction l as [|[a [s|]] l IH]; intros m i Hm; simpl; [word| |by rewrite (IH _ (S i))].
  unfold signed_entry; simpl. destruct (verify a s msg); [|by rewrite (IH _ (S i))]. simpl.
  destruct (saturating_sub m 1 =? 0) eqn:E; [word|]. rewrite (IH _ (S i)) by word. word.
Qed.

(** [c] carries a correct signature of the [i]-th validator of [set]. *)
Definition signed_by (c : SignedCommitment Payload Signature) (set : BeefyAuthoritySet AuthorityId)
  (i : nat) : Prop :=
  exists a sig, validators set !! i = Some a /\ signatures c !! i = Some (Some sig) /\
    verify a sig (encode_commitment (commitment c)) = true.

Definition signers (c : SignedCommitment Payload Signature) (set : BeefyAuthoritySet AuthorityId) :
  list nat :=
  signer_indices (encode_commitment (commitment c)) 0 (zip (validators set) (signatures c)).

Lemma signers_elem (c : SignedCommitment Payload Signature) (set : BeefyAuthoritySet AuthorityId)
  (i : nat) : i ∈ signers c set <-> signed_by c set i.
Proof.
  unfold signers, signed_by, signed_entry. rewrite signer_indices_elem. split.
  - intros (k & [a s] & -> & (Ha & Hs)%lookup_zip_Some & He). simpl in *.
    destruct s as [s|]; [|done]. by exists a, s.
  - intros (a & s & Ha & Hs & Hv). exists i, (a, Some s). split_and!; try done.
    by apply lookup_zip_Some.
Qed.

Lemma signatures_required_spec (n : Z) :
  1 <= n -> 2 * n < 3 * signatures_required n <= 2 * n + 3 /\ 1 <= signatures_required n <= n.
Proof.
  intros Hn. unfold signatures_required, saturating_sub. rewrite Z.max_r by lia.
  pose proof (Z.div_mod (n - 1) 3 ltac:(lia)). pose proof (Z.mod_pos_bound (n - 1) 3 ltac:(lia)). lia.
Qed.

(** The required number is the least one above two thirds. *)
Lemma enough_signatures (n k : Z) :
  0 <= n -> 0 <= k -> signatures_required n <= k <-> n = 0 \/ 2 * n < 3 * k.
Proof.
  intros Hn Hk. destruct (decide (n = 0)) as [->|Hne].
  { split; [by left|]. intros _. done. }
  pose proof (signatures_required_spec n ltac:(lia)). lia.
Qed.

Lemma verify_signatures_iff (c : SignedCommitment Payload Signature)
  (set : BeefyAuthoritySet AuthorityId) :
  verify_signatures encode_commitment verify c set = Ok tt <->
  length (signatures c) = length (validators set) /\
  signatures_required (Z.of_nat (length (validators set))) <= Z.of_nat (length (signers c set)).
Proof.
  unfold verify_signatures. set (n := Z.of_nat (length (validators set))).
  assert (0 <= signatures_required n) as Hreq.
  { destruct (decide (1 <= n)) as [Hn|]; [pose proof (signatures_required_spec n Hn); lia|].
    assert (n = 0) as -> by (unfold n in *; lia). done. }
  destruct (_ =? n) eqn:El; unfold n in El; simpl; [|split; [done|lia]].
  rewrite (count_signatures_spec _ _ _ 0) by done. unfold signers.
  destruct (saturating_sub _ _ =? 0) eqn:Em; simpl; unfold n in *.
  - split; [intros _|done]. word.
  - split; [done|]. word.
Qed.
End Signatures.

(** ** The history behind a state *)

Section History.
Context `{BeefyConfig}.
Context {AccountId Hash MmrHash AuthorityId Signature Payload Message Extra MmrProof MerkleLeaf : Type}.
Context `{EqDecision AccountId} `{EqDecision MmrHash}.
Abbreviation pallet := (pallet AccountId Hash MmrHash).
Abbreviation SignedCommitment := (SignedCommitment Payload Signature).
Abbreviation BeefyAuthoritySet := (BeefyAuthoritySet AuthorityId).
Abbreviation BeefyAuthoritySetInfo := (BeefyAuthoritySetInfo MmrHash).
Abbreviation BeefyMmrLeaf := (BeefyMmrLeaf Hash MmrHash Extra).
Abbreviation ImportedCommitment := (ImportedCommitment Hash MmrHash).
Context (encode_commitment : BeefyCommitment Payload -> Message)
  (verify : AuthorityId -> Signature -> Message -> bool)
  (get_mmr_root : Payload -> option MmrHash)
  (to_merkle_leaf : AuthorityId -> MerkleLeaf) (merkle_root : list MerkleLeaf -> MmrHash)
  (hash_leaf : BeefyMmrLeaf -> MmrHash)
  (verify_mmr_leaves_proof : MmrHash -> list MmrHash -> MmrProof -> bool).
Abbreviation verify_commitment :=
  (verify_commitment encode_commitment verify get_mmr_root to_merkle_leaf merkle_root).
Abbreviation submit_commitment :=
  (submit_commitment encode_commitment verify get_mmr_root to_merkle_leaf merkle_root hash_leaf
     verify_mmr_leaves_proof).

(** [set] is the authority set that [info] describes. *)
Definition describes (info : BeefyAuthoritySetInfo) (set : BeefyAuthoritySet) : Prop :=
  validators_id set = info_id info /\ Z.of_nat (length (validators set)) = info_len info /\
  merkle_root (to_merkle_leaf <$> validators set) = info_root info.

(** More than two thirds of the set described by [info] have signed [c]; a set without members
    needs no signatures. *)
Definition well_signed (c : SignedCommitment) (info : BeefyAuthoritySetInfo) (set : BeefyAuthoritySet) :
  Prop :=
  validator_set_id (commitment c) = info_id info /\ describes info set /\
  length (signatures c) = length (validators set) /\
  (info_len info = 0 \/
   2 * info_len info < 3 * Z.of_nat (length (signers encode_commitment verify c set))).

Lemma verify_authority_set_iff (info : BeefyAuthoritySetInfo) (set : BeefyAuthoritySet) :
  verify_authority_set to_merkle_leaf merkle_root info set = Ok tt <-> describes info set.
Proof.
  unfold verify_authority_set, get_authorities_mmr_root, describes.
  destruct (validators_id set =? info_id info) eqn:Ei; simpl; [|split; [done|lia]].
  destruct (_ =? info_len info) eqn:El; simpl; [|split; [done|lia]].
  case_bool_decide; simpl; (split; [|naive_solver]); [|done]. intros _. split_and!; [lia|lia|done].
Qed.

Lemma verify_commitment_iff (c : SignedCommitment) (info : BeefyAuthoritySetInfo)
  (set : BeefyAuthoritySet) (root : MmrHash) :
  verify_commitment c info set = Ok root <->
  well_signed c info set /\ get_mmr_root (payload (commitment c)) = Some root.
Proof.
  unfold BeefyPallet.verify_commitment, well_signed, extract_mmr_root.
  destruct (validator_set_id (commitment c) =? info_id info) eqn:Ei; simpl; [|split; [done|lia]].
  destruct (Z.of_nat (length (signatures c)) =? info_len info) eqn:El; simpl.
  2: { split; [done|]. intros ((_ & (_ & Hd & _) & Hlen & _) & _). rewrite Hlen in El. lia. }
  destruct (verify_authority_set _ _ info set) as [[]|e|] eqn:Ea; simpl.
  2-3: split; [done|]; intros ((_ & Hd%verify_authority_set_iff & _) & _); congruence.
  apply verify_authority_set_iff in Ea. pose proof Ea as (_ & Hlen & _). rewrite <- Hlen.
  rewrite <- enough_signatures by lia.
  destruct (verify_signatures _ _ c set) as [[]|e|] eqn:Es; simpl.
  2-3: split; [done|]; intros ((_ & _ & Hs) & _); apply verify_signatures_iff in Hs; congruence.
  apply verify_signatures_iff in Es as []. rewrite ok_or_Ok. split; [|naive_solver].
  intros ->. split_and!; try done. lia.
Qed.

Definition next_set (a : BeefyAuthoritySetInfo) (leaf : BeefyMmrLeaf) : BeefyAuthoritySetInfo :=
  if info_id a <? info_id (beefy_next_authority_set leaf) then beefy_next_authority_set leaf else a.

Definition newest (n0 : Z) (l : list (Z * ImportedCommitment)) : Z := default n0 (fst <$> head l).

(** [l] (newest first) are the commitments that were imported one after another,
    starting with the authority set [a0] and the best block [n0]: each is for a higher
    block and signed by more than two thirds of the set in force, and the set only
    changes to a newer one found in a leaf of the MMR that the commitment commits to. *)
Inductive commitment_chain (a0 : BeefyAuthoritySetInfo) (n0 : Z) :
  list (Z * ImportedCommitment) -> BeefyAuthoritySetInfo -> Prop :=
| cc_init : commitment_chain a0 n0 [] a0
| cc_import l a c set (leaf : BeefyMmrLeaf) proof root :
    commitment_chain a0 n0 l a ->
    newest n0 l < block_number (commitment c) ->
    well_signed c a set -> get_mmr_root (payload (commitment c)) = Some root ->
    verify_mmr_leaves_proof root [hash_leaf leaf] proof = true ->
    commitment_chain a0 n0
      ((block_number (commitment c), Imported (leaf_parent_number_and_hash leaf) root) :: l)
      (next_set a leaf).

Definition ring_of (p : pallet) : ring Z ImportedCommitment :=
  Ring (ImportedBlockNumbers p)
    (default 0 (next_block_number_index <$> ImportedCommitmentsInfo p)) (ImportedCommitments p).

Record tracks (a0 : BeefyAuthoritySetInfo) (n0 : Z) (l : list (Z * ImportedCommitment)) (p : pallet) :
  Prop := {
  tr_chain : commitment_chain a0 n0 l (CurrentAuthoritySetInfo p);
  tr_best : best_block_number <$> ImportedCommitmentsInfo p = Some (newest n0 l);
  tr_ring : ring_repr CommitmentsToKeep (ring_of p) (take (Z.to_nat CommitmentsToKeep) l);
}.

Record untouched (p : pallet) : Prop := {
  un_info : ImportedCommitmentsInfo p = None;
  un_numbers : ImportedBlockNumbers p = ∅;
  un_commitments : ImportedCommitments p = ∅;
}.

(** Everything that can happen to the pallet, with the data that it was initialized with: the
    trusted start. *)
Inductive step (trusted : option (InitializationData MmrHash)) (p : pallet) :
  option (InitializationData MmrHash) -> pallet -> Prop :=
| StepSubmit origin c set leaf proof p' :
    submit_commitment p origin c set leaf proof = Ok p' -> step trusted p trusted p'
| StepInitialize origin d p' : initialize_call p origin d = Ok p' -> step trusted p (Some d) p'
| StepSetOwner origin o p' : set_owner (E := Error) p origin o = Ok p' -> step trusted p trusted p'
| StepSetMode origin m p' :
    set_operating_mode (E := Error) p origin m = Ok p' -> step trusted p trusted p'
| StepBlock : step trusted p trusted (on_initialize p).

(** The reachable states. *)
Inductive reachable : option (InitializationData MmrHash) -> pallet -> Prop :=
| ReachGenesis c r p :
    genesis_build c (empty_pallet r) = Some p -> reachable (genesis_init_data c) p
| ReachStep trusted trusted' p p' :
    reachable trusted p -> step trusted p trusted' p' -> reachable trusted' p'.

(** What a successful submission has checked and done. *)
Lemma submit_commitment_spec (p p' : pallet) (origin : RawOrigin AccountId) (c : SignedCommitment)
  (set : BeefyAuthoritySet) (leaf : BeefyMmrLeaf) (proof : MmrProof) :
  submit_commitment p origin c set leaf proof = Ok p' ->
  exists a info root,
    is_halted p = false /\ origin = Signed a /\ RequestCount p < MaxRequests /\
    ImportedCommitmentsInfo p = Some info /\ best_block_number info < block_number (commitment c) /\
    well_signed c (CurrentAuthoritySetInfo p) set /\
    get_mmr_root (payload (commitment c)) = Some root /\
    verify_mmr_leaves_proof root [hash_leaf leaf] proof = true /\
    import_commitment info (block_number (commitment c))
      (Imported (leaf_parent_number_and_hash leaf) root)
      (put_request_count (wrapping_add u32_max (RequestCount p) 1)
         (put_authority_set (next_set (CurrentAuthoritySetInfo p) leaf) p)) = Ok p'.
Proof.
  unfold BeefyPallet.submit_commitment.
  intros ([] & Hh%map_err_Ok%map_err_Ok%ensure_not_halted_Ok & Hrest)%obind_Ok.
  apply obind_Ok in Hrest as (a & Ho & Hrest).
  apply obind_Ok in Hrest as ([] & Hreq%ensure_Ok & Hrest).
  apply obind_Ok in Hrest as (info & Hinfo%ok_or_Ok & Hrest).
  apply obind_Ok in Hrest as ([] & Hbest%ensure_Ok & Hrest).
  apply obind_Ok in Hrest as (root & [Hsig Hroot]%map_err_Ok%verify_commitment_iff & Hrest).
  apply obind_Ok in Hrest as ([] & Hleaf%map_err_Ok%ensure_Ok & Himp%map_err_Ok).
  exists a, info, root. split_and!; try done; try lia.
  - by destruct origin; simplify_eq/=.
  - rewrite <- Himp. f_equal. unfold next_set. case_match; [done|]. by destruct p.
Qed.

Hypothesis Hkeep : 0 < CommitmentsToKeep <= u32_max.

Lemma import_commitment_ring (info : ImportedCommitmentsInfoData) (n : Z) (data : ImportedCommitment)
  (p p' : pallet) :
  ImportedCommitmentsInfo p = Some info -> 0 <= next_block_number_index info < CommitmentsToKeep ->
  import_commitment info n data p = Ok p' ->
  ring_of p' = ring_insert CommitmentsToKeep (ring_of p) n data /\
  best_block_number <$> ImportedCommitmentsInfo p' = Some n /\
  CurrentAuthoritySetInfo p' = CurrentAuthoritySetInfo p /\ RequestCount p' = RequestCount p /\
  PalletOwner p' = PalletOwner p /\ PalletOperatingMode p' = PalletOperatingMode p.
Proof.
  intros Hinfo Hidx. unfold import_commitment. rewrite (proj2 (Z.eqb_neq _ _)) by lia.
  intros [= <-]. unfold ring_of, ring_insert. simpl. rewrite Hinfo. simpl.
  rewrite wrapping_add_small by lia. done.
Qed.

Lemma chain_numbers (a0 a : BeefyAuthoritySetInfo) (n0 : Z) (l : list (Z * ImportedCommitment)) :
  commitment_chain a0 n0 l a -> forall n, n ∈ l.*1 -> n <= newest n0 l.
Proof.
  induction 1 as [|l a c set leaf proof root Hc IH Hlt _ _ _]; simpl.
  { by intros n ?%not_elem_of_nil. }
  unfold newest in *. simpl. intros n [->|Hn]%elem_of_cons; [lia|]. specialize (IH n Hn). lia.
Qed.

Lemma beefy_submit_tracks (a0 : BeefyAuthoritySetInfo) (n0 : Z) (l : list (Z * ImportedCommitment))
  (p p' : pallet) (origin : RawOrigin AccountId) (c : SignedCommitment) (set : BeefyAuthoritySet)
  (leaf : BeefyMmrLeaf) (proof : MmrProof) :
  tracks a0 n0 l p -> submit_commitment p origin c set leaf proof = Ok p' ->
  exists data, tracks a0 n0 ((block_number (commitment c), data) :: l) p'.
Proof.
  intros [Hc Hb Hr] (a & info & root & _ & _ & _ & Hinfo & Hlt & Hsig & Hroot & Hleaf & Himp)%submit_commitment_spec.
  rewrite Hinfo in Hb. injection Hb as Hb. pose proof (repr_pointer _ _ _ Hr) as Hptr.
  unfold ring_of in Hptr. simpl in Hptr. rewrite Hinfo in Hptr.
  apply import_commitment_ring in Himp as (Hring & Hbest & Ha & _); [|done|done].
  eexists. split.
  - rewrite Ha. simpl. eapply cc_import; try done. lia.
  - done.
  - rewrite Hring, <- queue_insert_prefix by lia. apply ring_insert_repr; [lia| |done].
    rewrite fmap_take. intros (i & Hi & _)%elem_of_take. apply list_elem_of_lookup_2 in Hi.
    apply (chain_numbers _ _ _ _ Hc) in Hi. lia.
Qed.

Lemma initialize_tracks (d : InitializationData MmrHash) (p p' : pallet) :
  untouched p -> initialize d p = Ok p' ->
  tracks (init_authority_set d) (init_best_block_number d) [] p' /\
  info_len (init_authority_set d) <> 0.
Proof.
  intros [Hi Hn Hc]. unfold initialize. case_match eqn:E; [done|]. intros [= <-].
  split; [|lia]. split; simpl; [constructor|done|].
  unfold ring_of. simpl. rewrite Hn, Hc, take_nil. apply ring_repr_empty. lia.
Qed.

Definition consistent (trusted : option (InitializationData MmrHash)) (p : pallet) : Prop :=
  match trusted with
  | None => untouched p
  | Some d => exists l, tracks (init_authority_set d) (init_best_block_number d) l p
  end.

Lemma consistent_ext (trusted : option (InitializationData MmrHash)) (p p' : pallet) :
  ImportedCommitmentsInfo p' = ImportedCommitmentsInfo p ->
  ImportedBlockNumbers p' = ImportedBlockNumbers p ->
  ImportedCommitments p' = ImportedCommitments p ->
  CurrentAuthoritySetInfo p' = CurrentAuthoritySetInfo p ->
  consistent trusted p -> consistent trusted p'.
Proof.
  intros Ei En Ec Ea. destruct trusted as [d|]; simpl.
  - intros [l [Hc Hb Hr]]. exists l. unfold ring_of in *.
    split; unfold ring_of; rewrite ?Ei, ?En, ?Ec, ?Ea; done.
  - intros []. split; congruence.
Qed.

Lemma beefy_step_consistent (trusted trusted' : option (InitializationData MmrHash))
  (p p' : pallet) :
  consistent trusted p -> step trusted p trusted' p' -> consistent trusted' p'.
Proof.
  intros Hc Hstep.
  destruct Hstep as [origin c set leaf proof p' Hs|origin d p' Hs|origin o p' Hs|origin m p' Hs|].
  - destruct trusted as [d|]; simpl in *.
    + destruct Hc as [l Ht].
      destruct (beefy_submit_tracks _ _ _ _ _ _ _ _ _ _ Ht Hs) as [data Ht']. by eexists.
    + destruct Hc as [Hi _ _].
      apply submit_commitment_spec in Hs as (a & info & root & _ & _ & _ & Hinfo & _). congruence.
  - unfold initialize_call in Hs. apply obind_Ok in Hs as ([] & _ & Hs).
    apply obind_Ok in Hs as ([] & Hi%ensure_Ok & Hs%map_err_Ok).
    destruct trusted as [d'|]; simpl in *.
    + destruct Hc as [l [_ Hb _]]. destruct (ImportedCommitmentsInfo p); done.
    + apply initialize_tracks in Hs as [Ht _]; [|done]. by eexists.
  - apply obind_Ok in Hs as ([] & _ & [= <-]). by apply (consistent_ext _ p).
  - apply obind_Ok in Hs as ([] & _ & [= <-]). by apply (consistent_ext _ p).
  - by apply (consistent_ext _ p).
Qed.

Lemma beefy_genesis_consistent (c : GenesisConfig) (r : MmrHash) (p : pallet) :
  genesis_build c (empty_pallet r) = Some p -> consistent (genesis_init_data c) p.
Proof.
  unfold genesis_build. set (p0 := match genesis_owner c with Some _ => _ | None => _ end).
  assert (untouched p0) as Hu by (unfold p0; destruct (genesis_owner c); done).
  destruct (genesis_init_data c) as [d|].
  - destruct (initialize d p0) as [p1| |] eqn:E; [|done|done]. intros [= <-].
    apply initialize_tracks in E as [Ht _]; [|done]. by eexists.
  - intros [= <-]. simpl. by destruct Hu.
Qed.

Lemma reachable_consistent (trusted : option (InitializationData MmrHash)) (p : pallet) :
  reachable trusted p -> consistent trusted p.
Proof. induction 1; eauto using beefy_genesis_consistent, beefy_step_consistent. Qed.

(** ** Properties *)

(** C7. Every state of the BEEFY pallet has a history of commitments behind it: starting from the
    authority set and the block that it was initialized with, each imported commitment is
    for a higher block than the one before and carries correct signatures of more than two
    thirds of the authority set in force, unless that set has no members; the set in force
    only changes to a set with a higher id, taken from a leaf that is proved to be in the
    committed MMR.  The best block is the newest one, and the pallet stores exactly the
    newest [CommitmentsToKeep] commitments. *)
Theorem beefy_history (trusted : option (InitializationData MmrHash)) (p : pallet) :
  reachable trusted p ->
  match trusted with
  | None => ImportedCommitmentsInfo p = None /\ ImportedCommitments p = ∅
  | Some d =>
      exists l,
        commitment_chain (init_authority_set d) (init_best_block_number d) l
          (CurrentAuthoritySetInfo p) /\
        best_block_number <$> ImportedCommitmentsInfo p = Some (newest (init_best_block_number d) l) /\
        Z.of_nat (size (ImportedCommitments p)) <= CommitmentsToKeep /\
        forall n data, ImportedCommitments p !! n = Some data <->
          exists i, l !! i = Some (n, data) /\ Z.of_nat i < CommitmentsToKeep
  end.
Proof.
  intros Hc%reachable_consistent. destruct trusted as [d|]; simpl in *; [|by destruct Hc].
  destruct Hc as [l [Hch Hb Hr]]. exists l.
  split_and!; [done|done|exact (ring_repr_size _ _ _ Hr)|].
  intros n data. pose proof (repr_nodup _ _ _ Hr) as Hnd. pose proof (repr_items _ _ _ Hr) as Hit.
  simpl in Hit. rewrite Hit, <- elem_of_list_to_map by done. rewrite elem_of_take.
  split; intros (i & Hi & Hlt); exists i; (split; [done|lia]).
Qed.

(** Why a submission is refused. *)
Definition refusal (p : pallet) (origin : RawOrigin AccountId) (c : SignedCommitment)
  (set : BeefyAuthoritySet) (leaf : BeefyMmrLeaf) (proof : MmrProof) (e : DispatchError Error) : Prop :=
  let a := CurrentAuthoritySetInfo p in
  match e with
  | BadOrigin => forall who, origin <> Signed who
  | ModuleError (BridgeModule HaltedError) => is_halted p = true
  | ModuleError TooManyRequests => MaxRequests <= RequestCount p
  | ModuleError NotInitialized => ImportedCommitmentsInfo p = None
  | ModuleError OldCommitment =>
      exists info, ImportedCommitmentsInfo p = Some info /\
        block_number (commitment c) <= best_block_number info
  | ModuleError InvalidCommitmentValidatorSetId => validator_set_id (commitment c) <> info_id a
  | ModuleError InvalidCommitmentSignaturesLen => Z.of_nat (length (signatures c)) <> info_len a
  | ModuleError InvalidValidatorSetId => validators_id set <> info_id a
  | ModuleError InvalidValidatorSetLen => Z.of_nat (length (validators set)) <> info_len a
  | ModuleError InvalidValidatorSetRoot =>
      merkle_root (to_merkle_leaf <$> validators set) <> info_root a
  | ModuleError NotEnoughCorrectSignatures =>
      info_len a <> 0 /\
      3 * Z.of_nat (length (signers encode_commitment verify c set)) <= 2 * info_len a
  | ModuleError MmrRootMissingFromCommitment => get_mmr_root (payload (commitment c)) = None
  | ModuleError MmrProofVerificationFailed =>
      exists root, get_mmr_root (payload (commitment c)) = Some root /\
        verify_mmr_leaves_proof root [hash_leaf leaf] proof = false
  | _ => False
  end.

Lemma verify_commitment_cases (p : pallet) (origin : RawOrigin AccountId) (c : SignedCommitment)
  (set : BeefyAuthoritySet) (leaf : BeefyMmrLeaf) (proof : MmrProof) :
  (exists root, verify_commitment c (CurrentAuthoritySetInfo p) set = Ok root) \/
  (exists e, verify_commitment c (CurrentAuthoritySetInfo p) set = Err e /\
     refusal p origin c set leaf proof (ModuleError e)).
Proof.
  clear Hkeep. unfold BeefyPallet.verify_commitment, verify_authority_set, get_authorities_mmr_root.
  destruct (validator_set_id _ =? _) eqn:E1; simpl; [|right; eexists; split; [done|simpl; lia]].
  destruct (Z.of_nat (length (signatures c)) =? _) eqn:E2; simpl;
    [|right; eexists; split; [done|simpl; lia]].
  destruct (validators_id set =? _) eqn:E3; simpl; [|right; eexists; split; [done|simpl; lia]].
  destruct (Z.of_nat (length (validators set)) =? _) eqn:E4; simpl;
    [|right; eexists; split; [done|simpl; lia]].
  case_bool_decide as E5; simpl; [|right; by eexists].
  destruct (verify_signatures _ _ c set) as [[]|e|] eqn:E6; simpl.
  - unfold extract_mmr_root. destruct (get_mmr_root _) eqn:E7; simpl; [left; by eexists|right; by eexists].
  - right. exists e. split; [done|]. revert E6. unfold verify_signatures.
    rewrite (proj2 (Z.eqb_eq (Z.of_nat (length (signatures c))) _)) by lia. simpl.
    destruct (count_signatures _ _ _ _ =? 0) eqn:E8; simpl; [done|]. intros [= <-]. simpl.
    apply Z.eqb_eq in E4. rewrite <- E4. apply Z.eqb_neq in E8.
    destruct (decide (signatures_required (Z.of_nat (length (validators set))) <=
      Z.of_nat (length (signers encode_commitment verify c set)))) as [Hle|Hle].
    2: { rewrite enough_signatures in Hle by lia. lia. }
    destruct E8. destruct (decide (1 <= Z.of_nat (length (validators set)))) as [Hn|Hn].
    + pose proof (signatures_required_spec _ Hn).
      rewrite (count_signatures_spec _ _ _ _ 0) by lia. unfold signers in Hle. word.
    + destruct (validators set); [done|simpl in Hn; lia].
  - exfalso. revert E6. unfold verify_signatures.
    rewrite (proj2 (Z.eqb_eq (Z.of_nat (length (signatures c))) _)) by lia. simpl.
    by destruct (_ =? 0).
Qed.

Lemma submit_commitment_cases (p : pallet) (origin : RawOrigin AccountId) (c : SignedCommitment)
  (set : BeefyAuthoritySet) (leaf : BeefyMmrLeaf) (proof : MmrProof) :
  (exists p', submit_commitment p origin c set leaf proof = Ok p') \/
  (exists e, submit_commitment p origin c set leaf proof = Err e /\
     refusal p origin c set leaf proof e).
Proof.
  unfold BeefyPallet.submit_commitment, ensure_not_halted.
  destruct (is_halted p) eqn:Eh; simpl; [right; by eexists|].
  destruct origin as [|who| |] eqn:Eo; simpl; [right; by eexists| |right; by eexists..].
  destruct (RequestCount p <? MaxRequests) eqn:Er; simpl; [|right; eexists; split; [done|simpl; lia]].
  destruct (ImportedCommitmentsInfo p) as [info|] eqn:Ei; simpl; [|right; by eexists].
  destruct (best_block_number info <? _) eqn:Eb; simpl.
  2: { right. eexists. split; [done|]. simpl. exists info. split; [done|lia]. }
  destruct (verify_commitment_cases p (Signed who) c set leaf proof) as [[root Hv]|(e' & Hv & Hwhy)];
    rewrite Hv; simpl; [|right; by eexists].
  apply verify_commitment_iff in Hv as [_ Hroot]. unfold verify_beefy_mmr_leaf.
  destruct (verify_mmr_leaves_proof root _ proof) eqn:El; simpl.
  2: { right. eexists. split; [done|]. simpl. by exists root. }
  unfold import_commitment. rewrite (proj2 (Z.eqb_neq _ _)) by lia. left. by eexists.
Qed.

(** C34. A commitment is accepted exactly when the pallet operates, the call is signed, the
    request limit leaves room, the commitment is for a higher block, it is signed by
    more than two thirds of the authority set in force, it has an MMR root, and the
    leaf is proved to be in that MMR.  Then it is the best block, counts as one
    request, and the set that the leaf announces is taken over if its id is higher.
    Otherwise the first violated condition is reported. *)
Theorem submit_commitment_correct (p : pallet) (origin : RawOrigin AccountId) (c : SignedCommitment)
  (set : BeefyAuthoritySet) (leaf : BeefyMmrLeaf) (proof : MmrProof) :
  (forall info, ImportedCommitmentsInfo p = Some info ->
     0 <= next_block_number_index info < CommitmentsToKeep) ->
  0 <= RequestCount p -> MaxRequests <= u32_max ->
  match submit_commitment p origin c set leaf proof with
  | Ok p' =>
      exists who info root,
        is_halted p = false /\ origin = Signed who /\ RequestCount p < MaxRequests /\
        ImportedCommitmentsInfo p = Some info /\
        best_block_number info < block_number (commitment c) /\
        well_signed c (CurrentAuthoritySetInfo p) set /\
        get_mmr_root (payload (commitment c)) = Some root /\
        verify_mmr_leaves_proof root [hash_leaf leaf] proof = true /\
        CurrentAuthoritySetInfo p' = next_set (CurrentAuthoritySetInfo p) leaf /\
        RequestCount p' = RequestCount p + 1 /\
        ring_of p' = ring_insert CommitmentsToKeep (ring_of p) (block_number (commitment c))
                       (Imported (leaf_parent_number_and_hash leaf) root) /\
        best_block_number <$> ImportedCommitmentsInfo p' = Some (block_number (commitment c)) /\
        PalletOwner p' = PalletOwner p /\ PalletOperatingMode p' = PalletOperatingMode p
  | Err e => refusal p origin c set leaf proof e
  | Panic => False
  end.
Proof.
  intros Hidx Hreq0 Hmax.
  destruct (submit_commitment_cases p origin c set leaf proof) as [[p' Es]|(e & -> & He)]; [|done].
  rewrite Es. apply submit_commitment_spec in Es as
    (who & info & root & Hh & Ho & Hreq & Hinfo & Hlt & Hsig & Hroot & Hleaf & Himp).
  apply import_commitment_ring in Himp as (Hring & Hbest & Ha & Hr & Hown & Hm);
    [|done|by apply Hidx].
  exists who, info, root. split_and!; try done. rewrite Hr. simpl.
  by rewrite wrapping_add_small by lia.
Qed.

(** Any two commitments that the pallet accepts under the same authority set share more than
    a third of the validators as signers; so as long as less than a third of the set
    signs conflicting commitments, no two conflicting ones are accepted. *)
Theorem accepted_commitments_share_signers (info : BeefyAuthoritySetInfo) (c1 c2 : SignedCommitment)
  (set : BeefyAuthoritySet) (root1 root2 : MmrHash) :
  info_len info <> 0 ->
  verify_commitment c1 info set = Ok root1 -> verify_commitment c2 info set = Ok root2 ->
  exists common : gset nat,
    info_len info < 3 * Z.of_nat (size common) /\
    forall i, i ∈ common ->
      signed_by encode_commitment verify c1 set i /\ signed_by encode_commitment verify c2 set i.
Proof.
  clear Hkeep. intros Hlen ((_ & (_ & Hn & _) & Hl1 & H1) & _)%verify_commitment_iff.
  intros ((_ & _ & Hl2 & H2) & _)%verify_commitment_iff.
  set (S1 := list_to_set (signers encode_commitment verify c1 set) : gset nat).
  set (S2 := list_to_set (signers encode_commitment verify c2 set) : gset nat).
  exists (S1 ∩ S2). split.
  2: { intros i [Hi1 Hi2]%elem_of_intersection. unfold S1, S2 in *.
       by rewrite <- !signers_elem, <- !(elem_of_list_to_set (C := gset nat)). }
  assert (size S1 = length (signers encode_commitment verify c1 set)) as Hs1
    by (apply size_list_to_set, signer_indices_NoDup).
  assert (size S2 = length (signers encode_commitment verify c2 set)) as Hs2
    by (apply size_list_to_set, signer_indices_NoDup).
  assert (S1 ∪ S2 ⊆ list_to_set (seq 0 (length (validators set)))) as Hsub%subseteq_size.
  { intros i Hi. apply elem_of_list_to_set, elem_of_seq. split; [lia|]. simpl.
    assert (is_Some (validators set !! i)) as ?%lookup_lt_is_Some; [|done].
    apply elem_of_union in Hi as [Hi|Hi]; unfold S1, S2 in Hi;
      apply elem_of_list_to_set, signers_elem in Hi as (x & sig & Hx & _); by exists x. }
  rewrite size_list_to_set, length_seq, size_union_alt in Hsub by apply NoDup_seq.
  rewrite size_difference_alt in Hsub. rewrite (comm_L (∩) S2 S1) in Hsub.
  lia.
Qed.

(** The leaf is not tied to the block of the commitment: an accepted commitment is accepted
    with every leaf of the committed MMR, for instance that of a much older block, and
    the parent block recorded with the commitment is then the one of that leaf. *)
Theorem any_leaf_of_the_mmr_is_accepted (p p' : pallet) (origin : RawOrigin AccountId)
  (c : SignedCommitment) (set : BeefyAuthoritySet) (leaf leaf' : BeefyMmrLeaf)
  (proof proof' : MmrProof) (root : MmrHash) :
  submit_commitment p origin c set leaf proof = Ok p' ->
  get_mmr_root (payload (commitment c)) = Some root ->
  verify_mmr_leaves_proof root [hash_leaf leaf'] proof' = true ->
  ImportedBlockNumbers p !! next_block_number_index (default (InfoData 0 0) (ImportedCommitmentsInfo p))
    <> Some (block_number (commitment c)) ->
  exists p'',
    submit_commitment p origin c set leaf' proof' = Ok p'' /\
    parent_number_and_hash <$> ImportedCommitments p'' !! block_number (commitment c)
      = Some (leaf_parent_number_and_hash leaf').
Proof.
  intros Hs Hroot Hleaf' Hfresh.
  apply submit_commitment_spec in Hs as
    (who & info & r & Hh & -> & Hreq & Hinfo & Hlt & Hsig & Hr & _ & _).
  destruct (submit_commitment_cases p (Signed who) c set leaf' proof') as [[p'' Hs]|(e & Hs & _)].
  2: { exfalso. revert Hs. unfold BeefyPallet.submit_commitment, ensure_not_halted. rewrite Hh. simpl.
       rewrite (proj2 (Z.ltb_lt _ _) Hreq), Hinfo. simpl. rewrite (proj2 (Z.ltb_lt _ _) Hlt). simpl.
       rewrite (proj2 (verify_commitment_iff c _ set root) (conj Hsig Hroot)). simpl.
       unfold verify_beefy_mmr_leaf. rewrite Hleaf'. simpl. unfold import_commitment.
       by rewrite (proj2 (Z.eqb_neq _ _)) by lia. }
  exists p''. split; [done|]. apply submit_commitment_spec in Hs as
    (who' & info' & r' & _ & _ & _ & Hinfo' & _ & _ & _ & _ & Himp).
  rewrite Hinfo in Hinfo', Hfresh. injection Hinfo' as <-. simpl in Hfresh. revert Himp.
  unfold import_commitment. rewrite (proj2 (Z.eqb_neq _ _)) by lia. intros [= <-]. simpl.
  destruct (ImportedBlockNumbers p !! _) as [old|] eqn:Eo.
  - rewrite lookup_delete_ne by congruence. by rewrite lookup_insert_eq.
  - by rewrite lookup_insert_eq.
Qed.
End History.

(** ** Four validators *)
Module FourValidators.

#[global] Instance config : BeefyConfig := {| MaxRequests := 4; CommitmentsToKeep := 2 |}.

(** A signature is the validator and the message; a payload is the list of the leaves
    of the MMR, which serves as its root; a hash of a leaf is its parent number. *)
Definition check (a : Z) (sig : Z * Z) (msg : Z) : bool := (sig.1 =? a) && (sig.2 =? msg).
Definition root_of (leaves : list Z) : option (list Z) := Some leaves.
Definition leaf_hash (l : BeefyMmrLeaf Z (list Z) unit) : list Z := [(leaf_parent_number_and_hash l).1].
Definition in_mmr (root : list Z) (hashes : list (list Z)) (_ : unit) : bool :=
  forallb (fun h => match h with [n] => existsb (Z.eqb n) root | _ => false end) hashes.

Definition set0 : BeefyAuthoritySet Z := AuthoritySet_ [1; 2; 3; 4] 0.
Definition info0 : BeefyAuthoritySetInfo (list Z) := AuthoritySetInfo 0 4 [1; 2; 3; 4].
Definition info1 : BeefyAuthoritySetInfo (list Z) := AuthoritySetInfo 1 3 [5; 6; 7].

Definition com : BeefyCommitment (list Z) := Commitment [8; 9] 10 0.
Definition signed_com : SignedCommitment (list Z) (Z * Z) :=
  Signed_ com [Some (1, 10); None; Some (3, 10); Some (4, 10)].
Definition leaf9 : BeefyMmrLeaf Z (list Z) unit := MmrLeaf (9, 90) info1 tt.
Definition leaf8 : BeefyMmrLeaf Z (list Z) unit := MmrLeaf (8, 80) info0 tt.

Definition genesis : GenesisConfig (AccountId := Z) (MmrHash := list Z) :=
  Genesis None (Some (InitData Normal 5 info0)).

Definition p0 : pallet Z Z (list Z) := Pallet 0 (Some (InfoData 5 0)) ∅ ∅ info0 None Normal.

Lemma commitments_genesis : genesis_build genesis (empty_pallet []) = Some p0.
Proof. reflexivity. Qed.

Abbreviation submit := (submit_commitment block_number check root_of (fun a => a) (fun l => l)
  leaf_hash in_mmr).

Definition p1 : pallet Z Z (list Z) :=
  Pallet 1 (Some (InfoData 10 1)) {[0 := 10]} {[10 := Imported (9, 90) [8; 9]]} info1 None Normal.

Lemma commitment_submitted : submit p0 (Signed 7) signed_com set0 leaf9 tt = Ok p1.
Proof. vm_compute. reflexivity. Qed.

Lemma CommitmentsToKeep_ok : 0 < CommitmentsToKeep <= u32_max.
Proof. simpl. word. Qed.

Lemma commitments_reachable :
  reachable block_number check root_of (fun a => a) (fun l => l) leaf_hash in_mmr
    (genesis_init_data genesis) p1.
Proof.
  eapply ReachStep; [exact (ReachGenesis _ _ _ _ _ _ _ _ _ _ commitments_genesis)|].
  eapply StepSubmit, commitment_submitted.
Qed.
End FourValidators.

Lemma beefy_history_witness :
  exists l,
    commitment_chain block_number FourValidators.check FourValidators.root_of (fun a => a)
      (fun l => l) FourValidators.leaf_hash FourValidators.in_mmr FourValidators.info0 5 l
      FourValidators.info1 /\
    Some 10 = Some (newest 5 l).
Proof.
  destruct (beefy_history block_number FourValidators.check FourValidators.root_of (fun a => a)
    (fun l => l) FourValidators.leaf_hash FourValidators.in_mmr FourValidators.CommitmentsToKeep_ok
    _ FourValidators.p1 FourValidators.commitments_reachable) as (l & Hc & Hb & _).
  exists l. split; [exact Hc|exact Hb].
Defined.

Lemma submit_commitment_correct_witness :
  FourValidators.submit FourValidators.p0 (Signed 7) FourValidators.signed_com FourValidators.set0
    FourValidators.leaf9 tt = Ok FourValidators.p1 /\
  CurrentAuthoritySetInfo FourValidators.p1 =
    next_set (CurrentAuthoritySetInfo FourValidators.p0) FourValidators.leaf9.
Proof.
  split; [exact FourValidators.commitment_submitted|].
  pose proof (submit_commitment_correct block_number FourValidators.check FourValidators.root_of
    (fun a => a) (fun l => l) FourValidators.leaf_hash FourValidators.in_mmr FourValidators.CommitmentsToKeep_ok
    FourValidators.p0 (Signed 7) FourValidators.signed_com FourValidators.set0 FourValidators.leaf9 tt)
    as H.
  rewrite FourValidators.commitment_submitted in H.
  destruct H as (who & info & root & _ & _ & _ & _ & _ & _ & _ & _ & Ha & _).
  - intros info [= <-]. simpl. lia.
  - simpl. lia.
  - simpl. word.
  - exact Ha.
Defined.

Lemma accepted_commitments_share_signers_witness :
  exists common : gset nat,
    4 < 3 * Z.of_nat (size common) /\
    forall i, i ∈ common ->
      signed_by block_number FourValidators.check FourValidators.signed_com FourValidators.set0 i /\
      signed_by block_number FourValidators.check FourValidators.signed_com FourValidators.set0 i.
Proof.
  apply (accepted_commitments_share_signers block_number FourValidators.check
    FourValidators.root_of (fun a => a) (fun l => l) FourValidators.info0 FourValidators.signed_com
    FourValidators.signed_com FourValidators.set0 [8; 9] [8; 9]).
  - discriminate.
  - vm_compute. reflexivity.
  - vm_compute. reflexivity.
Defined.

Lemma any_leaf_of_the_mmr_is_accepted_witness :
  exists p'',
    FourValidators.submit FourValidators.p0 (Signed 7) FourValidators.signed_com FourValidators.set0
      FourValidators.leaf8 tt = Ok p'' /\
    parent_number_and_hash <$> ImportedCommitments p'' !! 10 = Some (8, 80).
Proof.
  apply (any_leaf_of_the_mmr_is_accepted block_number FourValidators.check
    FourValidators.root_of (fun a => a) (fun l => l) FourValidators.leaf_hash FourValidators.in_mmr
    FourValidators.CommitmentsToKeep_ok FourValidators.p0 FourValidators.p1 (Signed 7) FourValidators.signed_com
    FourValidators.set0 FourValidators.leaf9 FourValidators.leaf8 tt tt [8; 9]
    FourValidators.commitment_submitted).
  - reflexivity.
  - reflexivity.
  - vm_compute. discriminate.
Defined.
