(* ===== verification/RelayersPallet.v ===== *)
(** * modules/relayers/src and primitives/relayers: rewards of the relayers

    lib.rs (the registered rewards and their payment) and payment_adapter.rs (the
    adapter through which the messages pallet registers rewards for confirmed
    messages).  The transfer of the balances pallet is a parameter. *)

From S2P Require Import Prelude Substrate MessagesPrimitives MessagesPallet.
From stdpp Require Import base numbers list gmap.
Local Open Scope Z_scope.

(** ** primitives/relayers *)

Inductive RewardsAccountOwner := ThisChain | BridgedChain.

#[export] Instance RewardsAccountOwner_eq_dec : EqDecision RewardsAccountOwner.
Proof. solve_decision. Defined.

(** [bridged_chain_id] has four bytes, like a lane id. *)
Record RewardsAccountParams := AccountParams {
  ap_lane_id : LaneId;
  ap_bridged_chain_id : LaneId;
  ap_owner : RewardsAccountOwner;
}.

#[export] Instance RewardsAccountParams_eq_dec : EqDecision RewardsAccountParams.
Proof. solve_decision. Defined.

#[export] Instance RewardsAccountParams_countable : Countable RewardsAccountParams.
Proof.
  refine (inj_countable'
    (fun a => (ap_lane_id a, ap_bridged_chain_id a,
               match ap_owner a with ThisChain => true | BridgedChain => false end))
    (fun p => let '(l, c, o) := p in AccountParams l c (if o then ThisChain else BridgedChain)) _).
  by intros [l c []].
Defined.

(** The trait [PaymentProcedure], over the ledger that it changes. *)
Class PaymentProcedure (Ledger Relayer PayError : Type) := {
  pay_reward : Ledger -> Relayer -> RewardsAccountParams -> Z -> outcome PayError Ledger;
}.

(** The implementation for [()]. *)
Definition NoPayment {Ledger Relayer PayError : Type} : PaymentProcedure Ledger Relayer PayError :=
  {| pay_reward ledger _ _ _ := Ok ledger |}.

(** [transfer] is [fungible::Transfer::transfer] without keep-alive, [sub_account] is
    [into_sub_account_truncating]. *)
Definition PayRewardFromAccount {Ledger Relayer PayError : Type}
  (transfer : Ledger -> Relayer -> Relayer -> Z -> outcome PayError Ledger)
  (rewards_account : RewardsAccountParams -> Relayer) : PaymentProcedure Ledger Relayer PayError := {|
  pay_reward ledger relayer rewards_account_params reward :=
    transfer ledger (rewards_account rewards_account_params) relayer reward
|}.

(** ** The pallet *)

Inductive Error := NoRewardForRelayer | FailedToPayReward.

Inductive Event (AccountId : Type) :=
| RewardPaid (relayer : AccountId) (rewards_account_params : RewardsAccountParams) (reward : Z).
Arguments RewardPaid {AccountId} _ _ _.

Record pallet (AccountId Ledger : Type) `{Countable AccountId} := Pallet {
  RelayerRewards : gmap (AccountId * RewardsAccountParams) Z;
  ledger : Ledger;
  events : list (Event AccountId);
}.
Arguments Pallet {AccountId Ledger _ _} _ _ _.
Arguments RelayerRewards {AccountId Ledger _ _} _.
Arguments ledger {AccountId Ledger _ _} _.
Arguments events {AccountId Ledger _ _} _.

(** The largest value of the reward type, the reward for a message, and the chain id. *)
Class RelayersConfig := {
  reward_max : Z;
  DeliveryReward : Z;
  BridgedChainId : LaneId;
}.

Section Relayers.
Context `{!RelayersConfig} {AccountId Ledger PayError : Type} `{Countable AccountId}.
Context `{!PaymentProcedure Ledger AccountId PayError}.
Abbreviation pallet := (pallet AccountId Ledger).

Definition claim_rewards (p : pallet) (origin : RawOrigin AccountId)
  (rewards_account_params : RewardsAccountParams) : outcome (DispatchError Error) pallet :=
  let? relayer := ensure_signed origin in
  let? reward :=
    ok_or (RelayerRewards p !! (relayer, rewards_account_params)) (ModuleError NoRewardForRelayer) in
  let? paid :=
    map_err (fun _ => ModuleError FailedToPayReward)
      (pay_reward (ledger p) relayer rewards_account_params reward) in
  Ok (Pallet (delete (relayer, rewards_account_params) (RelayerRewards p)) paid
        (events p ++ [RewardPaid relayer rewards_account_params reward])).

Definition register_relayer_reward (rewards_account_params : RewardsAccountParams)
  (relayer : AccountId) (reward : Z) (p : pallet) : pallet :=
  if reward =? 0 then p
  else
    let old_reward := RelayerRewards p !! (relayer, rewards_account_params) in
    let new_reward := saturating_add reward_max (default 0 old_reward) reward in
    Pallet (<[(relayer, rewards_account_params) := new_reward]> (RelayerRewards p)) (ledger p)
      (events p).

(** ** payment_adapter.rs *)

Definition relayer_reward_of (messages delivery_fee : Z) : Z :=
  saturating_mul reward_max (Z.min reward_max messages) delivery_fee.

(** The loop over the rewards of a confirmation, in any order of the relayers. *)
Fixpoint register_others (confirmation_relayer : AccountId) (lane_id : RewardsAccountParams)
  (delivery_fee : Z) (relayers_rewards : list (AccountId * Z)) (confirmation_relayer_reward : Z)
  (p : pallet) : Z * pallet :=
  match relayers_rewards with
  | [] => (confirmation_relayer_reward, p)
  | (relayer, messages) :: rest =>
      let relayer_reward := relayer_reward_of messages delivery_fee in
      if bool_decide (relayer <> confirmation_relayer) then
        register_others confirmation_relayer lane_id delivery_fee rest confirmation_relayer_reward
          (register_relayer_reward lane_id relayer relayer_reward p)
      else
        register_others confirmation_relayer lane_id delivery_fee rest
          (saturating_add reward_max confirmation_relayer_reward relayer_reward) p
  end.

Definition register_relayers_rewards (confirmation_relayer : AccountId)
  (relayers_rewards : gmap AccountId Z) (lane_id : RewardsAccountParams) (delivery_fee : Z)
  (p : pallet) : pallet :=
  let (confirmation_relayer_reward, p) :=
    register_others confirmation_relayer lane_id delivery_fee (map_to_list relayers_rewards) 0 p in
  register_relayer_reward lane_id confirmation_relayer confirmation_relayer_reward p.

Definition adapter_pay_reward (lane_id : LaneId) (messages_relayers : list (UnrewardedRelayer AccountId))
  (confirmation_relayer : AccountId) (received_range : MessageNonce * MessageNonce) (p : pallet) :
  pallet :=
  let relayers_rewards :=
    calc_relayers_rewards messages_relayers received_range.1 received_range.2 in
  register_relayers_rewards confirmation_relayer relayers_rewards
    (AccountParams lane_id BridgedChainId BridgedChain) DeliveryReward p.

(** The relayers pallet as the payment mechanism of the messages pallet. *)
#[global] Instance DeliveryConfirmationPaymentsAdapter : DeliveryConfirmationPayments AccountId pallet :=
  {| confirmation_pay_reward := adapter_pay_reward |}.

(** ** What is registered *)

Definition outstanding (p : pallet) (key : AccountId * RewardsAccountParams) : Z :=
  default 0 (RelayerRewards p !! key).

Definition rewards_wf (p : pallet) : Prop := forall key, 0 <= outstanding p key <= reward_max.

Lemma register_outstanding (params : RewardsAccountParams) (a : AccountId) (reward : Z) (p : pallet)
  (key : AccountId * RewardsAccountParams) :
  rewards_wf p -> 0 <= reward ->
  outstanding (register_relayer_reward params a reward p) key =
  if decide (key = (a, params)) then saturating_add reward_max (outstanding p key) reward
  else outstanding p key.
Proof.
  intros Hwf Hr. specialize (Hwf key). unfold register_relayer_reward.
  destruct (reward =? 0) eqn:E; [case_decide; word|]. unfold outstanding in *. simpl.
  case_decide as Hk; [subst key; by rewrite lookup_insert_eq|].
  by rewrite lookup_insert_ne by congruence.
Qed.

Lemma register_wf (params : RewardsAccountParams) (a : AccountId) (reward : Z) (p : pallet) :
  rewards_wf p -> 0 <= reward -> rewards_wf (register_relayer_reward params a reward p).
Proof.
  intros Hwf Hr key. rewrite register_outstanding by done. specialize (Hwf key).
  case_decide; [word|done].
Qed.

Hypothesis Hmax : 0 <= reward_max.
Hypothesis Hfee : 0 <= DeliveryReward.

Lemma relayer_reward_of_spec (messages : Z) :
  0 <= messages -> relayer_reward_of messages DeliveryReward = Z.min reward_max (messages * DeliveryReward).
Proof.
  intros Hm. unfold relayer_reward_of, saturating_mul.
  destruct (Z.min_spec reward_max messages) as [[Hlt ->]|[Hle ->]]; [|done].
  destruct (decide (DeliveryReward = 0)) as [->|]; [lia|]. nia.
Qed.

(** The loop credits the relayers of the list, and keeps the share of the confirmation
    relayer apart. *)
Lemma register_others_spec (c : AccountId) (params : RewardsAccountParams) (l : list (AccountId * Z))
  (acc : Z) (p : pallet) :
  rewards_wf p -> 0 <= acc <= reward_max -> NoDup l.*1 -> Forall (fun x => 0 <= x.2) l ->
  let (acc', p') := register_others c params DeliveryReward l acc p in
  rewards_wf p' /\
  acc' = saturating_add reward_max acc
           (default 0 ((list_to_map l : gmap AccountId Z) !! c) * DeliveryReward) /\
  forall key, outstanding p' key =
    if decide (key.2 = params /\ key.1 <> c)
    then saturating_add reward_max (outstanding p key)
           (default 0 ((list_to_map l : gmap AccountId Z) !! key.1) * DeliveryReward)
    else outstanding p key.
Proof.
  revert acc p. induction l as [|[a n] l IH]; intros acc p Hwf Hacc Hnd Hpos; simpl.
  { split_and!; [done|rewrite lookup_empty; simpl; word|]. intros key. specialize (Hwf key).
    case_decide; [rewrite lookup_empty; simpl; word|done]. }
  apply NoDup_cons in Hnd as [Ha Hnd]. apply Forall_cons in Hpos as [Hn Hpos]. simpl in Ha, Hn.
  assert ((list_to_map l : gmap AccountId Z) !! a = None) as Hnone by by apply not_elem_of_list_to_map_1.
  rewrite relayer_reward_of_spec by done. case_bool_decide as Hac.
  - assert (0 <= Z.min reward_max (n * DeliveryReward)) as Hr by nia.
    specialize (IH acc _ (register_wf params a _ p Hwf Hr) Hacc Hnd Hpos).
    destruct (register_others _ _ _ _ _ _) as [acc' p']. destruct IH as (Hwf' & -> & Hout).
    split_and!; [done|by rewrite lookup_insert_ne|]. intros key.
    rewrite Hout, register_outstanding by done. specialize (Hwf key).
    destruct (decide (key = (a, params))) as [->|Hk]; simpl.
    + rewrite !decide_True by done. rewrite Hnone, lookup_insert_eq. simpl. rewrite Z.mul_0_l. assert (0 <= n * DeliveryReward) by nia. word.
    + case_decide as Hc; [|done]. destruct Hc as [Hc1 Hc2].
      rewrite lookup_insert_ne; [done|]. intros ->. apply Hk. by destruct key; simplify_eq/=.
  - assert (a = c) as -> by (destruct (decide (a = c)); [done|by destruct Hac]).
    assert (0 <= saturating_add reward_max acc (Z.min reward_max (n * DeliveryReward)) <= reward_max)
      as Hacc' by (unfold saturating_add; nia).
    specialize (IH _ p Hwf Hacc' Hnd Hpos).
    destruct (register_others _ _ _ _ _ _) as [acc' p']. destruct IH as (Hwf' & -> & Hout).
    split_and!; [done| |].
    + rewrite Hnone, lookup_insert_eq. simpl. rewrite Z.mul_0_l. assert (0 <= n * DeliveryReward) by nia. word.
    + intros key. rewrite Hout. case_decide as Hc; [|done]. destruct Hc as [Hc1 Hc2].
      by rewrite lookup_insert_ne by done.
Qed.

Lemma register_relayers_rewards_spec (c : AccountId) (rewards : gmap AccountId Z)
  (params : RewardsAccountParams) (p : pallet) :
  rewards_wf p -> (forall a, 0 <= default 0 (rewards !! a)) ->
  let p' := register_relayers_rewards c rewards params DeliveryReward p in
  rewards_wf p' /\
  forall key, outstanding p' key =
    if decide (key.2 = params)
    then saturating_add reward_max (outstanding p key)
           (default 0 (rewards !! key.1) * DeliveryReward)
    else outstanding p key.
Proof.
  intros Hwf Hpos. unfold register_relayers_rewards.
  pose proof (register_others_spec c params (map_to_list rewards) 0 p Hwf ltac:(lia)
    (NoDup_fst_map_to_list rewards)) as Hs.
  assert (Forall (fun x => 0 <= x.2) (map_to_list rewards)) as Hall.
  { apply Forall_forall. intros [a n] Hin. apply elem_of_map_to_list in Hin.
    specialize (Hpos a). by rewrite Hin in Hpos. }
  specialize (Hs Hall). destruct (register_others _ _ _ _ _ _) as [acc p1].
  destruct Hs as (Hwf1 & -> & Hout). rewrite list_to_map_to_list in *.
  assert (0 <= default 0 (rewards !! c) * DeliveryReward) as Hc by (specialize (Hpos c); nia).
  assert (0 <= saturating_add reward_max 0 (default 0 (rewards !! c) * DeliveryReward)) as Hr by word.
  split; [by apply register_wf|]. intros key. rewrite register_outstanding, Hout by done.
  specialize (Hwf key). destruct key as [a k]. simpl.
  destruct (decide ((a, k) = (c, params))) as [[= -> ->]|Hk].
  - rewrite (decide_False (P := _ /\ _)), decide_True by naive_solver. word.
  - destruct (decide (k = params)) as [->|Hne]; [|by rewrite decide_False by naive_solver].
    by rewrite decide_True by naive_solver.
Qed.

(** ** Properties *)

(** C25. Confirming the delivery of messages credits every relayer with the delivery reward for
    each of the confirmed messages that it has delivered, whoever submits the
    confirmation, and credits nobody else: for a contiguous queue of unrewarded
    relayers and a confirmed range inside it, the reward registered for an account
    under the parameters of the lane grows by that number of messages times the reward
    per message (up to the largest value of the reward type), and no other reward
    changes. *)
Theorem confirmation_rewards_exact (lane : LaneId) (l : list (UnrewardedRelayer AccountId))
  (confirmation_relayer : AccountId) (lo hi first final : Z) (p : pallet) :
  chain lo l hi -> lo <= first -> 1 <= first <= final -> final <= hi -> final <= u64_max ->
  rewards_wf p ->
  let params := AccountParams lane BridgedChainId BridgedChain in
  let p' := confirmation_pay_reward lane l confirmation_relayer (first, final) p in
  rewards_wf p' /\
  forall a k, outstanding p' (a, k) =
    if decide (k = params)
    then saturating_add reward_max (outstanding p (a, k))
           (Z.of_nat (length (nonces_of a l first final)) * DeliveryReward)
    else outstanding p (a, k).
Proof.
  intros Hc Hlo Hfirst Hhi Hu64 Hwf params p'.
  destruct (calc_from_spec first final l ∅) as [Ha _]; [lia|done| |].
  { intros a. rewrite lookup_empty; simpl.
    pose proof (overlaps_of_le a first final l). rewrite (chain_overlaps _ _ _ _ _ Hc) in *. lia. }
  assert (forall a, default 0 (calc_relayers_rewards l first final !! a) =
    Z.of_nat (length (nonces_of a l first final))) as Hcount.
  { intros a. unfold calc_relayers_rewards. rewrite Ha, lookup_empty; simpl.
    apply (overlaps_of_nonces a l lo hi first final Hc). lia. }
  destruct (register_relayers_rewards_spec confirmation_relayer
    (calc_relayers_rewards l first final) params p Hwf) as [Hwf' Hout].
  { intros a. rewrite Hcount. lia. }
  split; [exact Hwf'|]. intros a k. rewrite <- Hcount. exact (Hout (a, k)).
Qed.

(** A claim succeeds exactly when it is signed by an account with a registered reward and the
    payment succeeds; then exactly the registered amount is paid and the reward is
    gone, so that the same reward cannot be claimed again.  A claim that fails names
    the reason. *)
Theorem claim_rewards_correct (p : pallet) (origin : RawOrigin AccountId)
  (params : RewardsAccountParams) :
  match claim_rewards p origin params with
  | Ok p' =>
      exists a reward,
        origin = Signed a /\ RelayerRewards p !! (a, params) = Some reward /\
        pay_reward (ledger p) a params reward = Ok (ledger p') /\
        (forall key, RelayerRewards p' !! key =
           if decide (key = (a, params)) then None else RelayerRewards p !! key) /\
        claim_rewards p' origin params = Err (ModuleError NoRewardForRelayer)
  | Err BadOrigin => forall a, origin <> Signed a
  | Err (ModuleError NoRewardForRelayer) =>
      exists a, origin = Signed a /\ RelayerRewards p !! (a, params) = None
  | Err (ModuleError FailedToPayReward) =>
      exists a reward e, origin = Signed a /\ RelayerRewards p !! (a, params) = Some reward /\
        pay_reward (ledger p) a params reward = Err e
  | Panic => exists a reward, pay_reward (ledger p) a params reward = Panic
  end.
Proof.
  clear Hmax Hfee. unfold claim_rewards. destruct origin as [|a| |]; simpl; try done.
  destruct (RelayerRewards p !! (a, params)) as [reward|] eqn:Er; simpl; [|by exists a].
  destruct (pay_reward (ledger p) a params reward) as [paid|e|] eqn:Ep; simpl.
  - exists a, reward. split_and!; try done.
    + intros key. case_decide as Hk; [by rewrite Hk, lookup_delete_eq|].
      by rewrite lookup_delete_ne by congruence.
    + by rewrite lookup_delete_eq.
  - by exists a, reward, e.
  - by exists a, reward.
Qed.
End Relayers.

(** ** What is paid *)

Section Payments.
Context `{!RelayersConfig} {AccountId Ledger PayError : Type} `{Countable AccountId}.
Context `{!PaymentProcedure Ledger AccountId PayError} (Hmax : 0 <= reward_max).

(** The payment procedure, with a record of the payments that it was asked for and has made. *)
Abbreviation payment := (AccountId * RewardsAccountParams * Z)%type.
Abbreviation recorded := (Ledger * list payment)%type.
Definition recording : PaymentProcedure recorded AccountId PayError := {|
  pay_reward ledger relayer rewards_account_params reward :=
    let? paid := pay_reward ledger.1 relayer rewards_account_params reward in
    Ok (paid, ledger.2 ++ [(relayer, rewards_account_params, reward)])
|}.
Abbreviation pallet := (pallet AccountId recorded).
Abbreviation claim := (claim_rewards (PaymentProcedure0 := recording)).

Fixpoint paid_to (key : AccountId * RewardsAccountParams) (payments : list payment) : Z :=
  match payments with
  | [] => 0
  | (key', reward) :: payments => (if decide (key = key') then reward else 0) + paid_to key payments
  end.

Lemma paid_to_app (key : AccountId * RewardsAccountParams) (l l' : list payment) :
  paid_to key (l ++ l') = paid_to key l + paid_to key l'.
Proof. induction l as [|[k r] l IH]; cbn; lia. Qed.

(** A run of registrations and claims, with what was registered for [key]. *)
Inductive reward_run (key : AccountId * RewardsAccountParams) (p0 : pallet) : Z -> pallet -> Prop :=
| RunStart : reward_run key p0 0 p0
| RunRegister registered p params a reward :
    reward_run key p0 registered p -> 0 <= reward ->
    reward_run key p0 (registered + if decide (key = (a, params)) then reward else 0)
      (register_relayer_reward params a reward p)
| RunClaim registered p a params p' :
    reward_run key p0 registered p -> claim p (Signed a) params = Ok p' ->
    reward_run key p0 registered p'.

(** A claim makes one payment, of the registered amount, which is not registered any more. *)
Lemma claim_pays (p p' : pallet) (a : AccountId) (params : RewardsAccountParams)
  (key : AccountId * RewardsAccountParams) :
  claim p (Signed a) params = Ok p' ->
  outstanding p' key = (if decide (key = (a, params)) then 0 else outstanding p key) /\
  paid_to key (ledger p').2 = paid_to key (ledger p).2 + (if decide (key = (a, params)) then outstanding p key else 0).
Proof.
  unfold claim_rewards; cbn [ensure_signed obind].
  intros (reward & Hrw%ok_or_Ok & (l & (l1 & _ & [= <-])%map_err_Ok%obind_Ok & [= <-])%obind_Ok)%obind_Ok.
  unfold outstanding; cbn; rewrite paid_to_app; cbn; split.
  - case_decide as Hk; [by rewrite Hk, lookup_delete_eq | by rewrite lookup_delete_ne by congruence].
  - case_decide as Hk; [rewrite Hk, Hrw; cbn|]; lia.
Qed.

(** C26. No relayer is paid more than was registered for it: in any run of registrations and
    claims, what the payment procedure was asked to pay to an account, for a rewards account, in
    all claims that have succeeded, plus what is still outstanding, never exceeds what was
    registered, and equals it as long as the total fits the reward type. *)
Theorem rewards_are_conserved (key : AccountId * RewardsAccountParams) (p0 p : pallet) (registered : Z) :
  rewards_wf p0 -> (ledger p0).2 = [] -> reward_run key p0 registered p ->
  rewards_wf p /\ paid_to key (ledger p).2 + outstanding p key <= registered + outstanding p0 key /\
  (registered + outstanding p0 key <= reward_max ->
   paid_to key (ledger p).2 + outstanding p key = registered + outstanding p0 key).
Proof.
  intros Hwf0 Hnone Hrun.
  enough (rewards_wf p /\ 0 <= registered /\ 0 <= paid_to key (ledger p).2 /\
    paid_to key (ledger p).2 + outstanding p key <= registered + outstanding p0 key /\
    (registered + outstanding p0 key <= reward_max ->
     paid_to key (ledger p).2 + outstanding p key = registered + outstanding p0 key)) by naive_solver.
  induction Hrun as [|registered p params a reward _ (Hwf & Hreg & Hpaid & Hle & Heq) Hr|
    registered p a params p' _ (Hwf & Hreg & Hpaid & Hle & Heq) Hc].
  - rewrite Hnone; cbn; split_and!; try done; lia.
  - split; [by apply register_wf|]. rewrite register_outstanding by done. specialize (Hwf key).
    replace (ledger (register_relayer_reward params a reward p)) with (ledger p)
      by (unfold register_relayer_reward; by destruct (reward =? 0)).
    case_decide; word.
  - split.
    + intros key'; rewrite (proj1 (claim_pays p p' a params key' Hc)); specialize (Hwf key'); case_decide; [lia|done].
    + destruct (claim_pays p p' a params key Hc) as [-> ->]; specialize (Hwf key); case_decide; lia.
Qed.
End Payments.

(** ** Two relayers *)
Module TwoRelayers.

#[global] Instance config : RelayersConfig := {|
  reward_max := u64_max;
  DeliveryReward := 10;
  BridgedChainId := LaneId_ 98 114 105 100;
|}.

(** Accounts are numbers, and account 0 pays. *)
Definition transfer (l : gmap Z Z) (from to amount : Z) : outcome unit (gmap Z Z) :=
  let balance := default 0 (l !! from) in
  if amount <=? balance
  then let l := <[from := balance - amount]> l in Ok (<[to := default 0 (l !! to) + amount]> l)
  else Err tt.

#[global] Instance payments : PaymentProcedure (gmap Z Z) Z unit :=
  PayRewardFromAccount transfer (fun _ => 0).

Definition lane : LaneId := LaneId_ 0 0 0 0.
Definition params : RewardsAccountParams := AccountParams lane BridgedChainId BridgedChain.
Definition p0 : pallet Z (gmap Z Z) := Pallet ∅ {[0 := 100]} [].
Definition queue : list (UnrewardedRelayer Z) :=
  [Unrewarded 1 (Delivered 3 5); Unrewarded 2 (Delivered 6 6); Unrewarded 1 (Delivered 7 9)].

Lemma max_ok : 0 <= reward_max.
Proof. simpl. word. Qed.

Lemma fee_ok : 0 <= DeliveryReward.
Proof. simpl. lia. Qed.

Lemma p0_wf : rewards_wf p0.
Proof. intros key. unfold outstanding. simpl. rewrite lookup_empty. simpl. word. Qed.

(** The same pallet with the payments on record, before and after a claim. *)
Definition r0 : pallet Z (gmap Z Z * list (Z * RewardsAccountParams * Z)) := Pallet ∅ ({[0 := 100]}, []) [].
Definition r1 : pallet Z (gmap Z Z * list (Z * RewardsAccountParams * Z)) := register_relayer_reward params 1 40 r0.
Definition r2 : pallet Z (gmap Z Z * list (Z * RewardsAccountParams * Z)) :=
  Pallet ∅ ({[0 := 60; 1 := 40]}, [(1, params, 40)]) [RewardPaid 1 params 40].

Lemma r0_wf : rewards_wf r0.
Proof. intros key. unfold outstanding. simpl. rewrite lookup_empty. simpl. word. Qed.

Lemma claimed : claim_rewards (PaymentProcedure0 := recording) r1 (Signed 1) params = Ok r2.
Proof. vm_compute. reflexivity. Qed.
End TwoRelayers.

Lemma confirmation_rewards_exact_witness :
  let p' := confirmation_pay_reward TwoRelayers.lane TwoRelayers.queue 2 (4, 8) TwoRelayers.p0 in
  rewards_wf p' /\
  outstanding p' (1, TwoRelayers.params) = 40 /\ outstanding p' (2, TwoRelayers.params) = 10.
Proof.
  intros p'.
  destruct (confirmation_rewards_exact TwoRelayers.max_ok TwoRelayers.fee_ok TwoRelayers.lane
    TwoRelayers.queue 2 3 9 4 8 TwoRelayers.p0) as [Hwf Hout];
    [simpl; lia|lia|lia|lia|word|exact TwoRelayers.p0_wf|].
  split; [exact Hwf|]. unfold p'. rewrite !Hout. split; vm_compute; reflexivity.
Defined.

Lemma rewards_are_conserved_witness :
  paid_to (1, TwoRelayers.params) (ledger TwoRelayers.r2).2 = 40 /\
  paid_to (1, TwoRelayers.params) (ledger TwoRelayers.r2).2 + outstanding TwoRelayers.r2 (1, TwoRelayers.params) =
  40 + outstanding TwoRelayers.r0 (1, TwoRelayers.params).
Proof.
  split; [reflexivity|].
  refine (proj2 (proj2 (rewards_are_conserved TwoRelayers.max_ok (1, TwoRelayers.params)
    TwoRelayers.r0 TwoRelayers.r2 40 TwoRelayers.r0_wf eq_refl _)) _).
  - exact (RunClaim (1, TwoRelayers.params) TwoRelayers.r0 40 TwoRelayers.r1 1 TwoRelayers.params _
      (RunRegister (1, TwoRelayers.params) TwoRelayers.r0 0 TwoRelayers.r0 TwoRelayers.params 1 40
         (RunStart _ _) ltac:(lia)) TwoRelayers.claimed).
  - vm_compute. discriminate.
Defined.
