(* ===== verification/RuntimeMessages.v ===== *)
(** * bin/runtime-common/src/messages.rs: messages between two Substrate chains

    The storage keys of the messages pallet (primitives/messages/src/storage_keys.rs),
    the verification of messages proofs and of delivery proofs against finalized
    headers of the bridged chain, the checks on outbound messages and the dispatch of
    inbound XCM messages.  They are the implementations of the traits that the
    messages pallet is configured with, so they are given here as instances of the
    classes of [MessagesPallet], together with the laws that pallet relies on.

    Parameters: the hash functions of the storage keys, the codec of stored values,
    the trie behind storage proofs, and the XCM executor and weigher. *)

From S2P Require Import Prelude Substrate RuntimePrimitives MessagesPrimitives.
From S2P Require Import OutboundLane InboundLane StorageProof HeaderChain MessagesPallet.
From Stdlib Require Import String Ascii.
From stdpp Require Import base numbers list gmap.
Local Open Scope Z_scope.

(** ** storage_keys.rs *)

Class StorageHashers := {
  twox_128 : list Z -> list Z;
  blake2_128 : list Z -> list Z;
}.

Class StorageHashersLaws `{StorageHashers} : Prop := {
  twox_128_length b : length (twox_128 b) = 16%nat;
  blake2_128_length b : length (blake2_128 b) = 16%nat;
}.

Definition as_bytes (s : string) : list Z :=
  map (fun c => Z.of_N (N_of_ascii c)) (list_ascii_of_string s).

Definition OUTBOUND_MESSAGES_MAP_NAME : string := "OutboundMessages".
Definition OUTBOUND_LANES_MAP_NAME : string := "OutboundLanes".
Definition INBOUND_LANES_MAP_NAME : string := "InboundLanes".

(** The codec of fixed-width integers: little endian. *)
Fixpoint le_bytes (width : nat) (x : Z) : list Z :=
  match width with
  | O => []
  | S width => x mod 256 :: le_bytes width (x / 256)
  end.

Definition encode_lane_id (lane : LaneId) : list Z :=
  match lane with LaneId_ b0 b1 b2 b3 => [b0; b1; b2; b3] end.

Definition encode_message_key (k : MessageKey) : list Z :=
  encode_lane_id (key_lane_id k) ++ le_bytes 8 (key_nonce k).

Section StorageKeys.
Context `{StorageHashers}.

(** [frame_support::Blake2_128Concat]. *)
Definition Blake2_128Concat (key : list Z) : list Z := blake2_128 key ++ key.

Definition storage_map_final_key (hash : list Z -> list Z) (pallet_prefix map_name : string)
  (key : list Z) : list Z :=
  let key_hashed := hash key in
  let pallet_prefix_hashed := twox_128 (as_bytes pallet_prefix) in
  let storage_prefix_hashed := twox_128 (as_bytes map_name) in
  pallet_prefix_hashed ++ storage_prefix_hashed ++ key_hashed.

Definition message_key (pallet_prefix : string) (lane : LaneId) (nonce : MessageNonce) : list Z :=
  storage_map_final_key Blake2_128Concat pallet_prefix OUTBOUND_MESSAGES_MAP_NAME
    (encode_message_key (MessageKey_ lane nonce)).

Definition outbound_lane_data_key (pallet_prefix : string) (lane : LaneId) : list Z :=
  storage_map_final_key Blake2_128Concat pallet_prefix OUTBOUND_LANES_MAP_NAME
    (encode_lane_id lane).

Definition inbound_lane_data_key (pallet_prefix : string) (lane : LaneId) : list Z :=
  storage_map_final_key Blake2_128Concat pallet_prefix INBOUND_LANES_MAP_NAME
    (encode_lane_id lane).
End StorageKeys.

(** ** The bridge configuration *)

(** [MessageBridge] with [ThisChainWithMessages] and [BridgedChainWithMessages];
    [max_extrinsic_size] is the one of the bridged chain. *)
Class MessageBridge (AccountId X : Type) := {
  BRIDGED_MESSAGES_PALLET_NAME : string;
  is_message_accepted : RawOrigin AccountId -> LaneId -> X -> bool;
  maximal_pending_messages_at_outbound_lane : Z;
  verify_dispatch_weight : list Z -> bool;
  max_extrinsic_size : Z;
}.

(** How values of type [T] are stored. *)
Class StorageCodec (Value T : Type) := {
  storage_encode : T -> Value;
  storage_decode : Value -> option T;
}.

Class StorageCodecLaws (Value T : Type) `{StorageCodec Value T} : Prop := {
  storage_decode_encode (t : T) : storage_decode (storage_encode t) = Some t;
}.

Inductive Error :=
| EmptyMessageProof
| HeaderChain_ (e : HeaderChainError StorageProofError)
| InboundLaneStorage_ (e : StorageProofError)
| InvalidMessageWeight
| MessagesCountMismatch
| MessageStorage (e : StorageProofError)
| MessageTooLarge
| OutboundLaneStorage_ (e : StorageProofError)
| StorageProof_ (e : StorageProofError).

(** [messages::target::maximal_incoming_message_size] and
    [maximal_incoming_message_dispatch_weight]. *)
Definition maximal_incoming_message_size (maximal_extrinsic_size : Z) : Z :=
  maximal_extrinsic_size / 3 * 2.

Definition maximal_incoming_message_dispatch_weight `{WeightOps}
  (maximal_extrinsic_weight : Weight) : Weight :=
  weight_div maximal_extrinsic_weight 2.

(** The [Size] of both proofs: the total length of the trie nodes. *)
Definition storage_proof_size {Node : Type} (node_len : Node -> Z) (storage_proof : list Node) : Z :=
  let total := fold_left (fun sum node => saturating_add u64_max sum (node_len node)) storage_proof 0 in
  if total <=? u32_max then total else u32_max.

Record FromBridgedChainMessagesDeliveryProof (Hash Node : Type) := MessagesDeliveryProof_ {
  mdp_bridged_header_hash : Hash;
  mdp_storage_proof : list Node;
  mdp_lane : LaneId;
}.
Arguments MessagesDeliveryProof_ {Hash Node} _ _ _.
Arguments mdp_bridged_header_hash {Hash Node} _.
Arguments mdp_storage_proof {Hash Node} _.
Arguments mdp_lane {Hash Node} _.

Record FromBridgedChainMessagesProof (Hash Node : Type) := MessagesProof_ {
  mp_bridged_header_hash : Hash;
  mp_storage_proof : list Node;
  mp_lane : LaneId;
  mp_nonces_start : MessageNonce;
  mp_nonces_end : MessageNonce;
}.
Arguments MessagesProof_ {Hash Node} _ _ _ _ _.
Arguments mp_bridged_header_hash {Hash Node} _.
Arguments mp_storage_proof {Hash Node} _.
Arguments mp_lane {Hash Node} _.
Arguments mp_nonces_start {Hash Node} _.
Arguments mp_nonces_end {Hash Node} _.

(** ** Outbound messages *)

Section Outbound.
Context {AccountId X : Type} `{!MessageBridge AccountId X}.

Definition maximal_message_size : Z := maximal_incoming_message_size max_extrinsic_size.

(** [FromThisChainMessageVerifier::verify_message]. *)
Definition verify_lane_message (submitter : RawOrigin AccountId) (lane : LaneId)
  (lane_outbound_data : OutboundLaneData) (x : X) : outcome string unit :=
  if negb (is_message_accepted submitter lane x) then
    Err "The outbound message lane has rejected the message."%string
  else
    let max_pending_messages := maximal_pending_messages_at_outbound_lane in
    let pending_messages :=
      saturating_sub (latest_generated_nonce lane_outbound_data)
        (latest_received_nonce lane_outbound_data) in
    if max_pending_messages <? pending_messages then
      Err "Too many pending messages at the lane."%string
    else Ok tt.

Definition verify_chain_message (payload : list Z) : outcome Error unit :=
  if negb (verify_dispatch_weight payload) then Err InvalidMessageWeight
  else
    if maximal_message_size <? Z.of_nat (length payload) then Err MessageTooLarge
    else Ok tt.

#[global] Instance FromThisChainMessageVerifier : LaneMessageVerifier (list Z) AccountId X := {|
  lane_verify_message submitter lane data _ x :=
    match verify_lane_message submitter lane data x with Ok _ => true | _ => false end;
|}.
End Outbound.

(** ** Proofs *)

Section Proofs.
Context {AccountId X Hash Node Value : Type} `{!MessageBridge AccountId X}.
Context `{!HeaderChain X Hash} `{Trie Node Hash (list Z) Value} `{!StorageHashers}.
Context `{!StorageCodec Value (list Z)} `{!StorageCodec Value OutboundLaneData}.
Context `{!StorageCodec Value (InboundLaneData AccountId)}.
Abbreviation Checker := (StorageProofChecker Node Hash).
Abbreviation MessagesProof := (FromBridgedChainMessagesProof Hash Node).
Abbreviation DeliveryProof := (FromBridgedChainMessagesDeliveryProof Hash Node).

(** [StorageProofCheckerAdapter]. *)
Definition read_and_decode_outbound_lane_data (storage : Checker) (lane_id : LaneId) :
  outcome Error (option OutboundLaneData) * Checker :=
  let storage_outbound_lane_data_key :=
    outbound_lane_data_key BRIDGED_MESSAGES_PALLET_NAME lane_id in
  let (r, storage) :=
    read_and_decode_opt_value storage_decode storage storage_outbound_lane_data_key in
  (map_err OutboundLaneStorage_ r, storage).

Definition read_and_decode_message_payload (storage : Checker) (key : MessageKey) :
  outcome Error (list Z) * Checker :=
  let storage_message_key :=
    message_key BRIDGED_MESSAGES_PALLET_NAME (key_lane_id key) (key_nonce key) in
  let (r, storage) := read_and_decode_mandatory_value storage_decode storage storage_message_key in
  (map_err MessageStorage r, storage).

(** The loop over the nonces of the proof. *)
Fixpoint read_messages (lane : LaneId) (nonces : list MessageNonce) (storage : Checker)
  (messages : list Message) : outcome Error (list Message * Checker) :=
  match nonces with
  | [] => Ok (messages, storage)
  | nonce :: nonces =>
      let key := MessageKey_ lane nonce in
      let (r, storage) := read_and_decode_message_payload storage key in
      let? payload := r in
      read_messages lane nonces storage
        (messages ++ [{| MessagesPrimitives.message_key := key; message_payload := payload |}])
  end.

(** [nonces_start..=nonces_end]. *)
Definition nonces_range (nonces_start nonces_end : MessageNonce) : list MessageNonce :=
  seqZ nonces_start (nonces_end + 1 - nonces_start).

(** The closure that is run on the storage of the finalized header. *)
Definition parse_messages (lane : LaneId) (nonces_start nonces_end : MessageNonce)
  (messages_count : Z) (storage : Checker) : outcome Error (ProvedMessages Message) :=
  let? messages_in_the_proof :=
    match checked_sub nonces_end nonces_start with
    | Some nonces_difference =>
        let messages_in_the_proof := saturating_add u64_max nonces_difference 1 in
        if negb (messages_in_the_proof =? messages_count) then Err MessagesCountMismatch
        else Ok messages_in_the_proof
    | None => Ok 0
    end in
  let? (messages, storage) := read_messages lane (nonces_range nonces_start nonces_end) storage [] in
  let (r, storage) := read_and_decode_outbound_lane_data storage lane in
  let? lane_state := r in
  let proved_lane_messages := Proved lane_state messages in
  if match lane_state, messages with None, [] => true | _, _ => false end then
    Err EmptyMessageProof
  else
    check? map_err StorageProof_ (ensure_no_unused_nodes storage) in
    Ok [(lane, proved_lane_messages)].

(** [Result<Result<T, E>, HeaderChainError>] with the outer error mapped: the [?] at the end
    of both verification functions. *)
Definition flatten_header_chain {A : Type}
  (c : outcome (HeaderChainError StorageProofError) (outcome Error A)) : outcome Error A :=
  let? r := map_err HeaderChain_ c in r.

Definition verify_messages_proof (proof : MessagesProof) (messages_count : Z) (x : X) :
  outcome Error (ProvedMessages Message) :=
  flatten_header_chain
    (parse_finalized_storage_proof checker_new x (mp_bridged_header_hash proof)
       (mp_storage_proof proof)
       (parse_messages (mp_lane proof) (mp_nonces_start proof) (mp_nonces_end proof)
          messages_count)).

Definition parse_delivery (lane : LaneId) (storage : Checker) :
  outcome Error (LaneId * InboundLaneData AccountId) :=
  let storage_inbound_lane_data_key :=
    inbound_lane_data_key BRIDGED_MESSAGES_PALLET_NAME lane in
  let (r, storage) :=
    read_and_decode_mandatory_value storage_decode storage storage_inbound_lane_data_key in
  let? inbound_lane_data := map_err InboundLaneStorage_ r in
  check? map_err StorageProof_ (ensure_no_unused_nodes storage) in
  Ok (lane, inbound_lane_data).

Definition verify_messages_delivery_proof (proof : DeliveryProof) (x : X) :
  outcome Error (LaneId * InboundLaneData AccountId) :=
  flatten_header_chain
    (parse_finalized_storage_proof checker_new x (mdp_bridged_header_hash proof)
       (mdp_storage_proof proof) (parse_delivery (mdp_lane proof))).

(** The nonces of a proof are 64-bit integers. *)
Definition TypedMessagesProof : Type :=
  {proof : MessagesProof | is_u64 (mp_nonces_start proof) /\ is_u64 (mp_nonces_end proof)}.

#[global] Instance SourceHeaderChainAdapter (node_len : Node -> Z) :
  SourceHeaderChain TypedMessagesProof X := {|
  messages_proof_size proof := storage_proof_size node_len (mp_storage_proof (`proof));
  MessagesPallet.verify_messages_proof proof messages_count x :=
    match verify_messages_proof (`proof) messages_count x with Ok ms => Some ms | _ => None end;
|}.

#[global] Instance TargetHeaderChainAdapter (node_len : Node -> Z) :
  TargetHeaderChain (list Z) AccountId DeliveryProof X := {|
  delivery_proof_size proof := storage_proof_size node_len (mdp_storage_proof proof);
  chain_verify_message payload :=
    match verify_chain_message payload with Ok _ => true | _ => false end;
  MessagesPallet.verify_messages_delivery_proof proof x :=
    match verify_messages_delivery_proof proof x with Ok r => Some r | _ => None end;
|}.
End Proofs.

(** ** XCM messages *)

Inductive SendError := NotApplicable | MissingArgument | Transport (reason : string).

Section Xcm.
Context `{WeightOps} {AccountId Location Xcm XcmHash XcmOutcome W : Type}.

(** [FromBridgedChainMessagePayload]; the weight is not known before the weigher has run. *)
Record FromBridgedChainMessagePayload := Payload {
  payload_xcm : Location * Xcm;
  payload_weight : option Weight;
}.

(** The decoder drops the length of the vector and reads the pair. *)
Definition decode_dispatch_payload (decode_compact : list Z -> option (Z * list Z))
  (decode_xcm_pair : list Z -> option ((Location * Xcm) * list Z)) (input : list Z) :
  option FromBridgedChainMessagePayload :=
  '(_, input) ← decode_compact input;
  '(xcm, _) ← decode_xcm_pair input;
  Some (Payload xcm None).

(** [XcmWeigher::weight] takes the message by mutable reference;
    [execute_xcm_in_credit] gets the origin, the message, its hash, the weight limit and
    the weight credit. *)
Context (xcm_weight : Xcm -> option Weight * Xcm) (weight_credit : Weight).
Context (message_hash : LaneId * MessageNonce -> XcmHash).
Context (execute_xcm_in_credit :
  Location -> Xcm -> XcmHash -> Weight -> Weight -> W -> XcmOutcome * W).

Definition xcm_dispatch_weight (message : DispatchMessage FromBridgedChainMessagePayload) :
  Weight * DispatchMessage FromBridgedChainMessagePayload :=
  match dispatch_data message with
  | Some payload =>
      let (location, xcm) := payload_xcm payload in
      let (weight, xcm) := xcm_weight xcm in
      let weight := default weight_zero weight in
      (weight,
       DispatchMessage_ (dispatch_key message) (Some (Payload (location, xcm) (Some weight))))
  | None => (weight_zero, message)
  end.

(** The outcome of the execution and codec errors are only logged. *)
Definition xcm_dispatch (relayer_account : AccountId)
  (message : DispatchMessage FromBridgedChainMessagePayload) (w : W) :
  MessageDispatchResult unit * W :=
  let message_id := (key_lane_id (dispatch_key message), key_nonce (dispatch_key message)) in
  let w :=
    match dispatch_data message with
    | Some (Payload (location, xcm) weight_limit) =>
        let hash := message_hash message_id in
        (execute_xcm_in_credit location xcm hash (default weight_zero weight_limit) weight_credit
           w).2
    | None => w
    end in
  (DispatchResult weight_zero tt, w).

Definition FromBridgedChainMessageDispatch :
  MessageDispatch AccountId FromBridgedChainMessagePayload unit W := {|
  dispatch_weight := xcm_dispatch_weight;
  dispatch := xcm_dispatch;
|}.

(** [XcmBridgeAdapter]: both arguments of [validate] are taken out of their options. *)
Definition xcm_validate (verify_destination : Location -> bool) (build_destination : Location)
  (encode_xcm : Location * Xcm -> list Z) (dest : option Location) (msg : option Xcm) :
  outcome SendError (list Z * Z) * (option Location * option Xcm) :=
  match dest with
  | None => (Err MissingArgument, (None, msg))
  | Some d =>
      if negb (verify_destination d) then (Err NotApplicable, (Some d, msg))
      else
        let route := build_destination in
        match msg with
        | None => (Err MissingArgument, (None, None))
        | Some msg => (Ok (encode_xcm (route, msg), 1000000), (None, None))
        end
  end.

Definition xcm_deliver {Origin SendArtifacts E : Type} (xcm_origin : Origin) (xcm_lane : LaneId)
  (send : W -> Origin -> LaneId -> list Z -> outcome E (SendArtifacts * W))
  (nonce_of : SendArtifacts -> MessageNonce) (w : W) (ticket : list Z) :
  outcome SendError (XcmHash * W) :=
  let lane := xcm_lane in
  match send w xcm_origin lane ticket with
  | Ok (artifacts, w) => Ok (message_hash (lane, nonce_of artifacts), w)
  | Err _ => Err (Transport "Bridge has rejected the message"%string)
  | Panic => Panic
  end.
End Xcm.
Arguments FromBridgedChainMessagePayload {_} _ _.

(** ** Storage keys *)

Lemma le_bytes_length (width : nat) (x : Z) : length (le_bytes width x) = width.
Proof. revert x. induction width as [|w IH]; intros x; simpl; [done|]. by rewrite IH. Qed.

Lemma le_bytes_inj (width : nat) (x y : Z) :
  0 <= x < 256 ^ Z.of_nat width -> 0 <= y < 256 ^ Z.of_nat width ->
  le_bytes width x = le_bytes width y -> x = y.
Proof.
  revert x y. induction width as [|w IH]; intros x y Hx Hy; [lia|].
  rewrite Nat2Z.inj_succ, Z.pow_succ_r in Hx, Hy by lia. simpl. intros [= Hmod Hdiv].
  pose proof (Z.div_mod x 256 ltac:(lia)). pose proof (Z.div_mod y 256 ltac:(lia)).
  apply IH in Hdiv; [congruence|split..]; try (apply Z.div_pos; lia);
    apply Z.div_lt_upper_bound; lia.
Qed.

Section KeyFacts.
Context `{StorageHashersLaws}.

Lemma encode_lane_id_inj (l1 l2 : LaneId) : encode_lane_id l1 = encode_lane_id l2 -> l1 = l2.
Proof. by destruct l1, l2; intros [= -> -> -> ->]. Qed.

Lemma encode_message_key_inj (l1 l2 : LaneId) (n1 n2 : Z) : is_u64 n1 -> is_u64 n2 ->
  encode_message_key (MessageKey_ l1 n1) = encode_message_key (MessageKey_ l2 n2) ->
  l1 = l2 /\ n1 = n2.
Proof.
  intros Hn1 Hn2 Heq. unfold encode_message_key in Heq. simpl key_lane_id in Heq.
  apply app_inj_1 in Heq as [Hl Hn]; [|by destruct l1, l2].
  split; [by apply encode_lane_id_inj|].
  apply (le_bytes_inj 8); [word..|exact Hn].
Qed.

(** Two final keys are equal only if the keys of the maps are. *)
Lemma final_key_inj (prefix1 prefix2 map1 map2 : string) (k1 k2 : list Z) :
  storage_map_final_key Blake2_128Concat prefix1 map1 k1 =
  storage_map_final_key Blake2_128Concat prefix2 map2 k2 ->
  twox_128 (as_bytes map1) = twox_128 (as_bytes map2) /\ k1 = k2.
Proof.
  unfold storage_map_final_key, Blake2_128Concat. intros Heq.
  apply app_inj_1 in Heq as [_ Heq]; [|by rewrite !twox_128_length].
  apply app_inj_1 in Heq as [Hm Heq]; [|by rewrite !twox_128_length].
  apply app_inj_1 in Heq as [_ Hk]; [|by rewrite !blake2_128_length]. done.
Qed.

Lemma encode_message_key_not_lane (k : MessageKey) (l : LaneId) :
  encode_message_key k <> encode_lane_id l.
Proof.
  intros Heq%(f_equal length). unfold encode_message_key in Heq.
  rewrite length_app, le_bytes_length in Heq. destruct l, (key_lane_id k). simpl in Heq. lia.
Qed.

(** The storage entries of the messages pallet never share a storage key: two messages have
    the same key only if they are the same message of the same lane, two lanes of the
    same direction only if they are the same lane, a message never has the key of a
    lane, and the keys of the two directions can only meet if the 128-bit hashes of
    the names of the two maps are equal. *)
Theorem storage_keys_distinct (prefix : string) :
  (forall l1 l2 n1 n2, is_u64 n1 -> is_u64 n2 ->
     message_key prefix l1 n1 = message_key prefix l2 n2 -> l1 = l2 /\ n1 = n2) /\
  (forall l1 l2, outbound_lane_data_key prefix l1 = outbound_lane_data_key prefix l2 -> l1 = l2) /\
  (forall l1 l2, inbound_lane_data_key prefix l1 = inbound_lane_data_key prefix l2 -> l1 = l2) /\
  (forall l1 l2 n, message_key prefix l1 n <> outbound_lane_data_key prefix l2 /\
     message_key prefix l1 n <> inbound_lane_data_key prefix l2) /\
  (forall l1 l2, outbound_lane_data_key prefix l1 = inbound_lane_data_key prefix l2 ->
     twox_128 (as_bytes OUTBOUND_LANES_MAP_NAME) = twox_128 (as_bytes INBOUND_LANES_MAP_NAME)).
Proof.
  split_and!.
  - intros l1 l2 n1 n2 Hn1 Hn2 [_ Hk]%final_key_inj. by apply encode_message_key_inj.
  - intros l1 l2 [_ Hk]%final_key_inj. by apply encode_lane_id_inj.
  - intros l1 l2 [_ Hk]%final_key_inj. by apply encode_lane_id_inj.
  - intros l1 l2 n. split; intros [_ Hk]%final_key_inj; by apply encode_message_key_not_lane in Hk.
  - by intros l1 l2 [Hm _]%final_key_inj.
Qed.
End KeyFacts.

(** ** What a verified proof says *)

Section ProofFacts.
Context {AccountId X Hash Node Value : Type} `{!MessageBridge AccountId X}.
Context `{!HeaderChain X Hash} `{Trie Node Hash (list Z) Value} `{!StorageHashers}.
Context `{!StorageCodec Value (list Z)} `{!StorageCodec Value OutboundLaneData}.
Context `{!StorageCodec Value (InboundLaneData AccountId)}.
Abbreviation Checker := (StorageProofChecker Node Hash).
Abbreviation MessagesProof := (FromBridgedChainMessagesProof Hash Node).
Abbreviation DeliveryProof := (FromBridgedChainMessagesDeliveryProof Hash Node).
Abbreviation name := BRIDGED_MESSAGES_PALLET_NAME.

Definition payload_at (db : gset Node) (root : Hash) (lane : LaneId) (nonce : MessageNonce) :
  option (list Z) :=
  match (read_trie_value db root (message_key name lane nonce)).2 with
  | Some (Some v) => storage_decode v
  | _ => None
  end.

(** The optional state of the lane: a value that the proof does not reach is no state. *)
Definition state_read (db : gset Node) (root : Hash) (lane : LaneId)
  (state : option OutboundLaneData) : Prop :=
  match (read_trie_value db root (outbound_lane_data_key name lane)).2 with
  | Some (Some v) => exists d, storage_decode v = Some d /\ state = Some d
  | _ => state = None
  end.

Definition message_keys (lane : LaneId) (nonces : list MessageNonce) : list (list Z) :=
  map (message_key name lane) nonces.

Definition reads_message (db : gset Node) (root : Hash) (lane : LaneId) (nonce : MessageNonce)
  (m : Message) : Prop :=
  MessagesPrimitives.message_key m = MessageKey_ lane nonce /\
  payload_at db root lane nonce = Some (message_payload m).

Lemma read_payload_spec (c : Checker) (key : MessageKey) :
  (read_and_decode_message_payload c key).2 =
    (read_value c (message_key name (key_lane_id key) (key_nonce key))).2 /\
  forall p, (read_and_decode_message_payload c key).1 = Ok p <->
    payload_at (proof_db c) (proof_root c) (key_lane_id key) (key_nonce key) = Some p.
Proof.
  unfold read_and_decode_message_payload, payload_at.
  set (k := message_key _ _ _).
  destruct (mandatory_value_spec (T := list Z) storage_decode c k) as [Hc Hr].
  destruct (read_and_decode_mandatory_value _ _ _) as [r c']. simpl in *. split; [done|].
  intros p. rewrite map_err_Ok, Hr.
  destruct (read_trie_value _ _ _).2 as [[v|]|]; naive_solver.
Qed.

Lemma read_messages_spec (lane : LaneId) (nonces : list MessageNonce) (c c' : Checker)
  (acc ms : list Message) :
  read_messages lane nonces c acc = Ok (ms, c') <->
  c' = reads_of c (message_keys lane nonces) /\
  exists msgs, ms = acc ++ msgs /\
    Forall2 (reads_message (proof_db c) (proof_root c) lane) nonces msgs.
Proof.
  revert c acc. induction nonces as [|n nonces IH]; intros c acc; simpl.
  { split.
    - intros [= <- <-]. split; [done|]. exists []. by rewrite app_nil_r.
    - intros (-> & msgs & -> & ->%Forall2_nil_inv_l). by rewrite app_nil_r. }
  destruct (read_payload_spec c (MessageKey_ lane n)) as [Hc Hr]. simpl in Hc, Hr.
  destruct (read_and_decode_message_payload _ _) as [r c1]. simpl in *. subst c1.
  destruct (read_value_state c (message_key name lane n)) as [Hdb Hroot].
  rewrite obind_Ok. setoid_rewrite IH. setoid_rewrite Hr. rewrite Hdb, Hroot. split.
  - intros (p & Hp & -> & msgs & -> & Hall). split; [done|]. eexists (_ :: msgs).
    rewrite <- app_assoc. split; [done|]. by constructor.
  - intros (-> & msgs & -> & Hall). inversion Hall as [|? m ? msgs' [Hk Hp] Hall']; subst.
    exists (message_payload m). split; [done|]. split; [done|]. exists msgs'.
    rewrite <- app_assoc. destruct m; simpl in *. by subst.
Qed.

Lemma read_state_spec (c : Checker) (lane : LaneId) :
  (read_and_decode_outbound_lane_data c lane).2 =
    (read_value c (outbound_lane_data_key name lane)).2 /\
  forall state, (read_and_decode_outbound_lane_data c lane).1 = Ok state <->
    state_read (proof_db c) (proof_root c) lane state.
Proof.
  unfold read_and_decode_outbound_lane_data, state_read. set (k := outbound_lane_data_key _ _).
  destruct (opt_value_spec (T := OutboundLaneData) storage_decode c k) as [Hc Hr].
  destruct (read_and_decode_opt_value _ _ _) as [r c']. simpl in *. split; [done|].
  intros state. by rewrite map_err_Ok, Hr.
Qed.

(** What the proof is read for, in order. *)
Definition proof_keys (proof : MessagesProof) : list (list Z) :=
  message_keys (mp_lane proof) (nonces_range (mp_nonces_start proof) (mp_nonces_end proof)) ++
  [outbound_lane_data_key name (mp_lane proof)].

Lemma reads_of_app (c : Checker) (keys1 keys2 : list (list Z)) :
  reads_of c (keys1 ++ keys2) = reads_of (reads_of c keys1) keys2.
Proof. unfold reads_of. by rewrite fold_left_app. Qed.

(** The parser accepts exactly when the count matches, every message is in the proof,
    there is something in it, and no node is superfluous. *)
Lemma parse_messages_spec (proof : MessagesProof) (count : Z) (c : Checker)
  (ms : ProvedMessages Message) :
  let lane := mp_lane proof in
  let nonces := nonces_range (mp_nonces_start proof) (mp_nonces_end proof) in
  parse_messages lane (mp_nonces_start proof) (mp_nonces_end proof) count c = Ok ms <->
  exists state msgs, ms = [(lane, Proved state msgs)] /\
    (mp_nonces_start proof <= mp_nonces_end proof ->
     count = saturating_add u64_max (mp_nonces_end proof - mp_nonces_start proof) 1) /\
    Forall2 (reads_message (proof_db c) (proof_root c) lane) nonces msgs /\
    state_read (proof_db c) (proof_root c) lane state /\
    (state <> None \/ msgs <> []) /\
    ensure_no_unused_nodes (reads_of c (proof_keys proof)) = Ok tt.
Proof.
  intros lane nonces. unfold parse_messages. rewrite obind_Ok.
  assert ((exists n, match checked_sub (mp_nonces_end proof) (mp_nonces_start proof) with
    | Some d => if negb (saturating_add u64_max d 1 =? count) then Err MessagesCountMismatch
                else Ok (saturating_add u64_max d 1)
    | None => Ok 0 end = (Ok n : outcome Error Z)) <->
    (mp_nonces_start proof <= mp_nonces_end proof ->
     count = saturating_add u64_max (mp_nonces_end proof - mp_nonces_start proof) 1)) as Hcount.
  { unfold checked_sub. destruct (_ <=? _) eqn:El.
    - destruct (_ =? count) eqn:Ec; simpl; split; try lia; [by intros _; eexists|by intros []].
    - split; [lia|by eexists]. }
  fold nonces. split.
  - intros (n & Hn & Hk). apply obind_Ok in Hk as ([msgs c1] & Hmsgs & Hk).
    apply read_messages_spec in Hmsgs as (-> & msgs' & -> & Hall). simpl in Hk.
    destruct (reads_of_spec c (message_keys lane nonces)) as (_ & Hroot & Hdb & _).
    destruct (read_state_spec (reads_of c (message_keys lane nonces)) lane) as [Hc Hr].
    destruct (read_and_decode_outbound_lane_data _ _) as [r c2]. simpl in Hc, Hr. subst c2.
    apply obind_Ok in Hk as (state & Hs & Hk). apply Hr in Hs. rewrite Hroot, Hdb in Hs.
    exists state, msgs'. pose proof (proj1 Hcount (ex_intro _ n Hn)) as Hn'.
    destruct (match state with Some _ => false | None => _ end) eqn:Eempty; [done|].
    apply obind_Ok in Hk as ([] & Hu & [= <-]). apply map_err_Ok in Hu.
    split_and!; try done.
    + destruct state; [by left|]. destruct msgs'; [done|by right].
    + unfold proof_keys. rewrite reads_of_app. exact Hu.
  - intros (state & msgs & -> & Hn & Hall & Hs & Hne & Hu). apply Hcount in Hn as [n Hn].
    exists n. split; [done|]. apply obind_Ok.
    exists (msgs, reads_of c (message_keys lane nonces)). split; [by apply read_messages_spec; eauto|].
    destruct (reads_of_spec c (message_keys lane nonces)) as (_ & Hroot & Hdb & _).
    destruct (read_state_spec (reads_of c (message_keys lane nonces)) lane) as [Hc Hr].
    destruct (read_and_decode_outbound_lane_data _ _) as [r c2]. simpl in Hc, Hr. subst c2.
    apply obind_Ok. exists state. split; [apply Hr; by rewrite Hroot, Hdb|].
    destruct (match state with Some _ => false | None => _ end) eqn:Eempty.
    { destruct state, msgs; naive_solver. }
    apply obind_Ok. exists tt. split; [|done]. apply map_err_Ok.
    unfold proof_keys in Hu. rewrite reads_of_app in Hu. exact Hu.
Qed.

Lemma flatten_parse_Ok {A : Type} (x : X) (hash : Hash) (nodes : list Node)
  (parse : Checker -> outcome Error A) (a : A) :
  flatten_header_chain (parse_finalized_storage_proof checker_new x hash nodes parse) = Ok a <->
  exists root c, finalized_header_state_root x hash = Some root /\
    checker_new root nodes = Ok c /\ parse c = Ok a.
Proof.
  unfold flatten_header_chain, parse_finalized_storage_proof.
  rewrite obind_Ok. setoid_rewrite map_err_Ok. setoid_rewrite obind_Ok.
  setoid_rewrite ok_or_Ok. setoid_rewrite obind_Ok. setoid_rewrite map_err_Ok. naive_solver.
Qed.

(** The proved messages, and the header and the nodes they were read from. *)
Lemma verify_messages_proof_spec (proof : MessagesProof) (count : Z) (x : X)
  (ms : ProvedMessages Message) :
  let db : gset Node := list_to_set (mp_storage_proof proof) in
  verify_messages_proof proof count x = Ok ms <->
  exists root c state msgs,
    finalized_header_state_root x (mp_bridged_header_hash proof) = Some root /\
    checker_new root (mp_storage_proof proof) = Ok c /\
    ms = [(mp_lane proof, Proved state msgs)] /\
    (mp_nonces_start proof <= mp_nonces_end proof ->
     count = saturating_add u64_max (mp_nonces_end proof - mp_nonces_start proof) 1) /\
    Forall2 (reads_message db root (mp_lane proof))
      (nonces_range (mp_nonces_start proof) (mp_nonces_end proof)) msgs /\
    state_read db root (mp_lane proof) state /\
    (state <> None \/ msgs <> []) /\
    ensure_no_unused_nodes (reads_of c (proof_keys proof)) = Ok tt.
Proof.
  intros db. unfold verify_messages_proof. rewrite flatten_parse_Ok.
  setoid_rewrite parse_messages_spec. split.
  - intros (root & c & Hroot & Hc & state & msgs & Hall).
    pose proof (checker_new_Ok _ _ _ Hc) as [-> _].
    by eexists root, _, state, msgs.
  - intros (root & c & state & msgs & Hroot & Hc & Hall).
    pose proof (checker_new_Ok _ _ _ Hc) as [-> _].
    eexists root, _. split_and!; [done..|].
    by exists state, msgs.
Qed.

Lemma verify_messages_delivery_proof_spec (proof : DeliveryProof) (x : X) (lane : LaneId)
  (data : InboundLaneData AccountId) :
  let db : gset Node := list_to_set (mdp_storage_proof proof) in
  let key := inbound_lane_data_key name (mdp_lane proof) in
  verify_messages_delivery_proof proof x = Ok (lane, data) <->
  exists root c v,
    finalized_header_state_root x (mdp_bridged_header_hash proof) = Some root /\
    checker_new root (mdp_storage_proof proof) = Ok c /\ lane = mdp_lane proof /\
    (read_trie_value db root key).2 = Some (Some v) /\ storage_decode v = Some data /\
    ensure_no_unused_nodes (reads_of c [key]) = Ok tt.
Proof.
  intros db key. unfold verify_messages_delivery_proof. rewrite flatten_parse_Ok. unfold parse_delivery.
  fold key. split.
  - intros (root & c & Hroot & Hc & Hk). pose proof (checker_new_Ok _ _ _ Hc) as [Heq _].
    destruct (mandatory_value_spec (T := InboundLaneData AccountId) storage_decode c key) as [Hc' Hr].
    destruct (read_and_decode_mandatory_value _ _ _) as [r c1]. simpl in Hc', Hr. subst c1.
    apply obind_Ok in Hk as (d & Hd & Hk). apply map_err_Ok, Hr in Hd as (v & Hv & Hd).
    apply obind_Ok in Hk as ([] & Hu & [= <- <-]). apply map_err_Ok in Hu.
    exists root, c, v. rewrite Heq in Hv at 1 2. by split_and!.
  - intros (root & c & v & Hroot & Hc & -> & Hv & Hd & Hu). exists root, c. split_and!; try done.
    pose proof (checker_new_Ok _ _ _ Hc) as [Heq _].
    destruct (mandatory_value_spec (T := InboundLaneData AccountId) storage_decode c key) as [Hc' Hr].
    destruct (read_and_decode_mandatory_value _ _ _) as [r c1]. simpl in Hc', Hr. subst c1.
    apply obind_Ok. exists data. split.
    + apply map_err_Ok, Hr. exists v. by rewrite Heq at 1 2.
    + apply obind_Ok. exists tt. split; [by apply map_err_Ok|done].
Qed.
End ProofFacts.

(** ** Properties *)

Section Properties.
Context {AccountId X Hash Node Value : Type} `{!MessageBridge AccountId X}.
Context `{!HeaderChain X Hash} `{TrieLaws Node Hash (list Z) Value} `{!StorageHashers}.
Context `{StorageCodecLaws Value (list Z)} `{StorageCodecLaws Value OutboundLaneData}.
Context `{StorageCodecLaws Value (InboundLaneData AccountId)}.
Context `{WeightOps} {AccountId' L' X' : Type}.
Abbreviation MessagesProof := (FromBridgedChainMessagesProof Hash Node).
Abbreviation DeliveryProof := (FromBridgedChainMessagesDeliveryProof Hash Node).
Abbreviation name := BRIDGED_MESSAGES_PALLET_NAME.

(** The messages pallet of the bridged chain; its relayers are accounts of this chain. *)
Abbreviation bridged := (pallet AccountId' AccountId L' X').

(** [root] is the root of a state that holds the storage of [b]: every read that
    succeeds, whatever the nodes, returns what [b] holds. *)
Definition holds_storage (root : Hash) (b : bridged) : Prop :=
  forall (db : gset Node) key v, (read_trie_value db root key).2 = Some v ->
    (forall lane nonce, is_u64 nonce -> key = message_key name lane nonce ->
       v = storage_encode <$> OutboundMessages (pallet_rest b) !! MessageKey_ lane nonce) /\
    (forall lane, key = outbound_lane_data_key name lane ->
       v = storage_encode <$> OutboundLanes (pallet_rest b) !! lane) /\
    (forall lane, key = inbound_lane_data_key name lane ->
       v = storage_encode <$> InboundLanes b !! lane).

Lemma nonces_range_u64 (start last n : Z) :
  is_u64 start -> is_u64 last -> n ∈ nonces_range start last -> is_u64 n.
Proof. unfold nonces_range. intros Hs He ?%elem_of_seqZ. word. Qed.

Lemma payload_at_sent (root : Hash) (b : bridged) (db : gset Node) (lane : LaneId) (n : Z)
  (p : list Z) :
  holds_storage root b -> is_u64 n -> payload_at db root lane n = Some p ->
  OutboundMessages (pallet_rest b) !! MessageKey_ lane n = Some p.
Proof.
  intros Hb Hn. unfold payload_at. destruct (read_trie_value _ _ _).2 as [[v|]|] eqn:E; try done.
  destruct (Hb _ _ _ E) as (Hm & _). specialize (Hm lane n Hn eq_refl).
  destruct (_ !! _) as [q|]; [|done]. simpl in Hm. injection Hm as ->.
  rewrite storage_decode_encode. by intros [= ->].
Qed.

Lemma sent_payload_at (root : Hash) (b : bridged) (db : gset Node) (lane : LaneId) (n : Z)
  (p : list Z) (v : option Value) :
  holds_storage root b -> is_u64 n ->
  (read_trie_value db root (message_key name lane n)).2 = Some v ->
  OutboundMessages (pallet_rest b) !! MessageKey_ lane n = Some p ->
  payload_at db root lane n = Some p.
Proof.
  intros Hb Hn Hr Hp. unfold payload_at. rewrite Hr. destruct (Hb _ _ _ Hr) as (Hm & _).
  rewrite (Hm lane n Hn eq_refl), Hp. simpl. apply storage_decode_encode.
Qed.

Lemma state_read_kept (root : Hash) (b : bridged) (db : gset Node) (lane : LaneId)
  (state : option OutboundLaneData) :
  holds_storage root b -> state_read db root lane state ->
  state = None \/ state = OutboundLanes (pallet_rest b) !! lane.
Proof.
  intros Hb. unfold state_read. destruct (read_trie_value _ _ _).2 as [[v|]|] eqn:E; [|by left..].
  intros (d & Hd & ->). right. destruct (Hb _ _ _ E) as (_ & Ho & _). specialize (Ho lane eq_refl).
  destruct (_ !! _) as [d'|]; [|done]. simpl in Ho. injection Ho as ->.
  rewrite storage_decode_encode in Hd. by injection Hd as ->.
Qed.

(** A state that is covered by the proof is the stored one. *)
Lemma state_read_proved (root : Hash) (b : bridged) (db : gset Node) (lane : LaneId)
  (state : option OutboundLaneData) (v : option Value) :
  holds_storage root b -> state_read db root lane state ->
  (read_trie_value db root (outbound_lane_data_key name lane)).2 = Some v ->
  state = OutboundLanes (pallet_rest b) !! lane.
Proof.
  intros Hb Hs Hv. destruct (Hb _ _ _ Hv) as (_ & Ho & _). specialize (Ho lane eq_refl).
  unfold state_read in Hs. rewrite Hv in Hs. subst v.
  destruct (_ !! _) as [d|]; simpl in *; [|done].
  destruct Hs as (d' & Hd & ->). rewrite storage_decode_encode in Hd. congruence.
Qed.

(** The state that a proof gives, when its reads stay inside the storage of [b]. *)
Lemma state_read_exists (root : Hash) (b : bridged) (db : gset Node) (lane : LaneId) :
  holds_storage root b -> exists state, state_read db root lane state /\
    (forall v, (read_trie_value db root (outbound_lane_data_key name lane)).2 = Some v ->
       state = OutboundLanes (pallet_rest b) !! lane).
Proof.
  intros Hb. unfold state_read. destruct (read_trie_value _ _ _).2 as [v|] eqn:E; [|by exists None].
  destruct (Hb _ _ _ E) as (_ & Ho & _). specialize (Ho lane eq_refl).
  exists (OutboundLanes (pallet_rest b) !! lane). split; [|done]. subst v.
  destruct (_ !! _) as [d|]; simpl; [|done]. exists d. by rewrite storage_decode_encode.
Qed.

Lemma verified_messages_sent (proof : MessagesProof) (count : Z) (x : X) (root : Hash)
  (b : bridged) (ms : ProvedMessages Message) :
  is_u64 (mp_nonces_start proof) -> is_u64 (mp_nonces_end proof) -> is_u32 count ->
  finalized_header_state_root x (mp_bridged_header_hash proof) = Some root ->
  holds_storage root b ->
  verify_messages_proof proof count x = Ok ms ->
  exists state msgs, ms = [(mp_lane proof, Proved state msgs)] /\
    Forall2 (fun n m => MessagesPrimitives.message_key m = MessageKey_ (mp_lane proof) n /\
        OutboundMessages (pallet_rest b) !! MessageKey_ (mp_lane proof) n =
          Some (message_payload m))
      (nonces_range (mp_nonces_start proof) (mp_nonces_end proof)) msgs /\
    (state = None \/ state = OutboundLanes (pallet_rest b) !! mp_lane proof) /\
    (state <> None \/ msgs <> []) /\
    (mp_nonces_start proof <= mp_nonces_end proof ->
     count = mp_nonces_end proof - mp_nonces_start proof + 1).
Proof.
  intros Hs He Hcount Hroot Hb Hver.
  apply verify_messages_proof_spec in Hver
    as (root' & c & state & msgs & Hroot' & _ & -> & Hn & Hall & Hst & Hne & _).
  assert (root' = root) as -> by congruence. exists state, msgs. split_and!; try done.
  - apply Forall2_same_length_lookup. apply Forall2_same_length_lookup in Hall as [Hlen Hall].
    split; [done|]. intros i n m Hi Hm. destruct (Hall i n m Hi Hm) as [Hk Hp]. split; [done|].
    apply (payload_at_sent root b (list_to_set (mp_storage_proof proof))); [done| |done].
    apply (nonces_range_u64 _ _ _ Hs He). by eapply list_elem_of_lookup_2.
  - by eapply state_read_kept.
  - intros Hle. specialize (Hn Hle). word.
Qed.

(** C3. Whatever a messages proof proves was sent: if the state root of the header it is for is
    the root of the bridged chain's storage, then the verified messages are exactly the
    consecutive nonces that the proof declares, each with the payload that the bridged
    messages pallet stores under it; the lane state, if there is one, is the stored
    one; the proof is not empty and the declared number of messages is the real one
    unless the range of nonces is empty. *)
Theorem proved_messages_are_sent (proof : MessagesProof) (count : Z) (x : X) (root : Hash)
  (b : bridged) (ms : ProvedMessages Message) :
  is_u64 (mp_nonces_start proof) -> is_u64 (mp_nonces_end proof) -> is_u32 count ->
  finalized_header_state_root x (mp_bridged_header_hash proof) = Some root ->
  holds_storage root b ->
  verify_messages_proof proof count x = Ok ms ->
  exists state msgs, ms = [(mp_lane proof, Proved state msgs)] /\
    Forall2 (fun n m => MessagesPrimitives.message_key m = MessageKey_ (mp_lane proof) n /\
        OutboundMessages (pallet_rest b) !! MessageKey_ (mp_lane proof) n =
          Some (message_payload m))
      (nonces_range (mp_nonces_start proof) (mp_nonces_end proof)) msgs /\
    (state = None \/ state = OutboundLanes (pallet_rest b) !! mp_lane proof) /\
    (state <> None \/ msgs <> []) /\
    (mp_nonces_start proof <= mp_nonces_end proof ->
     count = mp_nonces_end proof - mp_nonces_start proof + 1).
Proof. exact (verified_messages_sent proof count x root b ms). Qed.

(** An honest proof is accepted: it consists of exactly the trie nodes that reading its keys
    visits, it covers the messages of its range, all of which the bridged chain has
    sent, and it declares their number; a proof without messages covers the state of
    the lane. *)
Theorem honest_messages_proof_is_accepted (proof : MessagesProof) (count : Z) (x : X) (root : Hash)
  (b : bridged) :
  let db : gset Node := list_to_set (mp_storage_proof proof) in
  let lane := mp_lane proof in
  is_u64 (mp_nonces_start proof) -> is_u64 (mp_nonces_end proof) -> is_u32 count ->
  finalized_header_state_root x (mp_bridged_header_hash proof) = Some root ->
  holds_storage root b ->
  NoDup (mp_storage_proof proof) -> db_contains db root = true ->
  (forall n, n ∈ mp_storage_proof proof <->
     exists key, key ∈ proof_keys proof /\ visited_by (Value := Value) db root key n) ->
  (forall n, n ∈ nonces_range (mp_nonces_start proof) (mp_nonces_end proof) ->
     is_Some (OutboundMessages (pallet_rest b) !! MessageKey_ lane n) /\
     is_Some (read_trie_value db root (message_key name lane n)).2) ->
  (if decide (mp_nonces_start proof <= mp_nonces_end proof)
   then count = mp_nonces_end proof - mp_nonces_start proof + 1
   else is_Some (OutboundLanes (pallet_rest b) !! lane) /\
        is_Some (read_trie_value db root (outbound_lane_data_key name lane)).2) ->
  exists ms, verify_messages_proof proof count x = Ok ms.
Proof.
  intros db lane Hs He Hc Hroot Hb Hnd Hdb Hmin Hmsgs Hwhat.
  assert (checker_new root (mp_storage_proof proof) =
    Ok (Checker (Z.of_nat (length (mp_storage_proof proof))) root db [])) as Hnew.
  { apply checker_new_accepts; [|done]. by rewrite size_list_to_set, Z.eqb_refl. }
  destruct (state_read_exists root b db lane Hb) as (state & Hstate & Hread).
  assert (exists msgs, Forall2 (reads_message db root lane)
    (nonces_range (mp_nonces_start proof) (mp_nonces_end proof)) msgs) as [msgs Hall].
  { apply Forall2_choice. intros n Hin.
    destruct (Hmsgs n Hin) as [[p Hp] [v Hv]].
    exists {| MessagesPrimitives.message_key := MessageKey_ lane n; message_payload := p |}.
    split; [done|]. eapply sent_payload_at; [done| |done..].
    exact (nonces_range_u64 _ _ _ Hs He Hin). }
  exists [(lane, Proved state msgs)]. apply verify_messages_proof_spec.
  exists root, (Checker (Z.of_nat (length (mp_storage_proof proof))) root db []), state, msgs.
  split_and!; try done.
  - intros Hle. rewrite decide_True in Hwhat by done. word.
  - case_decide as Hle; [right|left].
    + apply Forall2_length in Hall. unfold nonces_range in Hall. rewrite length_seqZ in Hall.
      intros ->. simpl in Hall. lia.
    + destruct Hwhat as [[d Hd] [v Hv]]. rewrite (Hread v Hv), Hd. done.
  - by apply (no_unused_nodes_iff root (mp_storage_proof proof)).
Qed.

(** A verified delivery proof gives the state of the lane that it names, as the messages
    pallet of the bridged chain stores it. *)
Theorem delivery_proof_reads_the_lane (proof : DeliveryProof) (x : X) (root : Hash) (b : bridged)
  (lane : LaneId) (data : InboundLaneData AccountId) :
  finalized_header_state_root x (mdp_bridged_header_hash proof) = Some root ->
  holds_storage root b ->
  verify_messages_delivery_proof proof x = Ok (lane, data) ->
  lane = mdp_lane proof /\ InboundLanes b !! lane = Some data.
Proof.
  intros Hroot Hb Hver.
  apply verify_messages_delivery_proof_spec in Hver as (root' & c & v & Hroot' & _ & -> & Hv & Hd & _).
  assert (root' = root) as -> by congruence. split; [done|].
  destruct (Hb _ _ _ Hv) as (_ & _ & Hi). specialize (Hi _ eq_refl).
  destruct (_ !! _) as [d|]; [|done]. simpl in Hi. injection Hi as ->.
  rewrite storage_decode_encode in Hd. by injection Hd as ->.
Qed.

(** The adapter is a source header chain as the messages pallet expects it, as long as
    the bridged chain has not used up its nonces. *)
Lemma SourceHeaderChainAdapter_laws (node_len : Node -> Z) :
  (forall (db : gset Node) root lane, payload_at db root lane u64_max = None) ->
  @SourceHeaderChainLaws _ _ (SourceHeaderChainAdapter node_len).
Proof.
  intros Hlast. split; intros [proof [Hs He]] n x ms; simpl.
  - destruct (verify_messages_proof _ _ _) eqn:E; [|done..]. intros [= <-].
    apply verify_messages_proof_spec in E as (root & c & state & msgs & _ & _ & -> & _).
    apply NoDup_singleton.
  - intros Hn. destruct (verify_messages_proof _ _ _) eqn:E; [|done..]. intros [= <-].
    apply verify_messages_proof_spec in E as (root & c & state & msgs & _ & _ & -> & Hc & Hall & _).
    apply Forall2_length in Hall. simpl. unfold nonces_range in Hall. rewrite length_seqZ in Hall.
    destruct (decide (mp_nonces_start proof <= mp_nonces_end proof)) as [Hle|]; [|word].
    specialize (Hc Hle). word.
  - destruct (verify_messages_proof _ _ _) eqn:E; [|done..]. intros [= <-].
    apply verify_messages_proof_spec in E as (root & c & state & msgs & _ & _ & -> & _ & Hall & _).
    apply Forall_singleton. simpl. apply Forall_lookup. intros i m Hm.
    destruct (Forall2_lookup_r _ _ _ _ _ Hall Hm) as (k & Hk & Hkey & Hp). rewrite Hkey. simpl.
    apply list_elem_of_lookup_2, elem_of_seqZ in Hk.
    destruct (decide (k = u64_max)) as [->|]; [by rewrite Hlast in Hp|word].
Qed.
End Properties.

Section OutboundProperties.
Context `{WeightLaws} `{MessagesConstants}.
Context {AccountId P L DeliveryProof X : Type} `{!MessageBridge AccountId X}.
Context `{!TargetHeaderChain (list Z) AccountId DeliveryProof X} `{!PayloadCodec (list Z) P}.
Abbreviation pending d := (latest_generated_nonce d - latest_received_nonce d).
Abbreviation limit := maximal_pending_messages_at_outbound_lane.

(** The verifier compares the messages that are already pending with the limit. *)
Lemma verify_lane_message_Ok (submitter : RawOrigin AccountId) (lane : LaneId)
  (d : OutboundLaneData) (x : X) :
  latest_received_nonce d <= latest_generated_nonce d ->
  verify_lane_message submitter lane d x = Ok tt <->
  is_message_accepted submitter lane x = true /\ pending d <= limit.
Proof.
  intros Hd. unfold verify_lane_message. destruct (is_message_accepted _ _ _); simpl; [|naive_solver].
  destruct (_ <? _) eqn:E; split; try done; [intros [_ ?]|split; [done|]]; word.
Qed.

(** What a successful [send_message] of the pallet does to the nonces of the lane. *)
Lemma send_message_pending (r : rest AccountId L X) (submitter : RawOrigin AccountId)
  (lane_id : LaneId) (payload : list Z) :
  outbound_ok r -> let d := ol_data (outbound_lane lane_id r) in
  match send_message (P := P) r submitter lane_id payload with
  | Ok (_, r') =>
      verify_lane_message submitter lane_id d (external r) = Ok tt /\
      pending (ol_data (outbound_lane lane_id r')) = pending d + 1
  | Err _ =>
      PalletOperatingMode r <> Basic Normal \/ lane_id ∉ ActiveOutboundLanes \/
      chain_verify_message payload = false \/
      verify_lane_message submitter lane_id d (external r) <> Ok tt \/
      MaximalOutboundPayloadSize < Z.of_nat (length (encode_payload payload))
  | Panic => False
  end.
Proof.
  intros Hok d. unfold send_message, ensure_normal_operating_mode.
  destruct (decide (PalletOperatingMode r = Basic Normal)) as [|Hmode]; simpl; [|by left].
  case_bool_decide as Hactive; simpl; [|by right; left].
  destruct (chain_verify_message payload) eqn:Echain; simpl; [|by do 2 right; left].
  fold d. destruct (verify_lane_message _ _ _ _) as [[]| |] eqn:Elane; simpl;
    [|by do 3 right; left..].
  destruct (_ <=? _) eqn:Esize; simpl; [|do 4 right; lia]. destruct (Hok lane_id) as [Hinv Hmax].
  destruct (OutboundLane.send_message _ _) as [[nonce s]|] eqn:Esend; simpl.
  2: { revert Esend. unfold OutboundLane.send_message. simpl. by rewrite Esize. }
  split; [done|].
  destruct (send_message_spec _ _ _ _ Hinv Hmax Esend) as (-> & Hd & _).
  destruct (send_message_frame _ _ _ _ _ Esend) as (Hid & _).
  assert (ol_data s = default outbound_default (OutboundLanes (ro_rest s) !! lane_id)) as <-
    by (destruct s; simpl in *; by subst).
  rewrite Hd. simpl. unfold d. simpl. lia.
Qed.

(** With the verifier of the bridged runtimes a lane never holds more than one message over
    the limit of pending messages: the limit is checked before the new message is
    counted, so a lane that is at its limit still accepts one message, and a lane that
    is over it accepts none. *)
Theorem pending_messages_limit (r : rest AccountId L X) (submitter : RawOrigin AccountId)
  (lane_id : LaneId) (payload : list Z) :
  outbound_ok r ->
  let d := ol_data (outbound_lane lane_id r) in
  (forall artifacts r', send_message (P := P) r submitter lane_id payload = Ok (artifacts, r') ->
     pending d <= limit /\
     pending (ol_data (outbound_lane lane_id r')) = pending d + 1) /\
  (limit < pending d -> forall artifacts r',
     send_message (P := P) r submitter lane_id payload <> Ok (artifacts, r')) /\
  (pending d = limit -> PalletOperatingMode r = Basic Normal -> lane_id ∈ ActiveOutboundLanes ->
   chain_verify_message payload = true -> is_message_accepted submitter lane_id (external r) = true ->
   Z.of_nat (length (encode_payload payload)) <= MaximalOutboundPayloadSize ->
   exists artifacts r', send_message (P := P) r submitter lane_id payload = Ok (artifacts, r') /\
     pending (ol_data (outbound_lane lane_id r')) = limit + 1).
Proof.
  intros Hok d. pose proof (send_message_pending r submitter lane_id payload Hok) as Hsend.
  fold d in Hsend. destruct (Hok lane_id) as [Hinv _].
  assert (latest_received_nonce d <= latest_generated_nonce d) as Hle by apply Hinv.
  pose proof (verify_lane_message_Ok submitter lane_id d (external r) Hle) as Hver.
  destruct (send_message r submitter lane_id payload) as [[a r1]|e|]; [|split_and!..|done].
  - destruct Hsend as [Hok' Hpend]. apply Hver in Hok' as [_ Hlim]. split_and!.
    + by intros a' r' [= <- <-].
    + intros Hover. lia.
    + intros Hat _ _ _ _ _. exists a, r1. split; [done|lia].
  - done.
  - done.
  - intros Hat Hm Hl Hc Ha Hs. destruct Hsend as [|[|[|[Hno|]]]]; try done; [congruence| |lia].
    destruct Hno. apply Hver. split; [done|lia].
Qed.
End OutboundProperties.

Section XcmFacts.
Context `{WeightOps} {AccountId Location Xcm XcmHash XcmOutcome W : Type}.
Context (xcm_weight : Xcm -> option Weight * Xcm) (weight_credit : Weight).
Context (message_hash : LaneId * MessageNonce -> XcmHash).
Context (execute_xcm_in_credit :
  Location -> Xcm -> XcmHash -> Weight -> Weight -> W -> XcmOutcome * W).
Abbreviation payload := (FromBridgedChainMessagePayload Location Xcm).

Lemma FromBridgedChainMessageDispatch_laws :
  MessageDispatchLaws (AccountId := AccountId) (P := payload) (L := unit) (W := W)
    (H0 := FromBridgedChainMessageDispatch xcm_weight weight_credit message_hash
             execute_xcm_in_credit).
Proof.
  split. intros [key [[[location xcm] weight]|]]; [|done]. simpl. unfold xcm_dispatch_weight. simpl.
  by destruct (xcm_weight xcm).
Qed.

(** An XCM message is executed with exactly the weight limit that the messages pallet was
    told (and charges) for it, which is zero if the weigher fails; a message that does
    not decode weighs nothing and changes nothing; no weight is ever returned. *)
Theorem xcm_executed_with_charged_weight (relayer : AccountId) (m : DispatchMessage payload)
  (w : W) :
  let '(weight, m') := xcm_dispatch_weight xcm_weight m in
  let id := (key_lane_id (dispatch_key m), key_nonce (dispatch_key m)) in
  xcm_dispatch weight_credit message_hash execute_xcm_in_credit relayer m' w =
    (DispatchResult weight_zero tt,
     match dispatch_data m with
     | Some p =>
         (execute_xcm_in_credit (payload_xcm p).1 (xcm_weight (payload_xcm p).2).2
            (message_hash id) weight weight_credit w).2
     | None => w
     end) /\
  weight = default weight_zero (p ← dispatch_data m; (xcm_weight (payload_xcm p).2).1).
Proof.
  destruct m as [key [[[location xcm] limit]|]]; [|done].
  unfold xcm_dispatch_weight, xcm_dispatch. simpl. by destruct (xcm_weight xcm) as [weight xcm'].
Qed.

(** A route that is not ours is left as it was. *)
Lemma not_applicable_keeps_arguments (verify_destination : Location -> bool)
  (build_destination : Location) (encode_xcm : Location * Xcm -> list Z) (dest : option Location)
  (msg : option Xcm) :
  let '(r, args) := xcm_validate verify_destination build_destination encode_xcm dest msg in
  r = Err NotApplicable -> args = (dest, msg).
Proof.
  unfold xcm_validate. destruct dest as [d|]; [|done]. destruct (verify_destination d); simpl; [|done].
  by destruct msg.
Qed.
End XcmFacts.

(** ** An instance: a bridge with one lane and a trie of one node *)
Module SmallBridge.
Abbreviation lane0 := OneLane.lane0.

Inductive value := VMessage (p : list Z) | VOutbound (d : OutboundLaneData) | VInbound (d : InboundLaneData Z).

#[global] Instance message_codec : StorageCodec value (list Z) := {|
  storage_encode := VMessage;
  storage_decode v := match v with VMessage p => Some p | _ => None end;
|}.
#[global] Instance outbound_codec : StorageCodec value OutboundLaneData := {|
  storage_encode := VOutbound;
  storage_decode v := match v with VOutbound d => Some d | _ => None end;
|}.
#[global] Instance inbound_codec : StorageCodec value (InboundLaneData Z) := {|
  storage_encode := VInbound;
  storage_decode v := match v with VInbound d => Some d | _ => None end;
|}.
#[global] Instance message_codec_laws : StorageCodecLaws value (list Z).
Proof. by split. Qed.
#[global] Instance outbound_codec_laws : StorageCodecLaws value OutboundLaneData.
Proof. by split. Qed.
#[global] Instance inbound_codec_laws : StorageCodecLaws value (InboundLaneData Z).
Proof. by split. Qed.

#[global] Instance hashers : StorageHashers := {|
  twox_128 b := take 16 (b ++ replicate 16 0);
  blake2_128 _ := replicate 16 0;
|}.
#[global] Instance hashers_laws : StorageHashersLaws.
Proof.
  split; intros b; [|done]. cbn [twox_128 hashers]. rewrite length_take, length_app, length_replicate. lia.
Qed.

#[global] Instance bridge : MessageBridge Z unit := {|
  BRIDGED_MESSAGES_PALLET_NAME := "Messages";
  is_message_accepted _ _ _ := true;
  maximal_pending_messages_at_outbound_lane := 2;
  verify_dispatch_weight _ := true;
  max_extrinsic_size := 300;
|}.
#[global] Instance headers : HeaderChain unit unit := {| finalized_header_state_root _ _ := Some tt |}.

(** The bridged chain: two messages sent, one received. *)
Definition sent : rest Z unit unit :=
  Rest None (Basic Normal) {[lane0 := Outbound 1 0 2]}
    {[MessageKey_ lane0 1 := [7]; MessageKey_ lane0 2 := [8; 9]]} [] tt.
Definition received : InboundLaneData Z := Inbound [Unrewarded 5 (Delivered 1 1)] 0.
Definition bridged : pallet Z Z unit unit := Pallet {[lane0 := received]} sent.

Definition content (key : list Z) : option value :=
  if decide (key = message_key "Messages" lane0 1) then Some (VMessage [7])
  else if decide (key = message_key "Messages" lane0 2) then Some (VMessage [8; 9])
  else if decide (key = outbound_lane_data_key "Messages" lane0) then Some (VOutbound (Outbound 1 0 2))
  else if decide (key = inbound_lane_data_key "Messages" lane0) then Some (VInbound received)
  else None.

#[global] Instance trie : Trie unit unit (list Z) value := {|
  db_contains db _ := bool_decide (tt ∈ db);
  read_trie_value db _ key := if decide (tt ∈ db) then ([tt], Some (content key)) else ([], None);
|}.
#[global] Instance trie_laws : TrieLaws unit unit (list Z) value.
Proof.
  split; simpl.
  - intros db [] key []. case_decide; [done|]. by intros ?%not_elem_of_nil.
  - intros db db' [] key v Hs. case_decide as Hd; [|done]. rewrite decide_True by set_solver. done.
Qed.

Lemma content_message (lane : LaneId) (n : Z) : is_u64 n ->
  content (message_key "Messages" lane n) = VMessage <$> OutboundMessages sent !! MessageKey_ lane n.
Proof.
  intros Hn. unfold content.
  assert (forall m, is_u64 m -> message_key "Messages" lane n = message_key "Messages" lane0 m ->
    MessageKey_ lane n = MessageKey_ lane0 m) as Hinj.
  { intros m Hm [_ [-> ->]%encode_message_key_inj]%final_key_inj; done. }
  case_decide as H1; [apply Hinj in H1; [by rewrite H1|word]|].
  case_decide as H2; [apply Hinj in H2; [by rewrite H2|word]|].
  case_decide as H3; [by apply final_key_inj in H3 as [_ ?%encode_message_key_not_lane]|].
  case_decide as H4; [by apply final_key_inj in H4 as [_ ?%encode_message_key_not_lane]|].
  simpl. rewrite lookup_insert_ne by (intros [= <- <-]; by destruct H1).
  rewrite lookup_singleton_ne by (intros [= <- <-]; by destruct H2). done.
Qed.

Lemma content_outbound (lane : LaneId) :
  content (outbound_lane_data_key "Messages" lane) = VOutbound <$> OutboundLanes sent !! lane.
Proof.
  unfold content.
  case_decide as H1; [symmetry in H1; by apply final_key_inj in H1 as [_ ?%encode_message_key_not_lane]|].
  case_decide as H2; [symmetry in H2; by apply final_key_inj in H2 as [_ ?%encode_message_key_not_lane]|].
  case_decide as H3; [by apply final_key_inj in H3 as [_ ->%encode_lane_id_inj]|].
  case_decide as H4; [by apply final_key_inj in H4 as [? _]|].
  simpl. rewrite lookup_singleton_ne; [done|]. by intros <-.
Qed.

Lemma content_inbound (lane : LaneId) :
  content (inbound_lane_data_key "Messages" lane) = VInbound <$> InboundLanes bridged !! lane.
Proof.
  unfold content.
  case_decide as H1; [symmetry in H1; by apply final_key_inj in H1 as [_ ?%encode_message_key_not_lane]|].
  case_decide as H2; [symmetry in H2; by apply final_key_inj in H2 as [_ ?%encode_message_key_not_lane]|].
  case_decide as H3; [by apply final_key_inj in H3 as [? _]|].
  case_decide as H4; [by apply final_key_inj in H4 as [_ ->%encode_lane_id_inj]|].
  simpl. rewrite lookup_singleton_ne; [done|]. by intros <-.
Qed.

Lemma bridged_storage : holds_storage tt bridged.
Proof.
  intros db key v. simpl. case_decide; [|done]. intros [= <-]. split_and!.
  - intros lane n Hn ->. by apply content_message.
  - intros lane ->. apply content_outbound.
  - intros lane ->. apply content_inbound.
Qed.

Definition messages_proof : FromBridgedChainMessagesProof unit unit := MessagesProof_ tt [tt] lane0 1 2.
Definition delivery_proof : FromBridgedChainMessagesDeliveryProof unit unit :=
  MessagesDeliveryProof_ tt [tt] lane0.

(** The same bridge on the pallet of [OneLane], where one message is pending: the limit. *)
Definition tight : MessageBridge Z OneLane.X := {|
  BRIDGED_MESSAGES_PALLET_NAME := "Messages";
  is_message_accepted _ _ _ := true;
  maximal_pending_messages_at_outbound_lane := 1;
  verify_dispatch_weight _ := true;
  max_extrinsic_size := 300;
|}.
End SmallBridge.

Lemma storage_keys_distinct_witness :
  message_key "Messages" SmallBridge.lane0 1 <> message_key "Messages" SmallBridge.lane0 2.
Proof.
  intros Heq.
  by destruct (proj1 (storage_keys_distinct "Messages") SmallBridge.lane0 SmallBridge.lane0 1 2
    ltac:(word) ltac:(word) Heq).
Defined.

Lemma proved_messages_are_sent_witness :
  exists ms, verify_messages_proof SmallBridge.messages_proof 2 tt = Ok ms /\
    exists state msgs, ms = [(SmallBridge.lane0, Proved state msgs)] /\
      (state <> None \/ msgs <> []).
Proof.
  destruct (verify_messages_proof SmallBridge.messages_proof 2 tt) as [ms|e|] eqn:E;
    [|vm_compute in E; discriminate E..].
  exists ms. split; [done|].
  destruct (proved_messages_are_sent SmallBridge.messages_proof 2 tt tt SmallBridge.bridged ms
    ltac:(split; done) ltac:(split; done) ltac:(split; done) eq_refl
    SmallBridge.bridged_storage E) as (state & msgs & -> & _ & _ & Hne & _).
  by exists state, msgs.
Defined.

Lemma honest_messages_proof_is_accepted_witness :
  exists ms, verify_messages_proof SmallBridge.messages_proof 2 tt = Ok ms.
Proof.
  apply (honest_messages_proof_is_accepted SmallBridge.messages_proof 2 tt tt SmallBridge.bridged);
    try done; try (split; done).
  - exact SmallBridge.bridged_storage.
  - apply NoDup_singleton.
  - intros []. split; intros _; [|by left].
    exists (message_key "Messages" SmallBridge.lane0 1). split; [by left|]. by left.
  - intros n Hn. apply elem_of_seqZ in Hn. simpl in Hn.
    assert (n = 1 \/ n = 2) as [->| ->] by lia; split; by eexists.
Defined.

Lemma delivery_proof_reads_the_lane_witness :
  verify_messages_delivery_proof SmallBridge.delivery_proof tt =
    Ok (SmallBridge.lane0, SmallBridge.received) /\
  InboundLanes SmallBridge.bridged !! SmallBridge.lane0 = Some SmallBridge.received.
Proof.
  assert (verify_messages_delivery_proof SmallBridge.delivery_proof tt =
    Ok (SmallBridge.lane0, SmallBridge.received)) as Hver by (vm_compute; reflexivity).
  split; [exact Hver|].
  exact (proj2 (delivery_proof_reads_the_lane SmallBridge.delivery_proof tt tt SmallBridge.bridged
    SmallBridge.lane0 SmallBridge.received eq_refl SmallBridge.bridged_storage Hver)).
Defined.

Lemma pending_messages_limit_witness :
  exists artifacts r',
    send_message (P := list Z) (DeliveryProof := InboundLaneData Z)
      (LaneMessageVerifier0 := FromThisChainMessageVerifier (MessageBridge0 := SmallBridge.tight))
      OneLane.rest1 (Signed 3) OneLane.lane0 [8; 9] = Ok (artifacts, r') /\
    latest_generated_nonce (ol_data (outbound_lane OneLane.lane0 r')) -
    latest_received_nonce (ol_data (outbound_lane OneLane.lane0 r')) = 2.
Proof.
  pose proof (pending_messages_limit (MessageBridge0 := SmallBridge.tight) (P := list Z)
    (DeliveryProof := InboundLaneData Z) OneLane.rest1 (Signed 3) OneLane.lane0 [8; 9]
    OneLane.rest1_ok) as (_ & _ & H).
  apply H; try reflexivity; [|by vm_compute]. by left.
Defined.
