(* ===== verification/MessagesCallExt.v ===== *)
(** * bin/runtime-common/src/messages_call_ext.rs: checks on messages calls before dispatch

    What a messages call promises to do, whether that is obsolete, and whether the
    call was at least partially successful. *)

From S2P Require Import Prelude Substrate RuntimePrimitives GrandpaPallet MessagesPrimitives.
From S2P Require Import OutboundLane InboundLane MessagesWeights StorageProof HeaderChain.
From S2P Require Import MessagesPallet RuntimeMessages.
From stdpp Require Import base numbers list gmap.
Local Open Scope Z_scope.

Record BaseMessagesProofInfo := BaseInfo {
  bi_lane_id : LaneId;
  best_bundled_nonce : MessageNonce;
  best_stored_nonce : MessageNonce;
}.

Definition is_obsolete (i : BaseMessagesProofInfo) : bool :=
  best_bundled_nonce i <=? best_stored_nonce i.

(** [ReceiveMessagesProofInfo] and [ReceiveMessagesDeliveryProofInfo] wrap the same data. *)
Inductive CallInfo :=
| ReceiveMessagesProof (info : BaseMessagesProofInfo)
| ReceiveMessagesDeliveryProof (info : BaseMessagesProofInfo).

(** A runtime call, as far as the messages pallet looks at it. *)
Inductive Call `{WeightOps} (InboundRelayer Hash Node : Type) :=
| receive_messages_proof_call (relayer_id_at_bridged_chain : InboundRelayer)
    (proof : FromBridgedChainMessagesProof Hash Node) (messages_count : Z) (dispatch_weight : Weight)
| receive_messages_delivery_proof_call (proof : FromBridgedChainMessagesDeliveryProof Hash Node)
    (relayers_state : UnrewardedRelayersState)
| other_call.
Arguments receive_messages_proof_call {_ InboundRelayer Hash Node} _ _ _ _.
Arguments receive_messages_delivery_proof_call {_ InboundRelayer Hash Node} _ _.
Arguments other_call {_ InboundRelayer Hash Node}.

Section CallExt.
Context `{WeightOps} {AccountId InboundRelayer L X Hash Node : Type}.
Abbreviation pallet := (pallet AccountId InboundRelayer L X).
Abbreviation Call := (Call InboundRelayer Hash Node).

Definition was_partially_successful (p : pallet) (info : CallInfo) : bool :=
  match info with
  | ReceiveMessagesProof info =>
      let inbound_lane_data := get_inbound (InboundLanes p) (bi_lane_id info) in
      best_stored_nonce info <? last_delivered_nonce inbound_lane_data
  | ReceiveMessagesDeliveryProof info =>
      let outbound_lane_data := ol_data (outbound_lane (bi_lane_id info) (pallet_rest p)) in
      best_stored_nonce info <? latest_received_nonce outbound_lane_data
  end.

Definition receive_messages_proof_info (p : pallet) (c : Call) : option BaseMessagesProofInfo :=
  match c with
  | receive_messages_proof_call _ proof _ _ =>
      let inbound_lane_data := get_inbound (InboundLanes p) (mp_lane proof) in
      Some (BaseInfo (mp_lane proof) (mp_nonces_end proof) (last_delivered_nonce inbound_lane_data))
  | _ => None
  end.

Definition receive_messages_delivery_proof_info (p : pallet) (c : Call) :
  option BaseMessagesProofInfo :=
  match c with
  | receive_messages_delivery_proof_call proof relayers_state =>
      let outbound_lane_data := ol_data (outbound_lane (mdp_lane proof) (pallet_rest p)) in
      Some (BaseInfo (mdp_lane proof) (rs_last_delivered_nonce relayers_state)
              (latest_received_nonce outbound_lane_data))
  | _ => None
  end.

Definition call_info (p : pallet) (c : Call) : option CallInfo :=
  match receive_messages_proof_info p c with
  | Some info => Some (ReceiveMessagesProof info)
  | None =>
      match receive_messages_delivery_proof_info p c with
      | Some info => Some (ReceiveMessagesDeliveryProof info)
      | None => None
      end
  end.

Definition lane_of (info : CallInfo) : LaneId :=
  match info with
  | ReceiveMessagesProof info => bi_lane_id info
  | ReceiveMessagesDeliveryProof info => bi_lane_id info
  end.

Definition call_info_for (p : pallet) (c : Call) (lane_id : LaneId) : option CallInfo :=
  info ← call_info p c;
  if decide (lane_of info = lane_id) then Some info else None.

Definition check_obsolete_call (p : pallet) (c : Call) : Validity :=
  match call_info p c with
  | Some (ReceiveMessagesProof proof_info) => if is_obsolete proof_info then Stale else Valid
  | Some (ReceiveMessagesDeliveryProof proof_info) => if is_obsolete proof_info then Stale else Valid
  | None => Valid
  end.
End CallExt.

Section CallExtProperties.
Context `{WeightLaws} `{MessagesConstants} {Info : WeightInfoExt}.
Context {AccountId InboundRelayer P L X Hash Node Value : Type}.
Context `{EqDecision AccountId} `{EqDecision InboundRelayer}.
Context `{!MessageBridge AccountId X} `{!HeaderChain X Hash} `{Trie Node Hash (list Z) Value}.
Context `{!StorageHashers} `{!StorageCodec Value (list Z)} `{!StorageCodec Value OutboundLaneData}.
Context `{!StorageCodec Value (InboundLaneData AccountId)} (node_len : Node -> Z).
Context `{!DeliveryPayments AccountId X} `{!DeliveryConfirmationPayments AccountId X}.
Context `{!PayloadCodec (list Z) P} `{!MessageDispatch AccountId P L (rest AccountId L X)}.
Context `{!MessageDispatchLaws (AccountId := AccountId) (P := P) (L := L)}.
Abbreviation pallet := (pallet AccountId InboundRelayer L X).
Abbreviation MessagesProof := (TypedMessagesProof (Hash := Hash) (Node := Node)).

(** The bridged chain has not used up its nonces. *)
Hypothesis last_nonce_unused :
  forall (db : gset Node) root lane, payload_at db root lane u64_max = None.

(** Nothing useful is lost by rejecting the calls that the check before dispatch calls
    stale: a stale delivery would not deliver any message on any lane, and a stale
    confirmation would leave the pallet exactly as it is. *)
Theorem stale_messages_calls_are_useless (p : pallet) (origin : RawOrigin AccountId)
  (relayer : InboundRelayer) (proof : MessagesProof) (count : Z) (w : Weight)
  (delivery_proof : FromBridgedChainMessagesDeliveryProof Hash Node)
  (state : UnrewardedRelayersState) :
  (forall l, lane_ok (inbound_lane_data p l)) -> is_u32 count ->
  (check_obsolete_call p (receive_messages_proof_call relayer (`proof) count w) = Stale ->
   forall info p', receive_messages_proof (OutboundPayload := list Z)
       (SourceHeaderChain0 := SourceHeaderChainAdapter node_len)
       p origin relayer proof count w = Ok (info, p') ->
     forall l, last_delivered_nonce (inbound_lane_data p' l) = last_delivered_nonce (inbound_lane_data p l)) /\
  (check_obsolete_call (InboundRelayer := InboundRelayer) p
     (receive_messages_delivery_proof_call delivery_proof state) = Stale ->
   forall p', receive_messages_delivery_proof (OutboundPayload := list Z)
       (TargetHeaderChain0 := TargetHeaderChainAdapter node_len) p origin delivery_proof state = Ok p' ->
     p' = p).
Proof.
  intros Hok Hcount. split.
  - intros Hstale info p' Hrun.
    pose proof (SourceHeaderChainAdapter_laws node_len last_nonce_unused) as Hlaws.
    assert (mp_nonces_end (`proof) <=
      last_delivered_nonce (inbound_lane_data p (mp_lane (`proof)))) as Hold.
    { revert Hstale. unfold check_obsolete_call, is_obsolete, inbound_lane_data. simpl.
      by destruct (_ <=? _) eqn:E; [lia|]. }
    pose proof (receive_messages_proof_verified _ _ _ _ _ _ _ _ Hrun) as [ms Hms]. pose proof Hms as Hver.
    simpl in Hms. destruct (verify_messages_proof _ _ _) as [ms'|e|] eqn:Ever; [|done..].
    injection Hms as ->.
    apply verify_messages_proof_spec in Ever as (root & c & st & msgs & _ & _ & -> & _ & Hall & _).
    eapply (old_messages_not_delivered (H2 := Hlaws)); [done|done|exact Hver| |exact Hrun]. simpl.
    apply Forall_lookup. intros i m Hm.
    destruct (Forall2_lookup_r _ _ _ _ _ Hall Hm) as (n & Hn & Hkey & _). rewrite Hkey. simpl.
    apply list_elem_of_lookup_2, elem_of_seqZ in Hn. lia.
  - intros Hstale p'. revert Hstale. unfold check_obsolete_call, is_obsolete. simpl.
    destruct (_ <=? _) eqn:E; [|done]. intros _. apply Z.leb_le in E.
    intros Hrun. eapply old_confirmation_changes_nothing; [|exact E|exact Hrun]. simpl.
    intros lane data.
    destruct (verify_messages_delivery_proof _ _) as [[lane' data']|e|] eqn:Ever; [|done..].
    intros [= <- <-].
    apply verify_messages_delivery_proof_spec in Ever as (root & c & v & _ & _ & -> & _). done.
Qed.
End CallExtProperties.

(** ** An instance: the bridge of [SmallBridge], whose messages were already delivered *)
Module StaleCall.
#[global] Instance payments : DeliveryPayments Z unit := {| delivery_pay_reward _ _ _ _ x := x |}.
#[global] Instance confirmations : DeliveryConfirmationPayments Z unit :=
  {| confirmation_pay_reward _ _ _ _ x := x |}.
#[global] Instance dispatcher : MessageDispatch Z (list Z) unit (rest Z unit unit) := {|
  dispatch_weight m := (from_parts 10 0, m);
  dispatch _ m r := (DispatchResult (from_parts 4 0) tt, r);
|}.
#[global] Instance dispatcher_laws : MessageDispatchLaws (W := rest Z unit unit) (L := unit).
Proof. by split. Qed.

Definition p : pallet Z Z unit unit :=
  Pallet {[OneLane.lane0 := Inbound [] 2]}
    (Rest None (Basic Normal) {[OneLane.lane0 := Outbound 1 1 2]} ∅ [] tt).

Lemma p_lanes (l : LaneId) : lane_ok (inbound_lane_data p l).
Proof.
  assert (inbound_lane_data p l = Inbound [] 2 \/ inbound_lane_data p l = inbound_default) as [-> | ->].
  { unfold inbound_lane_data, get_inbound. simpl. destruct (decide (l = OneLane.lane0)) as [->|Hl].
    - left. by rewrite lookup_singleton_eq.
    - right. by rewrite lookup_singleton_ne. }
  - split; [|by vm_compute]. split; unfold last_delivered_nonce; simpl; try word; [|done].
    exists 3. simpl. lia.
  - split; [|by vm_compute]. split; unfold last_delivered_nonce; simpl; try word; [|done].
    exists 1. simpl. lia.
Qed.

Lemma last_nonce_unused (db : gset unit) (root : unit) (lane : LaneId) :
  payload_at db root lane u64_max = None.
Proof.
  unfold payload_at. cbn [read_trie_value SmallBridge.trie]. case_decide; [|done]. cbn [snd].
  cbn [BRIDGED_MESSAGES_PALLET_NAME SmallBridge.bridge].
  rewrite (SmallBridge.content_message lane u64_max) by word.
  cbn [OutboundMessages SmallBridge.sent].
  rewrite lookup_insert_ne, lookup_singleton_ne by (by intros [= _ ?]). done.
Qed.

Definition proof : TypedMessagesProof (Hash := unit) (Node := unit).
Proof. exists SmallBridge.messages_proof. by vm_compute. Defined.
End StaleCall.

Lemma stale_messages_calls_are_useless_witness :
  (forall info p', receive_messages_proof (P := list Z) (OutboundPayload := list Z)
     (SourceHeaderChain0 := SourceHeaderChainAdapter (fun _ => 60)) StaleCall.p (Signed 3) 5
     StaleCall.proof 2 (from_parts 100 0) = Ok (info, p') ->
   last_delivered_nonce (inbound_lane_data p' OneLane.lane0) = 2) /\
  (forall p', receive_messages_delivery_proof (OutboundPayload := list Z)
     (TargetHeaderChain0 := TargetHeaderChainAdapter (fun _ => 60)) StaleCall.p (Signed 3)
     SmallBridge.delivery_proof (RelayersState 1 1 1 1) = Ok p' -> p' = StaleCall.p) /\
  exists info p', receive_messages_proof (P := list Z) (OutboundPayload := list Z)
     (SourceHeaderChain0 := SourceHeaderChainAdapter (fun _ => 60)) StaleCall.p (Signed 3) 5
     StaleCall.proof 2 (from_parts 100 0) = Ok (info, p').
Proof.
  pose proof (stale_messages_calls_are_useless (fun _ => 60) StaleCall.last_nonce_unused StaleCall.p
    (Signed 3) 5 StaleCall.proof 2 (from_parts 100 0) SmallBridge.delivery_proof
    (RelayersState 1 1 1 1) StaleCall.p_lanes ltac:(split; done)) as [Hm Hc].
  split; [|split].
  - intros info p' Hrun. exact (Hm ltac:(vm_compute; reflexivity) info p' Hrun OneLane.lane0).
  - exact (Hc ltac:(vm_compute; reflexivity)).
  - destruct (receive_messages_proof (P := list Z) (OutboundPayload := list Z)
     (SourceHeaderChain0 := SourceHeaderChainAdapter (fun _ => 60)) StaleCall.p (Signed 3) 5
     StaleCall.proof 2 (from_parts 100 0)) as [[info p']|e|] eqn:E; [by exists info, p'|discriminate E..].
Defined.
