(* ===== verification/RefundRelayer.v ===== *)
(** * bin/runtime-common/src/refund_relayer_extension.rs: refunds for useful transactions

    The signed extension that rejects batches with obsolete calls before dispatch and,
    after dispatch, registers the transaction fee as a reward of the relayer if every
    call of the batch has brought something new.  The state is the four pallets that
    the extension looks at; the fee calculation of the transaction payment pallet is a
    parameter. *)

From S2P Require Import Prelude Substrate RuntimePrimitives HeaderChain Justification.
From S2P Require Import GrandpaPallet ParachainsPallet MessagesPrimitives OutboundLane.
From S2P Require Import MessagesPallet RelayersPallet RuntimeMessages MessagesCallExt.
From stdpp Require Import base numbers list gmap.
Local Open Scope Z_scope.

(** [frame_support::dispatch::DispatchInfo]; the class of the call is not looked at. *)
Record DispatchInfo `{WeightOps} := {
  info_weight : Weight;
  info_pays_fee : Pays;
}.

Section Refund.
Context `{WeightOps} `{!GrandpaConfig} `{!RelayersConfig}.
Context {AccountId InboundRelayer Hash AuthorityId Signature Hdr Bytes Node L X MHash Ledger : Type}.
Context `{Countable AccountId} `{Countable Hash} `{Header Hdr Hash}.
Abbreviation GrandpaJustification := (GrandpaJustification Hash AuthorityId Signature Hdr).
Context (header_encoded_size : Hdr -> Z) (justification_encoded_size : GrandpaJustification -> Z).

(** [Para::Id], [Msgs::Id], [Runtime::BridgedChainId] and [Refund::compute_refund]. *)
Context (para_id : Z) (lane_id : LaneId).
Context (compute_refund : DispatchInfo -> PostDispatchInfo -> Z -> Z -> Z).

Record runtime := Runtime {
  rt_grandpa : GrandpaPallet.pallet AccountId Hash AuthorityId;
  rt_parachains : ParachainsPallet.pallet AccountId Hash Bytes;
  rt_messages : MessagesPallet.pallet AccountId InboundRelayer L X;
  rt_relayers : RelayersPallet.pallet AccountId Ledger;
}.

Inductive RuntimeCall :=
| GrandpaCall (c : GrandpaPallet.Call (Hash := Hash) (AuthorityId := AuthorityId)
                     (Signature := Signature) (Hdr := Hdr))
| ParachainsCall (c : ParachainsPallet.Call Hash Node)
| MessagesCall (c : MessagesCallExt.Call InboundRelayer MHash Node)
| UtilityBatchAll (calls : list RuntimeCall)
| UtilityOther
| OtherPalletCall.

(** [is_sub_type] for the three bridge pallets. *)
Definition as_grandpa (c : RuntimeCall) :=
  match c with GrandpaCall c => c | _ => GrandpaPallet.other_call end.
Definition as_parachains (c : RuntimeCall) :=
  match c with ParachainsCall c => c | _ => ParachainsPallet.other_call end.
Definition as_messages (c : RuntimeCall) :=
  match c with MessagesCall c => c | _ => MessagesCallExt.other_call end.

Inductive CallInfo :=
| AllFinalityAndMsgs (relay : SubmitFinalityProofInfo) (para : SubmitParachainHeadsInfo Hash)
    (msgs : MessagesCallExt.CallInfo)
| ParachainFinalityAndMsgs (para : SubmitParachainHeadsInfo Hash) (msgs : MessagesCallExt.CallInfo)
| Msgs (msgs : MessagesCallExt.CallInfo).

Definition info_finality_proof (i : CallInfo) : option SubmitFinalityProofInfo :=
  match i with AllFinalityAndMsgs info _ _ => Some info | _ => None end.

Definition info_parachain_heads (i : CallInfo) : option (SubmitParachainHeadsInfo Hash) :=
  match i with
  | AllFinalityAndMsgs _ info _ => Some info
  | ParachainFinalityAndMsgs info _ => Some info
  | Msgs _ => None
  end.

Definition messages_call_info (i : CallInfo) : MessagesCallExt.CallInfo :=
  match i with
  | AllFinalityAndMsgs _ _ info => info
  | ParachainFinalityAndMsgs _ info => info
  | Msgs info => info
  end.

Record PreDispatchData := PreData { pre_relayer : AccountId; pre_call_info : CallInfo }.

Definition expand_call (call : RuntimeCall) : option (list RuntimeCall) :=
  match call with
  | UtilityBatchAll calls => if (3 <? length calls)%nat then None else Some calls
  | UtilityOther => None
  | _ => Some [call]
  end.

(** The three checks on one call; the first that is not valid is returned. *)
Definition check_call (rt : runtime) (c : RuntimeCall) : Validity :=
  match check_obsolete_submit_finality_proof header_encoded_size justification_encoded_size
          (rt_grandpa rt) (as_grandpa c) with
  | Valid =>
      match check_obsolete_submit_parachain_heads (rt_parachains rt) (as_parachains c) with
      | Valid => check_obsolete_call (rt_messages rt) (as_messages c)
      | v => v
      end
  | v => v
  end.

Fixpoint check_calls (rt : runtime) (calls : list RuntimeCall) : Validity :=
  match calls with
  | [] => Valid
  | nested_call :: calls =>
      match check_call rt nested_call with
      | Valid => check_calls rt calls
      | v => v
      end
  end.

Definition validate (rt : runtime) (call : RuntimeCall) : Validity :=
  match expand_call call with
  | Some calls => check_calls rt calls
  | None => Valid
  end.

Abbreviation finality_info c :=
  (submit_finality_proof_info header_encoded_size justification_encoded_size (as_grandpa c)).
Abbreviation heads_info c := (submit_parachain_heads_info_for (as_parachains c) para_id).
Abbreviation msgs_info rt c := (call_info_for (rt_messages rt) (as_messages c) lane_id).

Definition parse_call (rt : runtime) (call : RuntimeCall) : option CallInfo :=
  calls ← expand_call call;
  match calls with
  | [c1; c2; c3] =>
      relay ← finality_info c1; para ← heads_info c2; msgs ← msgs_info rt c3;
      Some (AllFinalityAndMsgs relay para msgs)
  | [c1; c2] => para ← heads_info c1; msgs ← msgs_info rt c2; Some (ParachainFinalityAndMsgs para msgs)
  | [c1] => msgs ← msgs_info rt c1; Some (Msgs msgs)
  | _ => None
  end.

Definition pre_dispatch (rt : runtime) (who : AccountId) (call : RuntimeCall) :
  outcome Validity (option PreDispatchData) :=
  match validate rt call with
  | Valid => Ok (call_info ← parse_call rt call; Some (PreData who call_info))
  | v => Err v
  end.

Definition rewards_account_owner (i : MessagesCallExt.CallInfo) : RewardsAccountOwner :=
  match i with
  | ReceiveMessagesProof _ => ThisChain
  | ReceiveMessagesDeliveryProof _ => BridgedChain
  end.

Definition register (params : RewardsAccountParams) (relayer : AccountId) (reward : Z) (rt : runtime) :
  runtime :=
  Runtime (rt_grandpa rt) (rt_parachains rt) (rt_messages rt)
    (register_relayer_reward params relayer reward (rt_relayers rt)).

(** [result_ok] is the outcome of the dispatch; [len] the length of the transaction. *)
Definition post_dispatch (pre : option (option PreDispatchData)) (info : DispatchInfo)
  (post_info : PostDispatchInfo) (len : Z) (result_ok : bool) (rt : runtime) : runtime :=
  if negb result_ok then rt
  else
    match pre with
    | Some (Some (PreData relayer call_info)) =>
        let refund_with (extra_weight : Weight) (extra_size : Z) : runtime :=
          if match info_parachain_heads call_info with
             | Some para_proof_info =>
                 negb (ParachainsPallet.was_successful (rt_parachains rt) para_proof_info)
             | None => false
             end
          then rt
          else
            let msgs_call_info := messages_call_info call_info in
            if negb (was_partially_successful (rt_messages rt) msgs_call_info) then rt
            else
              let tip := 0 in
              let post_info_len := saturating_sub len extra_size in
              let post_info :=
                {| actual_weight :=
                     Some (weight_saturating_sub
                             (default (info_weight info) (actual_weight post_info)) extra_weight);
                   pays_fee := pays_fee post_info |} in
              let refund := compute_refund info post_info post_info_len tip in
              register
                (AccountParams lane_id BridgedChainId (rewards_account_owner msgs_call_info))
                relayer refund rt in
        match info_finality_proof call_info with
        | Some finality_proof_info =>
            if negb (GrandpaPallet.was_successful (rt_grandpa rt) (block_number finality_proof_info))
            then rt
            else refund_with (extra_weight finality_proof_info) (extra_size finality_proof_info)
        | None => refund_with weight_zero 0
        end
    | _ => rt
    end.

(** ** Properties *)

(** What the finality call of a batch could have been padded with. *)
Definition padding (i : CallInfo) : Weight * Z :=
  match info_finality_proof i with
  | Some f => (extra_weight f, extra_size f)
  | None => (weight_zero, 0)
  end.

(** Every call of the batch has changed the state as it promised. *)
Definition useful (rt : runtime) (i : CallInfo) : bool :=
  match info_finality_proof i with
  | Some f => GrandpaPallet.was_successful (rt_grandpa rt) (block_number f)
  | None => true
  end &&
  match info_parachain_heads i with
  | Some h => ParachainsPallet.was_successful (rt_parachains rt) h
  | None => true
  end &&
  was_partially_successful (rt_messages rt) (messages_call_info i).

(** The fee of the transaction without the padding and without the tip. *)
Definition refund_of (info : DispatchInfo) (post_info : PostDispatchInfo) (len : Z) (i : CallInfo) : Z :=
  compute_refund info
    {| actual_weight :=
         Some (weight_saturating_sub (default (info_weight info) (actual_weight post_info))
                 (padding i).1);
       pays_fee := pays_fee post_info |}
    (saturating_sub len (padding i).2) 0.

Definition reward_account (i : CallInfo) : RewardsAccountParams :=
  AccountParams lane_id BridgedChainId (rewards_account_owner (messages_call_info i)).

Lemma post_dispatch_cases (pre : option (option PreDispatchData)) (info : DispatchInfo)
  (post_info : PostDispatchInfo) (len : Z) (result_ok : bool) (rt : runtime) :
  post_dispatch pre info post_info len result_ok rt =
  match pre with
  | Some (Some (PreData relayer i)) =>
      if result_ok && useful rt i
      then register (reward_account i) relayer (refund_of info post_info len i) rt
      else rt
  | _ => rt
  end.
Proof.
  unfold post_dispatch, useful, reward_account, refund_of, padding.
  destruct result_ok; simpl; [|by destruct pre as [[[]|]|]].
  destruct pre as [[[relayer i]|]|]; [|done..].
  destruct (info_finality_proof i) as [f|]; simpl;
    [destruct (GrandpaPallet.was_successful _ _); simpl; [|done]|];
    (destruct (info_parachain_heads i) as [h|]; simpl;
      [destruct (ParachainsPallet.was_successful _ _); simpl; [|done]|]);
    by destruct (was_partially_successful _ _).
Qed.

Lemma check_calls_Valid (rt : runtime) (calls : list RuntimeCall) :
  check_calls rt calls = Valid -> Forall (fun c => check_call rt c = Valid) calls.
Proof.
  induction calls as [|c calls IH]; simpl; [constructor|].
  destruct (check_call rt c) eqn:E; [|done..]. intros Hc. constructor; [done|by apply IH].
Qed.

Lemma check_call_Valid (rt : runtime) (c : RuntimeCall) :
  check_call rt c = Valid ->
  check_obsolete_submit_finality_proof header_encoded_size justification_encoded_size
    (rt_grandpa rt) (as_grandpa c) = Valid /\
  check_obsolete_submit_parachain_heads (rt_parachains rt) (as_parachains c) = Valid.
Proof. unfold check_call. by repeat case_match. Qed.

Definition relay_progress (rt0 rt1 : runtime) : Prop :=
  exists h0 h1, BestFinalized (rt_grandpa rt0) = Some h0 /\ BestFinalized (rt_grandpa rt1) = Some h1 /\
    header_number h0 < header_number h1.

Definition para_progress (rt0 rt1 : runtime) : Prop :=
  exists i1, ParasInfo (rt_parachains rt1) !! para_id = Some i1 /\
    forall i0, ParasInfo (rt_parachains rt0) !! para_id = Some i0 ->
      at_relay_block_number (best_head_hash i0) < at_relay_block_number (best_head_hash i1) /\
      head_hash (best_head_hash i0) <> head_hash (best_head_hash i1).

Definition lane_progress (rt0 rt1 : runtime) (i : CallInfo) : Prop :=
  match messages_call_info i with
  | ReceiveMessagesProof _ =>
      last_delivered_nonce (get_inbound (InboundLanes (rt_messages rt0)) lane_id) <
      last_delivered_nonce (get_inbound (InboundLanes (rt_messages rt1)) lane_id)
  | ReceiveMessagesDeliveryProof _ =>
      latest_received_nonce (ol_data (outbound_lane lane_id (pallet_rest (rt_messages rt0)))) <
      latest_received_nonce (ol_data (outbound_lane lane_id (pallet_rest (rt_messages rt1))))
  end.

Lemma finality_progress (rt0 rt1 : runtime) (c : RuntimeCall) (f : SubmitFinalityProofInfo) :
  check_call rt0 c = Valid -> finality_info c = Some f ->
  GrandpaPallet.was_successful (rt_grandpa rt1) (block_number f) = true -> relay_progress rt0 rt1.
Proof.
  intros [Hc _]%check_call_Valid Hf Hs. unfold check_obsolete_submit_finality_proof in Hc.
  rewrite Hf in Hc. unfold check_obsolete in Hc.
  destruct (BestFinalized (rt_grandpa rt0)) as [h0|] eqn:E0; simpl in Hc; [|done].
  destruct (_ <=? _) eqn:Ele in Hc; [done|]. unfold GrandpaPallet.was_successful in Hs.
  destruct (BestFinalized (rt_grandpa rt1)) as [h1|] eqn:E1; [|done].
  exists h0, h1. split_and!; [done..|lia].
Qed.

Lemma heads_progress (rt0 rt1 : runtime) (c : RuntimeCall) (h : SubmitParachainHeadsInfo Hash) :
  check_call rt0 c = Valid -> heads_info c = Some h ->
  ParachainsPallet.was_successful (rt_parachains rt1) h = true -> para_progress rt0 rt1.
Proof.
  intros [_ Hc]%check_call_Valid Hh Hs. unfold submit_parachain_heads_info_for in Hh.
  unfold check_obsolete_submit_parachain_heads in Hc.
  destruct (one_entry_submit_parachain_heads_info _) as [u|]; simpl in Hh; [|done].
  destruct (hi_para_id u =? para_id) eqn:Ep; [|done]. injection Hh as <-. apply Z.eqb_eq in Ep.
  destruct (ParachainsPallet.is_obsolete _ _) eqn:Eo; [done|]. unfold ParachainsPallet.was_successful in Hs.
  unfold ParachainsPallet.is_obsolete in Eo. rewrite Ep in Hs, Eo.
  destruct (ParasInfo (rt_parachains rt1) !! para_id) as [i1|] eqn:E1; [|done].
  apply bool_decide_eq_true in Hs. exists i1. split; [done|]. intros i0 E0. rewrite E0 in Eo.
  destruct (_ <=? _) eqn:El in Eo; [done|]. apply bool_decide_eq_false in Eo. rewrite Hs. simpl.
  split; [lia|done].
Qed.

Lemma msgs_progress (rt0 rt1 : runtime) (c : RuntimeCall) (i : CallInfo) :
  msgs_info rt0 c = Some (messages_call_info i) ->
  was_partially_successful (rt_messages rt1) (messages_call_info i) = true ->
  lane_progress rt0 rt1 i.
Proof.
  unfold lane_progress. generalize (messages_call_info i) as m. intros m Hm Hs.
  unfold call_info_for, call_info, receive_messages_proof_info, receive_messages_delivery_proof_info in Hm.
  destruct (as_messages c) as [r proof n w|proof st|]; simpl in Hm; [| |done].
  - case_decide as Hl; [|done]. injection Hm as <-. simpl in *. rewrite Hl in *. lia.
  - case_decide as Hl; [|done]. injection Hm as <-. simpl in *. rewrite Hl in *. lia.
Qed.

(** C27. Only progress is refunded.  If the extension changes anything after dispatch, then the
    dispatch succeeded and, compared with the state before it, the messages lane has
    advanced; in a batch of two or three the best parachain head was replaced by a
    different one at a later relay block; and in a batch of three the best relay header
    has advanced as well.  What changes is the reward of the submitter alone, by the fee
    without tip, without extra weight and without extra bytes of the finality proof. *)
Theorem refund_requires_progress (rt0 rt1 : runtime) (who : AccountId) (call : RuntimeCall)
  (pre : option PreDispatchData) (info : DispatchInfo) (post_info : PostDispatchInfo) (len : Z)
  (result_ok : bool) :
  pre_dispatch rt0 who call = Ok pre ->
  post_dispatch (Some pre) info post_info len result_ok rt1 <> rt1 ->
  result_ok = true /\
  exists calls i, expand_call call = Some calls /\ pre = Some (PreData who i) /\
    lane_progress rt0 rt1 i /\
    ((2 <= length calls)%nat -> para_progress rt0 rt1) /\
    (length calls = 3%nat -> relay_progress rt0 rt1) /\
    post_dispatch (Some pre) info post_info len result_ok rt1 =
      register (reward_account i) who (refund_of info post_info len i) rt1.
Proof.
  intros Hpre. rewrite post_dispatch_cases. unfold pre_dispatch, validate in Hpre.
  destruct (expand_call call) as [calls|] eqn:Ecalls.
  2: { injection Hpre as <-. unfold parse_call. by rewrite Ecalls. }
  destruct (check_calls rt0 calls) eqn:Ev; [|done..]. apply check_calls_Valid in Ev.
  unfold parse_call in Hpre. rewrite Ecalls in Hpre. simpl in Hpre. injection Hpre as <-.
  destruct result_ok; [|by simpl; repeat case_match].
  destruct calls as [|c1 [|c2 [|c3 [|]]]]; try done; simpl; intros Hne.
  - destruct (msgs_info rt0 c1) as [m|] eqn:Em; simpl in *; [|done].
    destruct (useful rt1 (Msgs m)) eqn:Eu; [|done]. split; [done|]. exists [c1], (Msgs m).
    apply andb_prop in Eu as [_ Eu]. split_and!; try done; simpl; try lia. by eapply msgs_progress.
  - destruct (heads_info c1) as [h|] eqn:Eh; simpl in *; [|done].
    destruct (msgs_info rt0 c2) as [m|] eqn:Em; simpl in *; [|done].
    destruct (useful rt1 _) eqn:Eu; [|done]. split; [done|]. eexists [c1; c2], _.
    apply andb_prop in Eu as [Eu Eum]. apply andb_prop in Eu as [_ Euh].
    apply Forall_cons in Ev as [Ev1 _].
    split_and!; try done; simpl; try lia; [by eapply msgs_progress|intros _; by eapply heads_progress].
  - destruct (finality_info c1) as [f|] eqn:Ef; simpl in *; [|done].
    destruct (heads_info c2) as [h|] eqn:Eh; simpl in *; [|done].
    destruct (msgs_info rt0 c3) as [m|] eqn:Em; simpl in *; [|done].
    destruct (useful rt1 _) eqn:Eu; [|done]. split; [done|]. eexists [c1; c2; c3], _.
    apply andb_prop in Eu as [Eu Eum]. apply andb_prop in Eu as [Euf Euh].
    apply Forall_cons in Ev as [Ev1 [Ev2 _]%Forall_cons].
    split_and!; try done; simpl; [by eapply msgs_progress|intros _; by eapply heads_progress|].
    intros _. exact (finality_progress _ _ _ _ Ev1 Ef Euf).
Qed.

(** A useful transaction is refunded in full: when the dispatch succeeded and every call of
    a recognised batch did what it promised, the reward of the submitter grows by the
    computed refund (up to the largest balance), no other reward changes, and the
    account that pays is the one of this chain for deliveries and the one of the
    bridged chain for confirmations. *)
Theorem useful_transactions_are_refunded (rt : runtime) (relayer : AccountId) (i : CallInfo)
  (info : DispatchInfo) (post_info : PostDispatchInfo) (len : Z) :
  useful rt i = true ->
  let rt' := post_dispatch (Some (Some (PreData relayer i))) info post_info len true rt in
  let account :=
    AccountParams lane_id BridgedChainId
      match messages_call_info i with
      | ReceiveMessagesProof _ => ThisChain
      | ReceiveMessagesDeliveryProof _ => BridgedChain
      end in
  let refund := refund_of info post_info len i in
  outstanding (rt_relayers rt') (relayer, account) =
    (if refund =? 0 then outstanding (rt_relayers rt) (relayer, account)
     else Z.min reward_max (outstanding (rt_relayers rt) (relayer, account) + refund)) /\
  (forall key, key <> (relayer, account) ->
     outstanding (rt_relayers rt') key = outstanding (rt_relayers rt) key) /\
  rt_messages rt' = rt_messages rt /\ rt_parachains rt' = rt_parachains rt /\
  rt_grandpa rt' = rt_grandpa rt /\ ledger (rt_relayers rt') = ledger (rt_relayers rt).
Proof.
  intros Hu rt' account refund. unfold rt'. rewrite post_dispatch_cases, Hu. simpl.
  change (reward_account i) with account. fold refund.
  unfold register_relayer_reward, outstanding. destruct (refund =? 0); simpl; [by split_and!|].
  split_and!; try done.
  - rewrite lookup_insert_eq. done.
  - intros key Hk. by rewrite lookup_insert_ne.
Qed.
End Refund.

(** ** An instance: a batch that brings a relay header, a parachain head and two messages *)
Module HelpfulBatch.
Import SmallHeads.

Abbreviation state :=
  (runtime (AccountId := Z) (InboundRelayer := Z) (Hash := positive) (AuthorityId := Z) (Bytes := Z)
     (L := unit) (X := unit) (Ledger := gmap Z Z)).
Abbreviation runtime_call :=
  (RuntimeCall (InboundRelayer := Z) (Hash := positive) (AuthorityId := Z) (Signature := Z)
     (Hdr := hdr) (Node := unit) (MHash := unit)).

Definition relay_at (n : Z) : GrandpaPallet.pallet Z positive Z :=
  GrandpaPallet.Pallet 0 None (Some (HeaderId_ n 1%positive)) ∅ 1 ∅ (Authorities [] 0) None Normal.

Definition messages_at (n : Z) : MessagesPallet.pallet Z Z unit unit :=
  MessagesPallet.Pallet {[OneLane.lane0 := Inbound [] n]} (Rest None (Basic Normal) ∅ ∅ [] tt).

Definition before : state := Runtime (relay_at 4) SmallHeads.p0 (messages_at 0) TwoRelayers.p0.
Definition after : state := Runtime (relay_at 5) SmallHeads.p1 (messages_at 2) TwoRelayers.p0.

Definition justification : GrandpaJustification positive Z Z hdr :=
  Grandpa 5 (Commit_ relay_hash 5 []) [].

Definition batch : runtime_call :=
  UtilityBatchAll
    [GrandpaCall (GrandpaPallet.submit_finality_proof_call relay_header justification);
     ParachainsCall (submit_parachain_heads_call (5, relay_hash) [(2, head_hash_of 42)] []);
     MessagesCall (receive_messages_proof_call 7 RuntimeMessages.SmallBridge.messages_proof 2
                     (from_parts 100 0))].

(** The fee: one per unit of weight and byte, plus the tip. *)
Definition fee (info : DispatchInfo) (post : PostDispatchInfo) (len tip : Z) : Z :=
  ref_time (default (info_weight info) (actual_weight post)) + len + tip.

Definition info : DispatchInfo := {| info_weight := from_parts 50 0; info_pays_fee := PaysYes |}.
Definition post : PostDispatchInfo := {| actual_weight := None; pays_fee := PaysYes |}.

Definition parsed : CallInfo :=
  AllFinalityAndMsgs
    (submit_finality_proof_info_from_args (fun _ => 60) (fun _ => 60) relay_header justification)
    (HeadsInfo 5 2 (head_hash_of 42)) (ReceiveMessagesProof (BaseInfo OneLane.lane0 2 0)).
End HelpfulBatch.
Import HelpfulBatch.

Abbreviation pre_of rt :=
  (pre_dispatch (fun _ => 60) (fun _ => 60) 2 OneLane.lane0 rt 3 batch).
Abbreviation refunded pre rt := (post_dispatch OneLane.lane0 fee (Some pre) info post 200 true rt).

Lemma refund_requires_progress_witness :
  pre_of before = Ok (Some (PreData 3 parsed)) /\
  refunded (Some (PreData 3 parsed)) after <> after /\
  relay_progress before after /\ para_progress 2 before after.
Proof.
  assert (pre_of before = Ok (Some (PreData 3 parsed))) as E by reflexivity.
  assert (refunded (Some (PreData 3 parsed)) after <> after) as Hne.
  { intros Heq%(f_equal (fun rt => RelayerRewards (rt_relayers rt) !!
      (3, AccountParams OneLane.lane0 BridgedChainId ThisChain))).
    vm_compute in Heq. discriminate Heq. }
  split; [exact E|]. split; [exact Hne|].
  destruct (refund_requires_progress _ _ 2 OneLane.lane0 fee before after 3 batch _ info post 200
    true E Hne) as (_ & calls & i & Hcalls & _ & _ & Hpara & Hrelay & _).
  injection Hcalls as <-. split; [by apply Hrelay|apply Hpara; simpl; lia].
Defined.

Lemma useful_transactions_are_refunded_witness :
  let i := ParachainFinalityAndMsgs (HeadsInfo 5 2 (SmallHeads.head_hash_of 42))
             (ReceiveMessagesProof (BaseInfo OneLane.lane0 2 0)) in
  outstanding (rt_relayers (refunded (Some (PreData 3 i)) after))
    (3, AccountParams OneLane.lane0 BridgedChainId ThisChain) = 250.
Proof.
  intros i.
  assert (useful after i = true) as Hu by (vm_compute; reflexivity).
  rewrite (proj1 (useful_transactions_are_refunded OneLane.lane0 fee after 3 i info post 200 Hu)).
  vm_compute. reflexivity.
Defined.
