(* ===== verification/ShiftSessionManager.v ===== *)
(** * modules/shift-session-manager/src/lib.rs: shifting validator sets

    The session manager of the test chains: two thirds of the initial validators, shifted
    by the session index.  The validators of the session pallet are a parameter. *)

From S2P Require Import Prelude.
From stdpp Require Import base numbers list.
Local Open Scope Z_scope.

(** Shifting by all the indices of a full period reaches every position once. *)
Lemma shifts_permutation (n j s : Z) :
  0 < n -> (fun i => (j - i) mod n) <$> seqZ s n ≡ₚ seqZ 0 n.
Proof.
  intros Hn. apply submseteq_length_Permutation; [|by rewrite length_fmap, !length_seqZ].
  apply NoDup_submseteq.
  - apply NoDup_fmap_2_strong; [|apply NoDup_seqZ]. intros x y Hx%elem_of_seqZ Hy%elem_of_seqZ Heq.
    pose proof (Z.div_mod (j - x) n ltac:(lia)). pose proof (Z.div_mod (j - y) n ltac:(lia)).
    rewrite Heq in *. assert ((j - x) / n = (j - y) / n \/ (j - x) / n + 1 <= (j - y) / n \/
      (j - y) / n + 1 <= (j - x) / n) as [?|[?|?]] by lia; nia.
  - intros k (i & -> & _)%list_elem_of_fmap. apply elem_of_seqZ.
    pose proof (Z.mod_pos_bound (j - i) n Hn). lia.
Qed.

Lemma count_shifts (n j s c : Z) :
  0 < n -> 0 <= c <= n ->
  Z.of_nat (length (filter (fun i => (j - i) mod n < c) (seqZ s n))) = c.
Proof.
  intros Hn Hc.
  assert (forall l : list Z, length (filter (fun i => (j - i) mod n < c) l) =
    length (filter (fun k => k < c) ((fun i => (j - i) mod n) <$> l))) as Hfmap.
  { induction l as [|i l IH]; [done|]. rewrite fmap_cons, !filter_cons.
    case_decide; simpl; by rewrite IH. }
  rewrite Hfmap, (shifts_permutation n j s Hn).
  rewrite (length_filter_seqZ (fun k => k < c) 0 (c - 1)); [lia|intros; lia|lia].
Qed.

Section ShiftSessionManager.
Context {ValidatorId : Type}.

(** [l[a..b]]: out of range indices panic. *)
Definition slice (l : list ValidatorId) (a b : Z) : outcome Empty_set (list ValidatorId) :=
  if (a <=? b) && (b <=? Z.of_nat (length l))
  then Ok (take (Z.to_nat (b - a)) (drop (Z.to_nat a) l)) else Panic.

(** [usize] has 64 bits here; the remainder panics for an empty set. *)
Definition select_validators (session_index : Z) (available_validators : list ValidatorId) :
  outcome Empty_set (list ValidatorId) :=
  let available_validators_count := Z.of_nat (length available_validators) in
  let count := Z.max 1 (2 * available_validators_count / 3) in
  if available_validators_count =? 0 then Panic
  else
    let offset := session_index mod available_validators_count in
    let end_ := offset + count in
    let wrapped_end := wrapping_sub u64_max end_ available_validators_count in
    let overflow := end_ <? available_validators_count in
    if negb overflow && negb (wrapped_end =? 0) then
      let? tail := slice available_validators offset available_validators_count in
      let? head := slice available_validators 0 wrapped_end in
      Ok (tail ++ head)
    else slice available_validators offset end_.

(** The state is [InitialValidators]. *)
Definition new_session (initial_validators : option (list ValidatorId))
  (session_validators : list ValidatorId) (session_index : Z) :
  outcome Empty_set (option (list ValidatorId) * option (list ValidatorId)) :=
  if (session_index =? 0) || (session_index =? 1) then Ok (None, initial_validators)
  else
    let available_validators := default session_validators initial_validators in
    let? selected := select_validators session_index available_validators in
    Ok (Some selected, Some available_validators).

(** The [k]-th validator of a session is the initial validator at [session_index + k],
    counted cyclically. *)
Lemma select_validators_spec (session_index : Z) (l : list ValidatorId) :
  0 <= session_index -> l <> [] -> Z.of_nat (length l) <= u32_max ->
  exists sel, select_validators session_index l = Ok sel /\
    Z.of_nat (length sel) = Z.max 1 (2 * Z.of_nat (length l) / 3) /\
    forall k, (k < length sel)%nat ->
      sel !! k = l !! Z.to_nat ((session_index + Z.of_nat k) mod Z.of_nat (length l)).
Proof.
  intros Hs Hl Hlen. unfold select_validators. set (n := Z.of_nat (length l)) in *.
  assert (0 < n) as Hn by (destruct l; [done|]; unfold n; simpl; lia).
  rewrite (proj2 (Z.eqb_neq _ _)) by lia. set (count := Z.max 1 (2 * n / 3)).
  assert (1 <= count <= n) as Hcount.
  { unfold count. pose proof (Z.div_mod (2 * n) 3 ltac:(lia)).
    pose proof (Z.mod_pos_bound (2 * n) 3 ltac:(lia)). lia. }
  set (offset := session_index mod n).
  assert (0 <= offset < n) as Hoff by (apply Z.mod_pos_bound; lia).
  assert (forall k, 0 <= k < count -> (session_index + k) mod n =
    if offset + k <? n then offset + k else offset + k - n) as Hidx.
  { intros k Hk. rewrite <- Zplus_mod_idemp_l. fold offset. case_match eqn:E.
    - apply Z.mod_small. lia.
    - rewrite <- (Z_mod_plus_full _ (-1)). apply Z.mod_small. lia. }
  destruct (offset + count <? n) eqn:Eo; simpl.
  - unfold slice. fold n. rewrite (proj2 (Z.leb_le _ _)), (proj2 (Z.leb_le _ _)) by lia. simpl.
    eexists. split; [done|]. rewrite length_take, length_drop. split; [unfold n in *; lia|].
    intros k Hk. rewrite lookup_take_lt, lookup_drop by lia. rewrite Hidx by (unfold n in *; lia).
    rewrite (proj2 (Z.ltb_lt _ _)) by (unfold n in *; lia). f_equal. lia.
  - rewrite wrapping_sub_small by word. destruct (offset + count - n =? 0) eqn:Ez; simpl.
    + unfold slice. fold n. rewrite (proj2 (Z.leb_le _ _)), (proj2 (Z.leb_le _ _)) by lia. simpl.
      eexists. split; [done|]. rewrite length_take, length_drop. split; [unfold n in *; lia|].
      intros k Hk. rewrite lookup_take_lt, lookup_drop by lia. rewrite Hidx by (unfold n in *; lia).
      rewrite (proj2 (Z.ltb_lt _ _)) by (unfold n in *; lia). f_equal. lia.
    + unfold slice. fold n. do 2 rewrite (proj2 (Z.leb_le _ _)), (proj2 (Z.leb_le _ _)) by lia. simpl.
      eexists. split; [done|]. rewrite length_app, !length_take, !length_drop.
      split; [unfold n in *; lia|]. intros k Hk. rewrite Hidx by (unfold n in *; lia).
      rewrite (take_ge (drop _ l)) by (rewrite length_drop; unfold n; lia).
      destruct (decide (k < length (drop (Z.to_nat offset) l))%nat) as [Hlt|Hge].
      * rewrite lookup_app_l, lookup_drop by done. rewrite length_drop in Hlt.
        rewrite (proj2 (Z.ltb_lt _ _)) by (unfold n in *; lia). f_equal. lia.
      * rewrite lookup_app_r by lia. rewrite length_drop in *.
        rewrite (proj2 (Z.ltb_ge _ _)) by (unfold n in *; lia). rewrite drop_0.
        rewrite lookup_take_lt by (unfold n in *; lia). f_equal. unfold n in *. lia.
Qed.

(** Starting from session 2, a session has two thirds of the validators that were in place when
    session 1 ended (at least one): those at the positions that follow the session
    index cyclically.  The initial validators are stored once and never change, and as
    long as there are any, no session fails.  So over as many consecutive sessions as
    there are validators, every one of them serves in exactly the same number of
    sessions. *)
Theorem shifted_sessions (initial : option (list ValidatorId)) (session_validators : list ValidatorId)
  (session_index : Z) :
  let l := default session_validators initial in
  2 <= session_index -> l <> [] -> Z.of_nat (length l) <= u32_max ->
  exists selected, new_session initial session_validators session_index = Ok (Some selected, Some l) /\
    Z.of_nat (length selected) = Z.max 1 (2 * Z.of_nat (length l) / 3) /\
    (forall k, (k < length selected)%nat ->
      selected !! k = l !! Z.to_nat ((session_index + Z.of_nat k) mod Z.of_nat (length l))) /\
    (forall j, 0 <= j < Z.of_nat (length l) ->
      Z.of_nat (length (filter
        (fun i => (j - i) mod Z.of_nat (length l) < Z.of_nat (length selected))
        (seqZ session_index (Z.of_nat (length l))))) = Z.of_nat (length selected)).
Proof.
  intros l Hs Hl Hlen. unfold new_session. fold l.
  rewrite (proj2 (Z.eqb_neq _ 0)), (proj2 (Z.eqb_neq _ 1)) by lia. simpl.
  destruct (select_validators_spec session_index l) as (sel & -> & Hcount & Hsel); [lia|done..|].
  exists sel. split_and!; try done. intros j Hj.
  assert (0 < Z.of_nat (length l)) as Hn by (destruct l; [done|simpl; lia]).
  apply count_shifts; [done|]. rewrite Hcount.
  pose proof (Z.div_mod (2 * Z.of_nat (length l)) 3 ltac:(lia)).
  pose proof (Z.mod_pos_bound (2 * Z.of_nat (length l)) 3 ltac:(lia)). lia.
Qed.
End ShiftSessionManager.

Lemma shifted_sessions_witness :
  exists selected, new_session None [10; 20; 30; 40; 50] 4 = Ok (Some selected, Some [10; 20; 30; 40; 50]) /\
    selected = [50; 10; 20].
Proof.
  destruct (shifted_sessions None [10; 20; 30; 40; 50] 4) as (sel & Hsel & _);
    [lia|discriminate|vm_compute; discriminate|].
  exists sel. split; [exact Hsel|]. vm_compute in Hsel. injection Hsel as <-. reflexivity.
Defined.
