(* ===== verification/RelayUtils.v ===== *)
(** * relays/utils and relays/client-substrate/src/transaction_tracker.rs

    What every relay loop shares: how the result of a request to a client is
    processed, how a failed client is reconnected, and how the fate of a submitted
    transaction is watched.  Time is not modelled: a delay is a number, and a timer
    is an event that may come at any moment. *)

From S2P Require Import Prelude RuntimePrimitives.
From stdpp Require Import base numbers list gmap.
Local Open Scope Z_scope.

(** ** Results of requests (relays/utils/src/lib.rs) *)

Class MaybeConnectionError (E : Type) := is_connection_error : E -> bool.

Inductive FailedClient := FailedSource | FailedTarget | FailedBoth.

#[export] Instance FailedClient_eq_dec : EqDecision FailedClient.
Proof. solve_decision. Defined.

Inductive TrackedTransactionStatus (BlockId : Type) :=
| Lost
| Finalized (id : BlockId).
Arguments Lost {BlockId}.
Arguments Finalized {BlockId} _.

Inductive ProcessFutureResult := Success | Failed | ConnectionFailed.

Definition is_ok (r : ProcessFutureResult) : bool :=
  match r with
  | Success => true
  | Failed | ConnectionFailed => false
  end.

Definition fail_if_error (r : ProcessFutureResult) (failed_client : FailedClient) :
  outcome FailedClient unit :=
  if is_ok r then Ok tt else Err failed_client.

Definition fail_if_connection_error (r : ProcessFutureResult) (failed_client : FailedClient) :
  outcome FailedClient bool :=
  match r with
  | Success => Ok true
  | Failed => Ok false
  | ConnectionFailed => Err failed_client
  end.

(** The exponential backoff of the [backoff] crate. *)
Class Backoff (B : Type) := {
  backoff_reset : B -> B;
  next_backoff : B -> option Z * B;
}.

(** In seconds. *)
Definition CONNECTION_ERROR_DELAY : Z := 10.

(** [process_future_result]: [on_success] changes a state [S].  Besides the state and
    the backoff, the result has the delay of the go-offline timer, if it is set. *)
Definition process_future_result {R E S B : Type} `{MaybeConnectionError E} `{Backoff B}
  (result : R + E) (retry_backoff : B) (on_success : R -> S -> S) (s : S) :
  ProcessFutureResult * S * B * option Z :=
  match result with
  | inl result => (Success, on_success result s, backoff_reset retry_backoff, None)
  | inr error =>
      if is_connection_error error
      then (ConnectionFailed, s, backoff_reset retry_backoff, Some CONNECTION_ERROR_DELAY)
      else
        let '(delay, retry_backoff) := next_backoff retry_backoff in
        (Failed, s, retry_backoff, Some (default CONNECTION_ERROR_DELAY delay))
  end.

(** ** Reconnecting (relays/utils/src/relay_loop.rs) *)

Section Reconnect.
Context {SC TC E : Type}.
Context (reconnect_source : SC -> (unit + E) * SC) (reconnect_target : TC -> (unit + E) * TC).

(** One turn of the loop of [reconnect_failed_client]: [true] leaves the loop. *)
Definition reconnect_attempt (failed_client : FailedClient) (source_client : SC) (target_client : TC) :
  bool * SC * TC :=
  let '(source_ok, source_client) :=
    if bool_decide (failed_client = FailedBoth) || bool_decide (failed_client = FailedSource)
    then match reconnect_source source_client with
         | (inl _, c) => (true, c)
         | (inr _, c) => (false, c)
         end
    else (true, source_client) in
  if source_ok then
    let '(target_ok, target_client) :=
      if bool_decide (failed_client = FailedBoth) || bool_decide (failed_client = FailedTarget)
      then match reconnect_target target_client with
           | (inl _, c) => (true, c)
           | (inr _, c) => (false, c)
           end
      else (true, target_client) in
    (target_ok, source_client, target_client)
  else (false, source_client, target_client).

(** [None]: no success within [fuel] attempts. *)
Fixpoint reconnect_failed_client (fuel : nat) (failed_client : FailedClient)
  (source_client : SC) (target_client : TC) : option (SC * TC) :=
  match fuel with
  | O => None
  | S fuel =>
      let '(ok, source_client, target_client) :=
        reconnect_attempt failed_client source_client target_client in
      if ok then Some (source_client, target_client)
      else reconnect_failed_client fuel failed_client source_client target_client
  end.

(** [Loop::run]: [run_loop] is started again after every failure, once the failed
    client is connected; it ends when [run_loop] ends without an error. *)
Context {W : Type} (run_loop : SC -> TC -> W -> option (outcome FailedClient unit * W)).

Fixpoint loop_run (fuel : nat) (source_client : SC) (target_client : TC) (w : W) :
  option (SC * TC * W) :=
  match fuel with
  | O => None
  | S fuel' =>
      match run_loop source_client target_client w with
      | Some (Ok _, w) => Some (source_client, target_client, w)
      | Some (Err failed_client, w) =>
          '(source_client, target_client) ←
            reconnect_failed_client fuel failed_client source_client target_client;
          loop_run fuel' source_client target_client w
      | Some (Panic, _) | None => None
      end
  end.
End Reconnect.

(** ** Tracking a transaction (relays/client-substrate/src/transaction_tracker.rs) *)

(** [sc_transaction_pool_api::TransactionStatus]. *)
Inductive TransactionStatus (Hash : Type) :=
| TxFuture
| TxReady
| TxBroadcast
| TxInBlock (block_hash : Hash)
| TxRetracted (block_hash : Hash)
| TxFinalityTimeout (block_hash : Hash)
| TxFinalized (block_hash : Hash)
| TxUsurped (new_transaction_hash : Hash)
| TxDropped
| TxInvalid.
Arguments TxFuture {Hash}.
Arguments TxReady {Hash}.
Arguments TxBroadcast {Hash}.
Arguments TxInBlock {Hash} _.
Arguments TxRetracted {Hash} _.
Arguments TxFinalityTimeout {Hash} _.
Arguments TxFinalized {Hash} _.
Arguments TxUsurped {Hash} _.
Arguments TxDropped {Hash}.
Arguments TxInvalid {Hash}.

Inductive InvalidationStatus (BlockId : Type) :=
| StatusFinalized (id : BlockId)
| StatusInvalid
| StatusLost.
Arguments StatusFinalized {BlockId} _.
Arguments StatusInvalid {BlockId}.
Arguments StatusLost {BlockId}.

Section Tracker.
Context {Hash E : Type} (header_id_by_hash : Hash -> HeaderId Hash + E).

(** One turn of the loop on what [subscription.next()] gives; [None] in the argument
    is a closed subscription, [None] in the result goes on waiting. *)
Definition watch_turn (item : option (TransactionStatus Hash)) :
  option (InvalidationStatus (HeaderId Hash)) :=
  match item with
  | Some (TxFinalized block_hash) =>
      match header_id_by_hash block_hash with
      | inl header_id => Some (StatusFinalized header_id)
      | inr _ => Some StatusLost
      end
  | Some TxInvalid => Some StatusInvalid
  | Some (TxFuture | TxReady | TxBroadcast) => None
  | Some (TxInBlock _ | TxRetracted _) => None
  | Some (TxFinalityTimeout _ | TxUsurped _ | TxDropped) => Some StatusLost
  | None => Some StatusLost
  end.

Fixpoint watch_transaction_status (subscription : list (option (TransactionStatus Hash))) :
  option (InvalidationStatus (HeaderId Hash)) :=
  match subscription with
  | [] => None
  | item :: rest =>
      match watch_turn item with
      | Some status => Some status
      | None => watch_transaction_status rest
      end
  end.

(** What happens while a transaction is tracked, in order. *)
Inductive tracker_event :=
| SubscriptionItem (item : option (TransactionStatus Hash))
| StallTimeout.

(** [wait_for_stall_timeout_rest.await]. *)
Fixpoint timeout_passes (events : list tracker_event) : bool :=
  match events with
  | [] => false
  | StallTimeout :: _ => true
  | SubscriptionItem _ :: rest => timeout_passes rest
  end.

(** [do_wait]: [None] is still waiting. *)
Fixpoint do_wait (events : list tracker_event) :
  option (TrackedTransactionStatus (HeaderId Hash) * option (InvalidationStatus (HeaderId Hash))) :=
  match events with
  | [] => None
  | StallTimeout :: _ => Some (Lost, None)
  | SubscriptionItem item :: rest =>
      match watch_turn item with
      | Some (StatusFinalized at_block) =>
          Some (Finalized at_block, Some (StatusFinalized at_block))
      | Some StatusInvalid => Some (Lost, Some StatusInvalid)
      | Some StatusLost => if timeout_passes rest then Some (Lost, Some StatusLost) else None
      | None => do_wait rest
      end
  end.
End Tracker.

(** A tracked transaction is reported as finalized only if the node said that it is in a
    finalized block, before the timeout, and the identifier is the one of that block; it is
    reported as lost only after the timeout or when the node said that it is invalid.  So a
    transaction that was dropped, usurped or retracted, or whose subscription was closed, is
    not given up, and sent again, while it may still be mined. *)
Theorem tracked_status_is_justified {Hash E : Type} (header_id_by_hash : Hash -> HeaderId Hash + E)
  (events : list (tracker_event (Hash := Hash))) status invalidation :
  do_wait header_id_by_hash events = Some (status, invalidation) ->
  match status with
  | Finalized id => exists before hash after,
      events = before ++ SubscriptionItem (Some (TxFinalized hash)) :: after /\
      header_id_by_hash hash = inl id /\ StallTimeout ∉ before
  | Lost => StallTimeout ∈ events \/ SubscriptionItem (Some TxInvalid) ∈ events
  end.
Proof.
  assert (forall evs : list (tracker_event (Hash := Hash)), timeout_passes evs = true -> StallTimeout ∈ evs)
    as Htimeout.
  { induction evs as [|[item|] evs IH]; simpl; [done| |by left]. intros He. right. by apply IH. }
  revert status invalidation. induction events as [|[item|] events IH]; intros status inv Hw; simpl in Hw; [done| |].
  - destruct (watch_turn header_id_by_hash item) as [[id| |]|] eqn:Ew.
    + injection Hw as <- <-. destruct item as [[]|]; simpl in Ew; try done.
      destruct (header_id_by_hash block_hash) as [id'|] eqn:Eh; [|done]. injection Ew as ->.
      exists [], block_hash, events. split_and!; [done..|]. apply not_elem_of_nil.
    + injection Hw as <- <-. right. destruct item as [[]|]; simpl in Ew; try done;
        [by destruct (header_id_by_hash _)|by left].
    + destruct (timeout_passes events) eqn:Et; [|done]. injection Hw as <- <-. left. right. by apply Htimeout.
    + specialize (IH _ _ Hw). destruct status as [|id].
      * destruct IH; [left; by right|right; by right].
      * destruct IH as (before & hash & after & -> & Hid & Hin).
        exists (SubscriptionItem item :: before), hash, after. split_and!; [done..|].
        rewrite elem_of_cons. intros [?|?]; [done|tauto].
  - injection Hw as <- <-. left. by left.
Qed.

Lemma tracked_status_is_justified_witness :
  exists before hash after,
    [SubscriptionItem (Some TxReady); SubscriptionItem (Some (TxInBlock 4));
     SubscriptionItem (Some (TxFinalized 5)); StallTimeout] =
      before ++ SubscriptionItem (Some (TxFinalized hash)) :: after /\
    (inl (HeaderId_ hash hash) : HeaderId Z + unit) = inl (HeaderId_ 5 5) /\ StallTimeout ∉ before.
Proof.
  exact (tracked_status_is_justified (fun hash => (inl (HeaderId_ hash hash) : HeaderId Z + unit))
    [SubscriptionItem (Some TxReady); SubscriptionItem (Some (TxInBlock 4));
     SubscriptionItem (Some (TxFinalized 5)); StallTimeout] (Finalized (HeaderId_ 5 5)) _ eq_refl).
Defined.
