(* ===== verification/RaceStrategy.v ===== *)
(** * relays/messages/src: race state, race strategies and the basic strategy

    A race moves nonces from its source to its target.  This file models the traits
    of message_race_loop.rs ([NoncesRange], [RaceState], [RaceStrategy]), the
    [BasicStrategy] of message_race_strategy.rs and the clients of the confirmations
    race of message_race_receiving.rs.  A strategy may index its queue, so its
    selection is an [outcome]: an index out of range would be a panic. *)

From S2P Require Import Prelude RuntimePrimitives MessagesPrimitives RelayUtils.
From stdpp Require Import base numbers list gmap sorting.
Local Open Scope Z_scope.

(** [RangeInclusive<MessageNonce>]. *)
Record RangeInclusive := Range { range_start : MessageNonce; range_last : MessageNonce }.

(** ** Traits of message_race_loop.rs *)

Class NoncesRange (R : Type) := {
  range_begin : R -> MessageNonce;
  range_end : R -> MessageNonce;
  greater_than : R -> MessageNonce -> option R;
}.

Record SourceClientNonces (R : Type) := SourceNonces_ {
  new_nonces : R;
  confirmed_nonce : option MessageNonce;
}.
Arguments SourceNonces_ {R} _ _.
Arguments new_nonces {R} _.
Arguments confirmed_nonce {R} _.

Record TargetClientNonces (D : Type) := TargetNonces_ {
  latest_nonce : MessageNonce;
  nonces_data : D;
}.
Arguments TargetNonces_ {D} _ _.
Arguments latest_nonce {D} _.
Arguments nonces_data {D} _.

Record RaceStateImpl (SourceHeaderId TargetHeaderId Proof BatchTx : Type) := RaceState_ {
  best_finalized_source_header_id_at_source : option SourceHeaderId;
  best_finalized_source_header_id_at_best_target : option SourceHeaderId;
  best_target_header_id : option TargetHeaderId;
  best_finalized_target_header_id : option TargetHeaderId;
  to_submit : option (SourceHeaderId * RangeInclusive * Proof);
  to_submit_batch : option BatchTx;
  nonces_submitted : option RangeInclusive;
}.
Arguments RaceState_ {_ _ _ _} _ _ _ _ _ _ _.
Arguments best_finalized_source_header_id_at_source {_ _ _ _} _.
Arguments best_finalized_source_header_id_at_best_target {_ _ _ _} _.
Arguments best_target_header_id {_ _ _ _} _.
Arguments best_finalized_target_header_id {_ _ _ _} _.
Arguments to_submit {_ _ _ _} _.
Arguments to_submit_batch {_ _ _ _} _.
Arguments nonces_submitted {_ _ _ _} _.

Section RaceState.
Context {SourceHeaderId TargetHeaderId Proof BatchTx : Type}.
Abbreviation state := (RaceStateImpl SourceHeaderId TargetHeaderId Proof BatchTx).

Definition race_state_default : state := RaceState_ None None None None None None None.

Definition nonces_to_submit (s : state) : option RangeInclusive :=
  (fun '(_, nonces, _) => nonces) <$> to_submit s.

Definition reset_nonces_to_submit (s : state) : state :=
  RaceState_ (best_finalized_source_header_id_at_source s)
    (best_finalized_source_header_id_at_best_target s) (best_target_header_id s)
    (best_finalized_target_header_id s) None None (nonces_submitted s).

Definition reset_nonces_submitted (s : state) : state :=
  RaceState_ (best_finalized_source_header_id_at_source s)
    (best_finalized_source_header_id_at_best_target s) (best_target_header_id s)
    (best_finalized_target_header_id s) (to_submit s) (to_submit_batch s) None.
End RaceState.

(** [RaceStrategy]; [S] is the type of the strategy itself. *)
Class RaceStrategy (S R D ProofParameters SourceHeaderId TargetHeaderId Proof BatchTx : Type) := {
  strategy_is_empty : S -> bool;
  required_source_header_at_target : S -> SourceHeaderId ->
    RaceStateImpl SourceHeaderId TargetHeaderId Proof BatchTx -> option SourceHeaderId;
  best_at_source : S -> option MessageNonce;
  best_at_target : S -> option MessageNonce;
  source_nonces_updated : SourceHeaderId -> SourceClientNonces R -> S -> S;
  best_target_nonces_updated : TargetClientNonces D ->
    S * RaceStateImpl SourceHeaderId TargetHeaderId Proof BatchTx ->
    S * RaceStateImpl SourceHeaderId TargetHeaderId Proof BatchTx;
  finalized_target_nonces_updated : TargetClientNonces D ->
    S * RaceStateImpl SourceHeaderId TargetHeaderId Proof BatchTx ->
    S * RaceStateImpl SourceHeaderId TargetHeaderId Proof BatchTx;
  select_nonces_to_deliver : S -> RaceStateImpl SourceHeaderId TargetHeaderId Proof BatchTx ->
    outcome FailedClient (option (RangeInclusive * ProofParameters));
}.

(** ** message_race_strategy.rs *)

Abbreviation SourceRangesQueue Hash R := (list (HeaderId Hash * R)).

Record BasicStrategy (Hash R : Type) := Basic_ {
  source_queue : SourceRangesQueue Hash R;
  best_target_nonce : option MessageNonce;
}.
Arguments Basic_ {Hash R} _ _.
Arguments source_queue {Hash R} _.
Arguments best_target_nonce {Hash R} _.

Module BasicStrategy.
Section BasicStrategy.
Context {Hash R TargetHeaderId Proof BatchTx : Type} `{NoncesRange R}.
Abbreviation strategy := (BasicStrategy Hash R).
Abbreviation state := (RaceStateImpl (HeaderId Hash) TargetHeaderId Proof BatchTx).

Definition new : strategy := Basic_ [] None.

Definition available_source_queue_indices (s : strategy) (race_state : state) :
  option (nat * nat) :=
  best_target_nonce ← best_target_nonce s;
  match nonces_to_submit race_state, nonces_submitted race_state with
  | Some _, _ => None
  | _, Some _ => None
  | None, None =>
      begin_index ← fst <$> list_find (fun entry => ~ range_end entry.2 <= best_target_nonce)
                              (source_queue s);
      best_header_at_target ← best_finalized_source_header_id_at_best_target race_state;
      match take_while (fun entry =>
              header_number entry.1 <=? header_number best_header_at_target)
              (drop begin_index (source_queue s)) with
      | [] => None
      | ready => Some (begin_index, begin_index + length ready - 1)%nat
      end
  end.

Fixpoint remove_le_nonces_from_source_queue (nonce : MessageNonce) (q : SourceRangesQueue Hash R) :
  SourceRangesQueue Hash R :=
  match q with
  | [] => []
  | (queued_at, queued_range) :: q =>
      match greater_than queued_range nonce with
      | Some range_to_requeue => (queued_at, range_to_requeue) :: q
      | None => remove_le_nonces_from_source_queue nonce q
      end
  end.

Definition is_empty (s : strategy) : bool :=
  match source_queue s with [] => true | _ => false end.

Definition required_source_header_at_target (s : strategy) (current_best : HeaderId Hash)
  (_ : state) : option (HeaderId Hash) :=
  '(h, _) ← last (source_queue s);
  if header_number current_best <? header_number h then Some h else None.

Definition best_at_source (s : strategy) : option MessageNonce :=
  let best_in_queue := (fun '(_, range) => range_end range) <$> last (source_queue s) in
  match best_in_queue, best_target_nonce s with
  | Some best_in_queue, Some best_target_nonce =>
      if best_target_nonce <? best_in_queue then Some best_in_queue else Some best_target_nonce
  | None, Some best_target_nonce => Some best_target_nonce
  | _, None => None
  end.

(** The best nonce in the queue, as [source_nonces_updated] computes it. *)
Definition best_in_queue (s : strategy) : MessageNonce :=
  match last (source_queue s) with
  | Some (_, range) => range_end range
  | None => default 0 (best_target_nonce s)
  end.

Definition source_nonces_updated (at_block : HeaderId Hash) (nonces : SourceClientNonces R)
  (s : strategy) : strategy :=
  Basic_ (source_queue s ++
          match greater_than (new_nonces nonces) (best_in_queue s) with
          | Some range => [(at_block, range)]
          | None => []
          end)
    (best_target_nonce s).

Definition best_target_nonces_updated (nonces : TargetClientNonces unit) (sr : strategy * state) :
  strategy * state :=
  let '(s, race_state) := sr in
  let nonce := latest_nonce nonces in
  let race_state :=
    match nonces_to_submit race_state with
    | Some nonces => if range_last nonces <=? nonce
                     then reset_nonces_to_submit race_state else race_state
    | None => race_state
    end in
  let race_state :=
    match nonces_submitted race_state with
    | Some nonces => if range_last nonces <=? nonce
                     then reset_nonces_submitted race_state else race_state
    | None => race_state
    end in
  (Basic_ (source_queue s) (Some nonce), race_state).

Definition finalized_target_nonces_updated (nonces : TargetClientNonces unit)
  (sr : strategy * state) : strategy * state :=
  let '(s, race_state) := sr in
  (Basic_ (remove_le_nonces_from_source_queue (latest_nonce nonces) (source_queue s))
     (Some (Z.max (default (latest_nonce nonces) (best_target_nonce s)) (latest_nonce nonces))),
   race_state).

Definition select_nonces_to_deliver (s : strategy) (race_state : state) :
  outcome FailedClient (option (RangeInclusive * unit)) :=
  match available_source_queue_indices s race_state with
  | None => Ok None
  | Some (first, final) =>
      match best_target_nonce s with
      | None => Ok None
      | Some best_target_nonce =>
          let? begin_entry := expect (source_queue s !! first) in
          let range_begin :=
            Z.max (wrapping_add u64_max best_target_nonce 1) (range_begin begin_entry.2) in
          let? end_entry := expect (source_queue s !! final) in
          Ok (Some (Range range_begin (range_end end_entry.2), tt))
      end
  end.

#[global] Instance race_strategy :
  RaceStrategy strategy R unit unit (HeaderId Hash) TargetHeaderId Proof BatchTx := {|
  RaceStrategy.strategy_is_empty := is_empty;
  RaceStrategy.required_source_header_at_target := required_source_header_at_target;
  RaceStrategy.best_at_source := best_at_source;
  RaceStrategy.best_at_target := best_target_nonce;
  RaceStrategy.source_nonces_updated := source_nonces_updated;
  RaceStrategy.best_target_nonces_updated := best_target_nonces_updated;
  RaceStrategy.finalized_target_nonces_updated := finalized_target_nonces_updated;
  RaceStrategy.select_nonces_to_deliver := select_nonces_to_deliver;
|}.
End BasicStrategy.
End BasicStrategy.

(** ** message_race_receiving.rs: the ranges and the clients of the confirmations race *)

#[export] Instance RangeInclusive_nonces : NoncesRange RangeInclusive := {|
  range_begin := range_start;
  range_end := range_last;
  greater_than r nonce :=
    let next_nonce := wrapping_add u64_max nonce 1 in
    let final := range_last r in
    if final <? next_nonce then None else Some (Range (Z.max (range_start r) next_nonce) final);
|}.

Module ReceivingConfirmationsRace.
Section Clients.
Context {HeaderId E : Type}.
Context (latest_received_nonce : HeaderId -> outcome E (HeaderId * MessageNonce)).
Context (latest_confirmed_received_nonce : HeaderId -> outcome E (HeaderId * MessageNonce)).

(** [ReceivingConfirmationsRaceSource::nonces]. *)
Definition source_nonces (at_block : HeaderId) (prev_latest_nonce : MessageNonce) :
  outcome E (HeaderId * SourceClientNonces RangeInclusive) :=
  let? (at_block, latest_received_nonce) := latest_received_nonce at_block in
  Ok (at_block, SourceNonces_ (Range (wrapping_add u64_max prev_latest_nonce 1)
                                 latest_received_nonce) None).

(** [ReceivingConfirmationsRaceTarget::nonces]. *)
Definition target_nonces (at_block : HeaderId) : outcome E (HeaderId * TargetClientNonces unit) :=
  let? (at_block, latest_confirmed_nonce) := latest_confirmed_received_nonce at_block in
  Ok (at_block, TargetNonces_ latest_confirmed_nonce tt).
End Clients.
End ReceivingConfirmationsRace.

(** ** What the strategies rely on

    A valid range is a non-empty interval of nonces below [u64::MAX].  A range that
    comes from a client is a value of its type ([wf_range]); it need not be valid. *)
Class NoncesRangeLaws (R : Type) `{NoncesRange R} := {
  wf_range : R -> Prop;
  valid_range : R -> Prop;
  valid_bounds r : valid_range r -> 0 <= range_begin r <= range_end r /\ range_end r < u64_max;
  greater_than_valid r n : valid_range r -> 0 <= n < u64_max ->
    match greater_than r n with
    | Some r' => valid_range r' /\ range_begin r' = Z.max (range_begin r) (n + 1) /\
                 range_end r' = range_end r
    | None => range_end r <= n
    end;
  greater_than_stale r n : wf_range r -> 0 <= n < u64_max -> range_end r <= n ->
    greater_than r n = None;
}.

#[export] Instance RangeInclusive_laws : NoncesRangeLaws RangeInclusive.
Proof.
  refine {| wf_range r := True;
            valid_range r := 0 <= range_start r <= range_last r /\ range_last r < u64_max |}.
  - done.
  - intros r n [Hr Hm] Hn. simpl. rewrite wrapping_add_small by lia.
    destruct (_ <? _) eqn:E; simpl; lia.
  - intros r n _ Hn Hr. simpl in *. rewrite wrapping_add_small by lia.
    by rewrite (proj2 (Z.ltb_lt _ _)) by lia.
Defined.

#[global] Arguments greater_than : simpl never.
#[global] Arguments range_begin : simpl never.
#[global] Arguments range_end : simpl never.

(** ** The queue of the basic strategy *)

Section Queue.
Context {Hash R : Type} `{NoncesRangeLaws R}.
Abbreviation queue := (SourceRangesQueue Hash R).
Implicit Types q : queue.

Definition range_nonces (r : R) : list MessageNonce :=
  seqZ (range_begin r) (range_end r - range_begin r + 1).

(** The nonces of a queue, front first. *)
Definition queue_nonces (q : queue) : list MessageNonce := q ≫= fun e => range_nonces e.2.

(** Entries are valid, and their nonces and headers do not go back. *)
Fixpoint queue_from (lo number : Z) (q : queue) : Prop :=
  match q with
  | [] => True
  | (id, r) :: q => valid_range r /\ lo <= range_begin r /\ number <= header_number id /\
                    queue_from (range_end r + 1) (header_number id) q
  end.

Lemma elem_of_range_nonces (r : R) (n : Z) :
  n ∈ range_nonces r <-> range_begin r <= n <= range_end r.
Proof. unfold range_nonces. rewrite elem_of_seqZ. lia. Qed.

Lemma queue_nonces_app q1 q2 : queue_nonces (q1 ++ q2) = queue_nonces q1 ++ queue_nonces q2.
Proof. apply bind_app. Qed.

Lemma elem_of_queue_nonces q (n : Z) :
  n ∈ queue_nonces q <-> exists e, e ∈ q /\ range_begin e.2 <= n <= range_end e.2.
Proof.
  unfold queue_nonces. rewrite list_elem_of_bind. setoid_rewrite elem_of_range_nonces. naive_solver.
Qed.

Lemma queue_from_weaken lo lo' number number' q :
  queue_from lo number q -> lo' <= lo -> number' <= number -> queue_from lo' number' q.
Proof. destruct q as [|[id r] q]; simpl; [done|]. intros (? & ? & ? & ?) ? ?. split_and!; try done; lia. Qed.

Lemma queue_from_elem lo number q e :
  queue_from lo number q -> e ∈ q ->
  valid_range e.2 /\ lo <= range_begin e.2 /\ number <= header_number e.1.
Proof.
  revert lo number. induction q as [|[id r] q IH]; intros lo number; simpl;
    [by intros _ ?%not_elem_of_nil|].
  intros (Hv & Hlo & Hid & Hq) [->|Hin]%elem_of_cons; [done|].
  destruct (IH _ _ Hq Hin) as (Hv' & Hlo' & Hid'). pose proof (valid_bounds r Hv).
  split_and!; [done|lia..].
Qed.

(** An entry is followed by larger nonces, seen at later headers. *)
Lemma queue_from_order lo number q1 q2 e1 e2 :
  queue_from lo number (q1 ++ q2) -> e1 ∈ q1 -> e2 ∈ q2 ->
  range_end e1.2 < range_begin e2.2 /\ header_number e1.1 <= header_number e2.1.
Proof.
  revert lo number. induction q1 as [|[id r] q1 IH]; intros lo number; simpl;
    [by intros _ ?%not_elem_of_nil|].
  intros (Hv & Hlo & Hid & Hq) [->|Hin]%elem_of_cons Hin2; [|by eapply IH].
  apply (queue_from_elem _ _ _ e2) in Hq as (_ & ? & ?); [|by apply elem_of_app; right]. simpl. lia.
Qed.

(** The part of the queue that can be proved at a header is a prefix of it. *)
Lemma queue_from_headers lo number number' q :
  queue_from lo number q ->
  filter (fun e : HeaderId Hash * R => header_number e.1 <= number') q =
  take_while (fun e => header_number e.1 <=? number') q.
Proof.
  revert lo number. induction q as [|[id r] q IH]; intros lo number; simpl; [done|].
  intros (Hv & Hlo & Hid & Hq). rewrite filter_cons. simpl.
  destruct (header_number id <=? number') eqn:E.
  - rewrite decide_True by lia. f_equal. by eapply IH.
  - rewrite decide_False by lia. apply filter_none. intros e He.
    apply (queue_from_elem _ _ _ e Hq) in He as (_ & _ & ?). lia.
Qed.

Lemma queue_from_snoc lo number q id r :
  queue_from lo number q -> valid_range r -> lo <= range_begin r -> number <= header_number id ->
  (forall e, e ∈ q -> range_end e.2 < range_begin r /\ header_number e.1 <= header_number id) ->
  queue_from lo number (q ++ [(id, r)]).
Proof.
  revert lo number. induction q as [|[id' r'] q IH]; intros lo number; simpl; [done|].
  intros (Hv & Hlo & Hid & Hq) Hr Hlo' Hid' Hall.
  destruct (Hall (id', r')) as [? ?]; [by left|]. simpl in *. split_and!; try done.
  apply IH; try done; [lia|]. intros e He. apply Hall. by right.
Qed.

Lemma remove_le_from lo number q (n : Z) :
  queue_from lo number q -> 0 <= n < u64_max ->
  let q' := BasicStrategy.remove_le_nonces_from_source_queue n q in
  queue_from lo number q' /\
  (forall m, m ∈ queue_nonces q' <-> m ∈ queue_nonces q /\ n < m).
Proof.
  intros Hq Hn. revert lo number Hq. induction q as [|[id r] q IH]; intros lo number; simpl.
  { split; [done|]. intros m. split; [by intros ?%not_elem_of_nil|by intros [?%not_elem_of_nil _]]. }
  intros (Hv & Hlo & Hid & Hq). pose proof (greater_than_valid r n Hv Hn) as Hg.
  pose proof (valid_bounds r Hv) as Hb.
  setoid_rewrite elem_of_app. setoid_rewrite elem_of_range_nonces.
  destruct (greater_than r n) as [r'|]; simpl.
  - destruct Hg as (Hv' & Hb' & He'). pose proof (valid_bounds r' Hv').
    split; [rewrite He'; split_and!; try done; lia|]. intros m. rewrite elem_of_app, elem_of_range_nonces.
    assert (m ∈ queue_nonces q -> n < m) as Hm; [|naive_solver lia].
    intros (e & He & Hr)%elem_of_queue_nonces.
    apply (queue_from_elem _ _ _ e Hq) in He as (_ & ? & _). lia.
  - destruct (IH _ _ Hq) as [IH1 IH2].
    split; [eapply queue_from_weaken; [done|lia..]|]. intros m. rewrite IH2. naive_solver lia.
Qed.
End Queue.

(** ** The strategy and its environment *)

Section Environment.
Context {Hash R TargetHeaderId Proof BatchTx : Type} `{NoncesRangeLaws R}.
Abbreviation strategy := (BasicStrategy Hash R).
Abbreviation state := (RaceStateImpl (HeaderId Hash) TargetHeaderId Proof BatchTx).
Import BasicStrategy.

(** The queue covers everything between the best target nonce and its own end. *)
Record strategy_ok (s : strategy) : Prop := {
  so_queue : queue_from 0 0 (source_queue s);
  so_best b : best_target_nonce s = Some b -> 0 <= b < u64_max;
  so_none : best_target_nonce s = None -> source_queue s = [];
  so_gap b n m : best_target_nonce s = Some b -> m ∈ queue_nonces (source_queue s) ->
    b < n <= m -> n ∈ queue_nonces (source_queue s);
}.

(** What the clients tell the strategy.  The source is asked after the best nonce of
    the target is known, it answers at headers that do not go back, with all nonces
    after the best one known to the race or with none that are new.  The best nonce at
    the target may go back when its best block is retracted, but not below the nonces
    that were finalized, which are the only ones removed from the queue. *)
Inductive update : strategy * state -> strategy * state -> Prop :=
| SourceUpdate s rs at_block nonces best :
    best_at_source s = Some best ->
    (forall e, e ∈ source_queue s -> header_number e.1 <= header_number at_block) ->
    0 <= header_number at_block ->
    (valid_range (new_nonces nonces) /\ range_begin (new_nonces nonces) <= best + 1 \/
     wf_range (new_nonces nonces) /\ range_end (new_nonces nonces) <= best_in_queue s) ->
    update (s, rs) (source_nonces_updated at_block nonces s, rs)
| BestTargetUpdate s rs nonces :
    0 <= latest_nonce nonces < u64_max ->
    (forall b n, best_target_nonce s = Some b -> latest_nonce nonces < n <= b ->
       n ∈ queue_nonces (source_queue s)) ->
    update (s, rs) (best_target_nonces_updated nonces (s, rs))
| FinalizedTargetUpdate s rs nonces :
    0 <= latest_nonce nonces < u64_max ->
    update (s, rs) (finalized_target_nonces_updated nonces (s, rs))
| RaceStateUpdate s rs rs' : update (s, rs) (s, rs').

Lemma new_ok : strategy_ok new.
Proof. by split. Qed.

Lemma best_in_queue_spec (s : strategy) e :
  queue_from 0 0 (source_queue s) -> e ∈ source_queue s -> range_end e.2 <= best_in_queue s.
Proof.
  intros Hq He. unfold best_in_queue. destruct (last (source_queue s)) as [[id r]|] eqn:El.
  - apply last_Some in El as [q' Hq']. rewrite Hq' in *. apply elem_of_app in He as [He|He].
    + destruct (queue_from_order _ _ _ _ e (id, r) Hq He) as [? _]; [by left|].
      apply (queue_from_elem _ _ _ (id, r)) in Hq as (Hv & _); [|apply elem_of_app; right; by left].
      simpl in *. apply valid_bounds in Hv. lia.
    + apply list_elem_of_singleton in He as ->. done.
  - apply last_None in El. rewrite El in He. by apply not_elem_of_nil in He.
Qed.

Lemma best_in_queue_range (s : strategy) : strategy_ok s -> 0 <= best_in_queue s < u64_max.
Proof.
  intros [Hq Hb _ _]. unfold best_in_queue. destruct (last (source_queue s)) as [[id r]|] eqn:El.
  - apply last_Some in El as [q' Hq']. rewrite Hq' in Hq.
    apply (queue_from_elem _ _ _ (id, r)) in Hq as (Hv%valid_bounds & _);
      [|apply elem_of_app; right; by left]. simpl in *. lia.
  - destruct (best_target_nonce s) as [b|]; [by apply Hb|]. simpl. word.
Qed.

Lemma best_at_source_max (s : strategy) best :
  strategy_ok s -> best_at_source s = Some best ->
  exists b, best_target_nonce s = Some b /\ best <= Z.max b (best_in_queue s).
Proof.
  intros _. unfold best_at_source, best_in_queue.
  destruct (last (source_queue s)) as [[id r]|]; simpl; destruct (best_target_nonce s) as [b|]; try done.
  - intros Hbest. exists b. split; [done|]. destruct (_ <? _); simplify_eq; lia.
  - intros [= <-]. exists b. split; [done|simpl; lia].
Qed.

Lemma source_update_ok (s : strategy) at_block nonces best :
  strategy_ok s -> best_at_source s = Some best ->
  (forall e, e ∈ source_queue s -> header_number e.1 <= header_number at_block) ->
  0 <= header_number at_block ->
  (valid_range (new_nonces nonces) /\ range_begin (new_nonces nonces) <= best + 1 \/
   wf_range (new_nonces nonces) /\ range_end (new_nonces nonces) <= best_in_queue s) ->
  strategy_ok (source_nonces_updated at_block nonces s).
Proof.
  intros Hok Hbest Hids Hid Hnew. pose proof (best_in_queue_range s Hok) as Hr.
  destruct (best_at_source_max s best Hok Hbest) as (b & Hb & Hmax).
  destruct Hok as [Hq Hbr Hnone Hgap] eqn:Eok. clear Eok.
  unfold source_nonces_updated.
  destruct Hnew as [[Hv Hlo]|[Hwf Hend]].
  2: { rewrite greater_than_stale by done. rewrite app_nil_r. by split. }
  pose proof (greater_than_valid _ _ Hv Hr) as Hg.
  destruct (greater_than _ _) as [r'|]; [|rewrite app_nil_r; by split].
  destruct Hg as (Hv' & Hb' & He'). pose proof (valid_bounds _ Hv'). pose proof (valid_bounds _ Hv).
  split; simpl; try done; [|congruence|].
  - apply queue_from_snoc; try done; [lia|]. intros e He. split; [|by apply Hids].
    pose proof (best_in_queue_spec s e Hq He). lia.
  - intros b' n m Hb'' Hm Hn. rewrite Hb in Hb''. injection Hb'' as <-.
    rewrite queue_nonces_app, elem_of_app in *. simpl in *. rewrite app_nil_r in *.
    rewrite !elem_of_range_nonces in *.
    destruct Hm as [Hm|Hm]; [left; by eapply Hgap|].
    destruct (decide (range_begin r' <= n)) as [|Hlt]; [right; lia|left].
    assert (n <= best_in_queue s) as Hle by lia. unfold best_in_queue in Hle.
    destruct (last (source_queue s)) as [[id r]|] eqn:El.
    + apply (Hgap b n (range_end r) Hb); [|lia].
      apply elem_of_queue_nonces. exists (id, r). simpl.
      assert ((id, r) ∈ source_queue s) as Hin.
      { apply last_Some in El as [q' ->]. apply elem_of_app. right. by left. }
      split; [done|]. apply (queue_from_elem _ _ _ _ Hq) in Hin as (Hvr%valid_bounds & _). simpl in *. lia.
    + rewrite Hb in Hle. simpl in Hle. lia.
Qed.

Lemma finalized_update_ok (s : strategy) (rs : state) nonces :
  strategy_ok s -> 0 <= latest_nonce nonces < u64_max ->
  strategy_ok (finalized_target_nonces_updated nonces (s, rs)).1.
Proof.
  intros [Hq Hb Hnone Hgap] Hn. destruct (remove_le_from 0 0 (source_queue s) _ Hq Hn) as [Hq' Hm].
  split; simpl; try done.
  - intros b [= <-]. destruct (best_target_nonce s) as [b'|] eqn:E; simpl; [|lia].
    specialize (Hb b' eq_refl). lia.
  - intros b n m [= <-] Hin Hlt. apply Hm in Hin as [Hin Hgt]. apply Hm. split; [|lia].
    destruct (best_target_nonce s) as [b'|] eqn:E; simpl in *.
    + eapply (Hgap b'); [done..|lia].
    + rewrite Hnone in Hin by done. by apply not_elem_of_nil in Hin.
Qed.

Lemma update_ok (sr sr' : strategy * state) : update sr sr' -> strategy_ok sr.1 -> strategy_ok sr'.1.
Proof.
  destruct 1 as [s rs at_block nonces best Hbest Hids Hid Hnew|s rs nonces Hn Hle|s rs nonces Hn|];
    intros Hok; simpl in *; [by eapply source_update_ok| |by apply (finalized_update_ok s rs)|done].
  destruct Hok as [Hq Hb Hnone Hgap]. split; simpl; try done.
  - by intros b [= <-].
  - intros b n m [= <-] Hin Hlt. destruct (best_target_nonce s) as [b'|] eqn:E.
    + destruct (decide (n <= b')); [apply (Hle b' n eq_refl); lia|]. eapply (Hgap b'); [done..|lia].
    + rewrite Hnone in Hin by done. by apply not_elem_of_nil in Hin.
Qed.

Lemma updates_ok (sr : strategy * state) (rs : state) :
  rtc update (new, rs) sr -> strategy_ok sr.1.
Proof.
  intros Hrun. remember (new, rs) as sr0 eqn:E0.
  assert (strategy_ok sr0.1) as Hok by (rewrite E0; apply new_ok). clear E0.
  induction Hrun as [|x y z Hxy _ IH]; [done|]. apply IH. by eapply update_ok.
Qed.

(** ** Selection *)

(** The undelivered nonces of the queue that were seen at the headers up to [h]. *)
Definition deliverable (s : strategy) (b : MessageNonce) (h : HeaderId Hash) : list MessageNonce :=
  filter (fun n => b < n)
    (queue_nonces (filter (fun e => header_number e.1 <= header_number h) (source_queue s))).

Lemma next_nonce_entry lo number pre e suf (b : Z) :
  queue_from lo number (pre ++ e :: suf) -> ~ range_end e.2 <= b ->
  Forall (fun e => range_end e.2 <= b) pre ->
  (forall n m, m ∈ queue_nonces (Hash := Hash) (pre ++ e :: suf) -> b < n <= m ->
     n ∈ queue_nonces (pre ++ e :: suf)) ->
  range_begin e.2 <= b + 1 <= range_end e.2.
Proof.
  intros Hq He Hpre Hgap. split; [|lia].
  assert (e ∈ pre ++ e :: suf) as Hin by (apply elem_of_app; right; by left).
  destruct (queue_from_elem _ _ _ e Hq Hin) as (Hv%valid_bounds & _).
  assert (b + 1 ∈ queue_nonces (pre ++ e :: suf)) as (x & Hx & Hr)%elem_of_queue_nonces.
  { apply (Hgap _ (range_end e.2)); [|lia]. apply elem_of_queue_nonces. exists e. split; [done|lia]. }
  apply elem_of_app in Hx as [Hx|[->|Hx]%elem_of_cons]; [|lia|].
  - rewrite Forall_forall in Hpre. specialize (Hpre x Hx). simpl in *. lia.
  - apply (queue_from_order lo number (pre ++ [e]) suf e x) in Hx as [? _]; [lia| |].
    + by rewrite <- app_assoc.
    + apply elem_of_app. right. by left.
Qed.

(** What [available_source_queue_indices] finds: the entries up to [h] that are not
    delivered as a whole.  The first of them holds the next nonce. *)
Lemma available_spec (s : strategy) (rs : state) (b : MessageNonce) (h : HeaderId Hash) :
  strategy_ok s -> best_target_nonce s = Some b ->
  nonces_to_submit rs = None -> nonces_submitted rs = None ->
  best_finalized_source_header_id_at_best_target rs = Some h ->
  match available_source_queue_indices s rs with
  | None => deliverable s b h = []
  | Some (i, j) => exists pre e ready rest,
      source_queue s = pre ++ (e :: ready) ++ rest /\ length pre = i /\
      j = (i + length ready)%nat /\ Forall (fun e => range_end e.2 <= b) pre /\
      filter (fun e => header_number e.1 <= header_number h) (source_queue s) = pre ++ e :: ready /\
      range_begin e.2 <= b + 1 <= range_end e.2
  end.
Proof.
  intros [Hq Hb _ Hgap] Hbest Hto Hsub Hh. unfold available_source_queue_indices, deliverable.
  rewrite Hbest, Hto, Hsub, Hh. simpl. specialize (Hb b Hbest).
  pose proof (queue_from_headers 0 0 (header_number h) _ Hq) as Hf. simpl in Hf.
  destruct (list_find _ (source_queue s)) as [[i e]|] eqn:Ef; simpl.
  - apply list_find_Some in Ef as (Hi & He & Hpre).
    pose proof (take_drop_middle _ _ _ Hi) as Hsplit. rewrite (drop_S _ _ _ Hi).
    assert (length (take i (source_queue s)) = i) as Hlen.
    { rewrite length_take. apply lookup_lt_Some in Hi. lia. }
    assert (Forall (fun e => range_end e.2 <= b) (take i (source_queue s))) as Hpre'.
    { apply Forall_lookup. intros k e' Hk.
      apply lookup_take_Some in Hk as [Hk Hlt]. specialize (Hpre _ _ Hk Hlt). lia. }
    revert Hlen Hpre' Hsplit. generalize (take i (source_queue s)) as pre.
    generalize (drop (S i) (source_queue s)) as suf. intros suf pre Hlen Hpre' Hsplit.
    rewrite <- Hsplit in Hq, Hgap, Hf. rewrite <- Hsplit. clear Hi Hpre Hsplit. simpl.
    destruct (header_number e.1 <=? header_number h) eqn:Ee.
    + pose proof (next_nonce_entry _ _ _ _ _ b Hq He Hpre' (fun n m => Hgap b n m Hbest)) as Hnext.
      exists pre, e, (take_while (fun e => header_number e.1 <=? header_number h) suf),
        (drop_while (fun e => header_number e.1 <=? header_number h) suf).
      split_and!; [simpl; by rewrite take_while_drop_while|done|simpl; lia|done| |apply Hnext..].
      rewrite Hf, take_while_app; [simpl; by rewrite Ee|]. apply Forall_forall. intros x Hx.
      destruct (queue_from_order _ _ _ _ x e Hq Hx) as [_ ?]; [by left|]. lia.
    + apply filter_none. intros n (x & [Hx Hin]%list_elem_of_filter & Hn)%elem_of_queue_nonces.
      apply elem_of_app in Hin as [Hin|[->|Hin]%elem_of_cons]; [| |].
      * rewrite Forall_forall in Hpre'. specialize (Hpre' x Hin). simpl in *. lia.
      * lia.
      * apply (queue_from_order 0 0 (pre ++ [e]) suf e x) in Hin as [_ ?]; [lia| |].
        -- by rewrite <- app_assoc.
        -- apply elem_of_app. right. by left.
  - apply list_find_None in Ef. apply filter_none.
    intros n (x & [Hx Hin]%list_elem_of_filter & Hn)%elem_of_queue_nonces.
    rewrite Forall_forall in Ef. specialize (Ef x Hin). simpl in *. lia.
Qed.

(** The nonces of the queue up to its last entry [x] that can be proved, when some of
    them are not delivered. *)
Lemma deliverable_spec (s : strategy) (b : MessageNonce) (h : HeaderId Hash) q1 x rest :
  strategy_ok s -> best_target_nonce s = Some b -> source_queue s = (q1 ++ [x]) ++ rest ->
  filter (fun e => header_number e.1 <= header_number h) (source_queue s) = q1 ++ [x] ->
  b < range_end x.2 ->
  last (deliverable s b h) = Some (range_end x.2) /\
  forall n, n ∈ deliverable s b h <-> b < n <= range_end x.2.
Proof.
  intros [Hq Hb _ Hgap] Hbest Hsplit Hf Hx. specialize (Hb b Hbest). unfold deliverable. rewrite Hf.
  rewrite Hsplit in Hq. pose proof (Hgap b) as Hgap'. rewrite Hsplit in Hgap'. clear Hgap.
  destruct (queue_from_elem _ _ _ x Hq) as (Hv%valid_bounds & _); [set_solver|]. split.
  - rewrite queue_nonces_app. simpl. rewrite app_nil_r. unfold range_nonces.
    replace (range_end x.2 - range_begin x.2 + 1) with ((range_end x.2 - range_begin x.2) + 1) by lia.
    rewrite seqZ_app by lia. rewrite app_assoc, filter_app, last_app.
    rewrite (seqZ_cons _ 1) by lia. replace (range_begin x.2 + _) with (range_end x.2) by lia.
    rewrite seqZ_nil by lia. rewrite filter_cons_True by done. done.
  - intros n. rewrite list_elem_of_filter, elem_of_queue_nonces. split.
    + intros (Hn & e & He & Hr). split; [done|]. apply elem_of_app in He as [He|He].
      * rewrite <- app_assoc in Hq. destruct (queue_from_order _ _ _ _ e x Hq He) as [? _]; [by left|]. lia.
      * apply list_elem_of_singleton in He as ->. lia.
    + intros Hn. split; [lia|].
      destruct (proj1 (elem_of_queue_nonces _ _) (Hgap' n (range_end x.2) Hbest
        ltac:(apply elem_of_queue_nonces; exists x; split; [set_solver|lia]) ltac:(lia)))
        as (e & [He|He]%elem_of_app & Hr); [by exists e|].
      destruct (queue_from_order _ _ _ _ x e Hq) as [? _]; [set_solver|done|]. lia.
Qed.

Lemma queue_nonces_sorted lo number (q : SourceRangesQueue Hash R) :
  queue_from lo number q -> StronglySorted Z.lt (queue_nonces q).
Proof.
  revert lo number. induction q as [|[id r] q IH]; intros lo number; simpl; [constructor|].
  intros (Hv & Hlo & Hid & Hq). apply StronglySorted_app. split_and!; [|apply seqZ_sorted|by eapply IH].
  intros x y ?%elem_of_range_nonces (e & He & Hr)%elem_of_queue_nonces.
  apply (queue_from_elem _ _ _ e Hq) in He as (_ & ? & _). lia.
Qed.

Lemma queue_from_filter lo number (P : HeaderId Hash * R -> Prop) `{!forall e, Decision (P e)}
  (q : SourceRangesQueue Hash R) : queue_from lo number q -> queue_from lo number (filter P q).
Proof.
  revert lo number. induction q as [|[id r] q IH]; intros lo number; [done|].
  intros (Hv & Hlo & Hid & Hq). apply IH in Hq. rewrite filter_cons. pose proof (valid_bounds r Hv).
  case_decide; [by split_and!|]. eapply queue_from_weaken; [done|lia..].
Qed.

(** The deliverable nonces are consecutive. *)
Lemma deliverable_seqZ (s : strategy) (b hi : MessageNonce) (h : HeaderId Hash) :
  strategy_ok s -> (forall n, n ∈ deliverable s b h <-> b < n <= hi) -> b <= hi ->
  deliverable s b h = seqZ (b + 1) (hi - b).
Proof.
  intros [Hq _ _ _] Hin Hle. apply sorted_lt_ext; [|apply seqZ_sorted|].
  - unfold deliverable. by apply sorted_filter, (queue_nonces_sorted 0 0), queue_from_filter.
  - intros n. rewrite Hin, elem_of_seqZ. lia.
Qed.

Lemma available_cases (s : strategy) (rs : state) :
  best_target_nonce s = None \/ is_Some (nonces_to_submit rs) \/ is_Some (nonces_submitted rs) \/
  best_finalized_source_header_id_at_best_target rs = None ->
  available_source_queue_indices s rs = None.
Proof.
  unfold available_source_queue_indices. destruct (best_target_nonce s); [|done].
  destruct (nonces_to_submit rs); [done|]. destruct (nonces_submitted rs); [done|].
  intros [?|[[]|[[]|Hh]]]; try done. rewrite Hh. simpl.
  match goal with |- mbind _ ?o = _ => by destruct o end.
Qed.

(** Both together: the entries at the two indices, and what lies between them. *)
Lemma available_entries (s : strategy) (rs : state) (b : MessageNonce) (h : HeaderId Hash) :
  strategy_ok s -> best_target_nonce s = Some b ->
  nonces_to_submit rs = None -> nonces_submitted rs = None ->
  best_finalized_source_header_id_at_best_target rs = Some h ->
  match available_source_queue_indices s rs with
  | None => deliverable s b h = []
  | Some (i, j) => exists e x,
      source_queue s !! i = Some e /\ source_queue s !! j = Some x /\ (i <= j)%nat /\
      range_begin e.2 <= b + 1 <= range_end x.2 /\
      last (deliverable s b h) = Some (range_end x.2) /\
      (forall n, n ∈ deliverable s b h <-> b < n <= range_end x.2) /\
      exists pre, Forall (fun e => range_end e.2 <= b) pre /\
        filter (fun e => header_number e.1 <= header_number h) (source_queue s) =
        pre ++ take (j - i + 1) (drop i (source_queue s))
  end.
Proof.
  intros Hok Hbest Hto Hsub Hh. pose proof (available_spec s rs b h Hok Hbest Hto Hsub Hh) as Ha.
  destruct (available_source_queue_indices s rs) as [[i j]|]; [|done].
  destruct Ha as (pre & e & ready & rest & Hs & Hi & -> & Hpre & Hf & He).
  destruct (exists_last (l := e :: ready)) as (q1 & x & Hx); [done|].
  assert (length q1 = length ready) as Hlen.
  { apply (f_equal length) in Hx. rewrite length_app in Hx. simpl in Hx. lia. }
  assert (range_end e.2 <= range_end x.2) as Hex.
  { destruct q1 as [|e' q1]; simplify_eq/=; [done|]. destruct Hok as [Hq _ _ _].
    assert (queue_from 0 0 ((pre ++ e' :: q1) ++ x :: rest)) as Hq'.
    { rewrite Hs in Hq. revert Hq. simpl. by rewrite <- !app_assoc. } clear Hq. rename Hq' into Hq.
    destruct (queue_from_order _ _ _ _ e' x Hq) as [? _]; [set_solver|by left|].
    destruct (queue_from_elem _ _ _ x Hq) as (Hv%valid_bounds & _); [set_solver|]. lia. }
  exists e, x. rewrite Hx in Hs, Hf.
  destruct (deliverable_spec s b h (pre ++ q1) x rest) as [Hlast Hin]; try done.
  { rewrite Hs. by rewrite <- !app_assoc. } { by rewrite Hf, app_assoc. } { lia. }
  split_and!; try done; try lia.
  - rewrite Hs, <- Hx, lookup_app_r, Hi, Nat.sub_diag by lia. done.
  - rewrite Hs, <- app_assoc, lookup_app_r by lia. rewrite lookup_app_r by lia.
    by replace (_ - _ - _)%nat with 0%nat by lia.
  - exists pre. split; [done|]. rewrite Hf, Hs. f_equal.
    rewrite drop_app_length' by done. rewrite take_app_length'; [done|]. rewrite length_app. simpl. lia.
Qed.

Definition selected (s : strategy) (rs : state) : option RangeInclusive :=
  match best_target_nonce s, nonces_to_submit rs, nonces_submitted rs,
        best_finalized_source_header_id_at_best_target rs with
  | Some b, None, None, Some h => Range (b + 1) <$> last (deliverable s b h)
  | _, _, _, _ => None
  end.
End Environment.

(** The basic strategy, which drives the delivery of confirmations, selects exactly the
    nonces it should, in every state it can reach: when nothing is selected or in
    flight, the range from the first nonce that the best block of the target does not
    know to the last nonce that can be proved at the source header known to the target,
    and nothing when there is no such nonce.  All nonces of the range are queued at
    headers that are known to the target; the queue is never indexed out of range. *)
Theorem basic_selection_correct {Hash R TargetHeaderId Proof BatchTx : Type} `{NoncesRangeLaws R}
  (rs0 rs : RaceStateImpl (HeaderId Hash) TargetHeaderId Proof BatchTx) (s : BasicStrategy Hash R) :
  rtc update (BasicStrategy.new, rs0) (s, rs) ->
  BasicStrategy.select_nonces_to_deliver s rs =
    Ok ((fun range => (range, tt)) <$> selected s rs) /\
  (forall range h, selected s rs = Some range ->
     best_finalized_source_header_id_at_best_target rs = Some h ->
     best_target_nonce s = Some (range_start range - 1) /\
     range_start range <= range_last range /\
     forall n, range_start range <= n <= range_last range ->
       exists e, e ∈ source_queue s /\ header_number e.1 <= header_number h /\
                 n ∈ range_nonces e.2).
Proof.
  intros Hrun. pose proof (updates_ok _ _ Hrun) as Hok. simpl in Hok. clear Hrun.
  unfold BasicStrategy.select_nonces_to_deliver, selected.
  pose proof (available_entries s rs) as Ha. pose proof (available_cases s rs) as Hc.
  destruct (best_target_nonce s) as [b|] eqn:Eb; [|by rewrite Hc by naive_solver].
  destruct (nonces_to_submit rs); [by rewrite Hc by naive_solver|].
  destruct (nonces_submitted rs); [by rewrite Hc by naive_solver|].
  destruct (best_finalized_source_header_id_at_best_target rs) as [h|] eqn:Eh;
    [|by rewrite Hc by naive_solver].
  specialize (Ha b h Hok eq_refl eq_refl eq_refl eq_refl).
  destruct (so_best _ Hok b Eb) as [Hb0 Hbm].
  destruct (BasicStrategy.available_source_queue_indices s rs) as [[i j]|]; [|by rewrite Ha].
  destruct Ha as (e & x & Hi & Hj & _ & He & Hlast & Hin & _). rewrite Hi, Hj, Hlast. simpl.
  rewrite wrapping_add_small by lia. rewrite Z.max_l by lia. split; [done|].
  intros range h' [= <-] [= <-]. simpl. split_and!; [f_equal; lia|lia|]. intros n Hn.
  assert (n ∈ deliverable s b h) as Hd by (apply Hin; lia).
  apply list_elem_of_filter in Hd as [_ (y & [Hy Hys]%list_elem_of_filter & Hr)%elem_of_queue_nonces].
  exists y. split_and!; try done. by apply elem_of_range_nonces.
Qed.

(** Five confirmations wait at header 3; the target knows header 4 and nonce 2. *)
Module WaitingRange.
Definition state : Type := RaceStateImpl (HeaderId Z) Z unit unit.
Definition idle : state := race_state_default.
Definition at_header4 : state :=
  RaceState_ None (Some (HeaderId_ 4 40)) None None None None None.
Definition s0 : BasicStrategy Z RangeInclusive := BasicStrategy.new.
Definition s1 : BasicStrategy Z RangeInclusive :=
  (BasicStrategy.best_target_nonces_updated (TargetNonces_ 0 tt) (s0, idle)).1.
Definition s2 : BasicStrategy Z RangeInclusive :=
  BasicStrategy.source_nonces_updated (HeaderId_ 3 30) (SourceNonces_ (Range 1 5) None) s1.
Definition s3 : BasicStrategy Z RangeInclusive :=
  (BasicStrategy.best_target_nonces_updated (TargetNonces_ 2 tt) (s2, idle)).1.

Lemma waiting_range_reached : rtc update (s0, idle) (s3, at_header4).
Proof.
  eapply rtc_l; [apply (BestTargetUpdate s0 idle (TargetNonces_ 0 tt)); [by vm_compute|done]|].
  eapply rtc_l.
  { apply (SourceUpdate s1 idle (HeaderId_ 3 30) (SourceNonces_ (Range 1 5) None) 0); [done| |done|].
    - by intros e ?%not_elem_of_nil.
    - left. split; [by vm_compute|done]. }
  eapply rtc_l; [apply (BestTargetUpdate s2 idle (TargetNonces_ 2 tt)); [by vm_compute|]|].
  { intros b n [= <-]. simpl. lia. }
  apply rtc_once, RaceStateUpdate.
Qed.
End WaitingRange.

Lemma basic_selection_correct_witness :
  BasicStrategy.select_nonces_to_deliver WaitingRange.s3 WaitingRange.at_header4 =
    Ok (Some (Range 3 5, tt)).
Proof.
  exact (proj1 (basic_selection_correct _ _ _ WaitingRange.waiting_range_reached)).
Defined.
