(* ===== verification/DeliveryRace.v ===== *)
(** * relays/messages/src/message_race_delivery.rs and message_race_limits.rs

    The strategy of the message delivery race.  On top of the basic strategy it keeps
    the state of the inbound lane at the target and the confirmations known at the
    source, so that it only selects messages that the lane would accept.  The size of
    the batch is decided by [MessageRaceLimits::decide].  The clones of the clients
    and the metrics that are passed along are not modelled. *)

From S2P Require Import Prelude Substrate RuntimePrimitives MessagesPrimitives InboundLane.
From S2P Require Import RelayUtils RaceStrategy.
From stdpp Require Import base numbers list gmap sorting.
Local Open Scope Z_scope.

(** ** Data (message_lane_loop.rs) *)

Record MessageDetails `{WeightOps} (Balance : Type) := Details {
  details_dispatch_weight : Weight;
  details_size : Z;
  details_reward : Balance;
}.
Arguments Details {_ Balance} _ _ _.
Arguments details_dispatch_weight {_ Balance} _.
Arguments details_size {_ Balance} _.
Arguments details_reward {_ Balance} _.

(** [BTreeMap<MessageNonce, MessageDetails<_>>]: the entries in the order of their keys. *)
Abbreviation MessageDetailsMap Balance := (list (MessageNonce * MessageDetails Balance)).

Record MessageProofParameters `{WeightOps} := ProofParameters {
  outbound_state_proof_required : bool;
  proof_dispatch_weight : Weight;
}.

Record MessageDeliveryParams `{WeightOps} := DeliveryParams {
  max_unrewarded_relayer_entries_at_target : MessageNonce;
  max_unconfirmed_nonces_at_target : MessageNonce;
  max_messages_in_single_batch : MessageNonce;
  max_messages_weight_in_single_batch : Weight;
  max_messages_size_in_single_batch : Z;
}.

Arguments ProofParameters {_} _ _.
Arguments DeliveryParams {_} _ _ _ _ _.

#[export] Instance MessageDetailsMap_nonces `{WeightOps} {Balance : Type} :
  NoncesRange (MessageDetailsMap Balance) := {|
  range_begin m := default 0 (fst <$> head m);
  range_end m := default 0 (fst <$> last m);
  greater_than m nonce :=
    match filter (fun e => wrapping_add u64_max nonce 1 <= e.1) m with
    | [] => None
    | gte => Some gte
    end;
|}.

(** ** message_race_limits.rs *)

Module MessageRaceLimits.
Section Limits.
Context `{WeightOps} {Hash Balance : Type}.

Record RelayMessagesBatchReference := Reference {
  max_messages_in_this_batch : MessageNonce;
  max_messages_weight_in_single_batch : Weight;
  max_messages_size_in_single_batch : Z;
  ref_best_target_nonce : MessageNonce;
  nonces_queue : SourceRangesQueue Hash (MessageDetailsMap Balance);
  nonces_queue_range : nat * nat;
}.

(** The weight and the size of the batch with one more message; [None] leaves the loop.  The
    first message is taken even if it overflows the limits. *)
Definition new_selected_weight (reference : RelayMessagesBatchReference)
  (details : MessageDetails Balance) (selected_weight : Weight) (selected_count : Z) :
  option Weight :=
  let new_selected_weight := weight_checked_add selected_weight (details_dispatch_weight details) in
  let fits :=
    match new_selected_weight with
    | Some w => all_lte w (max_messages_weight_in_single_batch reference)
    | None => false
    end in
  if fits then new_selected_weight
  else if selected_count =? 0 then Some (default weight_max new_selected_weight)
  else None.

Definition new_selected_size (reference : RelayMessagesBatchReference)
  (details : MessageDetails Balance) (selected_size selected_count : Z) : option Z :=
  let new_selected_size := checked_add u32_max selected_size (details_size details) in
  let fits :=
    match new_selected_size with
    | Some n => n <=? max_messages_size_in_single_batch reference
    | None => false
    end in
  if fits then new_selected_size
  else if selected_count =? 0 then Some (default u32_max new_selected_size)
  else None.

(** The loop over the ready nonces, on the sums of what is selected so far.  Its
    result is [hard_selected_count]. *)
Fixpoint decide_loop (reference : RelayMessagesBatchReference)
  (all_ready_nonces : MessageDetailsMap Balance) (index hard_selected_count : Z)
  (selected_weight : Weight) (selected_size selected_count : Z) : Z :=
  match all_ready_nonces with
  | [] => hard_selected_count
  | (_, details) :: all_ready_nonces =>
      match new_selected_weight reference details selected_weight selected_count with
      | None => hard_selected_count
      | Some new_selected_weight =>
          match new_selected_size reference details selected_size selected_count with
          | None => hard_selected_count
          | Some new_selected_size =>
              let new_selected_count := wrapping_add u64_max selected_count 1 in
              if max_messages_in_this_batch reference <? new_selected_count
              then hard_selected_count
              else decide_loop reference all_ready_nonces (index + 1) (index + 1)
                     new_selected_weight new_selected_size new_selected_count
          end
      end
  end.

Definition decide (reference : RelayMessagesBatchReference) :
  outcome FailedClient (option RangeInclusive) :=
  let queue := nonces_queue reference in
  let '(first, final) := nonces_queue_range reference in
  let? first_entry := expect (queue !! first) in
  let hard_selected_begin_nonce :=
    Z.max (wrapping_add u64_max (ref_best_target_nonce reference) 1)
      (range_begin first_entry.2) in
  check? expect (queue !! final) in
  let all_ready_nonces :=
    filter (fun e => hard_selected_begin_nonce <= e.1)
      (take (final - first + 1) (drop first queue) ≫= snd) in
  let hard_selected_count :=
    decide_loop reference all_ready_nonces 0 0 weight_zero 0 0 in
  Ok (if hard_selected_count =? 0 then None
      else Some (Range hard_selected_begin_nonce
             (wrapping_sub u64_max
                (wrapping_add u64_max hard_selected_begin_nonce hard_selected_count) 1))).
End Limits.
Arguments RelayMessagesBatchReference {_} _ _.
End MessageRaceLimits.

(** ** message_race_delivery.rs *)

Record DeliveryRaceTargetNoncesData := TargetData {
  target_confirmed_nonce : MessageNonce;
  unrewarded_relayers : UnrewardedRelayersState;
}.

Record MessageDeliveryStrategy `{WeightOps} (Hash Balance : Type) := DeliveryStrategy {
  params : MessageDeliveryParams;
  latest_confirmed_nonces_at_source : list (HeaderId Hash * MessageNonce);
  target_nonces : option (TargetClientNonces DeliveryRaceTargetNoncesData);
  strategy : BasicStrategy Hash (MessageDetailsMap Balance);
}.
Arguments DeliveryStrategy {_ Hash Balance} _ _ _ _.
Arguments params {_ Hash Balance} _.
Arguments latest_confirmed_nonces_at_source {_ Hash Balance} _.
Arguments target_nonces {_ Hash Balance} _.
Arguments strategy {_ Hash Balance} _.

Module MessageDeliveryStrategy.
Section Strategy.
Context `{WeightOps} {Hash Balance TargetHeaderId Proof BatchTx : Type}.
Abbreviation this := (MessageDeliveryStrategy Hash Balance).
Abbreviation state := (RaceStateImpl (HeaderId Hash) TargetHeaderId Proof BatchTx).

Definition new (params : MessageDeliveryParams) : this :=
  DeliveryStrategy params [] None BasicStrategy.new.

Definition contains (range : RangeInclusive) (nonce : MessageNonce) : bool :=
  (range_start range <=? nonce) && (nonce <=? range_last range).

Definition dispatch_weight_for_range (s : this) (range : RangeInclusive) : Weight :=
  let weights :=
    source_queue (strategy s) ≫= fun e =>
      details_dispatch_weight ∘ snd <$> filter (fun d => contains range d.1 = true) e.2 in
  fold_left weight_saturating_add weights weight_zero.

Definition is_empty (s : this) : bool := BasicStrategy.is_empty (strategy s).

Definition required_source_header_at_target (s : this) (current_best : HeaderId Hash)
  (race_state : state) : option (HeaderId Hash) :=
  match nonces_submitted race_state with
  | Some _ => None
  | None =>
      let has_nonces_to_deliver := negb (BasicStrategy.is_empty (strategy s)) in
      let header_required_for_messages_delivery :=
        BasicStrategy.required_source_header_at_target (strategy s) current_best race_state in
      let header_required_for_reward_confirmations_delivery :=
        '(id, nonce) ← last (latest_confirmed_nonces_at_source s);
        if negb (nonce =? 0) && (header_number current_best <? header_number id)
        then Some id else None in
      match has_nonces_to_deliver, header_required_for_messages_delivery,
            header_required_for_reward_confirmations_delivery with
      | true, Some id1, Some id2 => Some (if header_number id2 <? header_number id1 then id1 else id2)
      | true, Some a, None => Some a
      | true, None, b => b
      | false, _, _ => None
      end
  end.

Definition source_nonces_updated (at_block : HeaderId Hash)
  (nonces : SourceClientNonces (MessageDetailsMap Balance)) (s : this) : this :=
  let confirmed :=
    match confirmed_nonce nonces with
    | Some confirmed_nonce =>
        let is_confirmed_nonce_updated :=
          match last (latest_confirmed_nonces_at_source s) with
          | Some (_, prev_nonce) => negb (prev_nonce =? confirmed_nonce)
          | None => true
          end in
        if is_confirmed_nonce_updated
        then latest_confirmed_nonces_at_source s ++ [(at_block, confirmed_nonce)]
        else latest_confirmed_nonces_at_source s
    | None => latest_confirmed_nonces_at_source s
    end in
  DeliveryStrategy (params s) confirmed (target_nonces s)
    (BasicStrategy.source_nonces_updated at_block nonces (strategy s)).

Definition best_target_nonces_updated (nonces : TargetClientNonces DeliveryRaceTargetNoncesData)
  (sr : this * state) : this * state :=
  let '(s, race_state) := sr in
  let '(base, race_state) :=
    BasicStrategy.best_target_nonces_updated (TargetNonces_ (latest_nonce nonces) tt)
      (strategy s, race_state) in
  (DeliveryStrategy (params s) (latest_confirmed_nonces_at_source s) (Some nonces) base, race_state).

Definition finalized_target_nonces_updated
  (nonces : TargetClientNonces DeliveryRaceTargetNoncesData) (sr : this * state) : this * state :=
  let '(s, race_state) := sr in
  let confirmed :=
    match best_finalized_source_header_id_at_best_target race_state with
    | Some id =>
        let oldest_header_number_to_keep := header_number id in
        drop_while (fun e => header_number e.1 <? oldest_header_number_to_keep)
          (latest_confirmed_nonces_at_source s)
    | None => latest_confirmed_nonces_at_source s
    end in
  let target_nonces :=
    (fun t => TargetNonces_ (Z.max (latest_nonce t) (latest_nonce nonces)) (nonces_data t)) <$>
      target_nonces s in
  let '(base, race_state) :=
    BasicStrategy.finalized_target_nonces_updated (TargetNonces_ (latest_nonce nonces) tt)
      (strategy s, race_state) in
  (DeliveryStrategy (params s) confirmed target_nonces base, race_state).

(** The confirmed nonce that the outbound lane had at the source header [id]. *)
Definition latest_confirmed_nonce_at (s : this) (id : HeaderId Hash) : option MessageNonce :=
  snd <$> last (take_while (fun e => header_number e.1 <=? header_number id)
                  (latest_confirmed_nonces_at_source s)).

(** The limits that the state of the lane puts on the batch: [None] if nothing may be
    delivered, otherwise whether the outbound lane state is proved and how many nonces
    may be selected. *)
Definition batch_limits (p : MessageDeliveryParams) (latest_confirmed_nonce_at_source : MessageNonce)
  (target_nonces : TargetClientNonces DeliveryRaceTargetNoncesData) : option (bool * MessageNonce) :=
  let latest_received_nonce_at_target := latest_nonce target_nonces in
  let confirmations_missing :=
    checked_sub latest_received_nonce_at_target latest_confirmed_nonce_at_source in
  let too_many_unconfirmed :=
    match confirmations_missing with
    | Some confirmations_missing => max_unconfirmed_nonces_at_target p <=? confirmations_missing
    | None => false
    end in
  if too_many_unconfirmed then None
  else
    let latest_confirmed_nonce_at_target := target_confirmed_nonce (nonces_data target_nonces) in
    let outbound_state_proof_required :=
      latest_confirmed_nonce_at_target <? latest_confirmed_nonce_at_source in
    let relayers := unrewarded_relayers (nonces_data target_nonces) in
    let unrewarded_relayer_entries_limit_reached :=
      max_unrewarded_relayer_entries_at_target p <=? unrewarded_relayer_entries relayers in
    let number_of_rewards_being_proved :=
      saturating_sub latest_confirmed_nonce_at_source latest_confirmed_nonce_at_target in
    let enough_rewards_being_proved :=
      messages_in_oldest_entry relayers <=? number_of_rewards_being_proved in
    if unrewarded_relayer_entries_limit_reached && negb enough_rewards_being_proved then None
    else
      let future_confirmed_nonce_at_target :=
        if outbound_state_proof_required then latest_confirmed_nonce_at_source
        else latest_confirmed_nonce_at_target in
      let max_nonces :=
        default 0
          (diff ← checked_sub latest_received_nonce_at_target future_confirmed_nonce_at_target;
           checked_sub (max_unconfirmed_nonces_at_target p) diff) in
      Some (outbound_state_proof_required,
            Z.min max_nonces (max_messages_in_single_batch p)).

Definition select_nonces_to_deliver (s : this) (race_state : state) :
  outcome FailedClient (option (RangeInclusive * MessageProofParameters)) :=
  match best_target_nonce (strategy s),
        best_finalized_source_header_id_at_best_target race_state with
  | Some best_target_nonce, Some id =>
      let latest_confirmed_nonce_at_source :=
        default best_target_nonce (latest_confirmed_nonce_at s id) in
      match target_nonces s with
      | None => Ok None
      | Some target_nonces =>
          match batch_limits (params s) latest_confirmed_nonce_at_source target_nonces with
          | None => Ok None
          | Some (outbound_state_proof_required, max_nonces) =>
              match BasicStrategy.available_source_queue_indices (strategy s) race_state with
              | None => Ok None
              | Some available_source_queue_indices =>
                  let? selected_nonces :=
                    MessageRaceLimits.decide
                      (MessageRaceLimits.Reference max_nonces
                         (max_messages_weight_in_single_batch (params s))
                         (max_messages_size_in_single_batch (params s))
                         best_target_nonce (source_queue (strategy s))
                         available_source_queue_indices) in
                  Ok ((fun selected_nonces =>
                         (selected_nonces,
                          ProofParameters outbound_state_proof_required
                            (dispatch_weight_for_range s selected_nonces))) <$> selected_nonces)
              end
          end
      end
  | _, _ => Ok None
  end.

#[global] Instance race_strategy :
  RaceStrategy this (MessageDetailsMap Balance) DeliveryRaceTargetNoncesData
    MessageProofParameters (HeaderId Hash) TargetHeaderId Proof BatchTx := {|
  RaceStrategy.strategy_is_empty := is_empty;
  RaceStrategy.required_source_header_at_target := required_source_header_at_target;
  RaceStrategy.best_at_source s := BasicStrategy.best_at_source (strategy s);
  RaceStrategy.best_at_target s := best_target_nonce (strategy s);
  RaceStrategy.source_nonces_updated := source_nonces_updated;
  RaceStrategy.best_target_nonces_updated := best_target_nonces_updated;
  RaceStrategy.finalized_target_nonces_updated := finalized_target_nonces_updated;
  RaceStrategy.select_nonces_to_deliver := select_nonces_to_deliver;
|}.
End Strategy.
End MessageDeliveryStrategy.

Module MessageDeliveryRace.
Section Clients.
Context `{WeightOps} {HeaderId Balance E : Type}.
Context (latest_generated_nonce : HeaderId -> outcome E (HeaderId * MessageNonce)).
Context (source_latest_confirmed_received_nonce : HeaderId -> outcome E (HeaderId * MessageNonce)).
Context (generated_message_details :
  HeaderId -> RangeInclusive -> outcome E (MessageDetailsMap Balance)).
Context (latest_received_nonce : HeaderId -> outcome E (HeaderId * MessageNonce)).
Context (target_latest_confirmed_received_nonce : HeaderId -> outcome E (HeaderId * MessageNonce)).
Context (unrewarded_relayers_state : HeaderId -> outcome E (HeaderId * UnrewardedRelayersState)).

(** [MessageDeliveryRaceSource::nonces]. *)
Definition source_nonces (at_block : HeaderId) (prev_latest_nonce : MessageNonce) :
  outcome E (HeaderId * SourceClientNonces (MessageDetailsMap Balance)) :=
  let? (at_block, latest_generated_nonce) := latest_generated_nonce at_block in
  let? (at_block, latest_confirmed_nonce) := source_latest_confirmed_received_nonce at_block in
  let? new_nonces :=
    if prev_latest_nonce <? latest_generated_nonce
    then generated_message_details at_block
           (Range (wrapping_add u64_max prev_latest_nonce 1) latest_generated_nonce)
    else Ok [] in
  Ok (at_block, SourceNonces_ new_nonces (Some latest_confirmed_nonce)).

(** [MessageDeliveryRaceTarget::nonces]. *)
Definition target_nonces (at_block : HeaderId) :
  outcome E (HeaderId * TargetClientNonces DeliveryRaceTargetNoncesData) :=
  let? (at_block, latest_received_nonce) := latest_received_nonce at_block in
  let? (at_block, latest_confirmed_nonce) := target_latest_confirmed_received_nonce at_block in
  let? (at_block, unrewarded_relayers) := unrewarded_relayers_state at_block in
  Ok (at_block, TargetNonces_ latest_received_nonce
                  (TargetData latest_confirmed_nonce unrewarded_relayers)).
End Clients.
End MessageDeliveryRace.

(** ** Maps of message details as ranges of nonces *)

Section DetailsMap.
Context `{WeightOps} {Balance : Type}.
Implicit Types m : MessageDetailsMap Balance.

(** The keys are [lo], [lo + 1], and so on. *)
Fixpoint details_from (lo : Z) m : Prop :=
  match m with
  | [] => True
  | (n, _) :: m => n = lo /\ details_from (lo + 1) m
  end.

Definition sorted_keys m : Prop := StronglySorted (fun a b => a.1 < b.1) m.

Lemma details_from_end lo m :
  details_from lo m -> m <> [] -> range_end m = lo + Z.of_nat (length m) - 1.
Proof.
  revert lo. induction m as [|[n d] m IH]; intros lo; [done|]. intros [-> Hm] _.
  destruct m as [|e m]; [unfold range_end; simpl; lia|]. specialize (IH _ Hm ltac:(done)).
  unfold range_end in *. simpl in *. rewrite IH. lia.
Qed.

Lemma details_from_filter lo m (k : Z) :
  details_from lo m ->
  filter (fun e : _ * MessageDetails Balance => k <= e.1) m = drop (Z.to_nat (k - lo)) m.
Proof.
  revert lo. induction m as [|[n d] m IH]; intros lo; simpl; [by rewrite drop_nil|].
  intros [-> Hm]. rewrite filter_cons. simpl. rewrite (IH _ Hm). case_decide.
  - replace (Z.to_nat (k - lo)) with 0%nat by lia. by replace (Z.to_nat (k - (lo + 1))) with 0%nat by lia.
  - replace (Z.to_nat (k - lo)) with (S (Z.to_nat (k - (lo + 1)))) by lia. done.
Qed.

Lemma details_from_drop lo m k :
  details_from lo m -> details_from (lo + Z.of_nat k) (drop k m).
Proof.
  revert lo m. induction k as [|k IH]; intros lo m; [by rewrite drop_0, Z.add_0_r|].
  destruct m as [|[n d] m]; [done|]. intros [-> Hm]. simpl. apply IH in Hm.
  by replace (lo + Z.of_nat (S k)) with (lo + 1 + Z.of_nat k) by lia.
Qed.

Lemma details_from_keys lo m : details_from lo m -> m.*1 = seqZ lo (Z.of_nat (length m)).
Proof.
  revert lo. induction m as [|[n d] m IH]; intros lo; [done|]. intros [-> Hm].
  rewrite fmap_cons, (IH _ Hm), (seqZ_cons lo) by (simpl; lia). simpl. f_equal. f_equal; lia.
Qed.

Lemma details_from_begin lo m : details_from lo m -> m <> [] -> range_begin m = lo.
Proof. destruct m as [|[n d] m]; [done|]. by intros [-> _] _. Qed.

Lemma greater_than_details m (n : Z) :
  greater_than m n =
  match filter (fun e => wrapping_add u64_max n 1 <= e.1) m with [] => None | gte => Some gte end.
Proof. done. Qed.

#[global] Instance MessageDetailsMap_laws : NoncesRangeLaws (MessageDetailsMap Balance).
Proof.
  refine {| wf_range m := sorted_keys m;
            valid_range m := details_from (range_begin m) m /\ m <> [] /\ 0 <= range_begin m /\
                             range_end m < u64_max |}.
  - intros m (Hm & Hne & Hlo & Hhi). pose proof (details_from_end _ _ Hm Hne).
    destruct m; [done|]. simpl length in *. lia.
  - intros m n (Hm & Hne & Hlo & Hhi) Hn. pose proof (details_from_end _ _ Hm Hne) as Hend.
    rewrite greater_than_details, wrapping_add_small by lia.
    rewrite (details_from_filter _ _ _ Hm).
    set (k := Z.to_nat (n + 1 - range_begin m)).
    pose proof (details_from_drop _ _ k Hm) as Hd.
    destruct (drop k m) as [|e gte] eqn:E.
    + apply (f_equal length) in E. rewrite length_drop in E.
      assert (length m <> 0)%nat by (by destruct m). simpl length in E. lia.
    + assert (e :: gte <> []) as Hne' by done. rewrite <- E in Hd, Hne' |- *.
      pose proof (details_from_begin _ _ Hd Hne') as Hb.
      pose proof (details_from_end _ _ Hd Hne') as He. rewrite length_drop in He.
      assert (k < length m)%nat by (destruct (decide (k < length m)%nat); [done|rewrite drop_ge in Hne' by lia; done]).
      rewrite Hb. split_and!; try done; try lia.
  - intros m n Hs Hn Hend. rewrite greater_than_details, wrapping_add_small by lia.
    rewrite filter_none; [done|]. intros e He.
    assert (e.1 <= range_end m) as Hle; [|lia]. clear Hend.
    apply list_elem_of_lookup in He as [i Hi]. unfold range_end. simpl.
    destruct (last m) as [x|] eqn:El; [|apply last_None in El; by subst].
    apply last_Some in El as [m' ->]. simpl. rewrite lookup_app in Hi.
    destruct (m' !! i) as [y|] eqn:Ey; simplify_eq.
    + apply StronglySorted_app in Hs as (Hs & _ & _).
      specialize (Hs e x ltac:(by eapply list_elem_of_lookup_2) ltac:(by left)). lia.
    + apply list_lookup_singleton_Some in Hi as [_ <-]. lia.
Defined.
End DetailsMap.

(** ** The size of a batch *)

Section Decide.
Context `{WeightLaws} {Hash Balance : Type}.
Abbreviation reference := (MessageRaceLimits.RelayMessagesBatchReference Hash Balance).
Implicit Types (m : MessageDetailsMap Balance) (ref : reference).
Abbreviation max_messages ref := (MessageRaceLimits.max_messages_in_this_batch ref).
Abbreviation max_weight ref := (MessageRaceLimits.max_messages_weight_in_single_batch ref).
Abbreviation max_size ref := (MessageRaceLimits.max_messages_size_in_single_batch ref).

Definition total (f : MessageDetails Balance -> Z) m : Z := foldr (fun e acc => f e.2 + acc) 0 m.
Definition total_ref_time m : Z := total (fun d => ref_time (details_dispatch_weight d)) m.
Definition total_proof_size m : Z := total (fun d => proof_size (details_dispatch_weight d)) m.
Definition total_size m : Z := total details_size m.

(** The messages are within the weight and the size limits. *)
Definition within_limits (max_weight : Weight) (max_size : Z) m : Prop :=
  total_ref_time m <= ref_time max_weight /\
  total_proof_size m <= proof_size max_weight /\
  total_size m <= max_size.

(** A batch of the first [k] messages may be sent: a single message is allowed to exceed the
    weight and size limits. *)
Definition admissible (max_messages : Z) (max_weight : Weight) (max_size : Z) m (k : nat) : Prop :=
  Z.of_nat k <= max_messages /\ ((k <= 1)%nat \/ within_limits max_weight max_size (take k m)).

Abbreviation allowed ref :=
  (admissible (max_messages ref) (max_weight ref) (max_size ref)).

Lemma total_app f m1 m2 : total f (m1 ++ m2) = total f m1 + total f m2.
Proof. unfold total. induction m1 as [|e m1 IH]; simpl; [done|]. rewrite IH. lia. Qed.

Lemma total_nonneg f m : Forall (fun e => 0 <= f e.2) m -> 0 <= total f m.
Proof. induction 1; simpl; lia. Qed.

Lemma total_take_le f m (k k' : nat) :
  Forall (fun e => 0 <= f e.2) m -> (k <= k')%nat -> total f (take k m) <= total f (take k' m).
Proof.
  intros Hm Hk. replace k' with (k + (k' - k))%nat by lia.
  rewrite <- take_take_drop, total_app. pose proof (total_nonneg f (take (k' - k) (drop k m))) as Hn.
  specialize (Hn ltac:(by apply Forall_take, Forall_drop)). lia.
Qed.

Definition sizes_ok m : Prop := Forall (fun e => is_u32 (details_size e.2)) m.

Lemma admissible_antitone max_messages max_weight max_size m (k k' : nat) :
  sizes_ok m -> (k <= k')%nat -> admissible max_messages max_weight max_size m k' ->
  admissible max_messages max_weight max_size m k.
Proof.
  intros Hs Hk [Hmax Hfit]. split; [lia|]. destruct (decide (k <= 1)%nat); [by left|right].
  destruct Hfit as [?|(Hr & Hp & Hz)]; [lia|].
  assert (forall f, (forall d, 0 <= f d) -> total f (take k m) <= total f (take k' m)) as Hw.
  { intros f Hf. apply total_take_le; [|done]. apply Forall_true. intros e. apply Hf. }
  unfold within_limits, total_ref_time, total_proof_size, total_size in *. split_and!.
  - etrans; [apply Hw; intros d; apply ref_time_u64|done].
  - etrans; [apply Hw; intros d; apply proof_size_u64|done].
  - etrans; [apply total_take_le; [|exact Hk]|done]. eapply Forall_impl; [done|]. intros e He. word.
Qed.

(** What the additions of one turn compute. *)
Lemma weight_turn ref (d : MessageDetails Balance) (w : Weight) (count : Z) :
  (count = 0 -> w = weight_zero) ->
  let wd := details_dispatch_weight d in
  let fits := ref_time w + ref_time wd <= ref_time (max_weight ref) /\
              proof_size w + proof_size wd <= proof_size (max_weight ref) in
  match MessageRaceLimits.new_selected_weight ref d w count with
  | Some w' => ref_time w' = ref_time w + ref_time wd /\
               proof_size w' = proof_size w + proof_size wd /\ (count = 0 \/ fits)
  | None => count <> 0 /\ ~ fits
  end.
Proof.
  intros Hzero wd fits. unfold MessageRaceLimits.new_selected_weight. fold wd.
  rewrite weight_checked_add_spec. unfold checked_add.
  pose proof (ref_time_u64 w) as Hw1. pose proof (proof_size_u64 w) as Hw2.
  pose proof (ref_time_u64 wd) as Hd1. pose proof (proof_size_u64 wd) as Hd2.
  pose proof (ref_time_u64 (max_weight ref)). pose proof (proof_size_u64 (max_weight ref)).
  assert (count = 0 -> ref_time w = 0 /\ proof_size w = 0) as Hz.
  { intros ->%Hzero. by rewrite weight_zero_ref_time, weight_zero_proof_size. }
  unfold fits. clear fits Hzero.
  destruct (ref_time w + _ <=? _) eqn:E1, (proof_size w + _ <=? _) eqn:E2; simpl.
  1: rewrite all_lte_spec, ref_time_from_parts, proof_size_from_parts by word.
  1: destruct (_ && _) eqn:E3; [rewrite ref_time_from_parts, proof_size_from_parts by word;
       split_and!; [done..|right; lia]|].
  all: destruct (count =? 0) eqn:E0; simpl;
    rewrite ?ref_time_from_parts, ?proof_size_from_parts by word;
    first [split_and!; [done..|left; lia]|split; [lia|word]|word].
Qed.

Lemma size_turn ref (d : MessageDetails Balance) (size count : Z) :
  (count = 0 -> size = 0) -> 0 <= size -> is_u32 (details_size d) -> is_u32 (max_size ref) ->
  match MessageRaceLimits.new_selected_size ref d size count with
  | Some size' => size' = size + details_size d /\
                  (count = 0 \/ size + details_size d <= max_size ref)
  | None => count <> 0 /\ ~ size + details_size d <= max_size ref
  end.
Proof.
  intros Hz Hs Hd Hm. unfold MessageRaceLimits.new_selected_size, checked_add.
  destruct (size + _ <=? u32_max) eqn:E1; [destruct (_ <=? max_size ref) eqn:E2|];
    [split; [done|right; lia]|destruct (count =? 0) eqn:E0; simpl..]; word.
Qed.

Lemma decide_turn ref n d (sel rest : MessageDetailsMap Balance) (w : Weight) (size : Z) :
  is_u32 (details_size d) -> is_u32 (max_size ref) -> 0 <= total_size sel ->
  Z.of_nat (S (length sel)) <= u64_max ->
  ref_time w = total_ref_time sel -> proof_size w = total_proof_size sel -> size = total_size sel ->
  let i := Z.of_nat (length sel) in
  let sel' := sel ++ [(n, d)] in
  let result := MessageRaceLimits.decide_loop ref ((n, d) :: rest) i i w size i in
  (~ allowed ref (sel' ++ rest) (length sel') /\ result = i) \/
  (allowed ref (sel' ++ rest) (length sel') /\ exists w' size',
     result = MessageRaceLimits.decide_loop ref rest (i + 1) (i + 1) w' size' (i + 1) /\
     ref_time w' = total_ref_time sel' /\ proof_size w' = total_proof_size sel' /\
     size' = total_size sel').
Proof.
  intros Hd Hmax Hsel Hlen Hr Hp Hz i sel' result.
  assert (forall f, total f sel' = total f sel + f d) as Ht.
  { intros f. unfold sel'. rewrite total_app. simpl. lia. }
  assert (Z.of_nat (length sel') = i + 1) as Hi by (unfold sel', i; rewrite length_app; simpl; lia).
  assert (i = 0 -> sel = []) as Hnil by (destruct sel; [done|unfold i; simpl; lia]).
  unfold admissible, within_limits. rewrite take_app_length, Hi.
  unfold total_ref_time, total_proof_size, total_size in *. rewrite !Ht.
  unfold result. cbn [MessageRaceLimits.decide_loop].
  assert (i = 0 -> w = weight_zero) as Hw0.
  { intros ->%Hnil. apply weight_ext; by rewrite ?weight_zero_ref_time, ?weight_zero_proof_size. }
  assert (i = 0 -> size = 0) as Hs0 by (by intros ->%Hnil).
  pose proof (weight_turn ref d w i Hw0) as Hw. cbv zeta in Hw.
  pose proof (size_turn ref d size i Hs0 ltac:(lia) Hd Hmax) as Hs.
  destruct (MessageRaceLimits.new_selected_weight _ _ _ _) as [w'|].
  2: { left. split; [|done]. destruct Hw as [Hw1 Hw2]. intros [_ [?|(? & ? & ?)]]; [lia|].
       apply Hw2. split; lia. }
  destruct (MessageRaceLimits.new_selected_size _ _ _ _) as [size'|].
  2: { left. split; [|done]. intros [_ [?|(? & ? & ?)]]; lia. }
  destruct Hw as (Hw1 & Hw2 & Hw3), Hs as [Hs1 Hs2].
  rewrite wrapping_add_small by (unfold i; lia).
  destruct (max_messages ref <? i + 1) eqn:Em.
  - left. split; [|done]. intros [? _]. lia.
  - right. split; [|exists w', size'; split_and!; [done|lia..]].
    split; [lia|]. destruct (decide (i = 0)); [left; lia|right]. split_and!; lia.
Qed.

Lemma decide_loop_spec ref (sel rest : MessageDetailsMap Balance) (w : Weight) (size : Z) :
  sizes_ok (sel ++ rest) -> is_u32 (max_size ref) ->
  Z.of_nat (length (sel ++ rest)) <= u64_max ->
  ref_time w = total_ref_time sel -> proof_size w = total_proof_size sel -> size = total_size sel ->
  allowed ref (sel ++ rest) (length sel) ->
  exists k, MessageRaceLimits.decide_loop ref rest (Z.of_nat (length sel)) (Z.of_nat (length sel))
              w size (Z.of_nat (length sel)) = Z.of_nat k /\
    (length sel <= k <= length (sel ++ rest))%nat /\
    forall k', (length sel <= k' <= length (sel ++ rest))%nat ->
      (k' <= k)%nat <-> allowed ref (sel ++ rest) k'.
Proof.
  revert sel w size. induction rest as [|[n d] rest IH]; intros sel w size Hs Hmax Hlen Hr Hp Hz Ha.
  { exists (length sel). rewrite app_nil_r in *. split_and!; [done|lia..|]. intros k' Hk'.
    replace k' with (length sel) by lia. by split. }
  assert (is_u32 (details_size d)) as Hd.
  { apply Forall_app in Hs as [_ Hs]. by apply Forall_cons in Hs as [Hs _]. }
  assert (0 <= total_size sel) as Hsel.
  { apply total_nonneg. apply Forall_app in Hs as [Hs _]. eapply Forall_impl; [done|]. intros e He. word. }
  assert (length (sel ++ [(n, d)]) = S (length sel)) as Hl by (rewrite length_app; simpl; lia).
  assert (sel ++ (n, d) :: rest = (sel ++ [(n, d)]) ++ rest) as Happ by by rewrite <- app_assoc.
  rewrite Happ in *.
  destruct (decide_turn ref n d sel rest w size) as [[Hna ->]|(Hadm & w' & size' & -> & Hr' & Hp' & Hz')];
    try done.
  { rewrite length_app in Hlen. lia. }
  - exists (length sel). split_and!; [done|lia|rewrite length_app; lia|]. intros k' Hk'. split.
    + intros Hle. by replace k' with (length sel) by lia.
    + intros Hk. destruct (decide (k' <= length sel)%nat); [done|]. destruct Hna.
      apply (admissible_antitone _ _ _ _ _ k'); [done|lia|done].
  - destruct (IH (sel ++ [(n, d)]) w' size') as (k & Hk & Hrange & Hiff); try done.
    exists k. rewrite Hl, Nat2Z.inj_succ, <- Z.add_1_r in Hk. rewrite Hk, Hl in *.
    split_and!; [done|lia..|]. intros k' Hk'.
    destruct (decide (k' = length sel)) as [->|]; [|apply Hiff; lia]. split; [done|lia].
Qed.

(** The loop selects the largest batch that may be sent. *)
Lemma decide_loop_largest ref m :
  sizes_ok m -> is_u32 (max_size ref) -> 0 <= max_messages ref -> Z.of_nat (length m) <= u64_max ->
  exists k, MessageRaceLimits.decide_loop ref m 0 0 weight_zero 0 0 = Z.of_nat k /\
    (k <= length m)%nat /\ forall k', (k' <= length m)%nat -> (k' <= k)%nat <-> allowed ref m k'.
Proof.
  intros Hs Hmax Hmsg Hlen. destruct (decide_loop_spec ref [] m weight_zero 0) as (k & Hk & Hr & Hiff);
    try done; [apply weight_zero_ref_time|apply weight_zero_proof_size|split; [done|by left; simpl; lia]|].
  exists k. simpl in *. split_and!; [done|lia|]. intros k' Hk'. apply Hiff. lia.
Qed.
End Decide.

(** ** The nonces the delivery strategy selects *)

Section Ready.
Context `{WeightLaws} {Hash Balance TargetHeaderId Proof BatchTx : Type}.
Abbreviation this := (MessageDeliveryStrategy Hash Balance).
Abbreviation queue := (SourceRangesQueue Hash (MessageDetailsMap Balance)).
Abbreviation state := (RaceStateImpl (HeaderId Hash) TargetHeaderId Proof BatchTx).
Implicit Types q : queue.

(** The messages of a queue, front first. *)
Definition queue_details q : MessageDetailsMap Balance := q ≫= snd.

(** The undelivered messages that were seen at the headers up to [h]. *)
Definition ready (s : this) (b : MessageNonce) (h : HeaderId Hash) : MessageDetailsMap Balance :=
  filter (fun e => b < e.1)
    (queue_details (filter (fun e => header_number e.1 <= header_number h)
                      (source_queue (strategy s)))).

Lemma valid_keys (m : MessageDetailsMap Balance) : valid_range m -> m.*1 = range_nonces m.
Proof.
  intros (Hm & Hne & _). rewrite (details_from_keys _ _ Hm). unfold range_nonces.
  f_equal. rewrite (details_from_end _ _ Hm Hne). lia.
Qed.

Lemma queue_details_keys lo number q :
  queue_from lo number q -> (queue_details q).*1 = queue_nonces q.
Proof.
  revert lo number. induction q as [|[id m] q IH]; intros lo number; [done|].
  intros (Hv & _ & _ & Hq). cbn [queue_details queue_nonces]. unfold queue_details, queue_nonces in *.
  rewrite !bind_cons, fmap_app, (IH _ _ Hq). cbn [snd]. by rewrite (valid_keys m Hv).
Qed.

Lemma filter_keys (b : Z) (m : MessageDetailsMap Balance) :
  (filter (fun e => b < e.1) m).*1 = filter (fun n => b < n) m.*1.
Proof.
  induction m as [|e m IH]; [done|]. rewrite fmap_cons, !filter_cons.
  case_decide; rewrite ?fmap_cons, ?IH; done.
Qed.

Lemma ready_keys (s : this) b h : strategy_ok (strategy s) -> (ready s b h).*1 = deliverable (strategy s) b h.
Proof.
  intros Hok. unfold ready, deliverable. rewrite filter_keys. f_equal.
  eapply (queue_details_keys 0 0). by apply queue_from_filter, so_queue.
Qed.

Lemma details_from_of_keys lo (m : MessageDetailsMap Balance) (n : Z) :
  m.*1 = seqZ lo n -> details_from lo m.
Proof.
  revert lo n. induction m as [|[k d] m IH]; intros lo n; [done|]. rewrite fmap_cons.
  destruct (decide (0 < n)); [|rewrite seqZ_nil by lia; done].
  rewrite seqZ_cons by lia. intros [= -> Hm]. split; [done|]. by apply (IH _ (Z.pred n)).
Qed.

Lemma details_from_le lo (m : MessageDetailsMap Balance) (k : nat) :
  details_from lo m -> filter (fun e => e.1 <= lo + Z.of_nat k - 1) m = take k m.
Proof.
  revert lo k. induction m as [|[n d] m IH]; intros lo k; [by rewrite take_nil|].
  intros [-> Hm]. rewrite filter_cons. simpl. destruct k as [|k]; simpl.
  - rewrite decide_False by lia. specialize (IH _ 0%nat Hm). rewrite take_0 in IH.
    apply filter_none. intros e He Hle. assert (e ∈ filter (fun e => e.1 <= lo + 1 + Z.of_nat 0 - 1) m) as Hin.
    { apply list_elem_of_filter. split; [lia|done]. }
    rewrite IH in Hin. by apply not_elem_of_nil in Hin.
  - rewrite decide_True by lia. f_equal. rewrite <- (IH _ k Hm).
    apply list_filter_iff. intros e. lia.
Qed.

Abbreviation contains := MessageDeliveryStrategy.contains.

(** The messages of the whole queue that are in the selected range. *)
Lemma selected_details (s : this) b h (k : nat) :
  strategy_ok (strategy s) -> details_from (b + 1) (ready s b h) ->
  (forall n, b < n <= b + Z.of_nat k -> n ∈ deliverable (strategy s) b h) ->
  filter (fun d => contains (Range (b + 1) (b + Z.of_nat k)) d.1 = true)
    (queue_details (source_queue (strategy s))) = take k (ready s b h).
Proof.
  intros [Hq _ _ _] Hready Hin. rewrite <- (details_from_le _ _ k Hready). unfold ready, deliverable in *.
  rewrite (queue_from_headers 0 0 _ _ Hq) in *.
  set (p := fun e : HeaderId Hash * MessageDetailsMap Balance => header_number e.1 <=? header_number h) in *.
  pose proof (take_while_drop_while p (source_queue (strategy s))) as Hsplit.
  rewrite <- Hsplit in Hq. rewrite <- Hsplit at 1.
  unfold queue_details at 1. rewrite bind_app, filter_app.
  rewrite (filter_none _ (drop_while p _ ≫= snd)), app_nil_r.
  - rewrite list_filter_filter. apply list_filter_iff. intros e. unfold contains. simpl. lia.
  - intros e (y & He & Hy)%list_elem_of_bind Hc. unfold contains in Hc. simpl in Hc.
    specialize (Hin e.1 ltac:(lia)). apply list_elem_of_filter in Hin as [_ Hin].
    apply elem_of_queue_nonces in Hin as (x & Hx & Hr).
    destruct (queue_from_order _ _ _ _ x y Hq Hx Hy) as [Hlt _].
    assert (range_begin y.2 <= e.1) as Hle; [|lia].
    destruct (queue_from_elem _ _ _ y Hq) as (Hv & _); [apply elem_of_app; by right|].
    assert (e.1 ∈ range_nonces y.2) as ?%elem_of_range_nonces; [|lia].
    rewrite <- (valid_keys _ Hv). apply list_elem_of_fmap. by exists e.
Qed.

Lemma fold_weights (m : MessageDetailsMap Balance) (w : Weight) :
  let w' := fold_left weight_saturating_add (details_dispatch_weight ∘ snd <$> m) w in
  ref_time w' = Z.min u64_max (ref_time w + total_ref_time m) /\
  proof_size w' = Z.min u64_max (proof_size w + total_proof_size m).
Proof.
  cbv zeta. revert w. induction m as [|e m IH]; intros w.
  - pose proof (ref_time_u64 w). pose proof (proof_size_u64 w). unfold total_ref_time, total_proof_size.
    simpl. word.
  - rewrite fmap_cons. cbn [fold_left].
    destruct (IH (weight_saturating_add w ((details_dispatch_weight ∘ snd) e))) as [-> ->].
    unfold compose. autorewrite with bridge. unfold total_ref_time, total_proof_size. simpl.
    assert (forall f, (forall d : MessageDetails Balance, 0 <= f d) -> 0 <= total f m) as Hn.
    { intros f Hf. apply total_nonneg, Forall_true. intros e'. apply Hf. }
    pose proof (Hn (fun d => ref_time (details_dispatch_weight d)) ltac:(intros; apply ref_time_u64)).
    pose proof (Hn (fun d => proof_size (details_dispatch_weight d)) ltac:(intros; apply proof_size_u64)).
    word.
Qed.

Lemma dispatch_weight_spec (s : this) b h (k : nat) :
  strategy_ok (strategy s) -> details_from (b + 1) (ready s b h) ->
  (forall n, b < n <= b + Z.of_nat k -> n ∈ deliverable (strategy s) b h) ->
  let w := MessageDeliveryStrategy.dispatch_weight_for_range s (Range (b + 1) (b + Z.of_nat k)) in
  ref_time w = Z.min u64_max (total_ref_time (take k (ready s b h))) /\
  proof_size w = Z.min u64_max (total_proof_size (take k (ready s b h))).
Proof.
  intros Hok Hready Hin w. pose proof (fold_weights (take k (ready s b h)) weight_zero) as Hf.
  rewrite weight_zero_ref_time, weight_zero_proof_size in Hf. cbv zeta in Hf.
  replace (fold_left _ _ _) with w in Hf; [done|]. unfold w, MessageDeliveryStrategy.dispatch_weight_for_range.
  f_equal. rewrite <- (selected_details s b h k Hok Hready Hin). clear.
  unfold queue_details. induction (source_queue (strategy s)) as [|e q IH]; [done|].
  by rewrite !bind_cons, filter_app, fmap_app, IH.
Qed.

(** ** The strategy and its environment *)

Record delivery_ok (s : this) : Prop := {
  do_strategy : strategy_ok (strategy s);
  do_sizes : sizes_ok (queue_details (source_queue (strategy s)));
  do_target t : target_nonces s = Some t -> best_target_nonce (strategy s) = Some (latest_nonce t);
}.

Definition params_ok (p : MessageDeliveryParams) : Prop :=
  is_u32 (max_messages_size_in_single_batch p) /\ 0 <= max_messages_in_single_batch p /\
  is_u64 (max_unconfirmed_nonces_at_target p).

(** As for the basic strategy; the sizes of messages are 32-bit. *)
Inductive delivery_update : this * state -> this * state -> Prop :=
| DeliverySourceUpdate s rs at_block nonces :
    update (strategy s, rs)
      (BasicStrategy.source_nonces_updated at_block nonces (strategy s), rs) ->
    sizes_ok (new_nonces nonces) ->
    delivery_update (s, rs) (MessageDeliveryStrategy.source_nonces_updated at_block nonces s, rs)
| DeliveryBestTargetUpdate s rs nonces :
    update (strategy s, rs)
      (BasicStrategy.best_target_nonces_updated (TargetNonces_ (latest_nonce nonces) tt)
         (strategy s, rs)) ->
    delivery_update (s, rs) (MessageDeliveryStrategy.best_target_nonces_updated nonces (s, rs))
| DeliveryFinalizedTargetUpdate s rs nonces :
    0 <= latest_nonce nonces < u64_max ->
    delivery_update (s, rs) (MessageDeliveryStrategy.finalized_target_nonces_updated nonces (s, rs))
| DeliveryRaceStateUpdate s rs rs' : delivery_update (s, rs) (s, rs').

Lemma sizes_ok_greater_than (m m' : MessageDetailsMap Balance) n :
  sizes_ok m -> greater_than m n = Some m' -> sizes_ok m'.
Proof.
  intros Hm. rewrite greater_than_details. destruct (filter _ m) as [|e gte] eqn:E; [done|].
  intros [= <-]. rewrite <- E. unfold sizes_ok in *. rewrite Forall_forall in *.
  intros x [_ Hx]%list_elem_of_filter. by apply Hm.
Qed.

Lemma sizes_ok_remove q n :
  sizes_ok (queue_details q) ->
  sizes_ok (queue_details (BasicStrategy.remove_le_nonces_from_source_queue n q)).
Proof.
  unfold queue_details. induction q as [|[id m] q IH]; [done|]. rewrite bind_cons. cbn [snd].
  intros [Hm Hq]%Forall_app. cbn [BasicStrategy.remove_le_nonces_from_source_queue].
  destruct (greater_than m n) as [m'|] eqn:E; [|by apply IH]. rewrite bind_cons. cbn [snd].
  apply Forall_app. split; [exact (sizes_ok_greater_than _ _ _ Hm E)|done].
Qed.

Lemma delivery_update_ok (sr sr' : this * state) :
  delivery_update sr sr' -> delivery_ok sr.1 -> delivery_ok sr'.1.
Proof.
  destruct 1 as [s rs at_block nonces Hu Hsizes|s rs nonces Hu|s rs nonces Hn|]; intros [Hs Hz Ht];
    simpl in *; [..|by split].
  - apply update_ok in Hu; [|done]. split; simpl; [done| |done].
    unfold queue_details, BasicStrategy.source_nonces_updated in *. simpl.
    rewrite bind_app. apply Forall_app. split; [done|].
    destruct (greater_than _ _) as [m|] eqn:E; [|constructor]. simpl. rewrite app_nil_r.
    exact (sizes_ok_greater_than _ _ _ Hsizes E).
  - apply update_ok in Hu; [|done]. split; simpl; [done|done|]. by intros t [= <-].
  - split; simpl; [by apply (finalized_update_ok (strategy s) rs (TargetNonces_ _ tt))|
                   by apply sizes_ok_remove|].
    intros t. destruct (target_nonces s) as [t0|]; [|done]. intros [= <-]. simpl.
    by rewrite (Ht t0 eq_refl).
Qed.

Lemma delivery_updates_ok (p : MessageDeliveryParams) (rs0 : state) (sr : this * state) :
  rtc delivery_update (MessageDeliveryStrategy.new p, rs0) sr ->
  delivery_ok sr.1 /\ params sr.1 = p.
Proof.
  intros Hrun. remember (MessageDeliveryStrategy.new p, rs0) as sr0 eqn:E0.
  assert (delivery_ok sr0.1 /\ params sr0.1 = p) as Hok.
  { rewrite E0. split; [|done]. split; [apply new_ok|constructor|done]. }
  clear E0. induction Hrun as [|x y z Hxy _ IH]; [done|]. apply IH. destruct Hok as [Hok Hp].
  split; [by eapply delivery_update_ok|]. destruct Hxy; done.
Qed.

Lemma batch_limits_nonneg (p : MessageDeliveryParams) c t required mx :
  0 <= max_messages_in_single_batch p ->
  MessageDeliveryStrategy.batch_limits p c t = Some (required, mx) -> 0 <= mx.
Proof.
  intros Hp. unfold MessageDeliveryStrategy.batch_limits. cbv zeta.
  destruct (match checked_sub _ _ with Some _ => _ | None => _ end); [done|].
  destruct (_ && _); [done|]. intros [= _ <-]. apply Z.min_glb; [|done].
  destruct (_ ≫= _) as [x|] eqn:E; [|done]. simpl. apply bind_Some in E as (diff & _ & E).
  apply checked_sub_Some in E. lia.
Qed.

Lemma ready_middle (s : this) b h pre mid :
  strategy_ok (strategy s) -> Forall (fun e => range_end e.2 <= b) pre ->
  filter (fun e => header_number e.1 <= header_number h) (source_queue (strategy s)) = pre ++ mid ->
  ready s b h = filter (fun e => b + 1 <= e.1) (mid ≫= snd).
Proof.
  intros [Hq _ _ _] Hpre Hf. unfold ready, queue_details. rewrite Hf, bind_app, filter_app.
  rewrite filter_none, app_nil_l; [apply list_filter_iff; intros e; lia|].
  intros d (y & Hd & Hy)%list_elem_of_bind.
  pose proof (queue_from_filter 0 0 (fun e => header_number e.1 <= header_number h) _ Hq) as Hq'.
  rewrite Hf in Hq'. destruct (queue_from_elem _ _ _ y Hq') as (Hv & _); [apply elem_of_app; by left|].
  rewrite Forall_forall in Hpre. specialize (Hpre y Hy).
  assert (d.1 ∈ range_nonces y.2) as ?%elem_of_range_nonces; [|simpl in *; lia].
  rewrite <- (valid_keys _ Hv). apply list_elem_of_fmap. by exists d.
Qed.

(** What [decide] returns for the ready messages of the queue. *)
Lemma decide_ready (s : this) (rs : state) b h (mx : Z) (mw : Weight) (ms : Z) (i j : nat) :
  delivery_ok s -> best_target_nonce (strategy s) = Some b ->
  nonces_to_submit rs = None -> nonces_submitted rs = None ->
  best_finalized_source_header_id_at_best_target rs = Some h ->
  BasicStrategy.available_source_queue_indices (strategy s) rs = Some (i, j) ->
  is_u32 ms -> 0 <= mx ->
  let m := ready s b h in
  exists k,
    MessageRaceLimits.decide
      (MessageRaceLimits.Reference mx mw ms b (source_queue (strategy s)) (i, j)) =
    Ok (if (k =? 0)%nat then None else Some (Range (b + 1) (b + Z.of_nat k))) /\
    m <> [] /\ details_from (b + 1) m /\ (k <= length m)%nat /\
    b + Z.of_nat (length m) < u64_max /\
    (forall k', (k' <= length m)%nat -> (k' <= k)%nat <-> admissible mx mw ms m k').
Proof.
  intros [Hs Hz _] Hb Hto Hsub Hh Hav Hms Hmx m.
  pose proof (available_entries (strategy s) rs b h Hs Hb Hto Hsub Hh) as Ha. rewrite Hav in Ha.
  destruct Ha as (e & x & Hi & Hj & Hij & He & Hlast & Hin & pre & Hpre & Hf).
  destruct (so_best _ Hs b Hb) as [Hb0 Hbm].
  assert (m.*1 = seqZ (b + 1) (range_end x.2 - b)) as Hkeys.
  { unfold m. rewrite (ready_keys s b h Hs). apply deliverable_seqZ; [done|done|lia]. }
  assert (range_end x.2 < u64_max) as Hx.
  { apply list_elem_of_lookup_2 in Hj.
    apply (queue_from_elem 0 0 _ x (so_queue _ Hs)) in Hj as (Hv%valid_bounds & _). lia. }
  assert (Z.of_nat (length m) = range_end x.2 - b) as Hlen.
  { apply (f_equal length) in Hkeys. rewrite length_fmap, length_seqZ in Hkeys. lia. }
  assert (sizes_ok m) as Hsm.
  { unfold sizes_ok in *. rewrite Forall_forall in *. intros y [_ Hy]%list_elem_of_filter.
    apply Hz. apply list_elem_of_bind in Hy as (z & Hyz & [_ Hzq]%list_elem_of_filter).
    apply list_elem_of_bind. by exists z. }
  assert (m = filter (fun e => b + 1 <= e.1)
                (take (j - i + 1) (drop i (source_queue (strategy s))) ≫= snd)) as Hm.
  { unfold m. by eapply ready_middle. }
  destruct (decide_loop_largest (MessageRaceLimits.Reference mx mw ms b (source_queue (strategy s)) (i, j))
    m) as (k & Hk & Hle & Hiff); [done..|lia|].
  exists k. split; [|split_and!; [intros Hnil; rewrite Hnil in Hlen; simpl in Hlen; lia|
    by eapply details_from_of_keys|done|lia|done]].
  unfold MessageRaceLimits.decide. cbn [MessageRaceLimits.nonces_queue MessageRaceLimits.nonces_queue_range
    MessageRaceLimits.ref_best_target_nonce]. rewrite Hi, Hj. cbn [expect obind].
  rewrite wrapping_add_small by lia. rewrite Z.max_l by lia. rewrite <- Hm, Hk.
  destruct k as [|k]; [done|]. simpl (_ =? 0)%nat. rewrite (proj2 (Z.eqb_neq _ _)) by lia.
  rewrite wrapping_add_small, wrapping_sub_small by lia. do 4 f_equal. lia.
Qed.
(** Everything that selection needs is known, and nothing is selected or in flight. *)
Definition ready_to_select (s : this) (rs : state) b h t : Prop :=
  best_target_nonce (strategy s) = Some b /\ target_nonces s = Some t /\
  best_finalized_source_header_id_at_best_target rs = Some h /\
  nonces_to_submit rs = None /\ nonces_submitted rs = None.

Definition lane_limits (s : this) b h t : option (bool * MessageNonce) :=
  MessageDeliveryStrategy.batch_limits (params s)
    (default b (MessageDeliveryStrategy.latest_confirmed_nonce_at s h)) t.

(** The nonce [c] that the source is known to have confirmed at header [h]: that of the last of the
    leading records made at headers not above [h], or [b] without such a record. *)
Definition confirmed_at_source (s : this) b (h : HeaderId Hash) c : Prop :=
  exists seen later, latest_confirmed_nonces_at_source s = seen ++ later /\
    Forall (fun e => header_number e.1 <= header_number h) seen /\
    (forall e, head later = Some e -> header_number h < header_number e.1) /\
    c = default b (snd <$> last seen).

(** What the state of the inbound lane allows.  The messages that remain unconfirmed after the
    batch, counted from the confirmed nonce that the lane will know, stay within the limit;
    the limit of relayer entries is not reached, or the rewards that are proved free the
    oldest entry; and the outbound lane state is proved when it has news for the lane. *)
Definition lane_allows (s : this) b (h : HeaderId Hash) (t : TargetClientNonces DeliveryRaceTargetNoncesData)
  (required : bool) (mx : Z) : Prop :=
  let received := latest_nonce t in
  let confirmed := target_confirmed_nonce (nonces_data t) in
  let entries := unrewarded_relayers (nonces_data t) in
  exists c, confirmed_at_source s b h c /\
    received - c < max_unconfirmed_nonces_at_target (params s) /\
    (unrewarded_relayer_entries entries < max_unrewarded_relayer_entries_at_target (params s) \/
     messages_in_oldest_entry entries <= Z.max 0 (c - confirmed)) /\
    required = bool_decide (confirmed < c) /\
    mx = Z.min (max_messages_in_single_batch (params s))
           (if bool_decide (Z.max c confirmed <= received)
            then Z.max 0 (max_unconfirmed_nonces_at_target (params s) -
                          (received - Z.max c confirmed))
            else 0).

Lemma confirmed_at_source_iff (s : this) b (h : HeaderId Hash) c :
  confirmed_at_source s b h c <->
  c = default b (MessageDeliveryStrategy.latest_confirmed_nonce_at s h).
Proof.
  unfold confirmed_at_source, MessageDeliveryStrategy.latest_confirmed_nonce_at.
  set (below := fun e : HeaderId Hash * MessageNonce => header_number e.1 <=? header_number h).
  generalize (latest_confirmed_nonces_at_source s). intros l. split.
  - intros (seen & later & -> & Hseen & Hlater & ->). f_equal. f_equal. f_equal.
    induction Hseen as [|e seen He _ IH]; simpl.
    + destruct later as [|e later]; [done|]. simpl. specialize (Hlater e eq_refl). unfold below.
      by rewrite (proj2 (Z.leb_gt _ _)) by lia.
    + unfold below at 1. rewrite (proj2 (Z.leb_le _ _)) by lia. by rewrite <- IH.
  - intros ->. exists (take_while below l), (drop_while below l).
    split_and!; [symmetry; apply take_while_drop_while| | |done].
    + eapply Forall_impl; [apply take_while_Forall|]. unfold below. simpl. intros e. lia.
    + intros e He%drop_while_head. unfold below in He. lia.
Qed.

Lemma checked_sub_cases (a b : Z) :
  (b <= a /\ checked_sub a b = Some (a - b)) \/ (a < b /\ checked_sub a b = None).
Proof.
  destruct (checked_sub a b) as [d|] eqn:E.
  - apply checked_sub_Some in E as [-> ?]. left. split; [lia|done].
  - right. split; [|done]. destruct (decide (b <= a)); [|lia].
    by rewrite (proj2 (checked_sub_Some _ _ _) (conj eq_refl l)) in E.
Qed.

Lemma batch_limits_iff (p : MessageDeliveryParams) c
  (t : TargetClientNonces DeliveryRaceTargetNoncesData) required mx :
  0 <= max_messages_in_single_batch p -> 0 <= max_unconfirmed_nonces_at_target p ->
  let received := latest_nonce t in
  let confirmed := target_confirmed_nonce (nonces_data t) in
  let entries := unrewarded_relayers (nonces_data t) in
  MessageDeliveryStrategy.batch_limits p c t = Some (required, mx) <->
  received - c < max_unconfirmed_nonces_at_target p /\
  (unrewarded_relayer_entries entries < max_unrewarded_relayer_entries_at_target p \/
   messages_in_oldest_entry entries <= Z.max 0 (c - confirmed)) /\
  required = bool_decide (confirmed < c) /\
  mx = Z.min (max_messages_in_single_batch p)
         (if bool_decide (Z.max c confirmed <= received)
          then Z.max 0 (max_unconfirmed_nonces_at_target p - (received - Z.max c confirmed))
          else 0).
Proof.
  intros Hp1 Hp2 received confirmed entries. unfold MessageDeliveryStrategy.batch_limits.
  fold received confirmed entries. unfold saturating_sub.
  assert (forall (b1 b2 : bool) (m1 m2 : Z),
    Some (b1, m1) = Some (b2, m2) <-> b2 = b1 /\ m2 = m1) as Hinj by naive_solver.
  assert (match checked_sub received c with
          | Some missing => max_unconfirmed_nonces_at_target p <=? missing
          | None => false
          end = bool_decide (max_unconfirmed_nonces_at_target p <= received - c)) as ->.
  { destruct (checked_sub_cases received c) as [[Hle ->]|[Hlt ->]];
      case_bool_decide; try lia; done. }
  case_bool_decide; [split; [done|lia]|].
  destruct (_ && _) eqn:Efull; [split; [done|lia]|].
  assert ((confirmed <? c) = bool_decide (confirmed < c)) as ->
    by (case_bool_decide; [by apply Z.ltb_lt|by apply Z.ltb_ge; lia]).
  assert (Z.max c confirmed = if bool_decide (confirmed < c) then c else confirmed) as ->
    by (case_bool_decide; lia).
  set (future := if bool_decide (confirmed < c) then c else confirmed).
  rewrite Hinj. rewrite (Z.min_comm _ (max_messages_in_single_batch p)).
  assert (default 0 (diff ← checked_sub received future;
                     checked_sub (max_unconfirmed_nonces_at_target p) diff) =
    if bool_decide (future <= received)
    then Z.max 0 (max_unconfirmed_nonces_at_target p - (received - future)) else 0) as ->.
  { destruct (checked_sub_cases received future) as [[Hle ->]|[Hlt ->]]; simpl;
      case_bool_decide; try lia.
    destruct (checked_sub_cases (max_unconfirmed_nonces_at_target p) (received - future))
      as [[? ->]|[? ->]]; simpl; lia. }
  split; [intros [-> ->]; split_and!; [lia|lia|done|done]|naive_solver].
Qed.

Lemma lane_limits_iff (s : this) b h t required mx :
  0 <= max_messages_in_single_batch (params s) -> 0 <= max_unconfirmed_nonces_at_target (params s) ->
  lane_limits s b h t = Some (required, mx) <-> lane_allows s b h t required mx.
Proof.
  intros Hp1 Hp2. unfold lane_limits, lane_allows.
  set (c := default b _). transitivity (
    latest_nonce t - c < max_unconfirmed_nonces_at_target (params s) /\
    (unrewarded_relayer_entries (unrewarded_relayers (nonces_data t)) <
       max_unrewarded_relayer_entries_at_target (params s) \/
     messages_in_oldest_entry (unrewarded_relayers (nonces_data t)) <=
       Z.max 0 (c - target_confirmed_nonce (nonces_data t))) /\
    required = bool_decide (target_confirmed_nonce (nonces_data t) < c) /\
    mx = Z.min (max_messages_in_single_batch (params s))
           (if bool_decide (Z.max c (target_confirmed_nonce (nonces_data t)) <= latest_nonce t)
            then Z.max 0 (max_unconfirmed_nonces_at_target (params s) -
                          (latest_nonce t - Z.max c (target_confirmed_nonce (nonces_data t))))
            else 0)).
  2: { unfold c. split; [intros ?; exists c; split; [by apply confirmed_at_source_iff|done]|].
       by intros (c' & ->%confirmed_at_source_iff & ?). }
  by apply batch_limits_iff.
Qed.

(** The batch of the first [k] ready messages, the largest one within the limits. *)
Record selected_batch (s : this) (b : MessageNonce) (h : HeaderId Hash) (mx : Z) (k : nat)
  (range : RangeInclusive) (parameters : MessageProofParameters) : Prop := {
  sb_range : range = Range (b + 1) (b + Z.of_nat k);
  sb_consecutive : details_from (b + 1) (ready s b h);
  sb_count : (0 < k <= length (ready s b h))%nat;
  sb_bound : b + Z.of_nat k < u64_max;
  sb_largest k' : (k' <= length (ready s b h))%nat ->
    (k' <= k)%nat <->
    admissible mx (max_messages_weight_in_single_batch (params s))
      (max_messages_size_in_single_batch (params s)) (ready s b h) k';
  sb_ref_time : ref_time (proof_dispatch_weight parameters) =
    Z.min u64_max (total_ref_time (take k (ready s b h)));
  sb_proof_size : proof_size (proof_dispatch_weight parameters) =
    Z.min u64_max (total_proof_size (take k (ready s b h)));
}.

Lemma delivery_select_spec (s : this) (rs : state) :
  params_ok (params s) -> delivery_ok s ->
  match MessageDeliveryStrategy.select_nonces_to_deliver s rs with
  | Ok (Some (range, parameters)) =>
      exists b h t mx k, ready_to_select s rs b h t /\
        lane_limits s b h t = Some (outbound_state_proof_required parameters, mx) /\
        selected_batch s b h mx k range parameters
  | Ok None =>
      forall b h t required mx,
        ready_to_select s rs b h t -> lane_limits s b h t = Some (required, mx) ->
        mx <= 0 \/ ready s b h = []
  | _ => False
  end.
Proof.
  intros (Hp1 & Hp2 & Hp3) Hok.
  unfold MessageDeliveryStrategy.select_nonces_to_deliver, ready_to_select, lane_limits.
  pose proof (available_cases (strategy s) rs) as Hcases.
  destruct (best_target_nonce (strategy s)) as [b|] eqn:Eb; [|naive_solver].
  destruct (best_finalized_source_header_id_at_best_target rs) as [h|] eqn:Eh; [|naive_solver].
  destruct (target_nonces s) as [t|] eqn:Et; [|naive_solver].
  destruct (MessageDeliveryStrategy.batch_limits _ _ t) as [[req mx]|] eqn:El; [|naive_solver].
  pose proof (batch_limits_nonneg _ _ _ _ _ Hp2 El) as Hmx.
  destruct (BasicStrategy.available_source_queue_indices (strategy s) rs) as [[i j]|] eqn:Ea.
  2: { intros b' h' t' required mx' ([= <-] & [= <-] & [= <-] & Hto & Hsub) _. right.
       pose proof (available_entries (strategy s) rs b h (do_strategy _ Hok) Eb Hto Hsub Eh) as Hn.
       rewrite Ea in Hn. rewrite <- (ready_keys s b h (do_strategy _ Hok)) in Hn.
       by apply fmap_nil_inv in Hn. }
  destruct (nonces_to_submit rs) eqn:Eto; [discriminate Hcases; right; left; by eexists|].
  destruct (nonces_submitted rs) eqn:Esub; [discriminate Hcases; do 2 right; left; by eexists|].
  destruct (decide_ready s rs b h mx (max_messages_weight_in_single_batch (params s))
    (max_messages_size_in_single_batch (params s)) i j Hok Eb Eto Esub Eh Ea Hp1 Hmx)
    as (k & -> & Hne & Hfrom & Hk & Hlast & Hiff). cbn [obind].
  destruct k as [|k]; simpl.
  - intros b' h' t' required mx' ([= <-] & [= <-] & [= <-] & _) Hl. rewrite El in Hl.
    injection Hl as <- <-. left. destruct (decide (mx <= 0)); [done|].
    assert (1 <= length (ready s b h))%nat as H1 by (by destruct (ready s b h); [|simpl; lia]).
    apply Hiff in H1 as [_ H1]. specialize (H1 ltac:(split; [lia|by left])). lia.
  - exists b, h, t, mx, (S k). split_and!; try done. split; try done; [lia|lia|..];
      apply dispatch_weight_spec; try done; try apply Hok; intros n Hn;
      rewrite <- (ready_keys s b h (do_strategy _ Hok)), (details_from_keys _ _ Hfrom), elem_of_seqZ; lia.
Qed.
End Ready.

(** C30. In every state it can reach the delivery strategy selects the next undelivered messages
    and as many of them as it may.  A selected range starts right after the best nonce of
    the target, it holds [k] messages that were all seen at headers known to the target,
    nothing else is selected or in flight, and [k] is the largest batch within the limits
    on the number, the weight and the size of messages, a single message being allowed to
    exceed the last two.  The limit on the number leaves the inbound lane within its limit of
    unconfirmed messages, counted from what the outbound lane confirms; there is room for a
    relayer, or the confirmation frees the oldest entry; and the state of the outbound lane is
    proved exactly when it has news for the lane.  The weight declared for the batch is the (saturating) sum of the
    weights of its messages.  When nothing is selected, either the lane is at its limits
    or there is no message to deliver.  Selection never panics. *)
Theorem delivery_selection_correct `{WeightLaws} {Hash Balance TargetHeaderId Proof BatchTx : Type}
  (p : MessageDeliveryParams) (rs0 rs : RaceStateImpl (HeaderId Hash) TargetHeaderId Proof BatchTx)
  (s : MessageDeliveryStrategy Hash Balance) :
  params_ok p -> rtc delivery_update (MessageDeliveryStrategy.new p, rs0) (s, rs) ->
  match MessageDeliveryStrategy.select_nonces_to_deliver s rs with
  | Ok (Some (range, parameters)) =>
      exists b h t mx k, ready_to_select s rs b h t /\
        lane_allows s b h t (outbound_state_proof_required parameters) mx /\
        selected_batch s b h mx k range parameters
  | Ok None =>
      forall b h t required mx,
        ready_to_select s rs b h t -> lane_allows s b h t required mx ->
        mx <= 0 \/ ready s b h = []
  | _ => False
  end.
Proof.
  intros Hp Hrun. destruct (delivery_updates_ok _ _ _ Hrun) as [Hok Hparams].
  simpl in Hok, Hparams. rewrite <- Hparams in Hp.
  pose proof (delivery_select_spec s rs Hp Hok) as Hspec. destruct Hp as (_ & Hp1 & Hp2).
  destruct (MessageDeliveryStrategy.select_nonces_to_deliver s rs) as [[[range parameters]|]|e|];
    [| |done|done].
  - destruct Hspec as (b & h & t & mx & k & Hr & Hl & Hb). exists b, h, t, mx, k.
    split_and!; [done| |done]. apply lane_limits_iff; [done|word|done].
  - intros b h t required mx Hr Hl. eapply Hspec; [exact Hr|].
    apply lane_limits_iff; [done|word|exact Hl].
Qed.
