(* ===== verification/MessagesClients.v ===== *)
(** * relays/lib-substrate-relay/src/messages_source.rs and messages_target.rs

    The clients of the message lane loop for Substrate chains: how the state of the
    two ends of a lane is read, how the details of new messages are collected and
    validated, which storage keys are proved, and how the calls are made.  The RPC
    calls to the nodes are parameters, and so is the on-demand relay of headers. *)

From S2P Require Import Prelude Substrate RuntimePrimitives MessagesPrimitives InboundLane.
From S2P Require Import StorageProof RuntimeMessages RelayUtils RaceStrategy DeliveryRace.
From Stdlib Require Import String.
From stdpp Require Import base numbers list gmap sorting.
Local Open Scope Z_scope.

Record OutboundMessageDetails `{WeightOps} := OutDetails {
  out_nonce : MessageNonce;
  out_dispatch_weight : Weight;
  out_size : Z;
}.
Arguments OutDetails {_} _ _ _.

(** The errors of the clients that matter here. *)
Inductive SubstrateError (E : Type) :=
| ClientError (e : E)
| MissingNonce (expected_nonce : MessageNonce)
| TooManyMessages
| MessageMissing (nonce : MessageNonce)
| UnexpectedDetailsCount
| MessageTooLargeToRefine
| BridgePalletIsHalted.
Arguments ClientError {E} _.
Arguments MissingNonce {E} _.
Arguments TooManyMessages {E}.
Arguments MessageMissing {E} _.
Arguments UnexpectedDetailsCount {E}.
Arguments MessageTooLargeToRefine {E}.
Arguments BridgePalletIsHalted {E}.

(** ** The state of the lane at the target *)

Module SubstrateMessagesTarget.
Section Target.
Context {HeaderId Relayer E : Type}.
Context (inbound_lane_data : HeaderId -> outcome E (option (InboundLaneData Relayer))).

Definition latest_received_nonce (id : HeaderId) : outcome E (HeaderId * MessageNonce) :=
  let? data := inbound_lane_data id in
  Ok (id, default 0 (last_delivered_nonce <$> data)).

Definition latest_confirmed_received_nonce (id : HeaderId) : outcome E (HeaderId * MessageNonce) :=
  let? data := inbound_lane_data id in
  Ok (id, default 0 (last_confirmed_nonce <$> data)).

Definition unrewarded_relayers_state (id : HeaderId) :
  outcome E (HeaderId * UnrewardedRelayersState) :=
  let? inbound_lane_data := inbound_lane_data id in
  let last_delivered_nonce := default 0 (last_delivered_nonce <$> inbound_lane_data) in
  let relayers := default [] (relayers <$> inbound_lane_data) in
  Ok (id, RelayersState (Z.of_nat (length relayers))
            (default 0 ((fun entry => wrapping_sub u64_max
                                        (wrapping_add u64_max 1 (entry_end entry))
                                        (entry_begin entry)) <$> head relayers))
            (default u64_max (total_unrewarded_messages relayers))
            last_delivered_nonce).
End Target.

(** [prove_messages_receiving]. *)
Section Prove.
Context {Hash Node Relayer E : Type}.
Context (inbound_lane_data :
  RuntimePrimitives.HeaderId Hash -> outcome E (option (InboundLaneData Relayer))).
Context `{!StorageHashers} (pallet_name : string) (lane_id : LaneId).
Context (prove_storage : list (list Z) -> Hash -> outcome E (list Node)).

Definition prove_messages_receiving (id : RuntimePrimitives.HeaderId Hash) :
  outcome E (RuntimePrimitives.HeaderId Hash *
             (UnrewardedRelayersState * FromBridgedChainMessagesDeliveryProof Hash Node)) :=
  let? (id, relayers_state) := unrewarded_relayers_state inbound_lane_data id in
  let? proof := prove_storage [inbound_lane_data_key pallet_name lane_id] (header_hash id) in
  Ok (id, (relayers_state, MessagesDeliveryProof_ (header_hash id) proof lane_id)).
End Prove.

(** The number of messages that [make_messages_delivery_call] declares ([as u32]). *)
Definition messages_count (nonces : RangeInclusive) : Z :=
  wrapping_add u64_max (wrapping_sub u64_max (range_last nonces) (range_start nonces)) 1
    mod (u32_max + 1).

(** [make_messages_delivery_call]: the call has the relayer, the proof, the number of messages
    and the dispatch weight. *)
Definition make_messages_delivery_call `{WeightOps} {AccountId Hash Node Call : Type}
  (build : AccountId -> FromBridgedChainMessagesProof Hash Node -> Z -> Weight -> Call)
  (relayer_id_at_source : AccountId) (nonces : RangeInclusive)
  (proof : Weight * FromBridgedChainMessagesProof Hash Node) : Call :=
  build relayer_id_at_source proof.2 (messages_count nonces) proof.1.
End SubstrateMessagesTarget.

(** ** Batches with a proof of a header (messages_lane.rs) *)

Record BatchProofTransaction (HeaderId Call : Type) := BatchProof {
  proved_header : HeaderId;
  prove_calls : list Call;
}.
Arguments BatchProof {_ _} _ _.
Arguments proved_header {_ _} _.
Arguments prove_calls {_ _} _.

Module BatchProofTransaction.
Section Batch.
Context {HeaderId Call E : Type}.

(** [new]: [builder] is the answer of [B::new_builder()]. *)
Definition new (builder : option (list Call -> Call))
  (prove_header : Z -> outcome E (HeaderId * list Call)) (block_num : Z) :
  outcome E (option (BatchProofTransaction HeaderId Call)) :=
  match builder with
  | Some _ =>
      let? (proved_header, prove_calls) := prove_header block_num in
      Ok (Some (BatchProof proved_header prove_calls))
  | None => Ok None
  end.

Definition append_call_and_build (build_batch_call : list Call -> Call)
  (batch : BatchProofTransaction HeaderId Call) (call : Call) : Call :=
  build_batch_call (prove_calls batch ++ [call]).

(** The call of [submit_messages_proof] and of [submit_messages_receiving_proof]. *)
Definition final_call (build_batch_call : list Call -> Call)
  (maybe_batch_tx : option (BatchProofTransaction HeaderId Call)) (call : Call) : Call :=
  match maybe_batch_tx with
  | Some batch_tx => append_call_and_build build_batch_call batch_tx call
  | None => call
  end.

(** [require_source_header_on_target] and [require_target_header_on_source]: the batch, if
    one is built, and otherwise the number that the on-demand relay, if there is one, is
    asked for. *)
Definition require_header (relay : option (Z -> outcome E (HeaderId * list Call)))
  (builder : option (list Call -> Call)) (number : Z) :
  outcome E (option (BatchProofTransaction HeaderId Call) * option Z) :=
  match relay with
  | Some prove_header =>
      let? batch := new builder prove_header number in
      match batch with
      | Some batch_tx => Ok (Some batch_tx, None)
      | None => Ok (None, Some number)
      end
  | None => Ok (None, None)
  end.
End Batch.
End BatchProofTransaction.

(** ** The states of the clients *)

(** [ClientState] of message_lane_loop.rs. *)
Record ClientState (SelfHeaderId PeerHeaderId : Type) := ClientState_ {
  best_self : SelfHeaderId;
  best_finalized_self : SelfHeaderId;
  best_finalized_peer_at_best_self : option PeerHeaderId;
  actual_best_finalized_peer_at_best_self : option PeerHeaderId;
}.
Arguments ClientState_ {_ _} _ _ _ _.
Arguments best_self {_ _} _.
Arguments best_finalized_self {_ _} _.
Arguments best_finalized_peer_at_best_self {_ _} _.
Arguments actual_best_finalized_peer_at_best_self {_ _} _.

Section ClientState.
Context {SelfHash PeerHash E : Type}.
Abbreviation SelfId := (RuntimePrimitives.HeaderId SelfHash).
Abbreviation PeerId := (RuntimePrimitives.HeaderId PeerHash).
Context (best_finalized_header best_header : outcome E SelfId).
Context (best_finalized_peer_header_at_self : SelfHash -> outcome E (option PeerId)).

(** [peer_client] is [header_by_number] of the peer client. *)
Definition read_client_state (peer_client : option (Z -> outcome E PeerId)) :
  outcome E (ClientState SelfId PeerId) :=
  let? self_best_finalized_id := best_finalized_header in
  let? self_best_id := best_header in
  let? peer_on_self_best_finalized_id :=
    best_finalized_peer_header_at_self (header_hash self_best_id) in
  let? actual_peer_on_self_best_finalized_id :=
    match peer_client, peer_on_self_best_finalized_id with
    | Some header_by_number, Some peer_on_self_best_finalized_id =>
        let? actual := header_by_number (header_number peer_on_self_best_finalized_id) in
        Ok (Some actual)
    | _, _ => Ok peer_on_self_best_finalized_id
    end in
  Ok (ClientState_ self_best_id self_best_finalized_id peer_on_self_best_finalized_id
        actual_peer_on_self_best_finalized_id).

(** [state] of both clients: [source_synced] and [target_synced] are the answers of
    [ensure_synced], [pallet_active] the one of [ensure_messages_pallet_active]. *)
Definition client_state (source_synced target_synced pallet_active : outcome E unit)
  (peer_client : Z -> outcome E PeerId) : outcome E (ClientState SelfId PeerId) :=
  check? source_synced in
  check? target_synced in
  check? pallet_active in
  read_client_state (Some peer_client).
End ClientState.

(** ** The messages at the source *)

Module SubstrateMessagesSource.
Section Source.
Context `{WeightOps} {HeaderId Hash Node E : Type}.
Abbreviation result A := (outcome (SubstrateError E) A).

Section Lane.
Context (outbound_lane_data : HeaderId -> result (option OutboundLaneData)).

Definition latest_generated_nonce (id : HeaderId) : result (HeaderId * MessageNonce) :=
  let? data := outbound_lane_data id in
  Ok (id, default 0 (MessagesPrimitives.latest_generated_nonce <$> data)).

Definition source_latest_confirmed_received_nonce (id : HeaderId) : result (HeaderId * MessageNonce) :=
  let? data := outbound_lane_data id in
  Ok (id, default 0 (latest_received_nonce <$> data)).
End Lane.

(** [ensure_messages_pallet_active]. *)
Definition ensure_messages_pallet_active (operating_mode : result (option MessagesOperatingMode)) :
  result unit :=
  let? operating_mode := operating_mode in
  if bool_decide (operating_mode = Some (Basic Halted)) then Err BridgePalletIsHalted else Ok tt.

(** The loop of [validate_out_msgs_details]: both sequences are walked from their ends. *)
Fixpoint validate_loop (out_msgs_details nonces : list MessageNonce) : result unit :=
  match out_msgs_details, nonces with
  | out_nonce :: out_msgs_details, nonce :: nonces =>
      if out_nonce =? nonce then validate_loop out_msgs_details nonces
      else Err (MissingNonce nonce)
  | _, _ => Ok tt
  end.

Definition validate_out_msgs_details (out_msgs_details : list OutboundMessageDetails)
  (nonces : RangeInclusive) : result unit :=
  let all := seqZ (range_start nonces) (range_last nonces - range_start nonces + 1) in
  if (length all <? length out_msgs_details)%nat then Err TooManyMessages
  else
    match out_msgs_details, all with
    | [], _ :: _ => Err (MissingNonce (range_last nonces))
    | _, _ => validate_loop (out_nonce <$> reverse out_msgs_details) (reverse all)
    end.

(** [split_msgs_to_refine]: [encoded_size] is the size of the encoded arguments of the call
    for a batch.  The inner loop moves messages from the end of the current batch to
    the front of the next one; [fuel] is the number of messages. *)
Section Split.
Context {Msg : Type} (encoded_size : list Msg -> Z) (max_batch_size : Z).

Fixpoint shrink_batch (fuel : nat) (current next : list Msg) : result (list Msg * list Msg) :=
  if max_batch_size <? encoded_size current then
    if (length current <=? 1)%nat then Err MessageTooLargeToRefine
    else
      match fuel, last current with
      | S fuel, Some msg => shrink_batch fuel (removelast current) (msg :: next)
      | _, _ => Panic
      end
  else Ok (current, next).

Fixpoint split_loop (fuel : nat) (current : list Msg) : result (list (list Msg)) :=
  match current, fuel with
  | [], _ => Ok []
  | _, O => Panic
  | _, S fuel =>
      let? (current, next) := shrink_batch (length current) current [] in
      let? batches := split_loop fuel next in
      Ok (current :: batches)
  end.

Definition split_msgs_to_refine (msgs : list Msg) : result (list (list Msg)) :=
  split_loop (length msgs) msgs.
End Split.

(** [generated_message_details]. *)
Section Details.
Context (message_details : RangeInclusive -> result (list OutboundMessageDetails)).
Context (message_payload : MessageNonce -> result (option MessagePayload)).
Context (encoded_size : list (MessagePayload * OutboundMessageDetails) -> Z) (max_batch_size : Z).
Context (inbound_message_details :
  list (MessagePayload * OutboundMessageDetails) -> result (list Weight)).

Fixpoint read_payloads (details : list OutboundMessageDetails) :
  result (list (MessagePayload * OutboundMessageDetails)) :=
  match details with
  | [] => Ok []
  | d :: details =>
      let? payload := message_payload (out_nonce d) in
      let? payload := ok_or payload (MessageMissing (out_nonce d)) in
      let? rest := read_payloads details in
      Ok ((payload, d) :: rest)
  end.

Definition refine_batch (batch : list (MessagePayload * OutboundMessageDetails)) :
  result (list OutboundMessageDetails) :=
  let? weights := inbound_message_details batch in
  check? ensure (length weights =? length batch)%nat UnexpectedDetailsCount in
  Ok (zip_with (fun m w => OutDetails (out_nonce m.2) w (out_size m.2)) batch weights).

Fixpoint refine_batches (batches : list (list (MessagePayload * OutboundMessageDetails))) :
  result (list OutboundMessageDetails) :=
  match batches with
  | [] => Ok []
  | batch :: batches =>
      let? refined := refine_batch batch in
      let? rest := refine_batches batches in
      Ok (refined ++ rest)
  end.

(** [BTreeMap::insert]. *)
Fixpoint map_insert {A : Type} (k : Z) (v : A) (m : list (Z * A)) : list (Z * A) :=
  match m with
  | [] => [(k, v)]
  | (k', v') :: m' =>
      if k <? k' then (k, v) :: m
      else if k =? k' then (k, v) :: m'
      else (k', v') :: map_insert k v m'
  end.

Definition generated_message_details (nonces : RangeInclusive) : result (MessageDetailsMap unit) :=
  let? out_msgs_details := message_details nonces in
  check? validate_out_msgs_details out_msgs_details nonces in
  let? msgs_to_refine := read_payloads out_msgs_details in
  let? batches := split_msgs_to_refine encoded_size max_batch_size msgs_to_refine in
  let? out_msgs_details := refine_batches batches in
  Ok (fold_left (fun m d =>
        map_insert (out_nonce d) (Details (out_dispatch_weight d) (out_size d) tt) m)
        out_msgs_details []).
End Details.

(** [prove_messages]: the keys of the storage proof, and the proof. *)
Section Prove.
Context `{!StorageHashers} (pallet_name : string) (lane_id : LaneId).
Context (prove_storage : list (list Z) -> Hash -> result (list Node)).

(** The loop over the nonces, for a range that ends below the largest nonce: with [u64::MAX] as its
    end the loop of the code would not end. *)
Definition messages_proof_keys (nonces : RangeInclusive) (outbound_state_proof_required : bool) :
  list (list Z) :=
  (message_key pallet_name lane_id <$>
     seqZ (range_start nonces) (range_last nonces - range_start nonces + 1)) ++
  (if outbound_state_proof_required then [outbound_lane_data_key pallet_name lane_id] else []).

Definition prove_messages (id : RuntimePrimitives.HeaderId Hash) (nonces : RangeInclusive)
  (proof_parameters : MessageProofParameters) :
  result (RuntimePrimitives.HeaderId Hash * RangeInclusive *
          (Weight * FromBridgedChainMessagesProof Hash Node)) :=
  let? proof :=
    prove_storage (messages_proof_keys nonces (outbound_state_proof_required proof_parameters))
      (header_hash id) in
  Ok (id, nonces,
      (proof_dispatch_weight proof_parameters,
       MessagesProof_ (header_hash id) proof lane_id (range_start nonces) (range_last nonces))).
End Prove.
End Source.
End SubstrateMessagesSource.

(** ** Batches *)

Section SplitFacts.
Context {E Msg : Type} (encoded_size : list Msg -> Z) (max_batch_size : Z).
Abbreviation shrink := (SubstrateMessagesSource.shrink_batch (E := E) encoded_size max_batch_size).
Abbreviation split := (SubstrateMessagesSource.split_loop (E := E) encoded_size max_batch_size).

(** The inner loop ends with a batch that fits, or with a single message that does not. *)
Lemma shrink_spec (fuel : nat) (current next : list Msg) :
  (length current <= S fuel)%nat -> current <> [] ->
  match shrink fuel current next with
  | Ok (current', next') =>
      current' <> [] /\ current' ++ next' = current ++ next /\
      encoded_size current' <= max_batch_size
  | Err e => e = MessageTooLargeToRefine /\
      exists m, m ∈ current /\ max_batch_size < encoded_size [m]
  | Panic => False
  end.
Proof.
  revert current next. induction fuel as [|fuel IH]; intros current next Hlen Hne;
    cbn [SubstrateMessagesSource.shrink_batch];
    (destruct (max_batch_size <? encoded_size current) eqn:Esize; [|split_and!; [done|done|lia]]).
  - destruct current as [|m [|]]; simpl in *; [done| |lia]. split; [done|].
    exists m. split; [by left|lia].
  - destruct (length current <=? 1)%nat eqn:E1.
    { destruct current as [|m [|]]; simpl in *; [done| |lia]. split; [done|].
      exists m. split; [by left|lia]. }
    destruct (exists_last Hne) as (pre & m & ->). rewrite last_snoc, removelast_last.
    apply Nat.leb_gt in E1. rewrite length_app in *. simpl in *.
    specialize (IH pre (m :: next) ltac:(lia) ltac:(intros ->; simpl in *; lia)).
    destruct (shrink fuel pre (m :: next)) as [[current' next']|e|]; [| |done].
    + destruct IH as (? & Happ & ?). split_and!; [done| |done]. by rewrite Happ, <- app_assoc.
    + destruct IH as (-> & m' & Hin & ?). split; [done|]. exists m'.
      split; [apply elem_of_app; by left|done].
Qed.

Lemma split_spec (fuel : nat) (msgs : list Msg) :
  (length msgs <= fuel)%nat ->
  match split fuel msgs with
  | Ok batches =>
      concat batches = msgs /\
      Forall (fun batch => batch <> [] /\ encoded_size batch <= max_batch_size) batches
  | Err e => e = MessageTooLargeToRefine /\
      exists m, m ∈ msgs /\ max_batch_size < encoded_size [m]
  | Panic => False
  end.
Proof.
  revert msgs. induction fuel as [|fuel IH]; intros msgs Hlen.
  { destruct msgs; simpl in *; [done|lia]. }
  destruct msgs as [|m0 msgs]; [done|]. cbn [SubstrateMessagesSource.split_loop].
  pose proof (shrink_spec (length (m0 :: msgs)) (m0 :: msgs) [] ltac:(lia) ltac:(done)) as Hs.
  destruct (shrink _ (m0 :: msgs) []) as [[current next]|e|]; cbn [obind]; [| |done].
  2: { done. }
  destruct Hs as (Hne & Happ & Hsize). rewrite app_nil_r in Happ.
  assert (length next <= fuel)%nat as Hnext.
  { apply (f_equal length) in Happ. rewrite length_app in Happ. simpl in *.
    destruct current; simpl in *; [done|lia]. }
  specialize (IH next Hnext). destruct (split fuel next) as [batches|e|]; cbn [obind]; [| |done].
  - destruct IH as [Hc Hall]. simpl. rewrite Hc. by split; [|constructor].
  - destruct IH as (-> & m & Hin & ?). split; [done|]. exists m.
    rewrite <- Happ. split; [apply elem_of_app; by right|done].
Qed.
End SplitFacts.

(** Splitting the messages whose weights are refined at the target always ends.  The
    batches put together are the messages in their order, none is empty and each fits
    in the call; splitting fails only if some message does not fit on its own. *)
Theorem split_msgs_to_refine_correct {E Msg : Type} (encoded_size : list Msg -> Z)
  (max_batch_size : Z) (msgs : list Msg) :
  match SubstrateMessagesSource.split_msgs_to_refine (E := E) encoded_size max_batch_size msgs with
  | Ok batches =>
      concat batches = msgs /\
      Forall (fun batch => batch <> [] /\ encoded_size batch <= max_batch_size) batches
  | Err e => e = MessageTooLargeToRefine /\
      exists m, m ∈ msgs /\ max_batch_size < encoded_size [m]
  | Panic => False
  end.
Proof. by apply split_spec. Qed.

(** ** Validation of message details *)

Section DetailsFacts.
Context `{WeightOps} {E : Type}.
Abbreviation result A := (outcome (SubstrateError E) A).
Import SubstrateMessagesSource.

Lemma validate_loop_spec (l1 l2 : list Z) :
  (length l1 <= length l2)%nat ->
  validate_loop (E := E) l1 l2 = Ok tt <-> l1 = take (length l1) l2.
Proof.
  revert l2. induction l1 as [|x l1 IH]; intros [|y l2]; simpl; try done; [lia|]. intros Hlen.
  destruct (x =? y) eqn:Exy.
  - apply Z.eqb_eq in Exy as ->. rewrite IH by lia. split; [by intros <-|by intros [= <-]].
  - apply Z.eqb_neq in Exy. split; [done|by intros [= ? _]].
Qed.

Lemma validate_spec (details : list OutboundMessageDetails) (a b : Z) :
  validate_out_msgs_details (E := E) details (Range a b) = Ok tt <->
  (out_nonce <$> details) = seqZ (b - Z.of_nat (length details) + 1) (Z.of_nat (length details)) /\
  Z.of_nat (length details) <= Z.max 0 (b - a + 1) /\ (details = [] -> b < a).
Proof.
  unfold validate_out_msgs_details. simpl. rewrite length_seqZ.
  destruct (_ <? length details)%nat eqn:Elen.
  { split; [done|]. intros (_ & Hlen & _). apply Nat.ltb_lt in Elen. lia. }
  apply Nat.ltb_ge in Elen.
  destruct details as [|d ds].
  { destruct (seqZ a (b - a + 1)) as [|x l] eqn:Es; simpl.
    - apply (f_equal length) in Es. rewrite length_seqZ in Es. simpl in Es. split; [|done].
      intros _. split_and!; [done|lia|intros _; lia].
    - apply (f_equal length) in Es. rewrite length_seqZ in Es. simpl in Es. split; [done|].
      intros (_ & _ & Hlt). specialize (Hlt eq_refl). lia. }
  set (details := d :: ds) in *. set (k := Z.of_nat (length details)) in *.
  assert (0 < k) by (unfold k, details; simpl; lia).
  assert (seqZ a (b - a + 1) = seqZ a (b - a + 1 - k) ++ seqZ (b - k + 1) k) as Hall.
  { replace (b - a + 1) with ((b - a + 1 - k) + k) at 1 by lia. rewrite seqZ_app by lia.
    do 2 f_equal. lia. }
  rewrite validate_loop_spec by (rewrite length_fmap, !length_reverse, length_seqZ; lia).
  rewrite length_fmap, length_reverse, Hall, reverse_app.
  rewrite take_app_length' by (rewrite length_reverse, length_seqZ; lia).
  rewrite fmap_reverse. split.
  - intros Heq%(inj reverse). split_and!; [done|lia|done].
  - intros (Heq & _ & _). by rewrite Heq.
Qed.

Context (message_payload : MessageNonce -> result (option MessagePayload)).
Context (inbound_message_details :
  list (MessagePayload * OutboundMessageDetails) -> result (list Weight)).

Lemma read_payloads_spec details l :
  read_payloads message_payload details = Ok l -> snd <$> l = details.
Proof.
  revert l. induction details as [|d details IH]; intros l; simpl; [by intros [= <-]|].
  intros H'. outcome_ok. f_equal. by apply IH.
Qed.

(** Refining changes nothing but the weights. *)
Lemma refine_batches_spec batches l :
  refine_batches inbound_message_details batches = Ok l ->
  (fun d => (out_nonce d, out_size d)) <$> l =
  (fun m => (out_nonce m.2, out_size m.2)) <$> concat batches.
Proof.
  revert l. induction batches as [|batch batches IH]; intros l; simpl; [by intros [= <-]|].
  intros H'. apply obind_Ok in H' as (refined & Hb & H').
  apply obind_Ok in H' as (rest & Hr%IH & [= <-]). rewrite !fmap_app, Hr. f_equal.
  unfold refine_batch in Hb. apply obind_Ok in Hb as (ws & _ & Hb).
  apply obind_Ok in Hb as ([] & Hlen%ensure_Ok%Nat.eqb_eq & [= <-]). clear - Hlen.
  revert ws Hlen. induction batch as [|m batch IH]; intros [|w ws]; simpl; try done.
  intros [= Hlen]. f_equal. by apply IH.
Qed.

Lemma map_insert_last {A : Type} (k : Z) (v : A) (m : list (Z * A)) :
  Forall (fun e => e.1 < k) m -> map_insert k v m = m ++ [(k, v)].
Proof.
  induction 1 as [|[k' v'] m Hk _ IH]; simpl in *; [done|].
  rewrite (proj2 (Z.ltb_ge _ _)) by lia. rewrite (proj2 (Z.eqb_neq _ _)) by lia. by rewrite IH.
Qed.

Lemma map_of_increasing (l : list OutboundMessageDetails) m :
  StronglySorted Z.lt (m.*1 ++ (out_nonce <$> l)) ->
  fold_left (fun m d => map_insert (out_nonce d)
               (Details (out_dispatch_weight d) (out_size d) tt) m) l m =
  m ++ ((fun d => (out_nonce d, Details (out_dispatch_weight d) (out_size d) tt)) <$> l).
Proof.
  revert m. induction l as [|d l IH]; intros m Hs; [by rewrite app_nil_r|].
  cbn [fold_left]. rewrite fmap_cons in *. rewrite map_insert_last.
  - rewrite IH; [by rewrite <- app_assoc|]. rewrite fmap_app, <- app_assoc. done.
  - apply Forall_forall. intros e He. apply StronglySorted_app in Hs as (Hs & _).
    apply Hs; [|by left]. apply list_elem_of_fmap. by exists e.
Qed.
End DetailsFacts.

Lemma refined_sizes `{WeightOps} (details refined : list OutboundMessageDetails) :
  Forall (fun d => is_u32 (out_size d)) details ->
  (fun d => (out_nonce d, out_size d)) <$> refined =
  (fun d => (out_nonce d, out_size d)) <$> details ->
  sizes_ok ((fun d => (out_nonce d, Details (out_dispatch_weight d) (out_size d) tt)) <$> refined).
Proof.
  revert details. unfold sizes_ok. induction refined as [|d refined IH]; intros [|d' details]; simpl;
    try done.
  intros [Hd Hds]%Forall_cons [= _ Hsize Heq]. constructor; [simpl; by rewrite Hsize|].
  by apply (IH details).
Qed.

(** What the source client hands to the delivery race is a valid range of messages: it ends
    with the last nonce that was asked for, it has no gaps, and only messages from its
    front may be missing because they have been pruned.  Asking for no message gives
    the empty range.  Any other answer of the runtime is turned into an error. *)
Theorem generated_details_are_valid `{WeightOps} {E : Type}
  (message_details : RangeInclusive -> outcome (SubstrateError E) (list OutboundMessageDetails))
  message_payload encoded_size (max_batch_size : Z) inbound_message_details (a b : MessageNonce) m :
  0 <= a -> b < u64_max ->
  (forall l, message_details (Range a b) = Ok l -> Forall (fun d => is_u32 (out_size d)) l) ->
  SubstrateMessagesSource.generated_message_details message_details message_payload encoded_size
    max_batch_size inbound_message_details (Range a b) = Ok m ->
  sizes_ok m /\
  (m = [] /\ b < a \/ valid_range m /\ a <= range_begin m /\ range_end m = b).
Proof.
  intros Ha Hb Hsizes Hgen. unfold SubstrateMessagesSource.generated_message_details in Hgen.
  apply obind_Ok in Hgen as (details & Hdet & Hgen). specialize (Hsizes _ Hdet).
  apply obind_Ok in Hgen as ([] & Hval%validate_spec & Hgen).
  apply obind_Ok in Hgen as (payloads & Hpay%read_payloads_spec & Hgen).
  apply obind_Ok in Hgen as (batches & Hsplit & Hgen).
  apply obind_Ok in Hgen as (refined & Href%refine_batches_spec & [= <-]).
  pose proof (split_spec (E := E) encoded_size max_batch_size (length payloads) payloads ltac:(lia)) as Hs.
  unfold SubstrateMessagesSource.split_msgs_to_refine in Hsplit. rewrite Hsplit in Hs.
  destruct Hs as [Hconcat _]. rewrite Hconcat in Href. clear Hsplit Hconcat batches Hdet.
  destruct Hval as (Hn & Hlen & Hempty).
  assert ((fun d => (out_nonce d, out_size d)) <$> refined =
          (fun d => (out_nonce d, out_size d)) <$> details) as Heq.
  { by rewrite Href, <- Hpay, <- list_fmap_compose. }
  clear Href Hpay payloads.
  assert (out_nonce <$> refined = out_nonce <$> details) as Hnonces.
  { apply (f_equal (fmap fst)) in Heq. by rewrite <- !list_fmap_compose in Heq. }
  assert (length refined = length details) as Hlength
    by (apply (f_equal length) in Heq; by rewrite !length_fmap in Heq).
  rewrite Hn in Hnonces. rewrite map_of_increasing; simpl.
  2: { rewrite Hnonces. apply seqZ_sorted. }
  set (m := _ <$> refined).
  assert (m.*1 = out_nonce <$> refined) as Hkeys by (unfold m; by rewrite <- list_fmap_compose).
  rewrite Hnonces in Hkeys. split; [exact (refined_sizes _ _ Hsizes Heq)|].
  pose proof (details_from_of_keys _ _ _ Hkeys) as Hfrom.
  destruct (decide (details = [])) as [Hnil|Hne].
  - left. subst details. destruct refined; [|done]. split; [done|by apply Hempty].
  - right. assert (m <> []) as Hm.
    { intros Hm. apply (f_equal length) in Hm. unfold m in Hm. rewrite length_fmap, Hlength in Hm.
      by destruct details. }
    assert (0 < length details)%nat by (destruct details; [done|simpl; lia]).
    pose proof (details_from_begin _ _ Hfrom Hm) as Hbegin.
    pose proof (details_from_end _ _ Hfrom Hm) as Hend. unfold m in Hend.
    rewrite length_fmap, Hlength in Hend. fold m in Hend. simpl. rewrite Hbegin.
    split_and!; try done; lia.
Qed.

(** The runtime has the messages 4 to 6 of the range 3 to 6. *)
Module PrunedRange.
Definition message_details (nonces : RangeInclusive) :
  outcome (SubstrateError unit) (list OutboundMessageDetails) :=
  Ok [OutDetails 4 weight_zero 10; OutDetails 5 weight_zero 20; OutDetails 6 weight_zero 30].

Definition generated : outcome (SubstrateError unit) (MessageDetailsMap unit) :=
  SubstrateMessagesSource.generated_message_details message_details (fun n => Ok (Some [n]))
    (fun batch => 4 + 8 * Z.of_nat (length batch)) 20
    (fun batch => Ok ((fun _ => U64Weight.parts 7 7) <$> batch)) (Range 3 6).

Definition details : MessageDetailsMap unit :=
  [(4, Details (U64Weight.parts 7 7) 10 tt); (5, Details (U64Weight.parts 7 7) 20 tt);
   (6, Details (U64Weight.parts 7 7) 30 tt)].

Lemma pruned_range_generated : generated = Ok details.
Proof. reflexivity. Qed.
End PrunedRange.

Lemma generated_details_are_valid_witness :
  PrunedRange.generated = Ok PrunedRange.details /\ range_end PrunedRange.details = 6.
Proof.
  split; [exact PrunedRange.pruned_range_generated|].
  destruct (generated_details_are_valid PrunedRange.message_details _ _ _ _ 3 6 _ ltac:(lia)
    ltac:(word) ltac:(intros l [= <-]; repeat constructor; simpl; word)
    PrunedRange.pruned_range_generated) as [_ [[_ ?]|(_ & _ & He)]]; [lia|done].
Defined.
