(* ===== verification/DeliveryAcceptance.v ===== *)
(** * The delivery race against the inbound lane

    Composition of the delivery strategy of the relay ([DeliveryRace]), of the client
    that reads the state of the lane ([MessagesClients]) and of the inbound lane of the
    messages pallet ([InboundLane]): what happens to the messages that the strategy
    selects when they reach the lane. *)

From S2P Require Import Prelude Substrate RuntimePrimitives MessagesPrimitives InboundLane.
From S2P Require Import StorageProof RuntimeMessages RelayUtils RaceStrategy DeliveryRace.
From S2P Require Import MessagesClients.
From stdpp Require Import base numbers list gmap.
Local Open Scope Z_scope.

(** ** Receiving a batch *)

Section ReceiveAll.
Context {S Relayer : Type} `{EqDecision Relayer} `{InboundLaneStorageLaws S Relayer}.
Context `{WeightOps} {AccountId P L W : Type} `{!MessageDispatch AccountId P L W}.
Implicit Types (s : S) (w : W) (r : Relayer) (a : AccountId).

(** The messages of a delivery transaction, one after another. *)
Fixpoint receive_all s w r a (msgs : list (MessageNonce * option P)) :
  list (ReceivalResult L) * S * W :=
  match msgs with
  | [] => ([], s, w)
  | (nonce, data) :: msgs =>
      let '(result, s, w) := receive_message s w r a nonce data in
      let '(results, s, w) := receive_all s w r a msgs in
      (result :: results, s, w)
  end.

Definition is_dispatched (result : ReceivalResult L) : Prop := exists dr, result = Dispatched dr.

(** A relayer needs a new entry unless it has delivered the last messages itself. *)
Definition delivered_last r (d : InboundLaneData Relayer) : Prop :=
  exists e, last (relayers d) = Some e /\ relayer e = r.

Definition has_room s r : Prop :=
  Z.of_nat (length (relayers (il_data s).1)) + 1 < il_max_unrewarded_relayer_entries s \/
  delivered_last r (il_data s).1.

Lemma note_delivered_last r (n : Z) (l : list (UnrewardedRelayer Relayer)) :
  exists e, last (note_delivered r n l) = Some e /\ relayer e = r.
Proof.
  unfold note_delivered. destruct l as [|e l _] using rev_ind; simpl; [by eexists|].
  rewrite last_snoc. case_bool_decide; simpl.
  - rewrite update_last_snoc, last_snoc. by eexists.
  - rewrite last_snoc. by eexists.
Qed.

Lemma note_delivered_same r (n : Z) (l : list (UnrewardedRelayer Relayer)) e :
  last l = Some e ->
  length (note_delivered r n l) = (length l + if bool_decide (relayer e = r) then 0 else 1)%nat.
Proof.
  intros Hl. unfold note_delivered. rewrite Hl. case_bool_decide; simpl.
  - rewrite length_update_last. lia.
  - by rewrite length_app.
Qed.

(** One accepted message. *)
Lemma receive_next s w r a (p : option P) :
  let d := (il_data s).1 in
  let nonce := last_delivered_nonce d + 1 in
  inbound_inv s -> nonce <= u64_max ->
  Z.of_nat (length (relayers d)) < il_max_unrewarded_relayer_entries s ->
  nonce - last_confirmed_nonce d <= il_max_unconfirmed_messages s ->
  exists dr s' w', receive_message s w r a nonce p = (Dispatched dr, s', w') /\
    inbound_inv s' /\ limits s' = limits s /\
    (il_data s').1 = Inbound (note_delivered r nonce (relayers d)) (last_confirmed_nonce d) /\
    last_delivered_nonce (il_data s').1 = nonce.
Proof.
  intros d nonce Hinv Hmax Hlen Hmu.
  pose proof (receive_message_accepts s w r a p Hinv Hmax Hlen Hmu) as Hr.
  destruct (dispatch _ _ w) as [dr w']. fold d nonce in Hr.
  set (s' := il_set_data _ _) in Hr. exists dr, s', w'. split; [done|].
  destruct (receive_message_inv _ _ _ _ _ _ _ _ _ Hinv ltac:(unfold nonce, d in *; lia) Hr)
    as (Hinv' & _ & [(dr' & _ & _ & Hd)|[Hno _]]); [|by destruct (Hno dr)].
  split_and!; [done|by eapply receive_message_limits| |done]. unfold s'. by rewrite il_data_set.
Qed.

(** A batch is received as a whole when the relayer does not need the last free entry. *)
Lemma receive_all_accepts (n : nat) s w r a (payload : MessageNonce -> option P) :
  let d := (il_data s).1 in
  inbound_inv s -> last_delivered_nonce d + Z.of_nat n <= u64_max ->
  Z.of_nat (length (relayers d)) < il_max_unrewarded_relayer_entries s -> has_room s r ->
  last_delivered_nonce d + Z.of_nat n - last_confirmed_nonce d <= il_max_unconfirmed_messages s ->
  let '(results, s', w') :=
    receive_all s w r a
      ((fun k => (k, payload k)) <$> seqZ (last_delivered_nonce d + 1) (Z.of_nat n)) in
  Forall is_dispatched results /\ length results = n /\
  last_delivered_nonce (il_data s').1 = last_delivered_nonce d + Z.of_nat n.
Proof.
  cbv zeta. revert s w. induction n as [|n IH]; intros s w Hinv Hmax Hlen Hroom Hmu.
  { simpl. split_and!; [constructor|done|lia]. }
  rewrite seqZ_cons, fmap_cons by lia. cbn [receive_all].
  destruct (receive_next s w r a (payload (last_delivered_nonce (il_data s).1 + 1)))
    as (dr & s' & w' & -> & Hinv' & Hlim & Hd & Hdel); [done|lia|done|lia|].
  unfold limits in Hlim. injection Hlim as Hl1 Hl2.
  specialize (IH s' w' Hinv'). rewrite Hdel, Hl1, Hl2 in IH.
  replace (Z.succ (last_delivered_nonce (il_data s).1 + 1))
    with (last_delivered_nonce (il_data s).1 + 1 + 1) by lia.
  replace (Z.pred (Z.of_nat (Datatypes.S n))) with (Z.of_nat n) by lia.
  assert (last_confirmed_nonce (il_data s').1 = last_confirmed_nonce (il_data s).1) as Hc by by rewrite Hd.
  assert (delivered_last r (il_data s').1) as Hlast.
  { unfold delivered_last. rewrite Hd. apply note_delivered_last. }
  assert (Z.of_nat (length (relayers (il_data s').1)) < il_max_unrewarded_relayer_entries s) as Hlen'.
  { rewrite Hd. simpl. destruct Hroom as [Hroom|(e & He & Hr)].
    - pose proof (note_delivered_length r (last_delivered_nonce (il_data s).1 + 1)
        (relayers (il_data s).1)). lia.
    - rewrite (note_delivered_same _ _ _ _ He), bool_decide_true by done. lia. }
  specialize (IH ltac:(lia) Hlen' (or_intror Hlast) ltac:(lia)).
  destruct (receive_all s' w' r a _) as [[results s''] w'']. destruct IH as (IH1 & IH2 & IH3).
  split_and!; [constructor; [by eexists|done]|simpl; lia|lia].
Qed.

(** A full queue of relayers rejects everything. *)
Lemma receive_all_full s w r a (msgs : list (MessageNonce * option P)) :
  il_max_unrewarded_relayer_entries s <= Z.of_nat (length (relayers (il_data s).1)) ->
  Forall (fun result => ~ is_dispatched result) (receive_all s w r a msgs).1.1.
Proof.
  revert s w. induction msgs as [|[nonce p] msgs IH]; intros s w Hfull; simpl; [constructor|].
  assert (exists result, receive_message s w r a nonce p = (result, (il_data s).2, w) /\
    ~ is_dispatched result) as (result & -> & Hno).
  { unfold receive_message. rewrite (surjective_pairing (il_data s)).
    destruct (negb _); [eexists; split; [done|by intros []]|].
    rewrite il_entries_read, (proj2 (Z.leb_le _ _)) by done. eexists. split; [done|by intros []]. }
  specialize (IH (il_data s).2 w). rewrite il_entries_read, il_data_read in IH. specialize (IH Hfull).
  destruct (receive_all _ w r a msgs) as [[results s'] w']. by constructor.
Qed.

Lemma receive_batch (n : nat) s w r a (payload : MessageNonce -> option P) :
  let d := (il_data s).1 in
  (0 < n)%nat -> inbound_inv s -> last_delivered_nonce d + Z.of_nat n <= u64_max ->
  Z.of_nat (length (relayers d)) < il_max_unrewarded_relayer_entries s ->
  last_delivered_nonce d + Z.of_nat n - last_confirmed_nonce d <= il_max_unconfirmed_messages s ->
  let '(results, s', w') :=
    receive_all s w r a
      ((fun k => (k, payload k)) <$> seqZ (last_delivered_nonce d + 1) (Z.of_nat n)) in
  exists result rest, results = result :: rest /\ is_dispatched result /\
    (has_room s r -> Forall is_dispatched rest /\ length results = n /\
       last_delivered_nonce (il_data s').1 = last_delivered_nonce d + Z.of_nat n) /\
    (~ has_room s r -> Forall (fun result => ~ is_dispatched result) rest).
Proof.
  intros d Hn Hinv Hmax Hlen Hmu.
  pose proof (receive_all_accepts n s w r a payload Hinv Hmax Hlen) as Hall. fold d in Hall.
  rewrite seqZ_cons, fmap_cons in * by lia. cbn [receive_all] in *.
  destruct (receive_next s w r a (payload (last_delivered_nonce d + 1)))
    as (dr & s1 & w1 & Hr & _ & Hlim & Hd & _); [done|unfold d in *; lia|done|unfold d in *; lia|].
  fold d in Hr, Hd. rewrite Hr in *. unfold limits in Hlim. injection Hlim as Hl1 _.
  pose proof (receive_all_full s1 w1 r a ((fun k => (k, payload k)) <$>
    seqZ (Z.succ (last_delivered_nonce d + 1)) (Z.pred (Z.of_nat n)))) as Hfull.
  destruct (receive_all s1 w1 r a _) as [[results s2] w2].
  exists (Dispatched dr), results. split_and!; [done|by eexists| |].
  - intros Hroom. destruct (Hall Hroom Hmu) as ([_ ?]%Forall_cons & ? & ?). done.
  - intros Hno. apply Hfull. rewrite Hl1, Hd. simpl.
    assert (~ delivered_last r d) as Hother by (intros ?; apply Hno; by right).
    assert (length (note_delivered r (last_delivered_nonce d + 1) (relayers d)) =
            length (relayers d) + 1)%nat as ->.
    { destruct (last (relayers d)) as [e|] eqn:El.
      - rewrite (note_delivered_same _ _ _ _ El), bool_decide_false; [done|].
        intros He. apply Hother. by exists e.
      - apply last_None in El. by rewrite El. }
    destruct (decide (Z.of_nat (length (relayers d)) + 1 < il_max_unrewarded_relayer_entries s));
      [|lia]. destruct Hno. by left.
Qed.
End ReceiveAll.

(** ** What the relay knows of the lane *)

Section View.
Context {S Relayer : Type} `{EqDecision Relayer} `{InboundLaneStorageLaws S Relayer} `{WeightOps}.
Implicit Types (s : S) (d : InboundLaneData Relayer) (p : MessageDeliveryParams).

(** The nonces that the target client of the race reads from the lane data. *)
Definition read_lane {HeaderId E : Type}
  (inbound_lane_data : HeaderId -> outcome E (option (InboundLaneData Relayer))) (id : HeaderId) :
  outcome E (HeaderId * TargetClientNonces DeliveryRaceTargetNoncesData) :=
  MessageDeliveryRace.target_nonces
    (SubstrateMessagesTarget.latest_received_nonce inbound_lane_data)
    (SubstrateMessagesTarget.latest_confirmed_received_nonce inbound_lane_data)
    (SubstrateMessagesTarget.unrewarded_relayers_state inbound_lane_data) id.

(** The limits of the race are the ones of the lane. *)
Definition same_limits p s : Prop :=
  max_unrewarded_relayer_entries_at_target p = il_max_unrewarded_relayer_entries s /\
  max_unconfirmed_nonces_at_target p = il_max_unconfirmed_messages s /\
  1 <= il_max_unrewarded_relayer_entries s.

Lemma read_lane_spec {HeaderId E : Type}
  (inbound_lane_data : HeaderId -> outcome E (option (InboundLaneData Relayer))) (id : HeaderId) d t me mu :
  inbound_data_inv me mu d -> inbound_lane_data id = Ok (Some d) -> read_lane inbound_lane_data id = Ok (id, t) ->
  latest_nonce t = last_delivered_nonce d /\
  target_confirmed_nonce (nonces_data t) = last_confirmed_nonce d /\
  unrewarded_relayer_entries (unrewarded_relayers (nonces_data t)) = Z.of_nat (length (relayers d)) /\
  (last_delivered_nonce d < u64_max -> forall e, head (relayers d) = Some e ->
     messages_in_oldest_entry (unrewarded_relayers (nonces_data t)) =
     entry_end e - entry_begin e + 1).
Proof.
  intros Hinv Hread. unfold read_lane, MessageDeliveryRace.target_nonces,
    SubstrateMessagesTarget.latest_received_nonce, SubstrateMessagesTarget.latest_confirmed_received_nonce,
    SubstrateMessagesTarget.unrewarded_relayers_state. rewrite Hread. simpl. rewrite Hread. simpl.
  rewrite Hread. simpl. intros [= <-]. split_and!; try done. intros Hmax e He. simpl. rewrite He. simpl.
  destruct Hinv as [Hc0 Hdel (lo & Hchain & Hlo) _ _ _].
  destruct (relayers d) as [|e' l] eqn:El; [done|]. injection He as ->.
  destruct (chain_elem_of _ _ _ e Hchain ltac:(by left)) as [? ?].
  rewrite wrapping_add_small, wrapping_sub_small by lia. lia.
Qed.

Lemma confirm_relayers_pops (new : Z) (e : UnrewardedRelayer Relayer) l :
  entry_end e <= new -> (length (confirm_relayers new (e :: l)) <= length l)%nat.
Proof.
  intros He. transitivity (length (confirm_relayers new l)); [|apply confirm_relayers_length].
  unfold confirm_relayers. simpl. by rewrite (proj2 (Z.leb_le _ _)) by done.
Qed.

(** The lane after the state of the outbound lane, if it is part of the proof, is received. *)
Definition with_state (required : bool) s (o : OutboundLaneData) : S :=
  if required then (receive_state_update s o).2 else s.

(** What the limits computed by the race guarantee at the lane. *)
Lemma batch_limits_sound s p t c (o : OutboundLaneData) required mx :
  let d := (il_data s).1 in
  inbound_inv s -> same_limits p s -> last_delivered_nonce d < u64_max ->
  latest_nonce t = last_delivered_nonce d ->
  target_confirmed_nonce (nonces_data t) = last_confirmed_nonce d ->
  unrewarded_relayer_entries (unrewarded_relayers (nonces_data t)) = Z.of_nat (length (relayers d)) ->
  (forall e, head (relayers d) = Some e ->
     messages_in_oldest_entry (unrewarded_relayers (nonces_data t)) =
     entry_end e - entry_begin e + 1) ->
  c <= latest_received_nonce o <= last_delivered_nonce d ->
  MessageDeliveryStrategy.batch_limits p c t = Some (required, mx) ->
  let s1 := with_state required s o in
  let d1 := (il_data s1).1 in
  inbound_inv s1 /\ limits s1 = limits s /\ last_delivered_nonce d1 = last_delivered_nonce d /\
  Z.of_nat (length (relayers d1)) < il_max_unrewarded_relayer_entries s /\
  (0 < mx -> last_delivered_nonce d + mx - last_confirmed_nonce d1 <= il_max_unconfirmed_messages s).
Proof.
  intros d Hinv (Hp1 & Hp2 & Hme) Hmax Ht1 Ht2 Ht3 Ht4 Hc Hlim s1 d1.
  pose proof (inv_confirmed_le _ _ _ Hinv) as Hle. fold d in Hle.
  assert (0 <= last_confirmed_nonce d) as Hc0 by apply Hinv.
  assert (Z.of_nat (length (relayers d)) <= il_max_unrewarded_relayer_entries s) as Hentries by apply Hinv.
  unfold MessageDeliveryStrategy.batch_limits in Hlim. rewrite Ht1, Ht2, Ht3, Hp1, Hp2 in Hlim.
  assert (c <= last_delivered_nonce d) as Hcle by lia.
  rewrite (proj2 (checked_sub_Some _ _ _) (conj eq_refl Hcle)) in Hlim.
  destruct (_ <=? last_delivered_nonce d - c) eqn:Emissing; [done|].
  destruct (_ && _) eqn:Eentries; [done|]. injection Hlim as Hreq Hmx.
  destruct (last_confirmed_nonce d <? c) eqn:Enew; subst required.
  - subst s1 d1. unfold with_state. destruct (receive_state_update s o) as [result s'] eqn:Es.
    cbn [snd].
    pose proof (receive_state_update_limits _ _ _ _ Es) as Hl.
    destruct (receive_state_update_inv _ _ _ _ Hinv Es) as (Hinv' & Hdel & Hd').
    fold d in Hdel, Hd'. rewrite bool_decide_true in Hd' by lia.
    split_and!; [done|done|done| |].
    + rewrite Hd'. simpl. pose proof (confirm_relayers_length (latest_received_nonce o) (relayers d)).
      destruct (decide (Z.of_nat (length (relayers d)) < il_max_unrewarded_relayer_entries s)); [lia|].
      destruct (relayers d) as [|e l] eqn:El; [simpl in *; lia|]. specialize (Ht4 e eq_refl).
      destruct (ii_chain _ _ _ Hinv) as (lo & Hchain & Hlo). fold d in Hchain, Hlo.
      rewrite El in Hchain. destruct Hchain as (Hb & He & _).
      assert (entry_end e <= latest_received_nonce o) as Hpop by word.
      pose proof (confirm_relayers_pops _ e l Hpop). simpl in *. lia.
    + rewrite Hd'. simpl. intros Hpos.
      rewrite (proj2 (checked_sub_Some _ _ _) (conj eq_refl Hcle)) in Hmx. simpl in Hmx.
      destruct (checked_sub _ _) as [x|] eqn:Ex; simpl in Hmx; [apply checked_sub_Some in Ex|]; lia.
  - subst s1 d1. unfold with_state. fold d. split_and!; [done|done|done| |].
    + destruct (decide (Z.of_nat (length (relayers d)) < il_max_unrewarded_relayer_entries s)); [lia|].
      destruct (relayers d) as [|e l] eqn:El; [simpl in *; lia|]. specialize (Ht4 e eq_refl).
      destruct (ii_chain _ _ _ Hinv) as (lo & Hchain & Hlo). fold d in Hchain, Hlo.
      rewrite El in Hchain. destruct Hchain as (Hb & He & _). word.
    + intros Hpos.
      rewrite (proj2 (checked_sub_Some _ _ _) (conj eq_refl Hle)) in Hmx. simpl in Hmx.
      destruct (checked_sub _ _) as [x|] eqn:Ex; simpl in Hmx; [apply checked_sub_Some in Ex|]; lia.
Qed.
End View.

(** C10. Messages selected by the relay are accepted by the lane.  The race has read the lane as it
    is, and its limits are the ones of the lane.  At the source header it proves at, the
    outbound lane has the state [o], and the nonce that the race takes for confirmed there,
    the last one it has seen or, when it has seen none, the best nonce of the target, is
    confirmed in [o].  Then the first selected message is always dispatched, after the state of the outbound lane if the
    race decided to prove it, so every delivery transaction makes progress.  The whole
    batch is dispatched unless the relayer takes the last free entry of the queue of
    unrewarded relayers; in that case the lane rejects all messages but the first. *)
Theorem selected_messages_are_accepted {S Relayer : Type} `{EqDecision Relayer}
  `{InboundLaneStorageLaws S Relayer} `{WeightLaws} {AccountId P L W : Type}
  `{!MessageDispatch AccountId P L W} {Hash Balance TargetHash Proof BatchTx E : Type}
  (p : MessageDeliveryParams) (rs0 rs : RaceStateImpl (HeaderId Hash) (HeaderId TargetHash) Proof BatchTx)
  (s : MessageDeliveryStrategy Hash Balance)
  (inbound_lane_data : HeaderId TargetHash -> outcome E (option (InboundLaneData Relayer)))
  (id : HeaderId TargetHash) (h : HeaderId Hash)
  t range parameters (lane : S) (o : OutboundLaneData) (w : W) (r : Relayer) (a : AccountId)
  (payload : MessageNonce -> option P) :
  params_ok p -> rtc delivery_update (MessageDeliveryStrategy.new p, rs0) (s, rs) ->
  inbound_inv lane -> same_limits p lane ->
  inbound_lane_data id = Ok (Some (il_data lane).1) ->
  read_lane inbound_lane_data id = Ok (id, t) -> target_nonces s = Some t ->
  best_finalized_source_header_id_at_best_target rs = Some h ->
  default (last_delivered_nonce (il_data lane).1)
      (MessageDeliveryStrategy.latest_confirmed_nonce_at s h) <= latest_received_nonce o
    <= last_delivered_nonce (il_data lane).1 ->
  MessageDeliveryStrategy.select_nonces_to_deliver s rs = Ok (Some (range, parameters)) ->
  let lane1 := with_state (outbound_state_proof_required parameters) lane o in
  let nonces := seqZ (range_start range) (range_last range - range_start range + 1) in
  let '(results, lane2, _) := receive_all lane1 w r a ((fun n => (n, payload n)) <$> nonces) in
  exists result rest, results = result :: rest /\ is_dispatched result /\
    (has_room lane1 r ->
     Forall is_dispatched rest /\ length results = length nonces /\
     last_delivered_nonce (il_data lane2).1 = range_last range) /\
    (~ has_room lane1 r -> Forall (fun result => ~ is_dispatched result) rest).
Proof.
  intros Hp Hrun Hinv Hsame Hread Hview Ht Hh Ho Hsel lane1 nonces.
  destruct (delivery_updates_ok _ _ _ Hrun) as [Hok Hparams]. simpl in Hok, Hparams. clear Hrun.
  pose proof (delivery_select_spec s rs) as Hspec. rewrite Hparams, Hsel in Hspec.
  destruct (Hspec Hp Hok) as (b & h' & t' & mx & k & (Hb & Ht' & Hh' & _) & Hlim & Hbatch). clear Hspec.
  rewrite Ht in Ht'. injection Ht' as <-. rewrite Hh in Hh'. injection Hh' as <-.
  unfold lane_limits in Hlim. rewrite Hparams in Hlim.
  destruct (so_best _ (do_strategy _ Hok) b Hb) as [Hb0 Hbm].
  pose proof (do_target _ Hok t Ht) as Hbt. rewrite Hb in Hbt. injection Hbt as Hbt.
  destruct (read_lane_spec _ _ _ _ _ _ Hinv Hread Hview) as (Hv1 & Hv2 & Hv3 & Hv4).
  assert (last_delivered_nonce (il_data lane).1 = b) as Hlast by lia. rewrite Hlast in Ho.
  rewrite <- Hlast in Ho at 2.
  destruct (batch_limits_sound lane p t _ o _ mx Hinv Hsame ltac:(lia) Hv1 Hv2 Hv3
    (Hv4 ltac:(lia)) Ho Hlim) as (Hinv1 & Hl1 & Hdel1 & Hlen1 & Hmu1). fold lane1 in Hinv1, Hl1, Hdel1, Hlen1, Hmu1.
  unfold limits in Hl1. injection Hl1 as Hl1 Hl2. rewrite <- Hl1 in Hlen1. rewrite <- Hl2 in Hmu1.
  destruct Hbatch as [-> _ [Hk0 Hk] Hkm Hlargest _ _]. apply Hlargest in Hk as [Hmx _]. clear Hlargest.
  destruct (Hmx (Nat.le_refl k)) as [Hkmx _].
  assert (nonces = seqZ (last_delivered_nonce (il_data lane1).1 + 1) (Z.of_nat k)) as ->.
  { unfold nonces. simpl. rewrite Hdel1, Hlast. f_equal. lia. }
  pose proof (receive_batch k lane1 w r a payload Hk0 Hinv1 ltac:(lia) Hlen1 ltac:(lia)) as Hr.
  destruct (receive_all lane1 w r a _) as [[results lane2] w2]. rewrite Hdel1, Hlast in Hr.
  destruct Hr as (result & rest & -> & Hd & Hroom & Hfull). exists result, rest.
  split_and!; [done|done| |done]. rewrite length_seqZ, Nat2Z.id. done.
Qed.

(** The lane [MemoryInbound.busy] and three new messages, seen at header 3 where message 7 is
    known to be delivered. *)
Module BusyLane.
Definition p : MessageDeliveryParams := DeliveryParams 4 8 10 (U64Weight.parts 100 100) 1000.
Definition id : HeaderId Z := HeaderId_ 50 500.
Definition inbound_lane_data (_ : HeaderId Z) : outcome unit (option (InboundLaneData Z)) :=
  Ok (Some (MemoryInbound.data MemoryInbound.busy)).
Definition t : TargetClientNonces DeliveryRaceTargetNoncesData :=
  TargetNonces_ 9 (TargetData 4 (RelayersState 2 3 5 9)).
Definition state : Type := RaceStateImpl (HeaderId Z) (HeaderId Z) unit unit.
Definition idle : state := race_state_default.
Definition at_header4 : state :=
  RaceState_ None (Some (HeaderId_ 4 40)) None None None None None.
Definition new_messages : MessageDetailsMap unit :=
  (fun n => (n, Details (U64Weight.parts 7 7) 20 tt)) <$> [10; 11; 12].
Definition s0 : MessageDeliveryStrategy Z unit := MessageDeliveryStrategy.new p.
Definition s1 : MessageDeliveryStrategy Z unit :=
  (MessageDeliveryStrategy.best_target_nonces_updated t (s0, idle)).1.
Definition s2 : MessageDeliveryStrategy Z unit :=
  MessageDeliveryStrategy.source_nonces_updated (HeaderId_ 3 30)
    (SourceNonces_ new_messages (Some 7)) s1.
Definition o : OutboundLaneData := Outbound 1 7 12.

Lemma new_messages_valid : valid_range new_messages.
Proof. repeat split; discriminate. Qed.

Lemma busy_lane_reached : rtc delivery_update (s0, idle) (s2, at_header4).
Proof.
  eapply rtc_l; [apply (DeliveryBestTargetUpdate s0 idle t), BestTargetUpdate; [by vm_compute|done]|].
  eapply rtc_l; [|apply rtc_once, DeliveryRaceStateUpdate].
  apply (DeliverySourceUpdate s1 idle (HeaderId_ 3 30) (SourceNonces_ new_messages (Some 7))).
  - apply (SourceUpdate _ _ _ _ 9); [done|by intros e ?%not_elem_of_nil|done|].
    left. split; [apply new_messages_valid|discriminate].
  - repeat constructor; simpl; word.
Qed.
End BusyLane.

Lemma selected_messages_are_accepted_witness :
  exists parameters,
    MessageDeliveryStrategy.select_nonces_to_deliver BusyLane.s2 BusyLane.at_header4 =
      Ok (Some (Range 10 12, parameters)) /\
    outbound_state_proof_required parameters = true /\
    has_room (with_state true MemoryInbound.busy BusyLane.o) 2 /\
    let '(results, lane, _) :=
      receive_all (with_state (outbound_state_proof_required parameters) MemoryInbound.busy BusyLane.o)
        [] 2 0 ((fun n => (n, Some [n])) <$> seqZ 10 (12 - 10 + 1)) in
    exists result rest, results = result :: rest /\ is_dispatched result /\
      (has_room (with_state (outbound_state_proof_required parameters) MemoryInbound.busy BusyLane.o) 2 ->
       Forall is_dispatched rest /\ length results = length (seqZ 10 (12 - 10 + 1)) /\
       last_delivered_nonce (il_data lane).1 = 12) /\
      (~ has_room (with_state (outbound_state_proof_required parameters) MemoryInbound.busy BusyLane.o) 2 ->
       Forall (fun result => ~ is_dispatched result) rest).
Proof.
  assert (match MessageDeliveryStrategy.select_nonces_to_deliver BusyLane.s2 BusyLane.at_header4 with
          | Ok (Some (range, parameters)) =>
              Some (range, outbound_state_proof_required parameters)
          | _ => None
          end = Some (Range 10 12, true)) as Hsel by (vm_compute; reflexivity).
  destruct (MessageDeliveryStrategy.select_nonces_to_deliver BusyLane.s2 BusyLane.at_header4)
    as [[[range parameters]|]|e|] eqn:E; [|done..].
  injection Hsel as -> Hreq. exists parameters. split; [done|]. split; [done|].
  split; [right; by eexists|].
  exact (selected_messages_are_accepted BusyLane.p BusyLane.idle BusyLane.at_header4 BusyLane.s2
    BusyLane.inbound_lane_data BusyLane.id (HeaderId_ 4 40) BusyLane.t (Range 10 12) parameters
    MemoryInbound.busy BusyLane.o [] 2 0 (fun n => Some [n])
    ltac:(split_and!; simpl; word) BusyLane.busy_lane_reached MemoryInbound.busy_inbound_inv
    ltac:(split_and!; simpl; lia) eq_refl eq_refl eq_refl eq_refl ltac:(split; discriminate) E).
Defined.

Lemma delivery_selection_correct_witness :
  exists parameters b h t mx k,
    ready_to_select BusyLane.s2 BusyLane.at_header4 b h t /\
    lane_allows BusyLane.s2 b h t (outbound_state_proof_required parameters) mx /\
    selected_batch BusyLane.s2 b h mx k (Range 10 12) parameters.
Proof.
  pose proof (delivery_selection_correct BusyLane.p BusyLane.idle BusyLane.at_header4 BusyLane.s2
    ltac:(split_and!; simpl; word) BusyLane.busy_lane_reached) as Hspec.
  assert (match MessageDeliveryStrategy.select_nonces_to_deliver BusyLane.s2 BusyLane.at_header4 with
          | Ok (Some (range, _)) => Some range
          | _ => None
          end = Some (Range 10 12)) as Hsel by (vm_compute; reflexivity).
  destruct (MessageDeliveryStrategy.select_nonces_to_deliver BusyLane.s2 BusyLane.at_header4)
    as [[[range parameters]|]|e|]; [|done..].
  injection Hsel as ->. by exists parameters.
Defined.

(** ** Confirmations that the strategy forgets *)

(** The strategy drops what it knows about confirmations too early.  When the finalized nonces
    of the target come in, all records made at source headers below the one known to the
    target are removed, also the last of them, which still describes that header.  If the
    record was what made the strategy wait, because too many delivered messages are not
    confirmed ([c] is the confirmed nonce and [b] the delivered one), then afterwards the
    strategy assumes that all delivered messages are confirmed and is ready to deliver
    another full batch, which the lane would reject. *)
Theorem confirmation_is_forgotten `{WeightOps} {Hash Balance TargetHeaderId Proof BatchTx : Type}
  (s : MessageDeliveryStrategy Hash Balance)
  (rs : RaceStateImpl (HeaderId Hash) TargetHeaderId Proof BatchTx) (h : HeaderId Hash)
  nonces (t : TargetClientNonces DeliveryRaceTargetNoncesData) (b c : MessageNonce) :
  best_finalized_source_header_id_at_best_target rs = Some h ->
  Forall (fun e => header_number e.1 < header_number h) (latest_confirmed_nonces_at_source s) ->
  MessageDeliveryStrategy.latest_confirmed_nonce_at s h = Some c ->
  latest_nonce t = b -> c <= b -> target_confirmed_nonce (nonces_data t) <= b ->
  0 < max_unconfirmed_nonces_at_target (params s) <= b - c ->
  unrewarded_relayer_entries (unrewarded_relayers (nonces_data t)) <
    max_unrewarded_relayer_entries_at_target (params s) ->
  let s' := (MessageDeliveryStrategy.finalized_target_nonces_updated nonces (s, rs)).1 in
  lane_limits s b h t = None /\
  lane_limits s' b h t =
    Some (target_confirmed_nonce (nonces_data t) <? b,
          Z.min (max_unconfirmed_nonces_at_target (params s)) (max_messages_in_single_batch (params s))).
Proof.
  intros Hh Hold Hc Ht Hcb Htc Hmax Hent s'. unfold lane_limits. rewrite Hc.
  assert (MessageDeliveryStrategy.latest_confirmed_nonce_at s' h = None) as ->.
  { unfold MessageDeliveryStrategy.latest_confirmed_nonce_at, s'. simpl. rewrite Hh.
    induction Hold as [|e l He _ IH]; simpl; [done|]. by rewrite (proj2 (Z.ltb_lt _ _) He). }
  unfold s'. simpl. unfold MessageDeliveryStrategy.batch_limits, checked_sub. rewrite Ht. split.
  - rewrite (proj2 (Z.leb_le c b)) by lia. by rewrite (proj2 (Z.leb_le _ (b - c))) by lia.
  - rewrite Z.leb_refl, (proj2 (Z.leb_gt _ (b - b))) by lia.
    rewrite (proj2 (Z.leb_gt _ (unrewarded_relayer_entries _))) by lia. simpl.
    do 3 f_equal. destruct (_ <? b) eqn:E; rewrite (proj2 (Z.leb_le _ b)) by lia; simpl;
      rewrite (proj2 (Z.leb_le _ (max_unconfirmed_nonces_at_target _))) by lia; simpl; lia.
Qed.

(** Five messages are delivered, three are confirmed, two may be unconfirmed. *)
Module ForgottenConfirmation.
Definition p : MessageDeliveryParams := DeliveryParams 4 2 10 (U64Weight.parts 100 100) 1000.
Definition t : TargetClientNonces DeliveryRaceTargetNoncesData :=
  TargetNonces_ 5 (TargetData 3 (RelayersState 1 2 2 5)).
Definition s : MessageDeliveryStrategy Z unit :=
  DeliveryStrategy p [(HeaderId_ 3 30, 3)] (Some t) (Basic_ [] (Some 5)).
Definition rs : RaceStateImpl (HeaderId Z) Z unit unit :=
  RaceState_ None (Some (HeaderId_ 4 40)) None None None None None.
End ForgottenConfirmation.

Lemma confirmation_is_forgotten_witness :
  lane_limits ForgottenConfirmation.s 5 (HeaderId_ 4 40) ForgottenConfirmation.t = None /\
  lane_limits (MessageDeliveryStrategy.finalized_target_nonces_updated ForgottenConfirmation.t
                 (ForgottenConfirmation.s, ForgottenConfirmation.rs)).1
    5 (HeaderId_ 4 40) ForgottenConfirmation.t = Some (true, 2).
Proof.
  exact (confirmation_is_forgotten ForgottenConfirmation.s ForgottenConfirmation.rs (HeaderId_ 4 40)
    ForgottenConfirmation.t ForgottenConfirmation.t 5 3 eq_refl
    ltac:(repeat constructor) eq_refl eq_refl ltac:(lia) ltac:(simpl; lia) ltac:(simpl; lia)
    ltac:(simpl; lia)).
Defined.
