(* ===== verification/RaceLoop.v ===== *)
(** * relays/messages/src/message_race_loop.rs: the loop of a race

    The loop waits for one of several futures, handles its result, and starts the next
    request to a client that is free.  A future that runs is the record of its request;
    [None] is a terminated future, which is never selected.  An iteration of the loop
    is [run_iteration]: the handler of an event followed by the scheduling of the source
    and of the target client.  The strategy is the class [RaceStrategy]. *)

From S2P Require Import Prelude Substrate RuntimePrimitives MessagesPrimitives RelayUtils.
From S2P Require Import RaceStrategy DeliveryRace MessagesClients.
From stdpp Require Import base numbers list gmap.
Local Open Scope Z_scope.

Section RaceLoop.
Context {S R D PP SourceHeaderId TargetHeaderId Proof BatchTx E B : Type}.
Context `{RaceStrategy S R D PP SourceHeaderId TargetHeaderId Proof BatchTx}.
Context `{EqDecision SourceHeaderId, EqDecision TargetHeaderId}.
Context `{MaybeConnectionError E} `{Backoff B}.
Context (required_header_id : BatchTx -> SourceHeaderId).
Abbreviation state := (RaceStateImpl SourceHeaderId TargetHeaderId Proof BatchTx).

(** ** The local variables of [run] *)

Record source_side := SourceSide {
  source_retry_backoff : B;
  source_client_is_online : bool;
  source_nonces_required : bool;
  source_required_header : option SourceHeaderId;
  source_nonces : option (SourceHeaderId * MessageNonce);
  source_generate_proof : option (SourceHeaderId * RangeInclusive * PP * option BatchTx);
  source_go_offline_future : option Z;
}.

Record target_side := TargetSide {
  target_retry_backoff : B;
  target_client_is_online : bool;
  target_best_nonces_required : bool;
  target_finalized_nonces_required : bool;
  target_batch_transaction : option BatchTx;
  target_require_source_header : option SourceHeaderId;
  target_best_nonces : option TargetHeaderId;
  target_finalized_nonces : option TargetHeaderId;
  target_submit_proof : option (option BatchTx * SourceHeaderId * RangeInclusive * Proof);
  target_tx_tracker : bool;
  target_go_offline_future : option Z;
}.

Record race := Race {
  race_state : state;
  strategy : S;
  source : source_side;
  target : target_side;
}.

Definition initial (strategy : S) (backoff : B) : race :=
  Race race_state_default strategy
    (SourceSide backoff true false None None None None)
    (TargetSide backoff true false false None None None None None false None).

(** ** Events *)

Inductive event :=
| SourceStateUpdated (source_state : option (ClientState SourceHeaderId TargetHeaderId))
| TargetStateUpdated (target_state : option (ClientState TargetHeaderId SourceHeaderId))
| SourceNonces (nonces : SourceHeaderId * SourceClientNonces R + E)
| TargetBestNonces (nonces : TargetHeaderId * TargetClientNonces D + E)
| TargetFinalizedNonces (nonces : TargetHeaderId * TargetClientNonces D + E)
| RequireSourceHeader (maybe_batch_transaction : option BatchTx + E)
| GenerateProof (proof : SourceHeaderId * RangeInclusive * Proof + E)
| SubmitProof (proof_submit_result : RangeInclusive + E)
| TxTracker (target_transaction_status : TrackedTransactionStatus TargetHeaderId)
    (nonces_at_target : TargetHeaderId * TargetClientNonces D + E)
| SourceBackOnline
| TargetBackOnline.

(** The future behind the event is running. *)
Definition enabled (ev : event) (r : race) : bool :=
  match ev with
  | SourceStateUpdated _ | TargetStateUpdated _ => true
  | SourceNonces _ => bool_decide (is_Some (source_nonces (source r)))
  | TargetBestNonces _ => bool_decide (is_Some (target_best_nonces (target r)))
  | TargetFinalizedNonces _ => bool_decide (is_Some (target_finalized_nonces (target r)))
  | RequireSourceHeader _ => bool_decide (is_Some (target_require_source_header (target r)))
  | GenerateProof _ => bool_decide (is_Some (source_generate_proof (source r)))
  | SubmitProof _ => bool_decide (is_Some (target_submit_proof (target r)))
  | TxTracker _ _ => target_tx_tracker (target r)
  | SourceBackOnline => bool_decide (is_Some (source_go_offline_future (source r)))
  | TargetBackOnline => bool_decide (is_Some (target_go_offline_future (target r)))
  end.

(** ** Handlers *)

Definition set_best_finalized_source (id : SourceHeaderId) (s : state) : state :=
  RaceState_ (Some id) (best_finalized_source_header_id_at_best_target s) (best_target_header_id s)
    (best_finalized_target_header_id s) (to_submit s) (to_submit_batch s) (nonces_submitted s).

Definition set_best_target (id : TargetHeaderId) (peer : option SourceHeaderId) (s : state) : state :=
  RaceState_ (best_finalized_source_header_id_at_source s) peer (Some id)
    (best_finalized_target_header_id s) (to_submit s) (to_submit_batch s) (nonces_submitted s).

Definition set_best_finalized_target (id : TargetHeaderId) (s : state) : state :=
  RaceState_ (best_finalized_source_header_id_at_source s)
    (best_finalized_source_header_id_at_best_target s) (best_target_header_id s)
    (Some id) (to_submit s) (to_submit_batch s) (nonces_submitted s).

Definition set_to_submit (n : SourceHeaderId * RangeInclusive * Proof) (batch : option BatchTx)
  (s : state) : state :=
  RaceState_ (best_finalized_source_header_id_at_source s)
    (best_finalized_source_header_id_at_best_target s) (best_target_header_id s)
    (best_finalized_target_header_id s) (Some n) batch (nonces_submitted s).

Definition set_submitted (range : RangeInclusive) (s : state) : state :=
  RaceState_ (best_finalized_source_header_id_at_source s)
    (best_finalized_source_header_id_at_best_target s) (best_target_header_id s)
    (best_finalized_target_header_id s) (to_submit s) (to_submit_batch s) (Some range).

Definition set_peer (id : SourceHeaderId) (s : state) : state :=
  RaceState_ (best_finalized_source_header_id_at_source s) (Some id) (best_target_header_id s)
    (best_finalized_target_header_id s) (to_submit s) (to_submit_batch s) (nonces_submitted s).

Definition on_source_state (source_state : option (ClientState SourceHeaderId TargetHeaderId))
  (r : race) : race :=
  match source_state with
  | Some source_state =>
      if decide (best_finalized_source_header_id_at_source (race_state r) =
                 Some (best_finalized_self source_state)) then r
      else
        let s := source r in
        Race (set_best_finalized_source (best_finalized_self source_state) (race_state r))
          (strategy r)
          (SourceSide (source_retry_backoff s) (source_client_is_online s) true
             (source_required_header s) (source_nonces s) (source_generate_proof s)
             (source_go_offline_future s))
          (target r)
  | None => r
  end.

Definition on_target_state (target_state : option (ClientState TargetHeaderId SourceHeaderId))
  (r : race) : race :=
  match target_state with
  | Some target_state =>
      let t := target r in
      let is_target_best_state_updated :=
        negb (bool_decide (best_target_header_id (race_state r) = Some (best_self target_state))) in
      let rs :=
        if is_target_best_state_updated
        then set_best_target (best_self target_state)
               (best_finalized_peer_at_best_self target_state) (race_state r)
        else race_state r in
      let is_target_finalized_state_updated :=
        negb (bool_decide (best_finalized_target_header_id rs =
                           Some (best_finalized_self target_state))) in
      let rs :=
        if is_target_finalized_state_updated
        then set_best_finalized_target (best_finalized_self target_state) rs else rs in
      Race rs (strategy r) (source r)
        (TargetSide (target_retry_backoff t) (target_client_is_online t)
           (is_target_best_state_updated || target_best_nonces_required t)
           (is_target_finalized_state_updated || target_finalized_nonces_required t)
           (target_batch_transaction t) (target_require_source_header t) (target_best_nonces t)
           (target_finalized_nonces t) (target_submit_proof t) (target_tx_tracker t)
           (target_go_offline_future t))
  | None => r
  end.

(** [go_offline_future.set(..)]. *)
Definition set_timer (delay future : option Z) : option Z :=
  match delay with Some _ => delay | None => future end.

Definition on_source_nonces (nonces : SourceHeaderId * SourceClientNonces R + E) (r : race) :
  outcome FailedClient race :=
  let s := source r in
  let '(result, strategy, backoff, delay) :=
    process_future_result nonces (source_retry_backoff s)
      (fun '(at_block, nonces) => source_nonces_updated at_block nonces) (strategy r) in
  let? online := fail_if_connection_error result FailedSource in
  let source_required_header :=
    best ← best_finalized_source_header_id_at_best_target (race_state r);
    required_source_header_at_target strategy best (race_state r) in
  Ok (Race (race_state r) strategy
        (SourceSide backoff online false source_required_header None (source_generate_proof s)
           (set_timer delay (source_go_offline_future s)))
        (target r)).

Definition on_target_best_nonces (nonces : TargetHeaderId * TargetClientNonces D + E) (r : race) :
  outcome FailedClient race :=
  let t := target r in
  let '(result, (strategy, rs), backoff, delay) :=
    process_future_result nonces (target_retry_backoff t)
      (fun '(_, nonces) => best_target_nonces_updated nonces) (strategy r, race_state r) in
  let? online := fail_if_connection_error result FailedTarget in
  Ok (Race rs strategy (source r)
        (TargetSide backoff online false (target_finalized_nonces_required t)
           (target_batch_transaction t) (target_require_source_header t) None
           (target_finalized_nonces t) (target_submit_proof t) (target_tx_tracker t)
           (set_timer delay (target_go_offline_future t)))).

Definition on_target_finalized_nonces (nonces : TargetHeaderId * TargetClientNonces D + E)
  (r : race) : outcome FailedClient race :=
  let t := target r in
  let '(result, (strategy, rs), backoff, delay) :=
    process_future_result nonces (target_retry_backoff t)
      (fun '(_, nonces) => finalized_target_nonces_updated nonces) (strategy r, race_state r) in
  let? online := fail_if_connection_error result FailedTarget in
  Ok (Race rs strategy (source r)
        (TargetSide backoff online (target_best_nonces_required t) false
           (target_batch_transaction t) (target_require_source_header t) (target_best_nonces t)
           None (target_submit_proof t) (target_tx_tracker t)
           (set_timer delay (target_go_offline_future t)))).

Definition on_require_source_header (maybe_batch_transaction : option BatchTx + E) (r : race) :
  outcome FailedClient race :=
  let s := source r in
  let t := target r in
  let '(result, batch, backoff, delay) :=
    process_future_result maybe_batch_transaction (target_retry_backoff t)
      (fun maybe_batch_transaction _ => maybe_batch_transaction) (target_batch_transaction t) in
  let? online := fail_if_connection_error result FailedTarget in
  Ok (Race (race_state r) (strategy r)
        (SourceSide (source_retry_backoff s) (source_client_is_online s) (source_nonces_required s)
           None (source_nonces s) (source_generate_proof s) (source_go_offline_future s))
        (TargetSide backoff online (target_best_nonces_required t)
           (target_finalized_nonces_required t) batch None (target_best_nonces t)
           (target_finalized_nonces t) (target_submit_proof t) (target_tx_tracker t)
           (set_timer delay (target_go_offline_future t)))).

(** The batch transaction travels with the proof request. *)
Definition on_generate_proof (proof : SourceHeaderId * RangeInclusive * Proof + E) (r : race) :
  outcome FailedClient race :=
  let s := source r in
  let batch_transaction :=
    match source_generate_proof s with Some (_, _, _, batch) => batch | None => None end in
  let '(result, rs, backoff, delay) :=
    process_future_result proof (source_retry_backoff s)
      (fun proof => set_to_submit proof batch_transaction) (race_state r) in
  check? fail_if_error result FailedSource in
  Ok (Race rs (strategy r)
        (SourceSide backoff true (source_nonces_required s) (source_required_header s)
           (source_nonces s) None (set_timer delay (source_go_offline_future s)))
        (target r)).

Definition on_submit_proof (proof_submit_result : RangeInclusive + E) (r : race) :
  outcome FailedClient race :=
  let t := target r in
  let '(result, (rs, tracker), backoff, delay) :=
    process_future_result proof_submit_result (target_retry_backoff t)
      (fun nonces '(rs, _) => (set_submitted nonces (reset_nonces_to_submit rs), true))
      (race_state r, target_tx_tracker t) in
  check? fail_if_error result FailedTarget in
  Ok (Race rs (strategy r) (source r)
        (TargetSide backoff true (target_best_nonces_required t)
           (target_finalized_nonces_required t) (target_batch_transaction t)
           (target_require_source_header t) (target_best_nonces t) (target_finalized_nonces t)
           None tracker (set_timer delay (target_go_offline_future t)))).

(** [nonces_at_target] is the answer to [race_target.nonces(at_block, false)]. *)
Definition on_tx_tracker (status : TrackedTransactionStatus TargetHeaderId)
  (nonces_at_target : TargetHeaderId * TargetClientNonces D + E) (r : race) : race :=
  let t := target r in
  let rs :=
    match status, nonces_submitted (race_state r) with
    | Finalized _, Some nonces_submitted =>
        match nonces_at_target with
        | inl (_, nonces_at_target) =>
            if latest_nonce nonces_at_target <? range_last nonces_submitted
            then reset_nonces_submitted (race_state r) else race_state r
        | inr _ => reset_nonces_submitted (race_state r)
        end
    | Lost, _ => reset_nonces_submitted (race_state r)
    | _, _ => race_state r
    end in
  Race rs (strategy r) (source r)
    (TargetSide (target_retry_backoff t) (target_client_is_online t) (target_best_nonces_required t)
       (target_finalized_nonces_required t) (target_batch_transaction t)
       (target_require_source_header t) (target_best_nonces t) (target_finalized_nonces t)
       (target_submit_proof t) false (target_go_offline_future t)).

Definition on_source_back_online (r : race) : race :=
  let s := source r in
  Race (race_state r) (strategy r)
    (SourceSide (source_retry_backoff s) true (source_nonces_required s) (source_required_header s)
       (source_nonces s) (source_generate_proof s) None)
    (target r).

Definition on_target_back_online (r : race) : race :=
  let t := target r in
  Race (race_state r) (strategy r) (source r)
    (TargetSide (target_retry_backoff t) true (target_best_nonces_required t)
       (target_finalized_nonces_required t) (target_batch_transaction t)
       (target_require_source_header t) (target_best_nonces t) (target_finalized_nonces t)
       (target_submit_proof t) (target_tx_tracker t) None).

Definition on_event (ev : event) (r : race) : outcome FailedClient race :=
  match ev with
  | SourceStateUpdated source_state => Ok (on_source_state source_state r)
  | TargetStateUpdated target_state => Ok (on_target_state target_state r)
  | SourceNonces nonces => on_source_nonces nonces r
  | TargetBestNonces nonces => on_target_best_nonces nonces r
  | TargetFinalizedNonces nonces => on_target_finalized_nonces nonces r
  | RequireSourceHeader maybe_batch_transaction =>
      on_require_source_header maybe_batch_transaction r
  | GenerateProof proof => on_generate_proof proof r
  | SubmitProof proof_submit_result => on_submit_proof proof_submit_result r
  | TxTracker status nonces_at_target => Ok (on_tx_tracker status nonces_at_target r)
  | SourceBackOnline => Ok (on_source_back_online r)
  | TargetBackOnline => Ok (on_target_back_online r)
  end.

(** ** Scheduling *)

(** The state the nonces are selected for: with a batch transaction, the required header is
    assumed to be at the target already. *)
Definition expected_race_state (batch : option BatchTx) (rs : state) : state :=
  match batch with
  | Some batch => set_peer (required_header_id batch) rs
  | None => rs
  end.

(** The function [select_nonces_to_deliver] of the loop. *)
Definition select_nonces (rs : state) (strategy : S) :
  outcome FailedClient (option (SourceHeaderId * RangeInclusive * PP)) :=
  match best_finalized_source_header_id_at_best_target rs with
  | None => Ok None
  | Some id =>
      let? selected := select_nonces_to_deliver strategy rs in
      Ok ((fun '(nonces_range, proof_parameters) => (id, nonces_range, proof_parameters)) <$> selected)
  end.

Definition schedule_source (r : race) : outcome FailedClient race :=
  let s := source r in
  let t := target r in
  if source_client_is_online s then
    let batch := target_batch_transaction t in
    let t :=
      TargetSide (target_retry_backoff t) (target_client_is_online t)
        (target_best_nonces_required t) (target_finalized_nonces_required t) None
        (target_require_source_header t) (target_best_nonces t) (target_finalized_nonces t)
        (target_submit_proof t) (target_tx_tracker t) (target_go_offline_future t) in
    let? nonces_to_deliver :=
      select_nonces (expected_race_state batch (race_state r)) (strategy r) in
    match nonces_to_deliver, best_at_source (strategy r) with
    | Some (at_block, nonces_range, proof_parameters), _ =>
        Ok (Race (race_state r) (strategy r)
              (SourceSide (source_retry_backoff s) false (source_nonces_required s)
                 (source_required_header s) (source_nonces s)
                 (Some (at_block, nonces_range, proof_parameters, batch))
                 (source_go_offline_future s))
              t)
    | None, Some best_at_source =>
        if source_nonces_required s then
          let? at_block := expect (best_finalized_source_header_id_at_source (race_state r)) in
          Ok (Race (race_state r) (strategy r)
                (SourceSide (source_retry_backoff s) false (source_nonces_required s)
                   (source_required_header s) (Some (at_block, best_at_source))
                   (source_generate_proof s) (source_go_offline_future s))
                t)
        else Ok (Race (race_state r) (strategy r) s t)
    | None, None => Ok (Race (race_state r) (strategy r) s t)
    end
  else Ok r.

Definition schedule_target (r : race) : outcome FailedClient race :=
  let s := source r in
  let t := target r in
  let start require best finalized submit :=
    Race (race_state r) (strategy r) s
      (TargetSide (target_retry_backoff t) false (target_best_nonces_required t)
         (target_finalized_nonces_required t) (target_batch_transaction t) require best finalized
         submit (target_tx_tracker t) (target_go_offline_future t)) in
  if target_client_is_online t then
    match to_submit (race_state r), source_required_header s with
    | Some (at_block, nonces_range, proof), _ =>
        Ok (start (target_require_source_header t) (target_best_nonces t)
              (target_finalized_nonces t)
              (Some (to_submit_batch (race_state r), at_block, nonces_range, proof)))
    | None, Some source_required_header =>
        Ok (start (Some source_required_header) (target_best_nonces t) (target_finalized_nonces t)
              (target_submit_proof t))
    | None, None =>
        if target_best_nonces_required t then
          let? at_block := expect (best_target_header_id (race_state r)) in
          Ok (start (target_require_source_header t) (Some at_block) (target_finalized_nonces t)
                (target_submit_proof t))
        else if target_finalized_nonces_required t then
          let? at_block := expect (best_finalized_target_header_id (race_state r)) in
          Ok (start (target_require_source_header t) (target_best_nonces t) (Some at_block)
                (target_submit_proof t))
        else Ok r
    end
  else Ok r.

Definition run_iteration (ev : event) (r : race) : outcome FailedClient race :=
  let? r := on_event ev r in
  let? r := schedule_source r in
  schedule_target r.

(** ** What the loop relies on

    A strategy answers every selection request, selects only when nothing is selected or in
    flight, and changes the state of the race only by resetting the two ranges. *)
Definition only_resets (rs rs' : state) : Prop :=
  best_finalized_source_header_id_at_source rs' = best_finalized_source_header_id_at_source rs /\
  best_finalized_source_header_id_at_best_target rs' =
    best_finalized_source_header_id_at_best_target rs /\
  best_target_header_id rs' = best_target_header_id rs /\
  best_finalized_target_header_id rs' = best_finalized_target_header_id rs /\
  (to_submit rs' = to_submit rs /\ to_submit_batch rs' = to_submit_batch rs \/
   to_submit rs' = None) /\
  (nonces_submitted rs' = nonces_submitted rs \/ nonces_submitted rs' = None).

Class RaceStrategyLaws : Prop := {
  select_total s rs : exists o, select_nonces_to_deliver s rs = Ok o;
  select_idle s rs x : select_nonces_to_deliver s rs = Ok (Some x) ->
    nonces_to_submit rs = None /\ nonces_submitted rs = None;
  best_update_resets nonces s rs : only_resets rs (best_target_nonces_updated nonces (s, rs)).2;
  finalized_update_resets nonces s rs :
    only_resets rs (finalized_target_nonces_updated nonces (s, rs)).2;
}.
Context `{!RaceStrategyLaws}.

(** ** The invariant *)

Definition one {A : Type} (o : option A) : Z := match o with Some _ => 1 | None => 0 end.

Record race_ok (r : race) : Prop := {
  (* each client is free, has one request, or waits to be asked again *)
  ro_source :
    Z.b2z (source_client_is_online (source r)) + one (source_nonces (source r)) +
    one (source_generate_proof (source r)) + one (source_go_offline_future (source r)) = 1;
  ro_target :
    Z.b2z (target_client_is_online (target r)) + one (target_require_source_header (target r)) +
    one (target_best_nonces (target r)) + one (target_finalized_nonces (target r)) +
    one (target_submit_proof (target r)) + one (target_go_offline_future (target r)) = 1;
  (* the headers that requests are made at are known *)
  ro_source_header : source_nonces_required (source r) = true ->
    is_Some (best_finalized_source_header_id_at_source (race_state r));
  ro_best_header : target_best_nonces_required (target r) = true ->
    is_Some (best_target_header_id (race_state r));
  ro_finalized_header : target_finalized_nonces_required (target r) = true ->
    is_Some (best_finalized_target_header_id (race_state r));
  (* a single batch is being proved, waits for submission, or is submitted *)
  ro_batch : one (source_generate_proof (source r)) + one (to_submit (race_state r)) +
    one (nonces_submitted (race_state r)) <= 1;
  ro_submit batch at_block range proof :
    target_submit_proof (target r) = Some (batch, at_block, range, proof) ->
    to_submit (race_state r) = Some (at_block, range, proof);
}.

Lemma initial_ok (s : S) (b : B) : race_ok (initial s b).
Proof. split; simpl; try done. Qed.

(** The client that an event reports as failed. *)
Definition connection_failure {A : Type} (result : A + E) (c : FailedClient) : option FailedClient :=
  match result with
  | inl _ => None
  | inr e => if is_connection_error e then Some c else None
  end.

Definition failure {A : Type} (result : A + E) (c : FailedClient) : option FailedClient :=
  match result with
  | inl _ => None
  | inr _ => Some c
  end.

Definition failed_client (ev : event) : option FailedClient :=
  match ev with
  | SourceNonces nonces => connection_failure nonces FailedSource
  | TargetBestNonces nonces | TargetFinalizedNonces nonces => connection_failure nonces FailedTarget
  | RequireSourceHeader batch => connection_failure batch FailedTarget
  | GenerateProof proof => failure proof FailedSource
  | SubmitProof nonces => failure nonces FailedTarget
  | _ => None
  end.

Lemma one_nonneg {A : Type} (o : option A) : 0 <= one o.
Proof. by destruct o. Qed.

Lemma b2z_nonneg (b : bool) : 0 <= Z.b2z b.
Proof. by destruct b. Qed.

Ltac one_pos :=
  repeat match goal with
  | _ : context [Z.b2z ?b] |- _ =>
      lazymatch goal with _ : 0 <= Z.b2z b |- _ => fail | _ => pose proof (b2z_nonneg b) end
  | |- context [one ?o] =>
      lazymatch goal with _ : 0 <= one o |- _ => fail | _ => pose proof (one_nonneg o) end
  | _ : context [one ?o] |- _ =>
      lazymatch goal with _ : 0 <= one o |- _ => fail | _ => pose proof (one_nonneg o) end
  end.

Ltac race_cases r Hok :=
  destruct r as [rs st [sb so snr srh sn sg sf] [tb to tbr tfr tbt trs tbn tfn tsp ttt tf]];
  destruct Hok as [Hs Ht Hsh Hbh Hfh Hb Hsub]; simpl in *.

(** Closes the fields of the invariant after a case analysis. *)
Ltac race_fields :=
  split; simpl in *; try done; try (one_pos; lia); try (intros; by eexists).

Lemma source_events_ok (ev : event) (r : race) :
  race_ok r -> enabled ev r = true ->
  match ev with SourceStateUpdated _ | SourceNonces _ | GenerateProof _ | SourceBackOnline => True | _ => False end ->
  match on_event ev r with
  | Ok r' => race_ok r' /\ failed_client ev = None
  | Err c => failed_client ev = Some c
  | Panic => False
  end.
Proof.
  intros Hok Hen Hev. race_cases r Hok.
  destruct ev as [st'|st'|res|res|res|res|res|res|status res| |]; try done; simpl in Hen;
    try apply bool_decide_eq_true in Hen as [x Hx]; simpl in Hx || idtac; try subst.
  - split; [|done]. destruct st' as [st'|]; simpl; [case_decide|]; race_fields.
  - destruct res as [[at_block nonces]|e]; simpl; [split; [|done]; race_fields|].
    unfold on_source_nonces. simpl. destruct (is_connection_error e) eqn:Ee; simpl; [done|].
    destruct (next_backoff sb) as [delay sb']. simpl. split; [|done]. race_fields.
  - simpl. unfold on_generate_proof. simpl. destruct res as [proof|e]; simpl.
    + split; [|done]. race_fields.
      intros batch at_block range p Heq%Hsub. rewrite Heq in Hb. simpl in *. one_pos. lia.
    + by destruct (is_connection_error e); [|destruct (next_backoff sb)].
  - split; [|done]. race_fields.
Qed.

Lemma only_resets_refl (rs : state) : only_resets rs rs.
Proof. split_and!; auto. Qed.

(** A target client with a pending request has no other one. *)
Ltac free_target :=
  simpl in *; one_pos;
  match goal with
  | |- ?o = None => destruct o; [simpl in *; lia|done]
  | _ => lia
  end.

Lemma target_nonces_ok (rs' : state) (r r' : race) :
  race_ok r -> only_resets (race_state r) rs' ->
  race_state r' = rs' -> source r' = source r ->
  (target_best_nonces_required (target r') = true -> target_best_nonces_required (target r) = true) ->
  (target_finalized_nonces_required (target r') = true ->
     target_finalized_nonces_required (target r) = true) ->
  target_submit_proof (target r') = None ->
  Z.b2z (target_client_is_online (target r')) + one (target_require_source_header (target r')) +
    one (target_best_nonces (target r')) + one (target_finalized_nonces (target r')) +
    one (target_submit_proof (target r')) + one (target_go_offline_future (target r')) = 1 ->
  race_ok r'.
Proof.
  intros [Hs Ht Hsh Hbh Hfh Hb Hsub] (Hr1 & _ & Hr2 & Hr3 & Hr4 & Hr5) <- Hsrc Hb' Hf' Htsp Ht'.
  rewrite <- Hsrc in *. split; try done.
  - by rewrite Hr1.
  - rewrite Hr2. auto.
  - rewrite Hr3. auto.
  - destruct Hr4 as [[-> _]| ->], Hr5 as [-> | ->]; simpl; one_pos; lia.
  - intros batch at_block range proof Heq. congruence.
Qed.

Lemma tx_tracker_ok (status : TrackedTransactionStatus TargetHeaderId)
  (nonces : TargetHeaderId * TargetClientNonces D + E) (r : race) :
  race_ok r -> race_ok (on_tx_tracker status nonces r).
Proof.
  intros Hok.
  assert (only_resets (race_state r) (race_state (on_tx_tracker status nonces r)) /\
          to_submit (race_state (on_tx_tracker status nonces r)) = to_submit (race_state r))
    as ((Hr1 & _ & Hr2 & Hr3 & _ & Hr5) & Hr6).
  { simpl. destruct status, (nonces_submitted (race_state r)), nonces as [[? ?]|?];
      try case_match; (split; [split_and!|]); simpl; auto. }
  destruct Hok as [Hs Ht Hsh Hbh Hfh Hb Hsub].
  split; rewrite ?Hr1, ?Hr2, ?Hr3, ?Hr6; try done.
  simpl (source _). destruct Hr5 as [-> | ->]; simpl; one_pos; lia.
Qed.

Lemma target_events_ok (ev : event) (r : race) :
  race_ok r -> enabled ev r = true ->
  match ev with SourceStateUpdated _ | SourceNonces _ | GenerateProof _ | SourceBackOnline => False | _ => True end ->
  match on_event ev r with
  | Ok r' => race_ok r' /\ failed_client ev = None
  | Err c => failed_client ev = Some c
  | Panic => False
  end.
Proof.
  intros Hok Hen Hev. pose proof Hok as Hok'. race_cases r Hok.
  destruct ev as [st'|st'|res|res|res|res|res|res|status res| |]; try done; simpl in Hen;
    try apply bool_decide_eq_true in Hen as [x Hx]; simpl in Hx || idtac; try subst.
  - split; [|done]. destruct st' as [st'|]; simpl; [|done].
    race_fields; do 2 case_bool_decide; simpl in *; try done; by eexists.
  - simpl. unfold on_target_best_nonces. simpl. destruct res as [[id nonces]|e]; simpl.
    + pose proof (best_update_resets nonces st rs) as Hr.
      destruct (best_target_nonces_updated nonces (st, rs)) as [st' rs']. simpl in *.
      split; [|done]. eapply (target_nonces_ok rs'); [exact Hok'|done..| |]; simpl; free_target.
    + destruct (is_connection_error e); simpl; [done|]. destruct (next_backoff tb) as [delay tb'].
      split; [|done]. eapply (target_nonces_ok rs); [exact Hok'|apply only_resets_refl|done..| |];
        simpl; free_target.
  - simpl. unfold on_target_finalized_nonces. simpl. destruct res as [[id nonces]|e]; simpl.
    + pose proof (finalized_update_resets nonces st rs) as Hr.
      destruct (finalized_target_nonces_updated nonces (st, rs)) as [st' rs']. simpl in *.
      split; [|done]. eapply (target_nonces_ok rs'); [exact Hok'|done..| |]; simpl; free_target.
    + destruct (is_connection_error e); simpl; [done|]. destruct (next_backoff tb) as [delay tb'].
      split; [|done]. eapply (target_nonces_ok rs); [exact Hok'|apply only_resets_refl|done..| |];
        simpl; free_target.
  - simpl. unfold on_require_source_header. simpl. destruct res as [batch|e]; simpl.
    + split; [|done]. race_fields.
    + destruct (is_connection_error e); simpl; [done|]. destruct (next_backoff tb) as [delay tb'].
      split; [|done]. race_fields.
  - simpl. unfold on_submit_proof. simpl. destruct res as [nonces|e]; simpl.
    + split; [|done]. destruct x as [[[batch at_block] range] proof].
      rewrite (Hsub _ _ _ _ eq_refl) in Hb. race_fields.
    + by destruct (is_connection_error e); [|destruct (next_backoff tb)].
  - split; [|done]. by apply tx_tracker_ok.
  - split; [|done]. race_fields.
Qed.

Lemma on_event_ok (ev : event) (r : race) :
  race_ok r -> enabled ev r = true ->
  match on_event ev r with
  | Ok r' => race_ok r' /\ failed_client ev = None
  | Err c => failed_client ev = Some c
  | Panic => False
  end.
Proof.
  intros Hok Hen. destruct ev; first [by apply source_events_ok|by apply target_events_ok].
Qed.

(** ** What is submitted is what was proved *)

(** The proof that an event brings, with the batch transaction that travelled with the request. *)
Definition answered (ev : event) (r : race) :
  option (SourceHeaderId * RangeInclusive * Proof * option BatchTx) :=
  match ev, source_generate_proof (source r) with
  | GenerateProof (inl proof), Some (_, _, _, batch) => Some (proof, batch)
  | _, _ => None
  end.

(** The batch that waits for its submission or is being submitted is the last one that was proved,
    with its own range of nonces and its own batch transaction. *)
Record last_proof (log : list (SourceHeaderId * RangeInclusive * Proof * option BatchTx)) (r : race) :
  Prop := {
  lp_waiting proof : to_submit (race_state r) = Some proof ->
    last log = Some (proof, to_submit_batch (race_state r));
  lp_submitting batch at_block range proof :
    target_submit_proof (target r) = Some (batch, at_block, range, proof) ->
    last log = Some (at_block, range, proof, batch);
}.

(** An event brings a proof, or keeps or drops what there is. *)
Lemma on_event_proof (ev : event) (r r' : race) :
  race_ok r -> enabled ev r = true -> on_event ev r = Ok r' ->
  match answered ev r with
  | Some (proof, batch) =>
      ev = GenerateProof (inl proof) /\ to_submit (race_state r') = Some proof /\
      to_submit_batch (race_state r') = batch /\ target_submit_proof (target r') = None
  | None =>
      (forall proof, ev <> GenerateProof (inl proof)) /\
      (to_submit (race_state r') = to_submit (race_state r) /\
       to_submit_batch (race_state r') = to_submit_batch (race_state r) \/
       to_submit (race_state r') = None) /\
      (target_submit_proof (target r') = target_submit_proof (target r) \/
       target_submit_proof (target r') = None)
  end.
Proof.
  intros Hok Hen Hr. race_cases r Hok.
  destruct ev as [st'|st'|res|res|res|res|res|res|status res| |]; simpl in Hen;
    try apply bool_decide_eq_true in Hen as [x Hx]; simpl in Hx || idtac; try subst; simpl in Hr.
  - injection Hr as <-. destruct st'; simpl; [case_decide|]; simpl; auto.
  - injection Hr as <-. destruct st'; simpl; [do 2 case_bool_decide|]; simpl; auto.
  - unfold on_source_nonces in Hr. simpl in Hr. destruct res as [[? ?]|e]; simpl in Hr.
    + injection Hr as <-. simpl. auto.
    + destruct (is_connection_error e); [done|]. destruct (next_backoff sb). injection Hr as <-. simpl. auto.
  - unfold on_target_best_nonces in Hr. simpl in Hr. destruct res as [[id nonces]|e]; simpl in Hr.
    + pose proof (best_update_resets nonces st rs) as (_ & _ & _ & _ & Hres & _).
      destruct (best_target_nonces_updated nonces (st, rs)). injection Hr as <-. simpl in *. auto.
    + destruct (is_connection_error e); [done|]. destruct (next_backoff tb). injection Hr as <-. simpl. auto.
  - unfold on_target_finalized_nonces in Hr. simpl in Hr. destruct res as [[id nonces]|e]; simpl in Hr.
    + pose proof (finalized_update_resets nonces st rs) as (_ & _ & _ & _ & Hres & _).
      destruct (finalized_target_nonces_updated nonces (st, rs)). injection Hr as <-. simpl in *. auto.
    + destruct (is_connection_error e); [done|]. destruct (next_backoff tb). injection Hr as <-. simpl. auto.
  - unfold on_require_source_header in Hr. simpl in Hr. destruct res as [batch|e]; simpl in Hr.
    + injection Hr as <-. simpl. auto.
    + destruct (is_connection_error e); [done|]. destruct (next_backoff tb). injection Hr as <-. simpl. auto.
  - unfold on_generate_proof in Hr. simpl in Hr. destruct x as [[[? ?] ?] batch].
    destruct res as [proof|e]; simpl in Hr.
    + injection Hr as <-. simpl. split_and!; try done.
      destruct tsp as [[[[? ?] ?] ?]|]; [|done]. rewrite (Hsub _ _ _ _ eq_refl) in Hb. simpl in Hb.
      one_pos. lia.
    + by destruct (is_connection_error e); [|destruct (next_backoff sb)].
  - unfold on_submit_proof in Hr. simpl in Hr. destruct res as [nonces|e]; simpl in Hr.
    + injection Hr as <-. simpl. auto.
    + by destruct (is_connection_error e); [|destruct (next_backoff tb)].
  - injection Hr as <-. simpl. split_and!; [done| |by left]. left.
    destruct status, (nonces_submitted rs), res as [[? ?]|?]; try case_match; done.
  - injection Hr as <-. simpl. auto.
  - injection Hr as <-. simpl. auto.
Qed.

Lemma on_event_last_proof (log : list (SourceHeaderId * RangeInclusive * Proof * option BatchTx))
  (ev : event) (r r' : race) :
  race_ok r -> enabled ev r = true -> on_event ev r = Ok r' -> last_proof log r ->
  last_proof (log ++ option_list (answered ev r)) r'.
Proof.
  intros Hok Hen Hr [Hw Hs]. pose proof (on_event_proof ev r r' Hok Hen Hr) as Hev.
  destruct (answered ev r) as [[proof batch]|]; simpl.
  - destruct Hev as (_ & Ht & Hb & Hsub). split; rewrite ?last_snoc; [|congruence].
    intros proof' Hp. congruence.
  - destruct Hev as (_ & Ht & Hsub). rewrite app_nil_r. split.
    + intros proof Hp. destruct Ht as [[Ht Hb]|Ht]; [|congruence]. rewrite Hb. apply Hw. congruence.
    + intros batch at_block range proof Hp. apply Hs. destruct Hsub; congruence.
Qed.

(** ** Scheduling keeps the invariant and leaves no client idle without a reason *)

(** The source client stays free only if there is nothing to prove and nothing to ask. *)
Definition source_idle_ok (batch : option BatchTx) (r : race) : Prop :=
  source_client_is_online (source r) = true ->
  select_nonces (expected_race_state batch (race_state r)) (strategy r) = Ok None /\
  (best_at_source (strategy r) = None \/ source_nonces_required (source r) = false).

Definition target_idle_ok (r : race) : Prop :=
  target_client_is_online (target r) = true ->
  to_submit (race_state r) = None /\ source_required_header (source r) = None /\
  target_best_nonces_required (target r) = false /\
  target_finalized_nonces_required (target r) = false.

Lemma select_nonces_total (rs : state) (s : S) :
  exists o, select_nonces rs s = Ok o /\
    (is_Some o -> nonces_to_submit rs = None /\ nonces_submitted rs = None).
Proof.
  unfold select_nonces. destruct (best_finalized_source_header_id_at_best_target rs) as [id|].
  - destruct (select_total s rs) as [o Ho]. rewrite Ho. simpl. eexists. split; [done|].
    intros Hs. destruct o as [x|]; [by eapply select_idle|by destruct Hs].
  - eexists. split; [done|]. by intros [? ?].
Qed.

Lemma expected_to_submit (batch : option BatchTx) (rs : state) :
  to_submit (expected_race_state batch rs) = to_submit rs /\
  nonces_submitted (expected_race_state batch rs) = nonces_submitted rs.
Proof. by destruct batch. Qed.

Lemma schedule_source_ok (r : race) :
  race_ok r ->
  exists r', schedule_source r = Ok r' /\ race_ok r' /\
    source_idle_ok (target_batch_transaction (target r)) r'.
Proof.
  intros Hok. race_cases r Hok. unfold schedule_source. simpl.
  destruct so; [|eexists; split_and!; [done|by race_fields|done]].
  destruct (select_nonces_total (expected_race_state tbt rs) st) as (o & Ho & Hidle).
  rewrite Ho. simpl. destruct o as [[[at_block range] pp]|].
  - eexists; split_and!; [done| |done].
    destruct Hidle as [H3 H4]; [done|]. destruct (expected_to_submit tbt rs) as [H5 H6].
    rewrite H6 in H4. unfold nonces_to_submit in H3. rewrite H5 in H3.
    assert (to_submit rs = None) as H7 by (by destruct (to_submit rs) as [[[? ?] ?]|]).
    rewrite H4, H7 in Hb. split; simpl in *; rewrite ?H4, ?H7; try done; try (one_pos; lia).
    intros b a ra p Hp. apply Hsub in Hp. congruence.
  - destruct (best_at_source st) as [best|] eqn:Hbest.
    + destruct snr.
      * destruct (Hsh eq_refl) as [id Hid]. rewrite Hid. simpl.
        eexists; split_and!; [done|race_fields|done].
      * eexists; split_and!; [done|race_fields|]. intros _. simpl. auto.
    + eexists; split_and!; [done|race_fields|]. intros _. simpl. auto.
Qed.

Lemma schedule_target_ok (batch : option BatchTx) (r : race) :
  race_ok r -> source_idle_ok batch r ->
  exists r', schedule_target r = Ok r' /\ race_ok r' /\ source_idle_ok batch r' /\
    target_idle_ok r'.
Proof.
  intros Hok Hidle. race_cases r Hok. unfold schedule_target, source_idle_ok in *. simpl in *.
  destruct to; [|eexists; split_and!; [done|by race_fields|done|done]].
  destruct (to_submit rs) as [[[at_block range] proof]|] eqn:Hrs.
  - eexists; split_and!; [done| |done|done]. split; simpl in *; rewrite ?Hrs; try done;
      try (one_pos; lia). intros. by simplify_eq.
  - assert (tsp = None) as -> by (destruct tsp; [simpl in *; one_pos; lia|done]).
    destruct srh as [required|]; [|destruct tbr; [|destruct tfr]].
    + eexists; split_and!; [done|race_fields|done|done]; by rewrite Hrs.
    + destruct (Hbh eq_refl) as [id Hid]. rewrite Hid. simpl.
      eexists; split_and!; [done|race_fields|done|done]; by rewrite Hrs.
    + destruct (Hfh eq_refl) as [id Hid]. rewrite Hid. simpl.
      eexists; split_and!; [done|race_fields|done|done]; by rewrite Hrs.
    + eexists; split_and!; [done|race_fields|done|done]; by rewrite Hrs.
Qed.

(** A new proof is requested for exactly what the strategy selects. *)
Lemma schedule_source_keeps (r r' : race) :
  schedule_source r = Ok r' ->
  race_state r' = race_state r /\ strategy r' = strategy r /\
  target_submit_proof (target r') = target_submit_proof (target r) /\
  (source_generate_proof (source r') = source_generate_proof (source r) \/
   exists at_block range pp,
     select_nonces (expected_race_state (target_batch_transaction (target r)) (race_state r))
       (strategy r) = Ok (Some (at_block, range, pp)) /\
     source_generate_proof (source r') =
       Some (at_block, range, pp, target_batch_transaction (target r))).
Proof.
  unfold schedule_source. destruct (source_client_is_online (source r)).
  - intros (sel & Hsel & Hr)%obind_Ok. destruct sel as [[[at_block range] pp]|].
    + injection Hr as <-. simpl. split_and!; try done. right. by eexists _, _, _.
    + destruct (best_at_source (strategy r)); [|injection Hr as <-; simpl; by auto].
      destruct (source_nonces_required (source r)); [|injection Hr as <-; simpl; by auto].
      apply obind_Ok in Hr as (at_block & _ & [= <-]). simpl. auto.
  - intros [= <-]. auto.
Qed.

Lemma schedule_target_keeps (r r' : race) :
  schedule_target r = Ok r' ->
  race_state r' = race_state r /\ source r' = source r /\
  (target_submit_proof (target r') = target_submit_proof (target r) \/
   exists at_block range proof,
     to_submit (race_state r) = Some (at_block, range, proof) /\
     target_submit_proof (target r') =
       Some (to_submit_batch (race_state r), at_block, range, proof)).
Proof.
  unfold schedule_target. destruct (target_client_is_online (target r)); [|intros [= <-]; auto].
  destruct (to_submit (race_state r)) as [[[at_block range] proof]|] eqn:Et.
  - intros [= <-]. simpl. split_and!; try done. right. by eexists _, _, _.
  - destruct (source_required_header (source r)); [intros [= <-]; simpl; by auto|].
    destruct (target_best_nonces_required (target r)).
    { intros (at_block & _ & [= <-])%obind_Ok. simpl. auto. }
    destruct (target_finalized_nonces_required (target r)); [|intros [= <-]; by auto].
    intros (at_block & _ & [= <-])%obind_Ok. simpl. auto.
Qed.
End RaceLoop.

(** ** The two strategies keep the laws *)

Section Strategies.
Context {Hash R TargetHeaderId Proof BatchTx : Type} `{NoncesRange R}.
Abbreviation state := (RaceStateImpl (HeaderId Hash) TargetHeaderId Proof BatchTx).

Lemma available_indices_valid (s : BasicStrategy Hash R) (rs : state) (i j : nat) :
  BasicStrategy.available_source_queue_indices s rs = Some (i, j) ->
  is_Some (source_queue s !! i) /\ is_Some (source_queue s !! j) /\
  nonces_to_submit rs = None /\ nonces_submitted rs = None.
Proof.
  unfold BasicStrategy.available_source_queue_indices.
  destruct (best_target_nonce s) as [b|]; [simpl|done].
  destruct (nonces_to_submit rs); [done|]. destruct (nonces_submitted rs); [done|].
  destruct (list_find _ _) as [[k e]|] eqn:Ef; simpl; [|done].
  apply list_find_Some in Ef as (Hk & _). apply lookup_lt_Some in Hk as Hlt.
  destruct (best_finalized_source_header_id_at_best_target rs) as [h|]; simpl; [|done].
  pose proof (f_equal length (take_while_drop_while
    (fun entry => header_number entry.1 <=? header_number h) (drop k (source_queue s)))) as Hl.
  rewrite length_app, length_drop in Hl.
  destruct (take_while _ _) as [|x ready] eqn:Et; [done|]. intros [= <- <-].
  split; [by eexists|]. split; [|done]. apply lookup_lt_is_Some. simpl in *. lia.
Qed.

Lemma basic_best_update_resets (nonces : TargetClientNonces unit) (s : BasicStrategy Hash R)
  (rs : state) : only_resets rs (BasicStrategy.best_target_nonces_updated nonces (s, rs)).2.
Proof.
  simpl. destruct (nonces_to_submit rs); [case_match|];
    match goal with |- only_resets _ (match ?x with _ => _ end) => destruct x end;
    try case_match; split_and!; simpl; auto.
Qed.

#[export] Instance basic_strategy_laws :
  RaceStrategyLaws (S := BasicStrategy Hash R) (SourceHeaderId := HeaderId Hash)
    (TargetHeaderId := TargetHeaderId) (Proof := Proof) (BatchTx := BatchTx).
Proof.
  split; simpl.
  - intros s rs. unfold BasicStrategy.select_nonces_to_deliver.
    destruct (BasicStrategy.available_source_queue_indices s rs) as [[i j]|] eqn:Ea; [|by eexists].
    destruct (best_target_nonce s); [|by eexists].
    apply available_indices_valid in Ea as ([x Hx] & [y Hy] & _). rewrite Hx, Hy. by eexists.
  - intros s rs x. unfold BasicStrategy.select_nonces_to_deliver.
    destruct (BasicStrategy.available_source_queue_indices s rs) as [[i j]|] eqn:Ea; [|done].
    by apply available_indices_valid in Ea as (_ & _ & ? & ?).
  - intros nonces s rs. exact (basic_best_update_resets nonces s rs).
  - intros. apply only_resets_refl.
Qed.
End Strategies.

#[export] Instance delivery_strategy_laws
  `{WeightOps} {Hash Balance TargetHeaderId Proof BatchTx : Type} :
  RaceStrategyLaws (S := MessageDeliveryStrategy Hash Balance) (SourceHeaderId := HeaderId Hash)
    (TargetHeaderId := TargetHeaderId) (Proof := Proof) (BatchTx := BatchTx).
Proof.
  split; simpl.
  - intros s rs. unfold MessageDeliveryStrategy.select_nonces_to_deliver.
    destruct (best_target_nonce _); [|by eexists].
    destruct (best_finalized_source_header_id_at_best_target rs); [|by eexists].
    destruct (DeliveryRace.target_nonces s); [|by eexists].
    destruct (MessageDeliveryStrategy.batch_limits _ _ _) as [[? ?]|]; [|by eexists].
    destruct (BasicStrategy.available_source_queue_indices _ rs) as [[i j]|] eqn:Ea; [|by eexists].
    apply available_indices_valid in Ea as ([x Hx] & [y Hy] & _).
    unfold MessageRaceLimits.decide. simpl. rewrite Hx, Hy. by eexists.
  - intros s rs x. unfold MessageDeliveryStrategy.select_nonces_to_deliver.
    destruct (best_target_nonce _); [|done].
    destruct (best_finalized_source_header_id_at_best_target rs); [|done].
    destruct (DeliveryRace.target_nonces s); [|done].
    destruct (MessageDeliveryStrategy.batch_limits _ _ _) as [[? ?]|]; [|done].
    destruct (BasicStrategy.available_source_queue_indices _ rs) as [[i j]|] eqn:Ea; [|done].
    by apply available_indices_valid in Ea as (_ & _ & ? & ?).
  - intros nonces s rs.
    exact (basic_best_update_resets (TargetNonces_ (latest_nonce nonces) tt)
             (DeliveryRace.strategy s) rs).
  - intros. apply only_resets_refl.
Qed.

(** ** The loop *)

Section Steps.
Context {S R D PP SourceHeaderId TargetHeaderId Proof BatchTx E B : Type}.
Context `{RaceStrategy S R D PP SourceHeaderId TargetHeaderId Proof BatchTx}.
Context `{EqDecision SourceHeaderId, EqDecision TargetHeaderId}.
Context `{MaybeConnectionError E} `{Backoff B}.
Context (required_header_id : BatchTx -> SourceHeaderId).
Abbreviation race := (race (S := S) (PP := PP) (SourceHeaderId := SourceHeaderId)
  (TargetHeaderId := TargetHeaderId) (Proof := Proof) (BatchTx := BatchTx) (B := B)).
Abbreviation event := (event (R := R) (D := D) (SourceHeaderId := SourceHeaderId)
  (TargetHeaderId := TargetHeaderId) (Proof := Proof) (BatchTx := BatchTx) (E := E)).

(** A run of the loop, with the proofs that the source client has given and the batch transactions
    that their requests were made with. *)
Inductive race_run (s : S) (b : B) :
  list (SourceHeaderId * RangeInclusive * Proof * option BatchTx) ->
  race -> Prop :=
| RunStart : race_run s b [] (initial s b)
| RunNext log r (ev : event) r' :
    race_run s b log r -> enabled ev r = true -> run_iteration required_header_id ev r = Ok r' ->
    race_run s b (log ++ option_list (answered ev r)) r'.

(** The proof request of an iteration is the old one, or a new one for what the strategy selects
    after the event, with the batch transaction of the target. *)
Definition requested (ev : event) (r r' : race) : Prop :=
  forall request, source_generate_proof (source r') = Some request ->
    source_generate_proof (source r) = Some request \/
    exists r1 at_block range pp,
      on_event ev r = Ok r1 /\
      select_nonces (expected_race_state required_header_id (target_batch_transaction (target r1))
        (race_state r1)) (strategy r1) = Ok (Some (at_block, range, pp)) /\
      request = (at_block, range, pp, target_batch_transaction (target r1)).

Lemma run_iteration_ok `{!RaceStrategyLaws} (ev : event) (r : race) :
  race_ok r -> enabled ev r = true ->
  match run_iteration required_header_id ev r with
  | Ok r' =>
      failed_client ev = None /\ race_ok r' /\ target_idle_ok r' /\
      forall r1, on_event ev r = Ok r1 ->
        source_idle_ok required_header_id (target_batch_transaction (target r1)) r'
  | Err c => failed_client ev = Some c
  | Panic => False
  end.
Proof.
  intros Hok Hen. pose proof (on_event_ok ev r Hok Hen) as Hev.
  unfold run_iteration. destruct (on_event ev r) as [r1|c|]; simpl; [|done..].
  destruct Hev as [Hok1 Hfail].
  destruct (schedule_source_ok required_header_id r1 Hok1) as (r2 & -> & Hok2 & Hidle). simpl.
  destruct (schedule_target_ok required_header_id _ r2 Hok2 Hidle) as (r3 & -> & Hok3 & Hidle3 & Ht).
  split_and!; [done..|]. by intros r1' [= <-].
Qed.

(** Events do not start requests. *)
Lemma on_event_request (ev : event) (r r' : race) :
  on_event ev r = Ok r' ->
  source_generate_proof (source r') = source_generate_proof (source r) \/
  source_generate_proof (source r') = None.
Proof.
  destruct ev as [st'|st'|res|res|res|res|res|res|status res| |]; simpl; intros Hr;
    try (injection Hr as <-; left; unfold on_source_state, on_target_state; by repeat case_match).
  all: unfold on_source_nonces, on_target_best_nonces, on_target_finalized_nonces,
    on_require_source_header, on_generate_proof, on_submit_proof in Hr.
  all: repeat case_match; apply obind_Ok in Hr as (? & _ & [= <-]); simpl; by auto.
Qed.

Lemma run_iteration_proofs `{!RaceStrategyLaws} (ev : event) (r r' : race)
  (log : list (SourceHeaderId * RangeInclusive * Proof * option BatchTx)) :
  race_ok r -> last_proof log r -> enabled ev r = true ->
  run_iteration required_header_id ev r = Ok r' ->
  last_proof (log ++ option_list (answered ev r)) r' /\ requested ev r r' /\
  (forall proof, ev = GenerateProof (inl proof) -> to_submit (race_state r') = Some proof) /\
  (forall nonces, ev = SubmitProof (inl nonces) ->
     nonces_submitted (race_state r') = Some nonces /\ to_submit (race_state r') = None).
Proof.
  intros Hok Hlog Hen. unfold run_iteration.
  intros (r1 & Hr1 & (r2 & Hr2 & Hr3)%obind_Ok)%obind_Ok.
  pose proof (on_event_proof ev r r1 Hok Hen Hr1) as Hev.
  pose proof (on_event_last_proof log ev r r1 Hok Hen Hr1 Hlog) as [Hw Hs].
  apply schedule_source_keeps in Hr2 as (E1 & _ & E2 & E3).
  apply schedule_target_keeps in Hr3 as (E4 & E5 & E6).
  rewrite E1 in E4, E6. split_and!.
  - split; [by rewrite E4|]. intros batch at_block range proof Hp.
    destruct E6 as [E6|(a & ra & p & Ht & E6)].
    + apply Hs. congruence.
    + rewrite E6 in Hp. injection Hp as <- <- <- <-. by apply Hw.
  - intros request Hreq. rewrite E5 in Hreq. destruct E3 as [E3|(a & ra & pp & Hsel & E3)].
    + left. destruct (on_event_request ev r r1 Hr1); congruence.
    + right. rewrite E3 in Hreq. injection Hreq as <-. by exists r1, a, ra, pp.
  - intros proof ->. rewrite E4. destruct (answered _ r) as [[p batch]|].
    + destruct Hev as ([= <-] & ? & _). done.
    + destruct Hev as [Hne _]. by destruct (Hne proof).
  - intros nonces ->. rewrite E4. simpl in Hr1. unfold on_submit_proof in Hr1. simpl in Hr1.
    by injection Hr1 as <-.
Qed.

Lemma race_run_ok `{!RaceStrategyLaws} (s : S) (b : B) log (r : race) :
  race_run s b log r -> race_ok r /\ last_proof log r.
Proof.
  induction 1 as [|log r ev r' _ [Hok Hlog] Hen Hrun].
  { split; [apply initial_ok|]. by split. }
  pose proof (run_iteration_ok ev r Hok Hen) as Hit. rewrite Hrun in Hit.
  split; [apply Hit|]. by eapply run_iteration_proofs.
Qed.
End Steps.

(** C11. The loop of a race never panics: an [expect] of a header identifier and the
    indices of the strategy are always there.  It stops exactly on a failed connection, a proof
    that could not be generated or a transaction that could not be submitted, and blames the
    client that the failed future belongs to.  Whatever the two clients answer, and in whatever
    order, each of them is always free, busy with exactly one request or waiting for its retry
    timer, and at most one batch is being proved, waits for submission or is submitted.  A
    proof is requested for exactly what the strategy selects.  What waits for submission or is
    being submitted is the last proof that the source client gave, with the header and the
    nonces it came with and with the batch transaction of its request; a proof is taken over
    when it comes in, and the nonces that the target client reports are noted as submitted.
    After an iteration a client is free only if there is nothing to do for it: the target has
    nothing to submit, no header to require and no nonces to read; the source has nothing to
    prove, and no new header at which its nonces are to be read. *)
Theorem race_loop_safe
  {S R D PP SourceHeaderId TargetHeaderId Proof BatchTx E B : Type}
  `{HS : RaceStrategy S R D PP SourceHeaderId TargetHeaderId Proof BatchTx}
  `{EqDecision SourceHeaderId, EqDecision TargetHeaderId}
  `{MaybeConnectionError E} `{Backoff B} `{!RaceStrategyLaws}
  (required_header_id : BatchTx -> SourceHeaderId)
  (s : S) (b : B) log (r : race) (ev : event) :
  race_run (E := E) required_header_id s b log r -> enabled ev r = true ->
  match run_iteration required_header_id ev r with
  | Ok r' =>
      failed_client ev = None /\ race_ok r' /\ target_idle_ok r' /\
      (forall r1, on_event ev r = Ok r1 ->
         source_idle_ok required_header_id (target_batch_transaction (target r1)) r') /\
      last_proof (log ++ option_list (answered ev r)) r' /\ requested required_header_id ev r r' /\
      (forall proof, ev = GenerateProof (inl proof) -> to_submit (race_state r') = Some proof) /\
      (forall nonces, ev = SubmitProof (inl nonces) ->
         nonces_submitted (race_state r') = Some nonces /\ to_submit (race_state r') = None)
  | Err c => failed_client ev = Some c
  | Panic => False
  end.
Proof.
  intros Hrun Hen. destruct (race_run_ok required_header_id s b log r Hrun) as [Hok Hlog].
  pose proof (run_iteration_ok required_header_id ev r Hok Hen) as Hit.
  destruct (run_iteration required_header_id ev r) as [r'|c|] eqn:E1; [|done..].
  destruct Hit as (Hf & Hok' & Ht & Hs).
  destruct (run_iteration_proofs required_header_id ev r r' log Hok Hlog Hen E1) as (? & ? & ? & ?).
  by split_and!.
Qed.

(** A race of confirmations: the target tells its state, then the source; the nonces are read,
    a proof of the nonces 3 and 4 is generated and submitted. *)
Module ConfirmationsRun.
#[global] Instance error_class : MaybeConnectionError bool := fun e => e.
#[global] Instance constant_backoff : Backoff unit :=
  {| next_backoff _ := (None, tt); backoff_reset b := b |}.

Definition run_race : Type :=
  race (S := BasicStrategy Z RangeInclusive) (PP := unit) (SourceHeaderId := HeaderId Z)
    (TargetHeaderId := HeaderId Z) (Proof := unit) (BatchTx := unit) (B := unit).
Definition run_event : Type :=
  event (R := RangeInclusive) (D := unit) (SourceHeaderId := HeaderId Z)
    (TargetHeaderId := HeaderId Z) (Proof := unit) (BatchTx := unit) (E := bool).
Definition batch_header : unit -> HeaderId Z := fun _ => HeaderId_ 0 0.

Definition events : list run_event :=
  [TargetStateUpdated (Some (ClientState_ (HeaderId_ 10 0) (HeaderId_ 9 0)
                               (Some (HeaderId_ 5 0)) None));
   TargetBestNonces (inl (HeaderId_ 10 0, TargetNonces_ 2 tt));
   SourceStateUpdated (Some (ClientState_ (HeaderId_ 6 0) (HeaderId_ 5 0) None None));
   SourceNonces (inl (HeaderId_ 5 0, SourceNonces_ (Range 3 4) None));
   GenerateProof (inl (HeaderId_ 5 0, Range 3 4, tt));
   TargetFinalizedNonces (inl (HeaderId_ 9 0, TargetNonces_ 2 tt))].

Fixpoint run_all (events : list run_event) (r : run_race) : option run_race :=
  match events with
  | [] => Some r
  | ev :: events =>
      if enabled ev r then
        match run_iteration batch_header ev r with
        | Ok r => run_all events r
        | _ => None
        end
      else None
  end.

Lemma run_all_steps (evs : list run_event) s b log (r r' : run_race) :
  race_run (E := bool) batch_header s b log r -> run_all evs r = Some r' ->
  exists log', race_run (E := bool) batch_header s b log' r'.
Proof.
  revert log r. induction evs as [|ev evs IH]; simpl; intros log r Hlog Hr.
  { injection Hr as <-. by exists log. }
  destruct (enabled ev r) eqn:Hen; [|done].
  destruct (run_iteration batch_header ev r) as [r1| |] eqn:E; [|done..].
  eapply IH; [|exact Hr]. by eapply RunNext.
Qed.

Definition start : run_race := initial (BasicStrategy.new : BasicStrategy Z RangeInclusive) tt.
Definition submitting : run_race := default start (run_all events start).
End ConfirmationsRun.

Lemma race_loop_safe_witness :
  target_submit_proof (target ConfirmationsRun.submitting) =
    Some (None, HeaderId_ 5 0, Range 3 4, tt) /\
  match run_iteration (E := bool) ConfirmationsRun.batch_header (SubmitProof (inl (Range 3 4)))
          ConfirmationsRun.submitting with
  | Ok r => race_ok r /\ nonces_submitted (race_state r) = Some (Range 3 4)
  | _ => False
  end.
Proof.
  split; [vm_compute; reflexivity|].
  destruct (ConfirmationsRun.run_all_steps ConfirmationsRun.events _ _ [] ConfirmationsRun.start
    ConfirmationsRun.submitting (RunStart _ _ _) ltac:(vm_compute; reflexivity)) as [log Hlog].
  pose proof (race_loop_safe ConfirmationsRun.batch_header
    (BasicStrategy.new : BasicStrategy Z RangeInclusive) tt log ConfirmationsRun.submitting
    (SubmitProof (E := bool) (inl (Range 3 4))) Hlog ltac:(vm_compute; reflexivity)) as Hrun.
  assert (match run_iteration (E := bool) ConfirmationsRun.batch_header
            (SubmitProof (inl (Range 3 4))) ConfirmationsRun.submitting with
          | Ok _ => True
          | _ => False
          end) as Hok by (vm_compute; exact I).
  destruct (run_iteration _ _ _) as [r| |]; [|done..].
  destruct Hrun as (_ & Hr & _ & _ & _ & _ & _ & Hsub). split; [exact Hr|].
  apply (Hsub (Range 3 4) eq_refl).
Defined.
