(* ===== verification/RelayedProofs.v ===== *)
(** * The proofs of the relay at the other chain

    Composes the clients of the message relay (MessagesClients.v: [prove_messages] and
    [prove_messages_receiving]) with the verification of the proofs on the other side of
    the bridge (RuntimeMessages.v) and with the checks of the messages pallet. *)

From S2P Require Import Prelude Substrate RuntimePrimitives MessagesPrimitives MessagesPallet.
From S2P Require Import StorageProof HeaderChain RuntimeMessages RelayUtils RaceStrategy.
From S2P Require Import DeliveryRace MessagesClients.
From Stdlib Require Import String.
From stdpp Require Import base numbers list gmap.
Local Open Scope Z_scope.

Section RoundTrip.
Context {AccountId X Hash Node Value E : Type} `{!MessageBridge AccountId X}.
Context `{!HeaderChain X Hash} `{TrieLaws Node Hash (list Z) Value} `{!StorageHashers}.
Context `{StorageCodecLaws Value (list Z)} `{StorageCodecLaws Value OutboundLaneData}.
Context `{StorageCodecLaws Value (InboundLaneData AccountId)}.
Context `{WeightOps} {AccountId' L' X' : Type}.
Abbreviation name := BRIDGED_MESSAGES_PALLET_NAME.
Abbreviation bridged := (pallet AccountId' AccountId L' X').

Abbreviation prove := (SubstrateMessagesSource.prove_messages (E := E) name).
Abbreviation keys_of := (SubstrateMessagesSource.messages_proof_keys name).

Lemma messages_proof_keys_sub (proof : FromBridgedChainMessagesProof Hash Node) (required : bool)
  key :
  key ∈ keys_of (mp_lane proof) (Range (mp_nonces_start proof) (mp_nonces_end proof)) required ->
  key ∈ proof_keys proof.
Proof.
  unfold SubstrateMessagesSource.messages_proof_keys, proof_keys, message_keys, nonces_range. simpl.
  replace (mp_nonces_end proof + 1 - mp_nonces_start proof)
    with (mp_nonces_end proof - mp_nonces_start proof + 1) by lia.
  rewrite !elem_of_app. destruct required; [done|]. rewrite elem_of_nil. tauto.
Qed.

Lemma messages_count_exact (nonces : RangeInclusive) :
  is_u64 (range_start nonces) -> is_u64 (range_last nonces) ->
  range_start nonces <= range_last nonces ->
  range_last nonces - range_start nonces < u32_max ->
  SubstrateMessagesTarget.messages_count nonces = range_last nonces - range_start nonces + 1.
Proof.
  unfold is_u64. intros Hs He Hle Hc. unfold SubstrateMessagesTarget.messages_count.
  rewrite wrapping_sub_small, wrapping_add_small by word. apply Z.mod_small. word.
Qed.

(** A relayed proof of messages makes the round trip: the proof that the relay asks the source
    node for, with the keys of the selected messages, and the number of messages that it
    declares are accepted by the verification at the target, which returns exactly the
    selected messages with the payloads that the source stores; if the relay asked for it,
    the state of the lane comes with them. *)
Theorem relayed_messages_round_trip
  (prove_storage : list (list Z) -> Hash -> outcome (SubstrateError E) (list Node))
  (id id' : RuntimePrimitives.HeaderId Hash) (root : Hash) (lane : LaneId) (x : X) (b : bridged)
  (nonces nonces' : RangeInclusive) (params : MessageProofParameters) (weight : Weight)
  (proof : FromBridgedChainMessagesProof Hash Node) :
  is_u64 (range_start nonces) -> is_u64 (range_last nonces) ->
  range_start nonces <= range_last nonces -> range_last nonces - range_start nonces < u32_max ->
  honest_node prove_storage (header_hash id) root ->
  finalized_header_state_root x (header_hash id) = Some root -> holds_storage root b ->
  (forall n, range_start nonces <= n <= range_last nonces ->
     is_Some (OutboundMessages (pallet_rest b) !! MessageKey_ lane n)) ->
  prove lane prove_storage id nonces params = Ok (id', nonces', (weight, proof)) ->
  id' = id /\ nonces' = nonces /\ weight = proof_dispatch_weight params /\
  exists state msgs,
    verify_messages_proof proof (SubstrateMessagesTarget.messages_count nonces) x =
      Ok [(lane, Proved state msgs)] /\
    Forall2 (fun n m => MessagesPrimitives.message_key m = MessageKey_ lane n /\
        OutboundMessages (pallet_rest b) !! MessageKey_ lane n = Some (message_payload m))
      (nonces_range (range_start nonces) (range_last nonces)) msgs /\
    (outbound_state_proof_required params = true ->
     state = OutboundLanes (pallet_rest b) !! lane).
Proof.
  intros Hs He Hle Hc Hnode Hroot Hb Hsent Hprove.
  apply obind_Ok in Hprove as (nodes & Hnodes & Hprove). injection Hprove as <- <- <- <-.
  split_and!; [done..|]. set (proof := MessagesProof_ _ _ _ _ _).
  pose proof (messages_count_exact nonces Hs He Hle Hc) as Hcount.
  assert (is_u32 (SubstrateMessagesTarget.messages_count nonces)) as Hu32 by (rewrite Hcount; word).
  assert (forall n, n ∈ nonces_range (range_start nonces) (range_last nonces) ->
    message_key name lane n ∈ keys_of lane nonces (outbound_state_proof_required params)) as Hkeys.
  { intros n Hn. apply elem_of_app. left. apply list_elem_of_fmap. exists n. split; [done|].
    unfold nonces_range in Hn. apply elem_of_seqZ in Hn. apply elem_of_seqZ. lia. }
  destruct (honest_messages_proof_is_accepted proof (SubstrateMessagesTarget.messages_count nonces)
    x root b) as [ms Hms]; try done.
  - by eapply hn_distinct.
  - eapply hn_root; [done..|]. intros Hnil. specialize (Hkeys (range_start nonces)).
    rewrite Hnil in Hkeys. apply (not_elem_of_nil (A := list Z) (message_key name lane (range_start nonces))).
    apply Hkeys. apply elem_of_seqZ. lia.
  - intros n. split.
    + intros Hn. destruct (hn_minimal _ _ _ Hnode _ _ _ Hnodes Hn) as (key & Hkey & Hv).
      exists key. split; [|done]. eapply (messages_proof_keys_sub proof). destruct nonces. exact Hkey.
    + intros (key & _ & Hv). apply read_visits_db in Hv. by apply elem_of_list_to_set in Hv.
  - intros n Hn. split; [|by eapply hn_complete; [..|apply Hkeys]].
    apply Hsent. apply elem_of_seqZ in Hn. simpl in Hn. lia.
  - rewrite decide_True by done. exact Hcount.
  - pose proof Hms as Hspec.
    apply verify_messages_proof_spec in Hspec
      as (root' & c & state & msgs & Hroot' & _ & -> & _ & _ & Hst & _).
    assert (root' = root) as -> by (simpl in Hroot'; congruence).
    destruct (verified_messages_sent proof _ x root b _ Hs He Hu32 Hroot Hb Hms)
      as (state' & msgs' & [= <- <-] & Hall & _).
    exists state, msgs. split_and!; [done..|]. intros Hreq.
    destruct (hn_complete _ _ _ Hnode _ _ (outbound_lane_data_key name lane) Hnodes) as [v Hv].
    { rewrite Hreq. apply elem_of_app. right. by left. }
    by eapply state_read_proved.
Qed.

(** A relayed confirmation makes the round trip too: if the target node tells the truth about
    its inbound lane and proves it, the verification at the source returns the data of that
    lane, and the summary of the unrewarded relayers that the relay sends along passes the
    checks that the messages pallet makes before it confirms anything. *)
Theorem relayed_confirmation_round_trip
  (inbound_lane_data :
     RuntimePrimitives.HeaderId Hash -> outcome E (option (InboundLaneData AccountId)))
  (prove_storage : list (list Z) -> Hash -> outcome E (list Node))
  (id id' : RuntimePrimitives.HeaderId Hash) (root : Hash) (lane : LaneId) (x : X) (b : bridged)
  (state : UnrewardedRelayersState) (proof : FromBridgedChainMessagesDeliveryProof Hash Node)
  (data : InboundLaneData AccountId) :
  InboundLanes b !! lane = Some data -> inbound_lane_data id = Ok (Some data) ->
  honest_node prove_storage (header_hash id) root ->
  finalized_header_state_root x (header_hash id) = Some root -> holds_storage root b ->
  SubstrateMessagesTarget.prove_messages_receiving inbound_lane_data name lane prove_storage id =
    Ok (id', (state, proof)) ->
  id' = id /\ verify_messages_delivery_proof proof x = Ok (lane, data) /\
  default u64_max (total_unrewarded_messages (relayers data)) = rs_total_messages state /\
  Z.of_nat (length (relayers data)) = unrewarded_relayer_entries state /\
  last_delivered_nonce data = rs_last_delivered_nonce state.
Proof.
  intros Hdata Hread Hnode Hroot Hb Hprove.
  unfold SubstrateMessagesTarget.prove_messages_receiving,
    SubstrateMessagesTarget.unrewarded_relayers_state in Hprove.
  rewrite Hread in Hprove. simpl in Hprove.
  apply obind_Ok in Hprove as (nodes & Hnodes & Hprove). injection Hprove as <- <- <-.
  split_and!; [done| |done..]. apply verify_messages_delivery_proof_spec. simpl.
  set (key := inbound_lane_data_key _ _) in *.
  assert (key ∈ [key]) as Hin by by left.
  destruct (hn_complete _ _ _ Hnode _ _ key Hnodes Hin) as [v Hv].
  destruct (Hb _ _ _ Hv) as (_ & _ & Hi). specialize (Hi lane eq_refl). rewrite Hdata in Hi. subst v.
  destruct (honest_proof_is_accepted _ _ _ _ _ Hnode Hnodes ltac:(done)) as [Hnew Hunused].
  eexists root, _, (storage_encode data). split_and!; [done|exact Hnew|done|done| |exact Hunused].
  apply storage_decode_encode.
Qed.
End RoundTrip.

(** The small bridge of RuntimeMessages.v: a node whose trie has a single node. *)
Module RelayedSmallBridge.
Definition prove_storage {E : Type} (keys : list (list Z)) (_ : unit) : outcome E (list unit) :=
  Ok (match keys with [] => [] | _ => [tt] end).

Lemma node_is_honest {E : Type} :
  honest_node (Value := SmallBridge.value) (prove_storage (E := E)) tt tt.
Proof.
  split; intros keys nodes.
  - intros [= <-]. destruct keys; [apply NoDup_nil_2|apply NoDup_singleton].
  - intros [= <-] Hne. by destruct keys.
  - intros [] [= <-] Hn. destruct keys as [|key keys]; [by apply not_elem_of_nil in Hn|].
    exists key. split; [by left|]. by left.
  - intros key [= <-] Hk. destruct keys; [by apply not_elem_of_nil in Hk|]. by eexists.
Qed.

Definition id : HeaderId unit := HeaderId_ 1 tt.
Definition params : MessageProofParameters := ProofParameters true (U64Weight.parts 0 0).
End RelayedSmallBridge.

Lemma relayed_messages_round_trip_witness :
  exists state msgs,
    verify_messages_proof (Value := SmallBridge.value) (MessagesProof_ tt [tt] SmallBridge.lane0 1 2) 2 tt =
      Ok [(SmallBridge.lane0, Proved state msgs)] /\
    state = Some (Outbound 1 0 2).
Proof.
  destruct (relayed_messages_round_trip (E := unit) RelayedSmallBridge.prove_storage
    RelayedSmallBridge.id RelayedSmallBridge.id tt SmallBridge.lane0 tt SmallBridge.bridged
    (Range 1 2) (Range 1 2) RelayedSmallBridge.params (proof_dispatch_weight RelayedSmallBridge.params)
    (MessagesProof_ tt [tt] SmallBridge.lane0 1 2)) as (_ & _ & _ & state & msgs & Hver & _ & Hst);
    try done; try (split; done).
  - apply RelayedSmallBridge.node_is_honest.
  - exact SmallBridge.bridged_storage.
  - intros n Hn. simpl in Hn. assert (n = 1 \/ n = 2) as [-> | ->] by lia; by eexists.
  - exists state, msgs. split; [exact Hver|]. by apply Hst.
Defined.

Lemma relayed_confirmation_round_trip_witness :
  verify_messages_delivery_proof (Value := SmallBridge.value)
    (MessagesDeliveryProof_ tt [tt] SmallBridge.lane0) tt =
    Ok (SmallBridge.lane0, SmallBridge.received).
Proof.
  destruct (relayed_confirmation_round_trip (E := unit)
    (fun _ => Ok (Some SmallBridge.received)) RelayedSmallBridge.prove_storage
    RelayedSmallBridge.id RelayedSmallBridge.id tt SmallBridge.lane0 tt SmallBridge.bridged
    (RelayersState 1 1 1 1) (MessagesDeliveryProof_ tt [tt] SmallBridge.lane0) SmallBridge.received)
    as (_ & Hver & _); try done.
  - apply RelayedSmallBridge.node_is_honest.
  - exact SmallBridge.bridged_storage.
Defined.
