(* ===== verification/FinalityLoop.v ===== *)
(** * relays/finality/src/finality_loop.rs: the finality relay

    The loop that submits headers with their finality proofs to the target chain: how the
    missing headers are read, which header is selected, how the proofs of the stream are
    buffered, and the loop itself.  The two clients are parameters of one iteration, which
    reads each of them at one moment.  Durations are not modelled. *)

From S2P Require Import Prelude RuntimePrimitives RelayUtils.
From stdpp Require Import base numbers list relations.
Local Open Scope Z_scope.

(** ** [slice::binary_search_by_key]

    [inl] is the index of an element with the key, [inr] the index where it could be
    inserted. *)
Fixpoint binary_search_loop {A : Type} (fuel : nat) (f : A -> Z) (l : list A) (key : Z)
  (left right : nat) : nat + nat :=
  match fuel with
  | O => inr left
  | S fuel =>
      if (left <? right)%nat then
        let mid := (left + (right - left) / 2)%nat in
        match l !! mid with
        | Some x =>
            match f x ?= key with
            | Lt => binary_search_loop fuel f l key (mid + 1) right
            | Gt => binary_search_loop fuel f l key left mid
            | Eq => inl mid
            end
        | None => inr left
        end
      else inr left
  end.

Definition binary_search_by_key {A : Type} (f : A -> Z) (l : list A) (key : Z) : nat + nat :=
  binary_search_loop (S (length l)) f l key 0 (length l).

(** [FinalitySyncParams]; the interval and the stall timeout are durations. *)
Record FinalitySyncParams := SyncParams {
  recent_finality_proofs_limit : nat;
  only_mandatory_headers : bool;
}.

(** ** Clients and errors *)

(** [SourceHeader] and [FinalityProof]. *)
Class FinalitySyncPipeline (Header FinalityProof Hash : Type) := {
  source_header_number : Header -> Z;
  source_header_hash : Header -> Hash;
  is_mandatory : Header -> bool;
  target_header_number : FinalityProof -> Z;
}.

Inductive FinalityError (SE TE : Type) :=
| SourceError (e : SE)
| TargetError (e : TE)
| MissingMandatoryFinalityProof (number : Z).
Arguments SourceError {SE TE} _.
Arguments TargetError {SE TE} _.
Arguments MissingMandatoryFinalityProof {SE TE} _.

Section FinalityLoop.
Context {Header FinalityProof Hash SE TE : Type}.
Context `{!FinalitySyncPipeline Header FinalityProof Hash} `{EqDecision Hash}.
Context `{SE_class : MaybeConnectionError SE} `{TE_class : MaybeConnectionError TE}.
Abbreviation Error := (FinalityError SE TE).

(** [Error::fail_if_connection_error]. *)
Definition error_fail_if_connection_error (e : Error) : outcome FailedClient unit :=
  match e with
  | SourceError error => if is_connection_error error then Err FailedSource else Ok tt
  | TargetError error => if is_connection_error error then Err FailedTarget else Ok tt
  | MissingMandatoryFinalityProof _ => Ok tt
  end.

(** ** The stream of proofs *)

(** What the stream can give without waiting, and whether it ends then. *)
Record RestartableFinalityProofsStream := ProofsStream {
  needs_restart : bool;
  ready_proofs : list FinalityProof;
  stream_ended : bool;
}.

Definition next (s : RestartableFinalityProofsStream) :
  option FinalityProof * RestartableFinalityProofsStream :=
  match ready_proofs s with
  | finality_proof :: rest =>
      (Some finality_proof, ProofsStream (needs_restart s) rest (stream_ended s))
  | [] =>
      if stream_ended s then (None, ProofsStream true [] true)
      else (None, s)
  end.

Definition from_stream (ready : list FinalityProof) (ended : bool) :
  RestartableFinalityProofsStream := ProofsStream false ready ended.

(** [restart_if_scheduled]: [raw] is the answer of [source_client.finality_proofs()]. *)
Definition restart_if_scheduled (raw : list FinalityProof * bool + SE)
  (s : RestartableFinalityProofsStream) : outcome FailedClient RestartableFinalityProofsStream :=
  if needs_restart s then
    match raw with
    | inl (ready, ended) => Ok (from_stream ready ended)
    | inr _ => Err FailedSource
    end
  else Ok s.

Abbreviation FinalityProofs := (list (Z * FinalityProof)).

(** The loop of [read_finality_proofs_from_stream]. *)
Fixpoint read_proofs_loop (fuel : nat) (s : RestartableFinalityProofsStream)
  (recent_finality_proofs : FinalityProofs) : RestartableFinalityProofsStream * FinalityProofs :=
  match fuel, next s with
  | S fuel, (Some finality_proof, s) =>
      read_proofs_loop fuel s
        (recent_finality_proofs ++ [(target_header_number finality_proof, finality_proof)])
  | _, (_, s) => (s, recent_finality_proofs)
  end.

Definition read_finality_proofs_from_stream (s : RestartableFinalityProofsStream)
  (recent_finality_proofs : FinalityProofs) : RestartableFinalityProofsStream * FinalityProofs :=
  read_proofs_loop (S (length (ready_proofs s))) s recent_finality_proofs.

(** ** Missing headers *)

Inductive SelectedFinalityProof :=
| SelectedMandatory (header : Header) (finality_proof : FinalityProof)
| SelectedRegular (unjustified_headers : list Header) (header : Header)
    (finality_proof : FinalityProof)
| SelectedNone (unjustified_headers : list Header).

Section Source.
Context (header_and_finality_proof : Z -> outcome SE (Header * option FinalityProof)).

(** The loop of [read_missing_headers] over the numbers [best_number_at_target + 1] to
    [best_number_at_source]. *)
Fixpoint read_missing_loop (numbers : list Z) (unjustified_headers : list Header)
  (selected_finality_proof : option (Header * FinalityProof)) :
  outcome Error SelectedFinalityProof :=
  match numbers with
  | [] =>
      Ok (match selected_finality_proof with
          | Some (header, proof) => SelectedRegular unjustified_headers header proof
          | None => SelectedNone unjustified_headers
          end)
  | header_number :: numbers =>
      let? (header, finality_proof) :=
        map_err SourceError (header_and_finality_proof header_number) in
      match is_mandatory header, finality_proof with
      | true, Some finality_proof => Ok (SelectedMandatory header finality_proof)
      | true, None => Err (MissingMandatoryFinalityProof (source_header_number header))
      | false, Some finality_proof => read_missing_loop numbers [] (Some (header, finality_proof))
      | false, None =>
          read_missing_loop numbers (unjustified_headers ++ [header]) selected_finality_proof
      end
  end.

Definition read_missing_headers (best_number_at_source best_number_at_target : Z) :
  outcome Error SelectedFinalityProof :=
  read_missing_loop (seqZ (best_number_at_target + 1) (best_number_at_source - best_number_at_target))
    [] None.

(** ** Selection *)

Definition select_better_recent_finality_proof (recent_finality_proofs : FinalityProofs)
  (unjustified_headers : list Header)
  (selected_finality_proof : option (Header * FinalityProof)) :
  outcome Error (option (Header * FinalityProof)) :=
  match head unjustified_headers, last unjustified_headers,
        head recent_finality_proofs, last recent_finality_proofs with
  | Some first_unjustified, Some last_unjustified, Some first_recent, Some last_recent =>
      let intersection_begin := Z.max (source_header_number first_unjustified) first_recent.1 in
      let intersection_end := Z.min (source_header_number last_unjustified) last_recent.1 in
      let selected_finality_proof_index :=
        match binary_search_by_key fst recent_finality_proofs intersection_end with
        | inl index => index
        | inr index => (index - 1)%nat
        end in
      let? (selected_header_number, finality_proof) :=
        expect (recent_finality_proofs !! selected_finality_proof_index) in
      if (intersection_begin <=? selected_header_number) &&
         (selected_header_number <=? intersection_end) then
        match binary_search_by_key source_header_number unjustified_headers
                selected_header_number with
        | inl selected_header_position =>
            let? selected_header := expect (unjustified_headers !! selected_header_position) in
            Ok (Some (selected_header, finality_proof))
        | inr _ => Panic
        end
      else Ok selected_finality_proof
  | _, _, _, _ => Ok selected_finality_proof
  end.

Definition prune_recent_finality_proofs (justified_header_number : Z)
  (recent_finality_proofs : FinalityProofs) (limit : nat) : FinalityProofs :=
  let justified_header_idx :=
    match binary_search_by_key fst recent_finality_proofs justified_header_number with
    | inl idx => (idx + 1)%nat
    | inr idx => idx
    end in
  let proofs_limit_idx := (length recent_finality_proofs - limit)%nat in
  drop (Nat.max justified_header_idx proofs_limit_idx) recent_finality_proofs.

Definition select_header_to_submit (sync_params : FinalitySyncParams)
  (best_number_at_source best_number_at_target : Z) (s : RestartableFinalityProofsStream)
  (recent_finality_proofs : FinalityProofs) :
  outcome Error (option (Header * FinalityProof) * RestartableFinalityProofsStream * FinalityProofs) :=
  let? selected := read_missing_headers best_number_at_source best_number_at_target in
  let select_recent unjustified_headers selected_finality_proof :=
    let '(s, recent_finality_proofs) :=
      read_finality_proofs_from_stream s recent_finality_proofs in
    let? selected_finality_proof :=
      select_better_recent_finality_proof recent_finality_proofs unjustified_headers
        selected_finality_proof in
    let oldest_finality_proof_to_keep :=
      match selected_finality_proof with
      | Some (header, _) => source_header_number header
      | None => best_number_at_target
      end in
    Ok (selected_finality_proof, s,
        prune_recent_finality_proofs oldest_finality_proof_to_keep recent_finality_proofs
          (recent_finality_proofs_limit sync_params)) in
  match selected with
  | SelectedMandatory header finality_proof =>
      Ok (Some (header, finality_proof), s, recent_finality_proofs)
  | SelectedRegular unjustified_headers header finality_proof =>
      if only_mandatory_headers sync_params then Ok (None, s, recent_finality_proofs)
      else select_recent unjustified_headers (Some (header, finality_proof))
  | SelectedNone unjustified_headers =>
      if only_mandatory_headers sync_params then Ok (None, s, recent_finality_proofs)
      else select_recent unjustified_headers None
  end.

(** [ensure_same_fork]. *)
Definition ensure_same_fork (best_id_at_target : HeaderId Hash) : outcome SE (option Hash) :=
  let? (header_at_source, _) :=
    header_and_finality_proof (header_number best_id_at_target) in
  let header_hash_at_source := source_header_hash header_at_source in
  Ok (if decide (header_hash best_id_at_target = header_hash_at_source) then None
      else Some header_hash_at_source).
End Source.

(** ** The loop *)

(** What the clients answer in one iteration. *)
Record clients := Clients {
  best_finalized_block_number : outcome SE Z;
  best_finalized_source_block_id : outcome TE (HeaderId Hash);
  header_and_finality_proof : Z -> outcome SE (Header * option FinalityProof);
  submit_finality_proof : Header -> FinalityProof -> outcome TE unit;
}.

(** [Transaction::submit]: the number of the submitted header. *)
Definition transaction_submit (c : clients) (header : Header) (justification : FinalityProof) :
  outcome TE Z :=
  let submitted_header_number := source_header_number header in
  check? submit_finality_proof c header justification in
  Ok submitted_header_number.

(** [Transaction::track]: [true] if the transaction did what it was meant to.  [best_id]
    is the answer of [best_finalized_source_block_id] after the transaction. *)
Definition transaction_track (submitted_header_number : Z)
  (status : TrackedTransactionStatus (HeaderId Hash)) (best_id : HeaderId Hash + TE) : bool :=
  match status with
  | Finalized _ =>
      match best_id with
      | inl best_id_at_target => submitted_header_number <=? header_number best_id_at_target
      | inr _ => false
      end
  | Lost => false
  end.

(** The variables of [run_until_connection_lost]; [tracked] is the header of the transaction that
    [last_transaction_tracker] waits for. *)
Record loop_state := LoopState {
  finality_proofs_stream : RestartableFinalityProofsStream;
  recent_finality_proofs : FinalityProofs;
  last_submitted_header_number : option Z;
  tracked : option Z;
}.

(** The stream and the buffer are changed in place, also when the submission fails. *)
Definition run_loop_iteration (sync_params : FinalitySyncParams) (c : clients) (st : loop_state) :
  outcome Error (option Z) * RestartableFinalityProofsStream * FinalityProofs :=
  let s := finality_proofs_stream st in
  let recent := recent_finality_proofs st in
  let heads :=
    let? best_number_at_source := map_err SourceError (best_finalized_block_number c) in
    let? best_id_at_target := map_err TargetError (best_finalized_source_block_id c) in
    check? map_err SourceError (ensure_same_fork (header_and_finality_proof c) best_id_at_target) in
    Ok (best_number_at_source, header_number best_id_at_target) in
  match heads with
  | Ok (best_number_at_source, best_number_at_target) =>
      let wait :=
        match last_submitted_header_number st with
        | Some submitted_header_number => best_number_at_target <? submitted_header_number
        | None => false
        end in
      if wait then (Ok None, s, recent)
      else
        match select_header_to_submit (header_and_finality_proof c) sync_params
                best_number_at_source best_number_at_target s recent with
        | Ok (Some (header, justification), s, recent) =>
            (let? number := map_err TargetError (transaction_submit c header justification) in
             Ok (Some number), s, recent)
        | Ok (None, s, recent) => (Ok None, s, recent)
        | Err e => (Err e, s, recent)
        | Panic => (Panic, s, recent)
        end
  | Err e => (Err e, s, recent)
  | Panic => (Panic, s, recent)
  end.

(** What ends the waiting at the end of a turn. *)
Inductive wake :=
| WakeTransaction (status : TrackedTransactionStatus (HeaderId Hash)) (best_id : HeaderId Hash + TE)
| WakeTick
| WakeExit.

(** The environment of a turn: the proofs that the stream has got meanwhile, the answers of the
    clients, the new stream if it has to be restarted, and what wakes the loop up. *)
Record turn := Turn {
  arrived : list FinalityProof;
  arrived_end : bool;
  turn_clients : clients;
  raw_stream : list FinalityProof * bool + SE;
  turn_wake : wake;
}.

Definition extend_stream (ready : list FinalityProof) (ended : bool)
  (s : RestartableFinalityProofsStream) : RestartableFinalityProofsStream :=
  if stream_ended s then s
  else ProofsStream (needs_restart s) (ready_proofs s ++ ready) ended.

(** The end of a turn: the stream is restarted if it has ended, and the loop waits. *)
Definition finish_turn (t : turn) (s : RestartableFinalityProofsStream) (recent : FinalityProofs)
  (last_submitted tracked : option Z) : outcome FailedClient (option loop_state) :=
  let? s := restart_if_scheduled (raw_stream t) s in
  match turn_wake t with
  | WakeTransaction status best_id =>
      match tracked with
      | Some number =>
          if transaction_track number status best_id
          then Ok (Some (LoopState s recent last_submitted None))
          else Err FailedBoth
      | None => Ok (Some (LoopState s recent last_submitted None))
      end
  | WakeTick => Ok (Some (LoopState s recent last_submitted tracked))
  | WakeExit => Ok None
  end.

(** A turn of the loop: [Ok None] is the exit. *)
Definition loop_turn (sync_params : FinalitySyncParams) (t : turn) (st : loop_state) :
  outcome FailedClient (option loop_state) :=
  let st := LoopState (extend_stream (arrived t) (arrived_end t) (finality_proofs_stream st))
              (recent_finality_proofs st) (last_submitted_header_number st) (tracked st) in
  let '(iteration_result, s, recent) := run_loop_iteration sync_params (turn_clients t) st in
  let? (last_submitted, tracked) :=
    match iteration_result with
    | Ok (Some updated_transaction) => Ok (Some updated_transaction, Some updated_transaction)
    | Ok None => Ok (last_submitted_header_number st, tracked st)
    | Err error =>
        check? error_fail_if_connection_error error in
        Ok (last_submitted_header_number st, tracked st)
    | Panic => Panic
    end in
  finish_turn t s recent last_submitted tracked.

(** [run_until_connection_lost] before its loop. *)
Definition loop_start (raw : list FinalityProof * bool + SE) : outcome FailedClient loop_state :=
  match raw with
  | inl (ready, ended) => Ok (LoopState (from_stream ready ended) [] None None)
  | inr _ => Err FailedSource
  end.
End FinalityLoop.

(** ** Binary search *)

Section BinarySearch.
Context {A : Type} (f : A -> Z).

Definition sorted_by (l : list A) : Prop :=
  forall i j x y, (i <= j)%nat -> l !! i = Some x -> l !! j = Some y -> f x <= f y.

Definition search_post (l : list A) (key : Z) (r : nat + nat) : Prop :=
  match r with
  | inl i => exists x, l !! i = Some x /\ f x = key
  | inr i => (i <= length l)%nat /\
      (forall j x, l !! j = Some x -> (j < i)%nat -> f x < key) /\
      (forall j x, l !! j = Some x -> (i <= j)%nat -> key < f x)
  end.

Lemma binary_search_loop_spec (l : list A) (key : Z) (fuel left right : nat) :
  sorted_by l -> (left <= right <= length l)%nat -> (right - left < fuel)%nat ->
  (forall j x, l !! j = Some x -> (j < left)%nat -> f x < key) ->
  (forall j x, l !! j = Some x -> (right <= j)%nat -> key < f x) ->
  search_post l key (binary_search_loop fuel f l key left right).
Proof.
  intros Hs. revert left right. induction fuel as [|fuel IH]; intros left right Hlr Hf Hl Hr; [lia|].
  cbn [binary_search_loop]. destruct (Nat.ltb_spec left right) as [Hlt|Hge].
  - set (mid := (left + (right - left) / 2)%nat).
    assert ((right - left) / 2 < right - left)%nat by (apply Nat.div_lt; lia).
    assert (left <= mid < right)%nat as Hmid by (unfold mid; lia). clearbody mid.
    destruct (lookup_lt_is_Some_2 l mid) as [x Hx]; [lia|]. rewrite Hx.
    destruct (Z.compare_spec (f x) key) as [Heq|Hltk|Hgtk].
    + by exists x.
    + apply IH; [lia|lia| |done]. intros j y Hy Hj.
      pose proof (Hs j mid y x ltac:(lia) Hy Hx). lia.
    + apply IH; [lia|lia|done|]. intros j y Hy Hj.
      pose proof (Hs mid j x y ltac:(lia) Hx Hy). lia.
  - split_and!; [lia|done|]. intros j x Hx Hj. apply (Hr j x Hx). lia.
Qed.

Lemma binary_search_spec (l : list A) (key : Z) :
  sorted_by l -> search_post l key (binary_search_by_key f l key).
Proof.
  intros Hs. apply binary_search_loop_spec; [done|lia|lia| |].
  - intros j x _ Hj. lia.
  - intros j x Hx Hj. apply lookup_lt_Some in Hx. lia.
Qed.

Lemma sorted_by_bounds (l : list A) (x y z : A) :
  sorted_by l -> head l = Some x -> last l = Some y -> z ∈ l -> f x <= f z <= f y.
Proof.
  intros Hs Hx Hy [j Hj]%list_elem_of_lookup. rewrite last_lookup in Hy. rewrite head_lookup in Hx.
  apply lookup_lt_Some in Hj as Hlt. split.
  - by apply (Hs 0%nat j); [lia|..].
  - by apply (Hs j (Nat.pred (length l))); [lia|..].
Qed.

(** Also on a list that is not sorted the result is an index of the list, or its length. *)
Lemma binary_search_index (l : list A) (key : Z) :
  match binary_search_by_key f l key with
  | inl i => exists x, l !! i = Some x /\ f x = key
  | inr i => (i <= length l)%nat
  end.
Proof.
  unfold binary_search_by_key.
  assert (forall fuel left right, (left <= right <= length l)%nat ->
    match binary_search_loop fuel f l key left right with
    | inl i => exists x, l !! i = Some x /\ f x = key
    | inr i => (i <= length l)%nat
    end) as Hgen; [|apply Hgen; lia].
  induction fuel as [|fuel IH]; intros left right Hlr; [simpl; lia|].
  cbn [binary_search_loop]. destruct (Nat.ltb_spec left right) as [Hlt|]; [|lia].
  pose proof (Nat.div_lt (right - left) 2 ltac:(lia) ltac:(lia)).
  destruct (l !! _) as [x|] eqn:Hx; [|lia].
  destruct (Z.compare_spec (f x) key); [by exists x| |]; apply IH; lia.
Qed.
End BinarySearch.

(** ** Missing headers are read up to the first mandatory one *)

Section Selection.
Context {Header FinalityProof Hash SE TE : Type}.
Context `{!FinalitySyncPipeline Header FinalityProof Hash} `{EqDecision Hash}.
Abbreviation FinalityProofs := (list (Z * FinalityProof)).
Abbreviation Stream := (RestartableFinalityProofsStream (FinalityProof := FinalityProof)).
Context (source : Z -> outcome SE (Header * option FinalityProof)).

(** The source node answers with the header that it was asked for, and with a proof for it. *)
Record honest_source : Prop := {
  hs_number n header proof : source n = Ok (header, proof) -> source_header_number header = n;
  hs_proof n header proof : source n = Ok (header, Some proof) -> target_header_number proof = n;
  hs_answers n : source n <> Panic;
}.

(** The header [n] is not mandatory. *)
Definition plain (n : Z) : Prop :=
  exists header proof, source n = Ok (header, proof) /\ is_mandatory header = false.

(** The header [n] has no proof that the source node keeps. *)
Definition unjustified (n : Z) (header : Header) : Prop :=
  source n = Ok (header, None) /\ is_mandatory header = false.

(** The headers in [u] are all the headers of [a], [a + 1], ..., [hi]. *)
Definition unjustified_range (a hi : Z) (u : list Header) : Prop :=
  Forall2 unjustified (seqZ a (hi - a + 1)) u.

(** What is read after all headers above [t] and up to [hi] have been seen. *)
Definition read_so_far (t hi : Z) (u : list Header) (sel : option (Header * FinalityProof)) : Prop :=
  (forall n, t < n <= hi -> plain n) /\
  exists a, t < a <= Z.max t hi + 1 /\ unjustified_range a hi u /\
    match sel with
    | Some (header, proof) =>
        t < a - 1 /\ source (a - 1) = Ok (header, Some proof) /\ is_mandatory header = false
    | None => a = t + 1
    end.

Definition missing_post (t s : Z) (r : outcome (FinalityError SE TE) SelectedFinalityProof) : Prop :=
  match r with
  | Ok (SelectedMandatory header proof) =>
      exists n, t < n <= s /\ source n = Ok (header, Some proof) /\ is_mandatory header = true /\
        forall m, t < m < n -> plain m
  | Ok (SelectedRegular u header proof) => read_so_far t s u (Some (header, proof))
  | Ok (SelectedNone u) => read_so_far t s u None
  | Err (MissingMandatoryFinalityProof n) =>
      t < n <= s /\ (exists header, source n = Ok (header, None) /\ is_mandatory header = true) /\
      forall m, t < m < n -> plain m
  | Err (SourceError e) => exists n, t < n <= s /\ source n = Err e /\ forall m, t < m < n -> plain m
  | Err (TargetError _) | Panic => False
  end.

Lemma read_so_far_step (t lo : Z) u sel header proof :
  read_so_far t (lo - 1) u sel -> t < lo ->
  source lo = Ok (header, proof) -> is_mandatory header = false ->
  match proof with
  | Some proof => read_so_far t lo [] (Some (header, proof))
  | None => read_so_far t lo (u ++ [header]) sel
  end.
Proof.
  intros [Hplain (a & Ha & Hu & Hsel)] Hlo Hsrc Hm.
  assert (forall n, t < n <= lo -> plain n) as Hplain'.
  { intros n Hn. destruct (decide (n = lo)) as [->|]; [by exists header, proof|]. apply Hplain. lia. }
  destruct proof as [proof|].
  - split; [done|]. exists (lo + 1). split; [lia|]. split.
    + unfold unjustified_range. replace (lo - (lo + 1) + 1) with 0 by lia. by constructor.
    + replace (lo + 1 - 1) with lo by lia. split; [lia|done].
  - split; [done|]. exists a. split; [lia|]. split; [|done]. unfold unjustified_range in *.
    replace (lo - a + 1) with ((lo - 1 - a + 1) + 1) by lia. rewrite seqZ_app by lia.
    apply Forall2_app; [done|]. replace (a + (lo - 1 - a + 1)) with lo by lia.
    apply Forall2_cons. split; [done|]. by constructor.
Qed.

Lemma read_missing_loop_spec (t s : Z) (k : nat) u sel :
  honest_source -> Z.of_nat k <= s - t ->
  read_so_far t (s - Z.of_nat k) u sel ->
  missing_post t s
    (read_missing_loop source (seqZ (s - Z.of_nat k + 1) (Z.of_nat k)) u sel).
Proof.
  intros Hh. revert u sel. induction k as [|k IH]; intros u sel Hk Hread.
  - change (Z.of_nat 0) with 0 in *. rewrite Z.sub_0_r in Hread. by destruct sel as [[header proof]|].
  - rewrite seqZ_cons by lia. set (lo := s - Z.of_nat (S k) + 1).
    assert (lo = s - Z.of_nat (S k) + 1) as Hlo by done. clearbody lo. cbn [read_missing_loop].
    assert (read_so_far t (lo - 1) u sel) as Hread'.
    { by replace (lo - 1) with (s - Z.of_nat (S k)) by lia. }
    assert (forall m, t < m < lo -> plain m) as Hplain.
    { destruct Hread' as [Hp _]. intros m Hm. apply Hp. lia. }
    destruct (source lo) as [[header proof]|e|] eqn:Hsrc; simpl.
    + destruct (is_mandatory header) eqn:Hm.
      * destruct proof as [proof|].
        -- exists lo. split_and!; [lia|lia|done..].
        -- pose proof (hs_number Hh _ _ _ Hsrc) as ->. split_and!; [lia|lia|by exists header|done].
      * pose proof (read_so_far_step t lo u sel header proof Hread' ltac:(lia) Hsrc Hm) as Hstep.
        replace (Z.succ lo) with (s - Z.of_nat k + 1) by lia.
        replace (Z.pred (Z.of_nat (S k))) with (Z.of_nat k) by lia.
        destruct proof as [proof|]; (apply IH; [lia|]; by replace (s - Z.of_nat k) with lo by lia).
    + exists lo. split_and!; [lia|lia|done..].
    + by apply (hs_answers Hh lo).
Qed.

Lemma read_missing_headers_spec (t s : Z) :
  honest_source -> missing_post t s (read_missing_headers source s t).
Proof.
  intros Hh. unfold read_missing_headers. destruct (decide (t <= s)) as [Hle|Hgt]; cycle 1.
  { rewrite seqZ_nil by lia. split; [lia|]. exists (t + 1). split; [lia|]. split; [|done].
    unfold unjustified_range. rewrite seqZ_nil by lia. by constructor. }
  pose proof (read_missing_loop_spec t s (Z.to_nat (s - t)) [] None Hh ltac:(lia)) as Hspec.
  rewrite Z2Nat.id in Hspec by lia. replace (s - (s - t) + 1) with (t + 1) in Hspec by lia.
  apply Hspec. replace (s - (s - t)) with t by lia. split; [lia|]. exists (t + 1).
  split; [lia|]. split; [|done]. unfold unjustified_range. replace (t - (t + 1) + 1) with 0 by lia.
  by constructor.
Qed.

(** ** The best proof of the buffer *)

Lemma unjustified_lookup (a hi : Z) (u : list Header) (i : nat) header :
  honest_source -> unjustified_range a hi u -> u !! i = Some header ->
  unjustified (a + Z.of_nat i) header /\ a + Z.of_nat i <= hi /\
  source_header_number header = a + Z.of_nat i.
Proof.
  intros Hh Hu Hi. destruct (Forall2_lookup_r _ _ _ _ _ Hu Hi) as (n & Hn & Hun).
  apply lookup_seqZ in Hn as [-> Hlt]. split; [done|]. split; [lia|].
  destruct Hun as [Hsrc _]. by apply (hs_number Hh _ _ _ Hsrc).
Qed.

Lemma unjustified_length (a hi : Z) (u : list Header) :
  unjustified_range a hi u -> length u = Z.to_nat (hi - a + 1).
Proof. intros Hu. apply Forall2_length in Hu. by rewrite length_seqZ in Hu. Qed.

Lemma unjustified_sorted (a hi : Z) (u : list Header) :
  honest_source -> unjustified_range a hi u -> sorted_by source_header_number u.
Proof.
  intros Hh Hu i j x y Hij Hx Hy.
  destruct (unjustified_lookup _ _ _ _ _ Hh Hu Hx) as (_ & _ & ->).
  destruct (unjustified_lookup _ _ _ _ _ Hh Hu Hy) as (_ & _ & ->). lia.
Qed.

(** The header of a number in the range is found. *)
Lemma unjustified_found (a hi n : Z) (u : list Header) :
  honest_source -> unjustified_range a hi u -> a <= n <= hi ->
  exists i header, binary_search_by_key source_header_number u n = inl i /\
    u !! i = Some header /\ unjustified n header.
Proof.
  intros Hh Hu Hn. pose proof (binary_search_spec source_header_number u n (unjustified_sorted _ _ _ Hh Hu)) as Hs.
  destruct (lookup_lt_is_Some_2 u (Z.to_nat (n - a))) as [x Hx].
  { rewrite (unjustified_length _ _ _ Hu). lia. }
  destruct (unjustified_lookup _ _ _ _ _ Hh Hu Hx) as (_ & _ & Hnum).
  destruct (binary_search_by_key _ _ _) as [i|i]; simpl in Hs.
  - destruct Hs as (header & Hi & Hkey). exists i, header. split_and!; [done..|].
    destruct (unjustified_lookup _ _ _ _ _ Hh Hu Hi) as (Hun & _ & Hnum').
    by replace n with (a + Z.of_nat i) by lia.
  - destruct Hs as (_ & Hlt & Hgt). destruct (decide (Z.to_nat (n - a) < i)%nat).
    + specialize (Hlt _ _ Hx ltac:(done)). lia.
    + specialize (Hgt _ _ Hx ltac:(lia)). lia.
Qed.

Definition recent_index (recent : FinalityProofs) (key : Z) : nat :=
  match binary_search_by_key fst recent key with inl index => index | inr index => (index - 1)%nat end.

Lemma recent_index_lookup (recent : FinalityProofs) (key : Z) :
  recent <> [] -> is_Some (recent !! recent_index recent key).
Proof.
  intros Hne. unfold recent_index. pose proof (binary_search_index fst recent key) as Hi.
  destruct (binary_search_by_key _ _ _) as [i|i].
  - destruct Hi as (x & Hx & _). by exists x.
  - apply lookup_lt_is_Some. destruct recent; [done|]. simpl in *. lia.
Qed.

(** In a sorted buffer it is the last proof that is not above the key. *)
Lemma recent_index_best (recent : FinalityProofs) (key n : Z) proof :
  sorted_by fst recent -> (n, proof) ∈ recent -> n <= key ->
  exists e, recent !! recent_index recent key = Some e /\ n <= e.1 <= key.
Proof.
  intros Hs [j Hj]%list_elem_of_lookup Hn. pose proof (binary_search_spec fst recent key Hs) as Hb.
  unfold recent_index. destruct (binary_search_by_key _ _ _) as [i|i]; simpl in Hb.
  - destruct Hb as (e & He & Hkey). exists e. split; [done|]. simpl in *. lia.
  - destruct Hb as (Hi & Hlt & Hgt).
    assert (j < i)%nat as Hji.
    { destruct (decide (j < i)%nat); [done|]. specialize (Hgt _ _ Hj ltac:(lia)). simpl in Hgt. lia. }
    destruct (lookup_lt_is_Some_2 recent (i - 1)) as [e He]; [lia|]. exists e. split; [done|].
    pose proof (Hs j (i - 1)%nat _ _ ltac:(lia) Hj He). specialize (Hlt _ _ He ltac:(lia)).
    simpl in *. lia.
Qed.

(** What is selected: the proof found before, or a proof of the buffer for a header that
    has none; in a sorted buffer, the best of them. *)
Lemma select_better_spec (a s : Z) (u : list Header) (recent : FinalityProofs)
  (sel : option (Header * FinalityProof)) :
  honest_source -> unjustified_range a s u ->
  exists r, select_better_recent_finality_proof (SE := SE) (TE := TE) recent u sel = Ok r /\
    (r = sel \/ exists n header proof, r = Some (header, proof) /\ (n, proof) ∈ recent /\
       a <= n <= s /\ unjustified n header) /\
    (sorted_by fst recent -> forall n proof, (n, proof) ∈ recent -> a <= n <= s ->
       exists header proof', r = Some (header, proof') /\ n <= source_header_number header).
Proof.
  intros Hh Hu. unfold select_better_recent_finality_proof.
  destruct u as [|first_u u'] eqn:Eu.
  { exists sel. split; [done|]. split; [by left|]. intros _ n proof _ Hn.
    apply unjustified_length in Hu. simpl in Hu. lia. }
  rewrite <- Eu in *. destruct (last u) as [last_u|] eqn:Hlast_u; [|by apply last_None in Hlast_u; subst].
  destruct recent as [|first_r recent'] eqn:Er.
  { rewrite Eu. simpl. exists sel. split; [done|]. split; [by left|].
    intros _ n proof Hin. by apply not_elem_of_nil in Hin. }
  rewrite <- Er in *.
  destruct (last recent) as [last_r|] eqn:Hlast_r; [|by apply last_None in Hlast_r; subst].
  assert (source_header_number first_u = a) as Hfirst.
  { assert (u !! 0%nat = Some first_u) as H0 by by rewrite Eu.
    destruct (unjustified_lookup _ _ _ _ _ Hh Hu H0) as (_ & _ & ->). lia. }
  assert (source_header_number last_u = s) as Hlast.
  { rewrite last_lookup in Hlast_u. destruct (unjustified_lookup _ _ _ _ _ Hh Hu Hlast_u) as (_ & _ & ->).
    rewrite (unjustified_length _ _ _ Hu). apply unjustified_length in Hu.
    assert (length u <> 0)%nat by by rewrite Eu. lia. }
  replace (head u) with (Some first_u) by by rewrite Eu.
  replace (head recent) with (Some first_r) by by rewrite Er.
  rewrite Hfirst, Hlast. fold (recent_index recent (Z.min s last_r.1)).
  destruct (recent_index_lookup recent (Z.min s last_r.1)) as [[n proof] Hi]; [by rewrite Er|].
  rewrite Hi. simpl.
  destruct ((Z.max a first_r.1 <=? n) && (n <=? Z.min s last_r.1)) eqn:Hin.
  - destruct (unjustified_found a s n u Hh Hu) as (i & header & -> & Hheader & Hun); [lia|].
    rewrite Hheader. simpl. exists (Some (header, proof)). split; [done|]. split.
    + right. exists n, header, proof. split_and!; [done| |lia|lia|done]. by eapply list_elem_of_lookup_2.
    + intros Hs m q Hm Hrange. exists header, proof. split; [done|].
      destruct Hun as [Hsrc _]. rewrite (hs_number Hh _ _ _ Hsrc).
      destruct (recent_index_best recent (Z.min s last_r.1) m q Hs Hm) as (e & He & Hle).
      * destruct (sorted_by_bounds _ _ first_r last_r (m, q) Hs); [by rewrite Er|done..|]. simpl in *. lia.
      * assert (e = (n, proof)) as -> by congruence. simpl in Hle. lia.
  - exists sel. split; [done|]. split; [by left|]. intros Hs m q Hm Hrange. exfalso.
    assert (first_r.1 <= m <= last_r.1) as Hmr.
    { apply (sorted_by_bounds fst recent first_r last_r (m, q) Hs); [by rewrite Er|done..]. }
    destruct (recent_index_best recent (Z.min s last_r.1) m q Hs Hm) as (e & He & Hle); [lia|].
    assert (e = (n, proof)) as -> by congruence. simpl in Hle. lia.
Qed.

Definition label (proof : FinalityProof) : Z * FinalityProof := (target_header_number proof, proof).

(** Everything that is ready in the stream goes to the buffer. *)
Lemma read_stream_spec (st : Stream) (recent : FinalityProofs) :
  read_finality_proofs_from_stream st recent =
    (ProofsStream (stream_ended st || needs_restart st) [] (stream_ended st),
     recent ++ (label <$> ready_proofs st)).
Proof.
  destruct st as [restart ready ended]. unfold read_finality_proofs_from_stream. simpl ready_proofs.
  revert recent. induction ready as [|proof ready IH]; intros recent.
  - simpl. unfold next. simpl. rewrite app_nil_r. destruct ended; [done|by destruct restart].
  - change (read_proofs_loop _ _ recent) with
      (read_proofs_loop (S (length ready)) (ProofsStream restart ready ended) (recent ++ [label proof])).
    rewrite IH, fmap_cons, <- app_assoc. done.
Qed.

Lemma prune_suffix (n : Z) (recent : FinalityProofs) (limit : nat) :
  exists k, prune_recent_finality_proofs n recent limit = drop k recent.
Proof. by eexists. Qed.

Lemma prune_length (n : Z) (recent : FinalityProofs) (limit : nat) :
  (length (prune_recent_finality_proofs n recent limit) <= limit)%nat.
Proof. unfold prune_recent_finality_proofs. rewrite length_drop. lia. Qed.

(** A proof for a header above the justified one is only dropped because of the limit. *)
Lemma prune_keeps (n : Z) (recent : FinalityProofs) (limit i : nat) e :
  sorted_by fst recent -> recent !! i = Some e -> n < e.1 -> (length recent - limit <= i)%nat ->
  e ∈ prune_recent_finality_proofs n recent limit.
Proof.
  intros Hs Hi Hn Hlim. unfold prune_recent_finality_proofs.
  set (j := match _ with inl idx => _ | inr idx => _ end).
  assert (j <= i)%nat as Hj.
  { pose proof (binary_search_spec fst recent n Hs) as Hb. unfold j.
    destruct (binary_search_by_key _ _ _) as [idx|idx]; simpl in Hb.
    - destruct Hb as (x & Hx & Hkey). destruct (decide (i <= idx)%nat) as [Hle|]; [|lia].
      pose proof (Hs _ _ _ _ Hle Hi Hx). lia.
    - destruct Hb as (_ & Hlt & _). destruct (decide (i < idx)%nat) as [Hlt'|]; [|lia].
      specialize (Hlt _ _ Hi Hlt'). lia. }
  apply (list_elem_of_lookup_2 _ (i - Nat.max j (length recent - limit))).
  rewrite lookup_drop. by replace (_ + _)%nat with i by lia.
Qed.

(** A proof that could be submitted for the header [n]. *)
Definition candidate (t s : Z) (recent : FinalityProofs) (n : Z) (proof : FinalityProof) : Prop :=
  t < n <= s /\ ((exists header, source n = Ok (header, Some proof)) \/ (n, proof) ∈ recent).

Definition selection_post (params : FinalitySyncParams) (s t : Z) (recent : FinalityProofs)
  (r : outcome (FinalityError SE TE) (option (Header * FinalityProof) * Stream * FinalityProofs)) :
  Prop :=
  match r with
  | Ok (Some (header, proof), _, _) =>
      let n := source_header_number header in
      t < n <= s /\ (exists proof', source n = Ok (header, proof')) /\ target_header_number proof = n /\
      (forall m, t < m < n -> plain m) /\
      (is_mandatory header = true \/
       only_mandatory_headers params = false /\ (forall m, t < m <= s -> plain m) /\
       (sorted_by fst recent -> forall m q, candidate t s recent m q -> m <= n))
  | Ok (None, _, _) =>
      (forall m, t < m <= s -> plain m) /\
      (only_mandatory_headers params = true \/
       (sorted_by fst recent -> forall m q, ~ candidate t s recent m q))
  | Err (MissingMandatoryFinalityProof n) =>
      t < n <= s /\ (exists header, source n = Ok (header, None) /\ is_mandatory header = true) /\
      forall m, t < m < n -> plain m
  | Err (SourceError e) => exists n, t < n <= s /\ source n = Err e
  | Err (TargetError _) | Panic => False
  end.

Lemma select_recent_spec (params : FinalitySyncParams) (s t : Z) u sel (recent : FinalityProofs)
  (st : Stream) (recent' : FinalityProofs) :
  honest_source -> Forall (fun e => e.1 = target_header_number e.2) recent ->
  only_mandatory_headers params = false -> read_so_far t s u sel ->
  exists r, select_better_recent_finality_proof (SE := SE) (TE := TE) recent u sel = Ok r /\
    selection_post params s t recent (Ok (r, st, recent')).
Proof.
  intros Hh Hlab Honly (Hplain & a & Ha & Hu & Hsel).
  destruct (select_better_spec a s u recent sel Hh Hu) as (r & Hr & Hcase & Hbest).
  exists r. split; [done|].
  (* a candidate is either found by the reading of headers or in the buffer *)
  assert (forall m q, candidate t s recent m q -> sorted_by fst recent ->
    exists header proof, r = Some (header, proof) /\ m <= source_header_number header) as Hmax.
  { intros m q [Hm Hc] Hs. destruct (decide (a <= m)) as [Hge|Hlt].
    - destruct Hc as [[header Hsrc]|Hin]; [|apply (Hbest Hs m q Hin); lia]. exfalso.
      destruct (lookup_lt_is_Some_2 u (Z.to_nat (m - a))) as [x Hx].
      { rewrite (unjustified_length _ _ _ Hu). lia. }
      destruct (unjustified_lookup _ _ _ _ _ Hh Hu Hx) as ([Hun _] & _).
      replace (a + Z.of_nat (Z.to_nat (m - a))) with m in Hun by lia. congruence.
    - destruct sel as [[header proof]|]; [|lia]. destruct Hsel as (_ & Hsrc & _).
      pose proof (hs_number Hh _ _ _ Hsrc) as Hnum.
      destruct Hcase as [->|(n & h & p & -> & _ & Hn & [Hun _])].
      + exists header, proof. split; [done|]. lia.
      + exists h, p. split; [done|]. rewrite (hs_number Hh _ _ _ Hun). lia. }
  destruct r as [[header proof]|]; simpl.
  - assert (source_header_number header <= s /\ t < source_header_number header /\
      (exists proof', source (source_header_number header) = Ok (header, proof')) /\
      target_header_number proof = source_header_number header) as (Hle & Hgt & Hsrc & Htarget).
    { destruct Hcase as [<-|(n & h & p & [= <- <-] & Hin & Hn & [Hun _])].
      - destruct Hsel as (Hta & Hsrc & _). pose proof (hs_number Hh _ _ _ Hsrc) as Hnum.
        pose proof (hs_proof Hh _ _ _ Hsrc). rewrite Hnum. split_and!; [lia|lia|by eexists|lia].
      - pose proof (hs_number Hh _ _ _ Hun) as ->. split_and!; [lia|lia|by eexists|].
        rewrite Forall_forall in Hlab. by specialize (Hlab _ Hin). }
    split_and!; try done.
    + intros m Hm. apply Hplain. lia.
    + right. split_and!; [done..|]. intros Hs m q Hc.
      by destruct (Hmax m q Hc Hs) as (h & p & [= <- <-] & Hm).
  - split; [done|]. right. intros Hs m q Hc. by destruct (Hmax m q Hc Hs) as (h & p & ? & _).
Qed.

Lemma select_header_to_submit_spec (params : FinalitySyncParams) (s t : Z) (st : Stream)
  (recent : FinalityProofs) :
  honest_source -> Forall (fun e => e.1 = target_header_number e.2) recent ->
  selection_post params s t (recent ++ (label <$> ready_proofs st))
    (select_header_to_submit source params s t st recent).
Proof.
  intros Hh Hlab. unfold select_header_to_submit.
  assert (Forall (fun e => e.1 = target_header_number e.2) (recent ++ (label <$> ready_proofs st))) as Hlab'.
  { apply Forall_app. split; [done|]. apply Forall_fmap, Forall_forall. done. }
  pose proof (read_missing_headers_spec t s Hh) as Hread.
  destruct (read_missing_headers source s t) as [sel|[e|e|n]|]; simpl in Hread; try done.
  - destruct sel as [header proof|u header proof|u]; simpl.
    + destruct Hread as (n & Hn & Hsrc & Hm & Hplain). rewrite (hs_number Hh _ _ _ Hsrc).
      rewrite (hs_proof Hh _ _ _ Hsrc). split_and!; [lia|lia|by eexists|done..|]. by left.
    + destruct (only_mandatory_headers params) eqn:Honly.
      { split; [apply Hread|]. by left. }
      rewrite read_stream_spec.
      destruct (select_recent_spec params s t u (Some (header, proof)) _
        (ProofsStream (stream_ended st || needs_restart st) [] (stream_ended st))
        [] Hh Hlab' Honly Hread) as (r & -> & Hpost).
      exact Hpost.
    + destruct (only_mandatory_headers params) eqn:Honly.
      { split; [apply Hread|]. by left. }
      rewrite read_stream_spec.
      destruct (select_recent_spec params s t u None _
        (ProofsStream (stream_ended st || needs_restart st) [] (stream_ended st))
        [] Hh Hlab' Honly Hread) as (r & -> & Hpost).
      exact Hpost.
  - destruct Hread as (n & Hn & Hsrc & _). by exists n.
Qed.
End Selection.

(** ** The loop is safe *)

Section LoopFacts.
Context {Header FinalityProof Hash SE TE : Type}.
Context `{!FinalitySyncPipeline Header FinalityProof Hash} `{EqDecision Hash}.
Context `{SE_class : MaybeConnectionError SE} `{TE_class : MaybeConnectionError TE}.
Context (params : FinalitySyncParams).
Abbreviation clients := (clients (Header := Header) (FinalityProof := FinalityProof) (Hash := Hash)
  (SE := SE) (TE := TE)).
Abbreviation turn := (turn (Header := Header) (FinalityProof := FinalityProof) (Hash := Hash)
  (SE := SE) (TE := TE)).
Abbreviation loop_state := (loop_state (FinalityProof := FinalityProof)).
Abbreviation FinalityProofs := (list (Z * FinalityProof)).

Record honest_clients (c : clients) : Prop := {
  hc_source : honest_source (header_and_finality_proof c);
  hc_number : best_finalized_block_number c <> Panic;
  hc_id : best_finalized_source_block_id c <> Panic;
  hc_submit header proof : submit_finality_proof c header proof <> Panic;
}.

(** The buffer is bounded, and its proofs are under the numbers of their headers; the transaction
    that is tracked is the last one. *)
Record loop_ok (st : loop_state) : Prop := {
  lo_bound : (length (recent_finality_proofs st) <= recent_finality_proofs_limit params)%nat;
  lo_labels : Forall (fun e => e.1 = target_header_number e.2) (recent_finality_proofs st);
  lo_tracked n : tracked st = Some n -> last_submitted_header_number st = Some n;
}.

(** A header was submitted: the previous one has reached the target, the new one is above the
    best header there, and no mandatory header is skipped. *)
Definition submitted (c : clients) (previous : option Z) (n : Z) : Prop :=
  exists best_number_at_source best_id_at_target header proof,
    best_finalized_block_number c = Ok best_number_at_source /\
    best_finalized_source_block_id c = Ok best_id_at_target /\
    submit_finality_proof c header proof = Ok tt /\
    source_header_number header = n /\ target_header_number proof = n /\
    (forall m, previous = Some m -> m <= header_number best_id_at_target) /\
    header_number best_id_at_target < n <= best_number_at_source /\
    forall m, header_number best_id_at_target < m < n -> plain (header_and_finality_proof c) m.

Definition source_failed (c : clients) (e : SE) : Prop :=
  best_finalized_block_number c = Err e \/ exists n, header_and_finality_proof c n = Err e.

Definition target_failed (c : clients) (e : TE) : Prop :=
  best_finalized_source_block_id c = Err e \/ exists header proof, submit_finality_proof c header proof = Err e.

Lemma select_buffer_ok (source : Z -> outcome SE (Header * option FinalityProof)) (s t : Z) st recent
  sel st' recent' :
  select_header_to_submit (TE := TE) source params s t st recent = Ok (sel, st', recent') ->
  (length recent <= recent_finality_proofs_limit params)%nat ->
  Forall (fun e => e.1 = target_header_number e.2) recent ->
  (length recent' <= recent_finality_proofs_limit params)%nat /\
  Forall (fun e => e.1 = target_header_number e.2) recent'.
Proof.
  intros Hsel Hlen Hlab. unfold select_header_to_submit in Hsel. rewrite read_stream_spec in Hsel.
  assert (forall n, (length (prune_recent_finality_proofs n (recent ++ (label <$> ready_proofs st))
      (recent_finality_proofs_limit params)) <= recent_finality_proofs_limit params)%nat /\
    Forall (fun e => e.1 = target_header_number e.2)
      (prune_recent_finality_proofs n (recent ++ (label <$> ready_proofs st))
      (recent_finality_proofs_limit params))) as Hprune.
  { intros n. split; [apply prune_length|].
    destruct (prune_suffix n (recent ++ (label <$> ready_proofs st)) (recent_finality_proofs_limit params))
      as [k ->]. apply Forall_drop, Forall_app. split; [done|]. by apply Forall_fmap, Forall_forall. }
  apply obind_Ok in Hsel as (selected & _ & Hsel).
  destruct selected as [header proof|u header proof|u]; [by injection Hsel as <- <- <-| |];
    (destruct (only_mandatory_headers params); [by injection Hsel as <- <- <-|]);
    apply obind_Ok in Hsel as (r & _ & Hsel); injection Hsel as <- <- <-; apply Hprune.
Qed.

Lemma run_loop_iteration_spec (c : clients) (st : loop_state) r s' recent' :
  honest_clients c -> loop_ok st -> run_loop_iteration params c st = (r, s', recent') ->
  ((length recent' <= recent_finality_proofs_limit params)%nat /\
   Forall (fun e => e.1 = target_header_number e.2) recent') /\
  match r with
  | Ok (Some n) => submitted c (last_submitted_header_number st) n
  | Ok None | Err (MissingMandatoryFinalityProof _) => True
  | Err (SourceError e) => source_failed c e
  | Err (TargetError e) => target_failed c e
  | Panic => False
  end.
Proof.
  intros [Hsrc Hnum Hid Hsub] [Hlen Hlab _] Hrun. unfold run_loop_iteration in Hrun.
  destruct (best_finalized_block_number c) as [s|e|] eqn:Es; simpl in Hrun; [|injection Hrun as <- <- <-|done].
  2: { split; [done|]. by left. }
  destruct (best_finalized_source_block_id c) as [id|e|] eqn:Et; simpl in Hrun; [|injection Hrun as <- <- <-|done].
  2: { split; [done|]. by left. }
  unfold ensure_same_fork in Hrun.
  destruct (header_and_finality_proof c (header_number id)) as [[h p]|e|] eqn:Eh; simpl in Hrun;
    [|injection Hrun as <- <- <-|by apply (hs_answers _ Hsrc) in Eh].
  2: { split; [done|]. right. by eexists. }
  destruct (match last_submitted_header_number st with
            | Some m => header_number id <? m | None => false end) eqn:Ewait.
  { by injection Hrun as <- <- <-. }
  pose proof (select_header_to_submit_spec (TE := TE) _ params s (header_number id)
    (finality_proofs_stream st) (recent_finality_proofs st) Hsrc Hlab) as Hpost.
  destruct (select_header_to_submit _ _ _ _ _ _) as [[[sel s1] recent1]|e|] eqn:Esel; simpl in Hpost; [| |done].
  - pose proof (select_buffer_ok _ _ _ _ _ _ _ _ Esel Hlen Hlab) as Hbuf.
    destruct sel as [[header proof]|]; injection Hrun as <- <- <-; [|done]. split; [done|].
    destruct Hpost as (Hn & _ & Htarget & Hplain & _). unfold transaction_submit.
    destruct (submit_finality_proof c header proof) as [[]|e|] eqn:Esub; simpl.
    + exists s, id, header, proof. split_and!; try done; try lia.
      intros m Hm. rewrite Hm in Ewait. lia.
    + right. by eexists _, _.
    + by apply (Hsub header proof).
  - injection Hrun as <- <- <-. split; [done|]. destruct e as [e|e|n]; [|done..].
    destruct Hpost as (n & _ & Hn). right. by exists n.
Qed.

Definition loop_step (st st' : loop_state) : Prop :=
  exists tn : turn, honest_clients (turn_clients tn) /\ loop_turn params tn st = Ok (Some st').

(** A transaction did what it was meant to: it is finalized, and the target has the header. *)
Definition took_effect (n : Z) (status : TrackedTransactionStatus (HeaderId Hash))
  (best_id : HeaderId Hash + TE) : Prop :=
  exists block best_id_at_target, status = Finalized block /\ best_id = inl best_id_at_target /\
    n <= header_number best_id_at_target.

(** After the iteration of a turn, [last] is the last submitted header and [tr] the header of the
    tracked transaction: those from before, or both of them the header just submitted. *)
Definition in_flight (tn : turn) (st : loop_state) (last tr : option Z) : Prop :=
  (last = last_submitted_header_number st /\ tr = tracked st) \/
  exists n, last = Some n /\ tr = Some n /\
    submitted (turn_clients tn) (last_submitted_header_number st) n.

Definition turn_post (tn : turn) (st : loop_state) (r : outcome FailedClient (option loop_state)) : Prop :=
  match r with
  | Ok (Some st') =>
      loop_ok st' /\
      exists tr, in_flight tn st (last_submitted_header_number st') tr /\
        match turn_wake tn with
        | WakeTransaction status best_id =>
            tracked st' = None /\ forall n, tr = Some n -> took_effect n status best_id
        | WakeTick => tracked st' = tr
        | WakeExit => False
        end
  | Ok None => turn_wake tn = WakeExit
  | Err FailedSource =>
      (exists e, is_connection_error e = true /\ source_failed (turn_clients tn) e) \/
      exists e, raw_stream tn = inr e
  | Err FailedTarget => exists e, is_connection_error e = true /\ target_failed (turn_clients tn) e
  | Err FailedBoth => exists last n status best_id,
      in_flight tn st last (Some n) /\ turn_wake tn = WakeTransaction status best_id /\
      ~ took_effect n status best_id
  | Panic => False
  end.

Lemma transaction_track_iff (n : Z) (status : TrackedTransactionStatus (HeaderId Hash))
  (best_id : HeaderId Hash + TE) :
  transaction_track n status best_id = true <-> took_effect n status best_id.
Proof.
  unfold transaction_track, took_effect.
  destruct status; destruct best_id; rewrite ?Z.leb_le; naive_solver.
Qed.

Lemma finish_turn_spec (tn : turn) (st : loop_state) s recent last tr :
  (length recent <= recent_finality_proofs_limit params)%nat ->
  Forall (fun e => e.1 = target_header_number e.2) recent ->
  (forall n, tr = Some n -> last = Some n) -> in_flight tn st last tr ->
  turn_post tn st (finish_turn tn s recent last tr).
Proof.
  intros Hlen Hlab Htr Hlast. unfold finish_turn.
  destruct (restart_if_scheduled (raw_stream tn) s) as [s'|c|] eqn:Es; cbn [obind].
  - destruct (turn_wake tn) as [status best_id| |] eqn:Ew; [| |done].
    + destruct tr as [n|].
      * destruct (transaction_track n status best_id) eqn:Et.
        -- split; [by split|]. exists (Some n). rewrite Ew. split_and!; [done..|].
           intros m [= <-]. by apply transaction_track_iff.
        -- exists last, n, status, best_id. split_and!; [done..|].
           rewrite <- transaction_track_iff. congruence.
      * split; [by split|]. exists None. by rewrite Ew.
    + split; [by split|]. exists tr. by rewrite Ew.
  - unfold restart_if_scheduled in Es. destruct (needs_restart s); [|done].
    destruct (raw_stream tn) as [[ready ended]|e] eqn:Er; [done|]. injection Es as <-. right.
    by exists e.
  - unfold restart_if_scheduled in Es. destruct (needs_restart s); [|done].
    by destruct (raw_stream tn) as [[ready ended]|e].
Qed.

Lemma loop_turn_spec (tn : turn) (st : loop_state) :
  honest_clients (turn_clients tn) -> loop_ok st -> turn_post tn st (loop_turn params tn st).
Proof.
  intros Hc Hok. unfold loop_turn. set (st1 := LoopState (extend_stream _ _ _) _ _ _).
  assert (loop_ok st1) as Hok1 by (destruct Hok; by split).
  destruct (run_loop_iteration params (turn_clients tn) st1) as [[r s'] recent'] eqn:Erun.
  destruct (run_loop_iteration_spec _ _ _ _ _ Hc Hok1 Erun) as [[Hlen Hlab] Hr]. simpl in Hr.
  destruct Hok as [_ _ Htracked].
  destruct r as [[n|]|e|]; cbn [obind]; [| | |done].
  - apply finish_turn_spec; [done|done|by intros m [= ->]|]. right. exists n. by split_and!.
  - apply finish_turn_spec; [done..|by left].
  - destruct e as [e|e|n]; cbn [error_fail_if_connection_error];
      [destruct (is_connection_error e) eqn:Ee..|]; cbn [obind];
      try (by left; exists e); try (by exists e); (apply finish_turn_spec; [done..|by left]).
Qed.

Lemma loop_reachable_ok (raw : list FinalityProof * bool + SE) (st0 st : loop_state) :
  loop_start raw = Ok st0 -> rtc loop_step st0 st -> loop_ok st.
Proof.
  intros Hstart Hr. assert (loop_ok st0) as Hok.
  { destruct raw as [[ready ended]|e]; [|done]. injection Hstart as <-. split; simpl; [lia|constructor|done]. }
  clear Hstart. induction Hr as [|st1 st2 st3 (tn & Hc & Hturn) _ IH]; [done|]. apply IH.
  pose proof (loop_turn_spec tn st1 Hc Hok) as Hpost. rewrite Hturn in Hpost. by destruct Hpost.
Qed.
End LoopFacts.

(** C29. The selection of the finality relay, for a source node that answers with the headers it is
    asked for.  It never panics.  A selected header is one of the missing headers, its proof is a
    proof for it, and no mandatory header below it is skipped.  If there is a mandatory header
    among the missing ones, the first of them is selected, or its proof is reported to be
    missing.  Otherwise nothing better could be submitted: when the proofs of the stream came
    in order, no missing header above the selected one has a proof, be it kept by the source
    node, buffered, or ready in the stream; and nothing is selected only if no missing header
    has one, or only mandatory headers are relayed. *)
Theorem finality_selection_correct {Header FinalityProof Hash SE TE : Type}
  `{!FinalitySyncPipeline Header FinalityProof Hash} `{EqDecision Hash}
  (source : Z -> outcome SE (Header * option FinalityProof)) (params : FinalitySyncParams)
  (best_number_at_source best_number_at_target : Z) (st : RestartableFinalityProofsStream)
  (recent : list (Z * FinalityProof)) :
  honest_source source -> Forall (fun e => e.1 = target_header_number e.2) recent ->
  selection_post (TE := TE) source params best_number_at_source best_number_at_target
    (recent ++ (label <$> ready_proofs st))
    (select_header_to_submit source params best_number_at_source best_number_at_target st recent).
Proof. apply select_header_to_submit_spec. Qed.


(** A source with the headers 0 to 6 of which 3 is mandatory and 5 has a proof that is kept;
    the stream brings a proof for 6. *)
Module ShortChain.
#[global] Instance pipeline : FinalitySyncPipeline (Z * bool) Z Z := {|
  source_header_number := fst;
  source_header_hash h := fst h;
  is_mandatory := snd;
  target_header_number p := p;
|}.
#[global] Instance connection_error : MaybeConnectionError bool := fun e => e.

Definition source (n : Z) : outcome bool (Z * bool * option Z) :=
  Ok (n, n =? 3, if (n =? 3) || (n =? 5) then Some n else None).

Lemma source_is_honest : honest_source source.
Proof.
  split; [by intros n h p [= <- <-]| |done].
  intros n h p [= <- Hp]. destruct (_ || _); [by injection Hp|done].
Qed.

Definition params : FinalitySyncParams := SyncParams 2 false.
Definition answers (best_id : Z) : clients (Header := Z * bool) (FinalityProof := Z) (Hash := Z)
    (SE := bool) (TE := bool) :=
  Clients (Ok 6) (Ok (HeaderId_ best_id best_id)) source (fun _ _ => Ok tt).

Definition tick (best_id : Z) : turn (Header := Z * bool) (FinalityProof := Z) (Hash := Z)
    (SE := bool) (TE := bool) :=
  Turn [6] false (answers best_id) (inl ([], false)) WakeTick.

Lemma answers_are_honest (best_id : Z) : honest_clients (answers best_id).
Proof. by split; [apply source_is_honest|..]. Qed.

Definition start : loop_state (FinalityProof := Z) := LoopState (from_stream [] false) [] None None.
Definition submitted3 : loop_state (FinalityProof := Z) :=
  match loop_turn params (tick 1) start with Ok (Some st) => st | _ => start end.
End ShortChain.

Lemma finality_selection_correct_witness :
  selection_post (TE := bool) ShortChain.source ShortChain.params 6 3 [(6, 6)]
    (Ok (Some ((6, false), 6), from_stream [] false, [])).
Proof.
  exact (finality_selection_correct (TE := bool) ShortChain.source ShortChain.params 6 3
    (from_stream [] false) [(6, 6)] ShortChain.source_is_honest ltac:(by constructor)).
Defined.

