(* ===== verification/ParachainsLoop.v ===== *)
(** * relays/parachains/src/parachains_loop.rs: the relay of parachain heads

    The loop that submits proofs of the head of a parachain to the target chain, with its
    Substrate source client (relays/lib-substrate-relay/src/parachains/source.rs).  The
    RPC calls are parameters; a turn of the loop reads each client at one moment.  The
    theorems compose the loop with that client and with the parachains pallet. *)

From S2P Require Import Prelude Substrate RuntimePrimitives ParachainsPallet RelayUtils.
From stdpp Require Import base numbers list gmap.
Local Open Scope Z_scope.

Inductive AvailableHeader (T : Type) :=
| Unavailable
| Missing
| Available (header : T).
Arguments Unavailable {T}.
Arguments Missing {T}.
Arguments Available {T} _.

Definition as_available {T : Type} (h : AvailableHeader T) : option T :=
  match h with
  | Available header => Some header
  | _ => None
  end.

(** [From<Option<T>>]. *)
Definition available_of {T : Type} (maybe_header : option T) : AvailableHeader T :=
  match maybe_header with
  | Some header => Available header
  | None => Missing
  end.

(** ** The loop *)

Section ParachainsLoop.
Context {ParaHash RelayHash TargetHash HeadsProof E : Type}.
Abbreviation ParaId := (HeaderId ParaHash).
Abbreviation RelayId := (HeaderId RelayHash).
Abbreviation TargetId := (HeaderId TargetHash).

Definition is_update_required (head_at_source : AvailableHeader ParaId)
  (head_at_target : option ParaId) : bool :=
  match head_at_source, head_at_target with
  | Unavailable, _ => false
  | Available head_at_source, Some head_at_target =>
      header_number head_at_target <? header_number head_at_source
  | Available _, None => true
  | Missing, Some _ => true
  | Missing, None => false
  end.

(** [SubmittedHeadStatus]: [None] is waiting. *)
Definition tracker_update (submitted_head : AvailableHeader ParaId) (at_target_block : TargetId)
  (head_at_target : option ParaId)
  (transaction_tracker : option (TrackedTransactionStatus TargetId)) :
  option (TrackedTransactionStatus TargetId) :=
  let is_head_updated :=
    match submitted_head, head_at_target with
    | Available submitted_head, Some head_at_target =>
        header_number submitted_head <=? header_number head_at_target
    | Missing, None => true
    | _, _ => false
    end in
  if is_head_updated then Some (Finalized at_target_block)
  else
    match transaction_tracker with
    | Some Lost => Some Lost
    | Some (Finalized _) => Some Lost
    | None => None
    end.

(** What the clients answer in one turn; [tracker_status] is what polling the tracker of the
    submitted transaction gives. *)
Record para_clients := ParaClients {
  ensure_synced : outcome E bool;
  best_block : outcome E TargetId;
  target_parachain_head : TargetId -> outcome E (option ParaId);
  best_finalized_source_relay_chain_block : TargetId -> outcome E RelayId;
  source_parachain_head : RelayId -> outcome E (AvailableHeader ParaId);
  prove_head : RelayId -> outcome E (HeadsProof * ParaHash);
  submit_parachain_head_proof : RelayId -> ParaHash -> HeadsProof -> outcome E unit;
  tracker_status : option (TrackedTransactionStatus TargetId);
}.

Definition failed {A : Type} (client : FailedClient) (r : outcome E A) : outcome FailedClient A :=
  map_err (fun _ => client) r.

(** A turn of [run_until_connection_lost] after the waiting: the state is the head of the
    transaction that is tracked, [submitted_heads_tracker].  The second part of the result is
    what was submitted. *)
Definition para_turn (c : para_clients) (submitted : option (AvailableHeader ParaId)) :
  outcome FailedClient
    (option (AvailableHeader ParaId) * option (RelayId * ParaHash * HeadsProof)) :=
  let? synced := failed FailedSource (ensure_synced c) in
  if negb synced then Ok (submitted, None)
  else
    let? best_target_block := failed FailedTarget (best_block c) in
    let? head_at_target := failed FailedTarget (target_parachain_head c best_target_block) in
    let update :=
      let? best_finalized_relay_block :=
        failed FailedTarget (best_finalized_source_relay_chain_block c best_target_block) in
      let? head_at_source :=
        failed FailedSource (source_parachain_head c best_finalized_relay_block) in
      if is_update_required head_at_source head_at_target then
        let? (head_proof, head_hash) :=
          failed FailedSource (prove_head c best_finalized_relay_block) in
        check? failed FailedTarget
          (submit_parachain_head_proof c best_finalized_relay_block head_hash head_proof) in
        Ok (Some head_at_source, Some (best_finalized_relay_block, head_hash, head_proof))
      else Ok (None, None) in
    match submitted with
    | Some submitted_head =>
        match tracker_update submitted_head best_target_block head_at_target (tracker_status c) with
        | None => Ok (Some submitted_head, None)
        | Some (Finalized _) => update
        | Some Lost => Err FailedBoth
        end
    | None => update
    end.
End ParachainsLoop.
Arguments para_clients : clear implicits.

(** ** The source client *)

Definition ANCIENT_BLOCK_THRESHOLD : Z := 128.

Definition is_ancient_block (block best : Z) : bool :=
  ANCIENT_BLOCK_THRESHOLD <=? saturating_sub best block.

Module ParachainsSource.
Section Source.
Context {ParaHash RelayHash ParaHead Node E : Type}.
Abbreviation ParaId := (HeaderId ParaHash).
Abbreviation RelayId := (HeaderId RelayHash).

(** [raw_storage_value] with the decoding of the head; [decode_header] decodes the header of
    the parachain, [hash_head] is [ParaHead::hash]. *)
Context (para_head_at : RelayHash -> outcome E (option ParaHead)).
Context (decode_header : ParaHead -> outcome E ParaId) (hash_head : ParaHead -> ParaHash).
Context (best_finalized_header_number : outcome E Z).
Context (prove_storage : RelayHash -> outcome E (list Node)) (expected_head_error : E).
Context (hash_leb : ParaHash -> ParaHash -> bool).

Definition on_chain_para_head_id (at_block : RelayId) : outcome E (option ParaId) :=
  let? para_head := para_head_at (header_hash at_block) in
  match para_head with
  | Some para_head =>
      let? para_head := decode_header para_head in
      Ok (Some para_head)
  | None => Ok None
  end.

(** [Ord] of header identifiers: by the number and then by the hash. *)
Definition min_id (a b : ParaId) : ParaId :=
  match header_number a ?= header_number b with
  | Lt => a
  | Gt => b
  | Eq => if hash_leb (header_hash a) (header_hash b) then a else b
  end.

Definition parachain_head (max_head_id : AvailableHeader ParaId) (at_block : RelayId) :
  outcome E (AvailableHeader ParaId) :=
  let? best_block_number := best_finalized_header_number in
  if is_ancient_block (header_number at_block) best_block_number then Ok Unavailable
  else
    let? on_chain_para_head_id := on_chain_para_head_id at_block in
    Ok (match on_chain_para_head_id with
        | Some on_chain_para_head_id =>
            match max_head_id with
            | Unavailable => Unavailable
            | Missing => Available on_chain_para_head_id
            | Available max_head_id => Available (min_id on_chain_para_head_id max_head_id)
            end
        | None => Missing
        end).

Definition prove_parachain_head (at_block : RelayId) : outcome E (list Node * ParaHash) :=
  let? parachain_heads_proof := prove_storage (header_hash at_block) in
  let? parachain_head := para_head_at (header_hash at_block) in
  let? parachain_head := ok_or parachain_head expected_head_error in
  Ok (parachain_heads_proof, hash_head parachain_head).
End Source.
End ParachainsSource.

(** ** The loop with its Substrate source client and the parachains pallet *)

Section Composition.
Context {AccountId Hash RelayHash TargetHash ParaHead Bytes Node E : Type} `{Countable Hash}.
Abbreviation pallet := (ParachainsPallet.pallet AccountId Hash Bytes).
Context (para_head_at : RelayHash -> outcome E (option ParaHead)).
Context (decode_header : ParaHead -> outcome E (HeaderId Hash)) (hash_head : ParaHead -> Hash).
Context (best_finalized_header_number : outcome E Z).
Context (prove_storage : RelayHash -> outcome E (list Node)) (expected_head_error : E).
Context (hash_leb : Hash -> Hash -> bool) (max_head_id : AvailableHeader (HeaderId Hash)).
Abbreviation clients := (para_clients Hash RelayHash TargetHash (list Node) E).

(** The source half of the clients is [ParachainsSource]. *)
Definition substrate_source (c : clients) : Prop :=
  source_parachain_head c =
    ParachainsSource.parachain_head para_head_at decode_header best_finalized_header_number hash_leb
      max_head_id /\
  prove_head c =
    ParachainsSource.prove_parachain_head para_head_at hash_head prove_storage expected_head_error.

(** [heads] are the heads of the parachain in the states of the finalized relay chain blocks, by
    number.  The relay blocks that the target knows are finalized ones, the head of the
    parachain does not go back, and what the pallet at the target stores came from there. *)
Record honest_view (c : clients) (p : pallet) (para : Z) (heads : Z -> option ParaHead) : Prop := {
  hv_relay b r a : best_block c = Ok b -> best_finalized_source_relay_chain_block c b = Ok r ->
    para_head_at (header_hash r) = Ok a -> a = heads (header_number r);
  hv_forward n m a b ia ib : n <= m -> heads n = Some a -> heads m = Some b ->
    decode_header a = Ok ia -> decode_header b = Ok ib -> header_number ia <= header_number ib;
  hv_hash a b : hash_head a = hash_head b -> a = b;
  hv_target b r : best_block c = Ok b -> target_parachain_head c b = Ok r ->
    match ParasInfo p !! para with
    | Some info => exists a id, heads (at_relay_block_number (best_head_hash info)) = Some a /\
        head_hash (best_head_hash info) = hash_head a /\ decode_header a = Ok id /\ r = Some id
    | None => r = None
    end;
}.

Lemma min_id_number (a b : HeaderId Hash) :
  header_number (ParachainsSource.min_id hash_leb a b) = Z.min (header_number a) (header_number b).
Proof.
  unfold ParachainsSource.min_id.
  destruct (Z.compare_spec (header_number a) (header_number b)); [case_match| |]; lia.
Qed.

(** What a turn that submits something has seen. *)
Lemma para_turn_submits (c : clients) submitted submitted' relay hash proof :
  para_turn c submitted = Ok (submitted', Some (relay, hash, proof)) ->
  exists b head_at_target head_at_source,
    best_block c = Ok b /\ target_parachain_head c b = Ok head_at_target /\
    best_finalized_source_relay_chain_block c b = Ok relay /\
    source_parachain_head c relay = Ok head_at_source /\
    is_update_required head_at_source head_at_target = true /\
    prove_head c relay = Ok (proof, hash) /\ submitted' = Some head_at_source /\
    forall h, submitted = Some h ->
      exists id, tracker_update h b head_at_target (tracker_status c) = Some (Finalized id).
Proof.
  unfold para_turn, failed. intros Hturn. apply obind_Ok in Hturn as (synced & _ & Hturn).
  destruct synced; simpl in Hturn; [|done].
  apply obind_Ok in Hturn as (b & Hb%map_err_Ok & Hturn).
  apply obind_Ok in Hturn as (head_at_target & Ht & Hturn). apply map_err_Ok in Ht.
  destruct submitted as [h|].
  1: destruct (tracker_update h b head_at_target (tracker_status c)) as [[|id]|] eqn:Etrack; try done.
  all: apply obind_Ok in Hturn as (r & Hr & Hturn); apply map_err_Ok in Hr;
    apply obind_Ok in Hturn as (head_at_source & Hs & Hturn); apply map_err_Ok in Hs;
    destruct (is_update_required head_at_source head_at_target) eqn:Eup; [|done];
    apply obind_Ok in Hturn as ([pr ha] & Hp & Hturn); apply map_err_Ok in Hp;
    apply obind_Ok in Hturn as ([] & _ & Hturn); injection Hturn as <- <- <- <-;
    exists b, head_at_target, head_at_source; split_and!; try done.
  intros h' [= <-]. by exists id.
Qed.

(** The head that a turn with the Substrate source client submits is the one in the state of the
    relay block, and it is above the one at the target. *)
Lemma submitted_head (c : clients) submitted submitted' relay hash proof :
  substrate_source c ->
  para_turn c submitted = Ok (submitted', Some (relay, hash, proof)) ->
  exists b t a id h,
    best_block c = Ok b /\ target_parachain_head c b = Ok t /\
    best_finalized_source_relay_chain_block c b = Ok relay /\
    prove_storage (header_hash relay) = Ok proof /\
    para_head_at (header_hash relay) = Ok (Some a) /\ decode_header a = Ok id /\ hash = hash_head a /\
    submitted' = Some (Available h) /\ header_number h <= header_number id /\
    forall t', t = Some t' -> header_number t' < header_number h.
Proof.
  intros [Hsource Hprove] (b & ht & hs & Hb & Ht & Hr & Hs & Hup & Hp & -> & _)%para_turn_submits.
  rewrite Hsource in Hs. rewrite Hprove in Hp.
  unfold ParachainsSource.prove_parachain_head in Hp. apply obind_Ok in Hp as (nodes & Hnodes & Hp).
  apply obind_Ok in Hp as (oa & Hhead & Hp). destruct oa as [a|]; [|done]. injection Hp as <- <-.
  unfold ParachainsSource.parachain_head in Hs. apply obind_Ok in Hs as (best & _ & Hs).
  destruct (is_ancient_block _ _); [injection Hs as <-; done|].
  unfold ParachainsSource.on_chain_para_head_id in Hs. rewrite Hhead in Hs. simpl in Hs.
  destruct (decode_header a) as [id| |] eqn:Hid; simpl in Hs; [|done..]. injection Hs as <-.
  assert (exists h, match max_head_id with
    | Unavailable => Unavailable
    | Missing => Available id
    | Available max_head_id => Available (ParachainsSource.min_id hash_leb id max_head_id)
    end = Available h /\ header_number h <= header_number id) as (h & Hh & Hle).
  { destruct max_head_id as [| |mx]; [done| |]; eexists; (split; [done|]); [done|].
    rewrite min_id_number. lia. }
  rewrite Hh in Hup |- *. exists b, ht, a, id, h. split_and!; try done.
  intros t' ->. simpl in Hup. lia.
Qed.

Lemma submission_not_obsolete (c : clients) (p : pallet) (para : Z) heads submitted submitted'
  relay hash proof :
  substrate_source c -> honest_view c p para heads ->
  para_turn c submitted = Ok (submitted', Some (relay, hash, proof)) ->
  is_obsolete p (HeadsInfo (header_number relay) para hash) = false.
Proof.
  intros Hs Hv (b & t & a' & id' & h & Hb & Ht & Hr & _ & Hhead & Hid' & -> & _ & Hle & Hlt)%submitted_head;
    [|done].
  pose proof (hv_relay _ _ _ _ Hv b relay _ Hb Hr Hhead) as Ha'. symmetry in Ha'.
  unfold is_obsolete. simpl. pose proof (hv_target _ _ _ _ Hv b t Hb Ht) as Hinfo.
  destruct (ParasInfo p !! para) as [info|]; [|done].
  destruct Hinfo as (a & id & Ha & Hhash & Hid & ->). specialize (Hlt id eq_refl).
  rewrite (proj2 (Z.leb_gt _ _)).
  - apply bool_decide_eq_false. rewrite Hhash. intros Heq%(hv_hash _ _ _ _ Hv). subst a'.
    assert (id' = id) as -> by congruence. lia.
  - destruct (decide (at_relay_block_number (best_head_hash info) < header_number relay)); [done|].
    pose proof (hv_forward _ _ _ _ Hv (header_number relay) (at_relay_block_number (best_head_hash info))
      a' a id' id ltac:(lia) Ha' Ha Hid' Hid). lia.
Qed.

(** The relay of parachain heads does not waste transactions: with its Substrate source client,
    and as long as the heads of the parachain do not go back, it only submits a head that is
    not obsolete for the parachains pallet at the target, and only after the head that it
    submitted before has reached the target. *)
Theorem submitted_head_is_not_obsolete (c : clients) (p : pallet) (para : Z)
  (heads : Z -> option ParaHead) submitted submitted' relay hash proof :
  substrate_source c -> honest_view c p para heads ->
  para_turn c submitted = Ok (submitted', Some (relay, hash, proof)) ->
  is_obsolete p (HeadsInfo (header_number relay) para hash) = false /\
  forall h, submitted = Some h -> exists b head_at_target,
    target_parachain_head c b = Ok head_at_target /\
    match h, head_at_target with
    | Available h, Some head_at_target => header_number h <= header_number head_at_target
    | Missing, None => True
    | _, _ => False
    end.
Proof.
  intros Hs Hv Hturn. split; [by eapply submission_not_obsolete|]. intros h Hh.
  apply para_turn_submits in Hturn as (b & ht & hs & _ & Ht & _ & _ & _ & _ & _ & Htrack).
  exists b, ht. split; [done|]. destruct (Htrack h Hh) as [id Hid]. unfold tracker_update in Hid.
  destruct h as [| |h], ht as [ht|]; try done;
    destruct (tracker_status c) as [[|]|]; simpl in Hid; try done;
    destruct (header_number h <=? header_number ht) eqn:Eh; simpl in Hid; try done; lia.
Qed.

(** A parachain that has been offboarded stops the relay: when the relay chain has no head of the
    parachain any more, but the target still has one, every turn that gets as far as
    looking at the source ends with a failure of the source client, and nothing is submitted.
    The case of [is_update_required] that is meant to propagate the removal is never of use. *)
Theorem offboarded_parachain_stops_relay (c : clients) (submitted : option (AvailableHeader (HeaderId Hash)))
  (b : HeaderId TargetHash) (relay : HeaderId RelayHash) (head : HeaderId Hash) (best : Z)
  (nodes : list Node) :
  substrate_source c ->
  ensure_synced c = Ok true -> best_block c = Ok b ->
  target_parachain_head c b = Ok (Some head) ->
  best_finalized_source_relay_chain_block c b = Ok relay ->
  best_finalized_header_number = Ok best -> is_ancient_block (header_number relay) best = false ->
  para_head_at (header_hash relay) = Ok None ->
  prove_storage (header_hash relay) = Ok nodes ->
  (forall h, submitted = Some h ->
     exists id, tracker_update h b (Some head) (tracker_status c) = Some (Finalized id)) ->
  para_turn c submitted = Err FailedSource.
Proof.
  intros [Hsource Hprove] Hsync Hbest Htarget Hrelay Hnum Hold Hnone Hnodes Htrack.
  unfold para_turn, failed. rewrite Hsync. simpl. rewrite Hbest. simpl. rewrite Htarget. simpl.
  rewrite Hrelay. simpl. rewrite Hsource, Hprove.
  unfold ParachainsSource.parachain_head, ParachainsSource.on_chain_para_head_id,
    ParachainsSource.prove_parachain_head. rewrite Hnum. simpl. rewrite Hold, Hnone. simpl.
  rewrite Hnodes. simpl. destruct submitted as [h|]; [|done].
  by destruct (Htrack h eq_refl) as [id ->].
Qed.
End Composition.

(** Relay blocks 5 and 9 of a chain whose parachain had the head 2 and now has the head 3. *)
Module SmallParachain.
Definition heads (n : Z) : option Z := if n <? 5 then None else if n <? 9 then Some 2 else Some 3.
Definition para_head_at (hash : Z) : outcome unit (option Z) := Ok (heads hash).
Definition decode (head : Z) : outcome unit (HeaderId positive) := Ok (HeaderId_ head (encode head)).

Definition pallet_at5 : ParachainsPallet.pallet Z positive Z :=
  Pallet None Normal {[7 := ParaInfo_ (BestHead 5 (encode 2)) 1]} ∅ ∅ [].

Definition clients (relay : Z) (at_relay : Z -> outcome unit (option Z)) :
  para_clients positive Z Z (list Z) unit :=
  ParaClients (Ok true) (Ok (HeaderId_ 100 100)) (fun _ => Ok (Some (HeaderId_ 2 (encode 2))))
    (fun _ => Ok (HeaderId_ relay relay))
    (ParachainsSource.parachain_head at_relay decode (Ok 10) (fun _ _ => true) Missing)
    (ParachainsSource.prove_parachain_head at_relay encode (fun hash => Ok [hash]) tt)
    (fun _ _ _ => Ok tt) None.

Lemma view : honest_view para_head_at decode encode (clients 9 para_head_at) pallet_at5 7 heads.
Proof.
  split.
  - intros b r a _ [= <-] [= <-]. done.
  - intros n m a b ia ib Hnm Ha Hb [= <-] [= <-]. simpl. unfold heads in *.
    repeat case_match; simplify_eq; lia.
  - intros a b Heq. by apply (inj encode) in Heq.
  - intros b r _ [= <-]. exists 2, (HeaderId_ 2 (encode 2)). done.
Qed.
End SmallParachain.

Lemma submitted_head_is_not_obsolete_witness :
  para_turn (SmallParachain.clients 9 SmallParachain.para_head_at) None =
    Ok (Some (Available (HeaderId_ 3 (encode 3))), Some (HeaderId_ 9 9, encode 3, [9])) /\
  is_obsolete SmallParachain.pallet_at5 (HeadsInfo 9 7 (encode 3)) = false.
Proof.
  assert (para_turn (SmallParachain.clients 9 SmallParachain.para_head_at) None =
    Ok (Some (Available (HeaderId_ 3 (encode 3))), Some (HeaderId_ 9 9, encode 3, [9]))) as Hturn
    by reflexivity.
  split; [exact Hturn|].
  exact (proj1 (submitted_head_is_not_obsolete SmallParachain.para_head_at SmallParachain.decode encode
    (Ok 10) (fun hash => Ok [hash]) tt (fun _ _ => true) Missing
    (SmallParachain.clients 9 SmallParachain.para_head_at) SmallParachain.pallet_at5 7
    SmallParachain.heads None _ (HeaderId_ 9 9) (encode 3) [9]
    (conj eq_refl eq_refl) SmallParachain.view Hturn)).
Defined.

Lemma offboarded_parachain_stops_relay_witness :
  para_turn (SmallParachain.clients 9 (fun _ => Ok None)) None = Err FailedSource.
Proof.
  exact (offboarded_parachain_stops_relay (fun _ => Ok None) SmallParachain.decode encode
    (Ok 10) (fun hash => Ok [hash]) tt (fun _ _ => true) Missing
    (SmallParachain.clients 9 (fun _ => Ok None)) None (HeaderId_ 100 100) (HeaderId_ 9 9)
    (HeaderId_ 2 (encode 2)) 10 [9] (conj eq_refl eq_refl)
    eq_refl eq_refl eq_refl eq_refl eq_refl eq_refl eq_refl eq_refl
    (fun h (Hh : None = Some h) => ltac:(discriminate Hh))).
Defined.
