(* ===== verification/OnDemand.v ===== *)
(** * relays/lib-substrate-relay/src/on_demand: headers that are relayed on request

    [OnDemandRelay] is what the message relay relies on: headers can be asked for, and
    headers can be proved inside of a batch.  The relay of headers (on_demand/headers.rs,
    with the proofs of finality/source.rs) and the relay of parachain heads
    (on_demand/parachains.rs) implement it.  Their background tasks are step functions on
    the variables of their loops; RPC calls are parameters. *)

From S2P Require Import Prelude Substrate RuntimePrimitives RelayUtils FinalityLoop.
From S2P Require Import ParachainsLoop MessagesClients.
From stdpp Require Import base numbers list relations sorting.
Local Open Scope Z_scope.

(** ** The interface *)

(** [R] is the relay together with what its nodes answer at the moment. *)
Class OnDemandRelay (R Hash Call E : Type) := {
  relay_prove_header : R -> Z -> outcome E (HeaderId Hash * list Call);
}.

(** The proved header is the required one or a descendant of it, and it comes with a call. *)
Class OnDemandRelayLaws (R Hash Call E : Type) `{OnDemandRelay R Hash Call E} := {
  relay_honest : R -> Prop;
  relay_proves relay required id calls : relay_honest relay ->
    relay_prove_header relay required = Ok (id, calls) ->
    required <= header_number id /\ calls <> [];
}.

(** ** Proofs of headers (finality/source.rs) *)

Module SubstrateFinalitySource.
Section Source.
Context {Header FinalityProof E : Type}.
Context (header_and_finality_proof : Z -> outcome E (Header * option FinalityProof)).
Context (header_by_number : Z -> outcome E Header).
Context (proof_number : FinalityProof -> Z) (FinalityProofNotFound : Z -> E).

(** [best_finalized_block_number]: never more than what was asked for. *)
Definition best_finalized_block_number (on_chain_best_finalized_block_number : outcome E Z)
  (maximal_header_number : option Z) : outcome E Z :=
  let? finalized_header_number := on_chain_best_finalized_block_number in
  Ok (match maximal_header_number with
      | Some maximal_header_number =>
          if maximal_header_number <? finalized_header_number then maximal_header_number
          else finalized_header_number
      | None => finalized_header_number
      end).

(** The first item of [persistent_proofs_stream] on the numbers from the given block to the best
    finalized one. *)
Fixpoint persistent_proofs_stream_next (numbers : list Z) :
  option (outcome E (Header * FinalityProof)) :=
  match numbers with
  | [] => None
  | current_block_number :: numbers =>
      match header_and_finality_proof current_block_number with
      | Ok (header, Some proof) => Some (Ok (header, proof))
      | Ok (_, None) => persistent_proofs_stream_next numbers
      | Err e => Some (Err e)
      | Panic => Some Panic
      end
  end.

(** The first item of [ephemeral_proofs_stream]. *)
Fixpoint ephemeral_proofs_stream_next (block_number : Z) (proofs : list FinalityProof) :
  option (outcome E (Header * FinalityProof)) :=
  match proofs with
  | [] => None
  | proof :: proofs =>
      if proof_number proof <? block_number then ephemeral_proofs_stream_next block_number proofs
      else Some (let? header := header_by_number (proof_number proof) in Ok (header, proof))
  end.

(** [prove_block_finality]: [persistent_first] is whether the persistent stream is ready first, and
    [finality_proofs] is what comes from the subscription. *)
Definition prove_block_finality (best_finalized_header_number : outcome E Z)
  (finality_proofs : outcome E (list FinalityProof)) (persistent_first : bool) (block_number : Z) :
  outcome E (Header * FinalityProof) :=
  let? best := best_finalized_header_number in
  let? proofs := finality_proofs in
  let? (header, maybe_proof) := header_and_finality_proof block_number in
  match maybe_proof with
  | Some proof => Ok (header, proof)
  | None =>
      match persistent_proofs_stream_next (seqZ (block_number + 1) (best - block_number)),
            ephemeral_proofs_stream_next block_number proofs with
      | Some persistent, Some ephemeral => if persistent_first then persistent else ephemeral
      | Some persistent, None => persistent
      | None, Some ephemeral => ephemeral
      | None, None => Err (FinalityProofNotFound block_number)
      end
  end.
End Source.
End SubstrateFinalitySource.

(** ** The relay of headers (on_demand/headers.rs) *)

Module OnDemandHeadersRelay.

(** [prove_header]: [optimize_proof] and [build_call] are of the finality engine and of the
    pipeline. *)
Section Prove.
Context {Header FinalityProof Hash Call E : Type}.
Context (header_id : Header -> HeaderId Hash).
Context (prove_block_finality : Z -> outcome E (Header * FinalityProof)).
Context (optimize_proof : Header -> FinalityProof -> outcome E FinalityProof).
Context (build_submit_finality_proof_call : Header -> FinalityProof -> Call).

Definition prove_header (required_header : Z) : outcome E (HeaderId Hash * list Call) :=
  let? (header, proof) := prove_block_finality required_header in
  let header_id := header_id header in
  let? proof := optimize_proof header proof in
  Ok (header_id, [build_submit_finality_proof_call header proof]).
End Prove.

(** The shared [required_header_number] and the variable of the background task. *)
Record task := Task {
  required_header_number : Z;
  latest_non_mandatory_at_source : Z;
}.

Definition task_start : task := Task 0 0.

Definition require_more_headers (required_header : Z) (t : task) : task :=
  if required_header_number t <? required_header
  then Task required_header (latest_non_mandatory_at_source t) else t.

Definition mandatory_headers_scan_range (best_at_source best_at_target : option Z)
  (required_header_number : Z) : option (Z * Z) :=
  let best_at_target := default required_header_number best_at_target in
  let best_at_source := default best_at_target best_at_source in
  if best_at_source <=? required_header_number then None
  else Some (best_at_target + 1, best_at_source).

Section Scan.
Context {E : Type} `{MaybeConnectionError E}.
Context (schedules_authorities_change : Z -> outcome E bool).

(** The loop of [find_mandatory_header_in_range]. *)
Fixpoint find_mandatory_loop (numbers : list Z) : outcome E (option Z) :=
  match numbers with
  | [] => Ok None
  | current :: numbers =>
      let? mandatory := schedules_authorities_change current in
      if (mandatory : bool) then Ok (Some current) else find_mandatory_loop numbers
  end.

Definition find_mandatory_header_in_range (range : Z * Z) : outcome E (option Z) :=
  find_mandatory_loop (seqZ range.1 (range.2 - range.1 + 1)).

(** [relay_mandatory_header_from_range]: [meanwhile] is the highest header that was asked for
    while the range was scanned. *)
Definition relay_mandatory_header_from_range (range : Z * Z) (meanwhile : Z) (t : task) :
  outcome E bool * task :=
  let found := find_mandatory_header_in_range range in
  let t := require_more_headers meanwhile t in
  match found with
  | Ok (Some mandatory_source_header_number) =>
      if mandatory_source_header_number <=? required_header_number t then (Ok false, t)
      else (Ok true, Task mandatory_source_header_number (latest_non_mandatory_at_source t))
  | Ok None => (Ok false, t)
  | Err e => (Err e, t)
  | Panic => (Panic, t)
  end.

(** [Result::ok], and the test for a connection error. *)
Definition result_ok {A : Type} (r : A + E) : option A :=
  match r with inl a => Some a | inr _ => None end.

Definition is_connection_failure {A : Type} (r : A + E) : bool :=
  match r with inl _ => false | inr e => is_connection_error e end.

(** A turn of the background task, without the (re)start of the finality relay: the client to
    reconnect, if there is one, and the variables. *)
Definition background_turn (at_source at_target : Z + E) (meanwhile : Z) (t : task) :
  outcome E (option FailedClient) * task :=
  if is_connection_failure at_source then (Ok (Some FailedSource), t)
  else if is_connection_failure at_target then (Ok (Some FailedTarget), t)
  else
    match mandatory_headers_scan_range (result_ok at_source) (result_ok at_target)
            (required_header_number t) with
    | None => (Ok None, t)
    | Some range =>
        let '(result, t) :=
          relay_mandatory_header_from_range
            (Z.max range.1 (latest_non_mandatory_at_source t), range.2) meanwhile t in
        match result with
        | Ok true => (Ok None, t)
        | Ok false => (Ok None, Task (required_header_number t) range.2)
        | Err e => (Ok (if is_connection_error e then Some FailedSource else None), t)
        | Panic => (Panic, t)
        end
    end.
End Scan.
End OnDemandHeadersRelay.

(** ** The relay of parachain heads (on_demand/parachains.rs) *)

Module OnDemandParachainsRelay.

Inductive RelayState (ParaHash : Type) :=
| Idle
| RelayingRelayHeader (number : Z)
| RelayingParaHeader (id : HeaderId ParaHash).
Arguments Idle {ParaHash}.
Arguments RelayingRelayHeader {ParaHash} _.
Arguments RelayingParaHeader {ParaHash} _.

Record RelayData (ParaHash : Type) := RelayData_ {
  required_para_header : Z;
  para_header_at_target : option Z;
  para_header_at_source : option (HeaderId ParaHash);
  para_header_at_relay_header_at_target : option (HeaderId ParaHash);
  relay_header_at_source : Z;
  relay_header_at_target : option Z;
}.
Arguments RelayData_ {ParaHash} _ _ _ _ _ _.
Arguments required_para_header {ParaHash} _.
Arguments para_header_at_target {ParaHash} _.
Arguments para_header_at_source {ParaHash} _.
Arguments para_header_at_relay_header_at_target {ParaHash} _.
Arguments relay_header_at_source {ParaHash} _.
Arguments relay_header_at_target {ParaHash} _.

Section Select.
Context {ParaHash : Type}.
Abbreviation state := (RelayState ParaHash).
Abbreviation data := (RelayData ParaHash).

(** The part of [select_headers_to_relay] after the states of a pending request. *)
Definition select_new_header (d : data) (relay_header_at_target : Z) : state :=
  match para_header_at_source d with
  | None => Idle
  | Some para_header_at_source =>
      let '(required_para_header, para_header_at_target) :=
        match para_header_at_target d with
        | Some para_header_at_target => (required_para_header d, para_header_at_target)
        | None => (header_number para_header_at_source, 0)
        end in
      if required_para_header <=? para_header_at_target then Idle
      else if header_number para_header_at_source <? required_para_header then Idle
      else if relay_header_at_target <? relay_header_at_source d
           then RelayingRelayHeader (relay_header_at_source d)
      else RelayingParaHeader para_header_at_source
  end.

Definition select_headers_to_relay (d : data) (s : state) : state :=
  match relay_header_at_target d with
  | None => Idle
  | Some relay_header_at_target =>
      match s with
      | RelayingRelayHeader relay_header_number =>
          if relay_header_at_target <? relay_header_number then s
          else
            match para_header_at_relay_header_at_target d with
            | Some id => RelayingParaHeader id
            | None => select_new_header d relay_header_at_target
            end
      | RelayingParaHeader para_header_id =>
          if default 0 (para_header_at_target d) <? header_number para_header_id then s
          else select_new_header d relay_header_at_target
      | Idle => select_new_header d relay_header_at_target
      end
  end.
End Select.

Section Read.
Context {ParaHash RelayHash TargetHash E : Type}.
Abbreviation RelayId := (HeaderId RelayHash).
Abbreviation ParaId := (HeaderId ParaHash).

Definition read_relay_data (best_block : outcome E (HeaderId TargetHash))
  (para_at_target : TargetHash -> outcome E (option ParaId))
  (best_finalized_relay_header : outcome E RelayId)
  (on_chain_para_head_id : RelayId -> outcome E (option ParaId))
  (relay_at_target : TargetHash -> outcome E (option RelayId)) (required_header_number : Z) :
  outcome FailedClient (RelayData ParaHash) :=
  let? best_target_block := failed FailedTarget best_block in
  let best_target_block_hash := header_hash best_target_block in
  let? para_header_at_target := failed FailedTarget (para_at_target best_target_block_hash) in
  let? best_finalized_relay_block_id := failed FailedSource best_finalized_relay_header in
  let? para_header_at_source :=
    failed FailedSource (on_chain_para_head_id best_finalized_relay_block_id) in
  let relay_header_at_source := header_number best_finalized_relay_block_id in
  let? relay_header_at_target := failed FailedTarget (relay_at_target best_target_block_hash) in
  let available_relay_header_at_target :=
    id ← relay_header_at_target;
    if is_ancient_block (header_number id) relay_header_at_source then None else Some id in
  let? para_header_at_relay_header_at_target :=
    match available_relay_header_at_target with
    | Some id => failed FailedSource (on_chain_para_head_id id)
    | None => Ok None
    end in
  Ok (RelayData_ required_header_number (header_number <$> para_header_at_target)
        para_header_at_source para_header_at_relay_header_at_target relay_header_at_source
        (header_number <$> relay_header_at_target)).

(** [select_headers_to_prove]. *)
Definition select_headers_to_prove
  (best_finalized_relay_block_at_source best_finalized_relay_block_at_target : outcome E RelayId)
  (best_finalized_para_block_at_source : RelayId -> outcome E (option ParaId))
  (MissingRequiredParachainHead : Z -> E) (required_parachain_header : Z) :
  outcome E (bool * RelayId * ParaId) :=
  let reaches (block : option ParaId) :=
    id ← block; if required_parachain_header <=? header_number id then Some id else None in
  let? at_source := best_finalized_relay_block_at_source in
  let? at_target := best_finalized_relay_block_at_target in
  let? best_possible_parachain_block := best_finalized_para_block_at_source at_source in
  let? best_possible_parachain_block :=
    ok_or (reaches best_possible_parachain_block)
      (MissingRequiredParachainHead required_parachain_header) in
  let? selection :=
    if negb (is_ancient_block (header_number at_target) (header_number at_source)) then
      let? para_block := best_finalized_para_block_at_source at_target in
      Ok ((fun id => (false, at_target, id)) <$> reaches para_block)
    else Ok None in
  Ok (default (true, at_source, best_possible_parachain_block) selection).

(** [prove_header]: [relay_prove_header] is the on-demand relay of relay chain headers. *)
Definition prove_header {Call Node : Type} `{EqDecision RelayHash}
  (select : Z -> outcome E (bool * RelayId * ParaId))
  (relay_prove_header : Z -> outcome E (RelayId * list Call))
  (on_chain_para_head_id : RelayId -> outcome E (option ParaId))
  (prove_parachain_head : RelayId -> outcome E (list Node * ParaHash))
  (MissingRequiredParachainHead : Z -> E)
  (build_submit_parachain_heads_call : RelayId -> ParaHash -> list Node -> Call)
  (required_parachain_header : Z) : outcome E (ParaId * list Call) :=
  let? (need_to_prove_relay_block, selected_relay_block, selected_parachain_block) :=
    select required_parachain_header in
  let? (proved_relay_block, calls) :=
    if need_to_prove_relay_block : bool then relay_prove_header (header_number selected_relay_block)
    else Ok (selected_relay_block, []) in
  let? proved_parachain_block :=
    if decide (header_number proved_relay_block = header_number selected_relay_block /\
               header_hash proved_relay_block = header_hash selected_relay_block)
    then Ok selected_parachain_block
    else
      let? head := on_chain_para_head_id proved_relay_block in
      ok_or head (MissingRequiredParachainHead (header_number proved_relay_block)) in
  let? (para_proof, para_hash) := prove_parachain_head proved_relay_block in
  Ok (proved_parachain_block,
      calls ++ [build_submit_parachain_heads_call proved_relay_block para_hash para_proof]).
End Read.

(** The variables of the background task; [max_header] is [required_para_header_ref]. *)
Record task (ParaHash : Type) := Task {
  relay_state : RelayState ParaHash;
  required_parachain_header_number : Z;
  max_header : AvailableHeader (HeaderId ParaHash);
}.
Arguments Task {ParaHash} _ _ _.
Arguments relay_state {ParaHash} _.
Arguments required_parachain_header_number {ParaHash} _.
Arguments max_header {ParaHash} _.

Definition task_start {ParaHash : Type} : task ParaHash := Task Idle 0 Unavailable.

(** A turn of the background task: a number that was asked for, if that is what ended the
    waiting, and the data read for the number required then.  The result has the relay header that
    is required from the on-demand relay of headers, or the client to reconnect. *)
Definition background_turn {ParaHash : Type} (request : option Z)
  (read : Z -> outcome FailedClient (RelayData ParaHash)) (t : task ParaHash) :
  outcome FailedClient (option Z) * task ParaHash :=
  let required :=
    match request with
    | Some number => Z.max number (required_parachain_header_number t)
    | None => required_parachain_header_number t
    end in
  match read required with
  | Ok relay_data =>
      let relay_state := select_headers_to_relay relay_data (relay_state t) in
      match relay_state with
      | Idle => (Ok None, Task relay_state required (max_header t))
      | RelayingRelayHeader number => (Ok (Some number), Task relay_state required (max_header t))
      | RelayingParaHeader id => (Ok None, Task relay_state required (Available id))
      end
  | Err failed_client => (Err failed_client, Task (relay_state t) required (max_header t))
  | Panic => (Panic, Task (relay_state t) required (max_header t))
  end.
End OnDemandParachainsRelay.

(** ** Both relays keep the interface *)

(** The relay of headers with its source node. *)
Record headers_relay (Header FinalityProof Hash Call E : Type) := HeadersRelay {
  hr_id : Header -> HeaderId Hash;
  hr_header_and_proof : Z -> outcome E (Header * option FinalityProof);
  hr_header_by_number : Z -> outcome E Header;
  hr_proof_number : FinalityProof -> Z;
  hr_not_found : Z -> E;
  hr_best_number : outcome E Z;
  hr_proofs : outcome E (list FinalityProof);
  hr_persistent_first : bool;
  hr_optimize : Header -> FinalityProof -> outcome E FinalityProof;
  hr_build : Header -> FinalityProof -> Call;
}.
Arguments hr_id {_ _ _ _ _} _.
Arguments hr_header_and_proof {_ _ _ _ _} _.
Arguments hr_header_by_number {_ _ _ _ _} _.
Arguments hr_proof_number {_ _ _ _ _} _.
Arguments hr_not_found {_ _ _ _ _} _.
Arguments hr_best_number {_ _ _ _ _} _.
Arguments hr_proofs {_ _ _ _ _} _.
Arguments hr_persistent_first {_ _ _ _ _} _.
Arguments hr_optimize {_ _ _ _ _} _.
Arguments hr_build {_ _ _ _ _} _.
Arguments HeadersRelay {_ _ _ _ _} _ _ _ _ _ _ _ _ _ _.

Section HeadersInstance.
Context {Header FinalityProof Hash Call E : Type}.
Abbreviation relay := (headers_relay Header FinalityProof Hash Call E).

Definition hr_prove_block_finality (r : relay) : Z -> outcome E (Header * FinalityProof) :=
  SubstrateFinalitySource.prove_block_finality (hr_header_and_proof r) (hr_header_by_number r)
    (hr_proof_number r) (hr_not_found r) (hr_best_number r) (hr_proofs r) (hr_persistent_first r).

#[global] Instance headers_on_demand : OnDemandRelay relay Hash Call E := {|
  relay_prove_header r :=
    OnDemandHeadersRelay.prove_header (hr_id r) (hr_prove_block_finality r) (hr_optimize r) (hr_build r);
|}.

(** The node answers with the header of the number that it was asked for, and the proof that it
    keeps with a block is for that block; the finality engine optimizes a proof without changing
    the block that it is for. *)
Record headers_honest (r : relay) : Prop := {
  hh_block n header proof : hr_header_and_proof r n = Ok (header, proof) ->
    header_number (hr_id r header) = n;
  hh_proof n header proof : hr_header_and_proof r n = Ok (header, Some proof) -> hr_proof_number r proof = n;
  hh_header n header : hr_header_by_number r n = Ok header -> header_number (hr_id r header) = n;
  hh_optimize header proof proof' : hr_optimize r header proof = Ok proof' ->
    hr_proof_number r proof' = hr_proof_number r proof;
}.

(** The proof is for the header, which is not below [lo]. *)
Definition proof_of (r : relay) (lo : Z) (header : Header) (proof : FinalityProof) : Prop :=
  lo <= header_number (hr_id r header) /\ hr_proof_number r proof = header_number (hr_id r header).

Lemma persistent_next_spec (r : relay) (lo : Z) (numbers : list Z) header proof :
  headers_honest r -> Forall (fun n => lo <= n) numbers ->
  SubstrateFinalitySource.persistent_proofs_stream_next (hr_header_and_proof r) numbers =
    Some (Ok (header, proof)) ->
  proof_of r lo header proof.
Proof.
  intros Hh. induction 1 as [|n numbers Hn _ IH]; simpl; [done|].
  destruct (hr_header_and_proof r n) as [[h [p|]]| |] eqn:E'; try done.
  intros [= <- <-]. unfold proof_of. by rewrite (hh_block _ Hh _ _ _ E'), (hh_proof _ Hh _ _ _ E').
Qed.

Lemma ephemeral_next_spec (r : relay) (lo : Z) (proofs : list FinalityProof) header proof :
  headers_honest r ->
  SubstrateFinalitySource.ephemeral_proofs_stream_next (hr_header_by_number r) (hr_proof_number r) lo
    proofs = Some (Ok (header, proof)) ->
  proof_of r lo header proof.
Proof.
  intros Hh. induction proofs as [|p proofs IH]; simpl; [done|].
  destruct (Z.ltb_spec (hr_proof_number r p) lo); [done|]. intros [= Hb].
  apply obind_Ok in Hb as (h & Hheader & [= <- <-]). unfold proof_of. by rewrite (hh_header _ Hh _ _ Hheader).
Qed.

Lemma prove_block_finality_reaches (r : relay) (n : Z) header proof :
  headers_honest r -> hr_prove_block_finality r n = Ok (header, proof) ->
  proof_of r n header proof.
Proof.
  intros Hh Hp. unfold hr_prove_block_finality, SubstrateFinalitySource.prove_block_finality in Hp.
  apply obind_Ok in Hp as (best & _ & Hp). apply obind_Ok in Hp as (proofs & _ & Hp).
  apply obind_Ok in Hp as ([h maybe] & Hn & Hp).
  destruct maybe as [p|].
  { injection Hp as <- <-. unfold proof_of. by rewrite (hh_block _ Hh _ _ _ Hn), (hh_proof _ Hh _ _ _ Hn). }
  assert (forall o, SubstrateFinalitySource.persistent_proofs_stream_next (hr_header_and_proof r)
      (seqZ (n + 1) (best - n)) = Some o -> o = Ok (header, proof) -> proof_of r n header proof)
    as Hpers.
  { intros o Ho ->. apply (persistent_next_spec r n) in Ho; [done..|].
    apply Forall_forall. intros k Hk. apply elem_of_seqZ in Hk. lia. }
  assert (forall o, SubstrateFinalitySource.ephemeral_proofs_stream_next (hr_header_by_number r)
      (hr_proof_number r) n proofs = Some o -> o = Ok (header, proof) ->
      proof_of r n header proof) as Heph.
  { intros o Ho ->. by apply (ephemeral_next_spec r n) in Ho. }
  destruct (SubstrateFinalitySource.persistent_proofs_stream_next _ _) as [o1|],
    (SubstrateFinalitySource.ephemeral_proofs_stream_next _ _ _ _) as [o2|]; [|eauto..|done].
  destruct (hr_persistent_first r); eauto.
Qed.

Lemma headers_prove_parts (r : relay) (n : Z) (id : HeaderId Hash) (calls : list Call) :
  headers_honest r -> relay_prove_header r n = Ok (id, calls) ->
  exists header proof, hr_id r header = id /\ proof_of r n header proof /\ calls = [hr_build r header proof].
Proof.
  intros Hh Hp. simpl in Hp. unfold OnDemandHeadersRelay.prove_header in Hp.
  apply obind_Ok in Hp as ([header proof] & Hproof & Hp).
  apply obind_Ok in Hp as (proof' & Hopt & [= <- <-]). exists header, proof'. split_and!; [done| |done].
  unfold proof_of. rewrite (hh_optimize _ Hh _ _ _ Hopt). by apply prove_block_finality_reaches.
Qed.

Lemma headers_prove (r : relay) (n : Z) (id : HeaderId Hash) (calls : list Call) :
  headers_honest r -> relay_prove_header r n = Ok (id, calls) ->
  n <= header_number id /\ calls <> [].
Proof.
  intros Hh Hp. apply headers_prove_parts in Hp as (header & proof & <- & [Hn _] & ->); [|done]. by split.
Qed.

#[global] Instance headers_on_demand_laws : OnDemandRelayLaws relay Hash Call E := {|
  relay_honest := headers_honest;
  relay_proves := headers_prove;
|}.
End HeadersInstance.

(** The relay of parachain heads with its nodes and the relay of relay chain headers. *)
Record parachains_relay (R ParaHash RelayHash Call Node E : Type) := ParachainsRelay {
  pr_relay : R;
  pr_at_source : outcome E (HeaderId RelayHash);
  pr_at_target : outcome E (HeaderId RelayHash);
  pr_head : HeaderId RelayHash -> outcome E (option (HeaderId ParaHash));
  pr_prove_head : HeaderId RelayHash -> outcome E (list Node * ParaHash);
  pr_missing : Z -> E;
  pr_build : HeaderId RelayHash -> ParaHash -> list Node -> Call;
}.
Arguments ParachainsRelay {_ _ _ _ _ _} _ _ _ _ _ _ _.
Arguments pr_relay {_ _ _ _ _ _} _.
Arguments pr_at_source {_ _ _ _ _ _} _.
Arguments pr_at_target {_ _ _ _ _ _} _.
Arguments pr_head {_ _ _ _ _ _} _.
Arguments pr_prove_head {_ _ _ _ _ _} _.
Arguments pr_missing {_ _ _ _ _ _} _.
Arguments pr_build {_ _ _ _ _ _} _.

Section ParachainsInstance.
Context {R ParaHash RelayHash Call Node E : Type} `{EqDecision RelayHash}.
Context `{OnDemandRelayLaws R RelayHash Call E}.
Abbreviation relay := (parachains_relay R ParaHash RelayHash Call Node E).

#[global] Instance parachains_on_demand : OnDemandRelay relay ParaHash Call E := {|
  relay_prove_header r :=
    OnDemandParachainsRelay.prove_header
      (OnDemandParachainsRelay.select_headers_to_prove (pr_at_source r) (pr_at_target r) (pr_head r)
         (pr_missing r))
      (relay_prove_header (pr_relay r)) (pr_head r) (pr_prove_head r) (pr_missing r) (pr_build r);
|}.

(** The head of the parachain does not go back from a relay block to a later one. *)
Record parachains_honest (r : relay) : Prop := {
  ph_relay : relay_honest (pr_relay r);
  ph_forward b b' id id' : header_number b <= header_number b' ->
    pr_head r b = Ok (Some id) -> pr_head r b' = Ok (Some id') -> header_number id <= header_number id';
}.

Lemma select_headers_to_prove_reaches (r : relay) (n : Z) need block id :
  OnDemandParachainsRelay.select_headers_to_prove (pr_at_source r) (pr_at_target r) (pr_head r)
    (pr_missing r) n = Ok (need, block, id) ->
  (if need : bool then pr_at_source r else pr_at_target r) = Ok block /\
  pr_head r block = Ok (Some id) /\ n <= header_number id.
Proof.
  unfold OnDemandParachainsRelay.select_headers_to_prove. intros Hs.
  apply obind_Ok in Hs as (s & -> & Hs). apply obind_Ok in Hs as (t & -> & Hs).
  apply obind_Ok in Hs as (best & Hbest & Hs). apply obind_Ok in Hs as (best' & Hreach & Hs).
  apply ok_or_Ok in Hreach. destruct best as [best|]; [simpl in Hreach|done].
  destruct (Z.leb_spec n (header_number best)); [|done]. injection Hreach as <-.
  apply obind_Ok in Hs as (sel & Hsel & Hs). injection Hs as Hs.
  destruct (is_ancient_block _ _); simpl in Hsel.
  { injection Hsel as <-. simpl in Hs. by injection Hs as <- <- <-. }
  apply obind_Ok in Hsel as (para & Hpara & Hsel). injection Hsel as <-.
  destruct para as [para|]; simpl in Hs; [|by injection Hs as <- <- <-].
  destruct (Z.leb_spec n (header_number para)); simpl in Hs; by injection Hs as <- <- <-.
Qed.

(** The relay block of a batch is known to the target, or the relay of headers proves it. *)
Lemma parachains_prove_parts (r : relay) (n : Z) (id : HeaderId ParaHash) (calls : list Call) :
  relay_prove_header r n = Ok (id, calls) ->
  exists need block para proved relay_calls nodes hash,
    (if need : bool then pr_at_source r else pr_at_target r) = Ok block /\
    pr_head r block = Ok (Some para) /\ n <= header_number para /\
    (if need then relay_prove_header (pr_relay r) (header_number block) = Ok (proved, relay_calls)
     else proved = block /\ relay_calls = []) /\
    pr_head r proved = Ok (Some id) /\ pr_prove_head r proved = Ok (nodes, hash) /\
    calls = relay_calls ++ [pr_build r proved hash nodes].
Proof.
  intros Hp. simpl in Hp. unfold OnDemandParachainsRelay.prove_header in Hp.
  apply obind_Ok in Hp as ([[need block] para] & Hsel & Hp).
  apply select_headers_to_prove_reaches in Hsel as (Hblock & Hpara & Hn).
  apply obind_Ok in Hp as ([proved relay_calls] & Hproved & Hp).
  apply obind_Ok in Hp as (id' & Hid & Hp). apply obind_Ok in Hp as ([nodes hash] & Hnodes & Hp).
  injection Hp as <- <-. exists need, block, para, proved, relay_calls, nodes, hash.
  split_and!; [done..| | |done|done].
  - destruct need; [done|by injection Hproved as <- <-].
  - case_decide as Heq.
    + destruct proved, block, Heq. simpl in *. subst. by injection Hid as <-.
    + apply obind_Ok in Hid as (head & Hhead & Hid). apply ok_or_Ok in Hid. by subst head.
Qed.

Lemma parachains_prove (r : relay) (n : Z) (id : HeaderId ParaHash) (calls : list Call) :
  parachains_honest r -> relay_prove_header r n = Ok (id, calls) ->
  n <= header_number id /\ calls <> [].
Proof.
  intros [Hrelay Hforward] Hp.
  apply parachains_prove_parts in Hp
    as (need & block & para & proved & relay_calls & nodes & hash & _ & Hpara & Hn & Hneed & Hhead & _ & ->).
  split; [|by destruct relay_calls].
  assert (header_number block <= header_number proved) as Hle.
  { destruct need; [|by destruct Hneed as [-> _]]. by apply relay_proves in Hneed as [? _]. }
  pose proof (Hforward _ _ _ _ Hle Hpara Hhead). lia.
Qed.

#[global] Instance parachains_on_demand_laws : OnDemandRelayLaws relay ParaHash Call E := {|
  relay_honest := parachains_honest;
  relay_proves := parachains_prove;
|}.
End ParachainsInstance.

(** ** What the message relay gets *)

(** What [require_header] gives, against the interface: a batch that proves the header or a
    descendant of it, or a request for the header. *)
Lemma required_header_batch {R Hash Call E : Type} `{OnDemandRelayLaws R Hash Call E}
  (relay : R) (builder : option (list Call -> Call)) (number : Z)
  (batch : option (BatchProofTransaction (HeaderId Hash) Call)) (asked : option Z) :
  relay_honest relay ->
  BatchProofTransaction.require_header (Some (relay_prove_header relay)) builder number =
    Ok (batch, asked) ->
  match batch with
  | Some batch =>
      relay_prove_header relay number = Ok (proved_header batch, prove_calls batch) /\
      number <= header_number (proved_header batch) /\ asked = None /\ builder <> None
  | None => builder = None /\ asked = Some number
  end.
Proof.
  intros Hh Hreq. unfold BatchProofTransaction.require_header, BatchProofTransaction.new in Hreq.
  destruct builder as [build|]; simpl in Hreq.
  - apply obind_Ok in Hreq as (b & Hb & Hreq). apply obind_Ok in Hb as ([id calls] & Hp & [= <-]).
    injection Hreq as <- <-. simpl. by destruct (relay_proves _ _ _ _ Hh Hp).
  - by injection Hreq as <- <-.
Qed.

(** C35. When the message relay needs a header and batches are supported, both relays give a batch
    that stands on its own and brings the required header or a descendant of it, never an ancestor.
    The relay of headers gives one call, which submits the proved header with a finality proof for
    that header.  The relay of parachain heads, on top of the relay of headers, gives a last call
    that proves the head of the parachain at a relay block [b], which is the proved header; [b] is
    the block that the target knows, or the call before submits [b] with a finality proof for [b].
    Without batches the relay is asked for the header instead. *)
Theorem batch_proves_required_header
  {Header FinalityProof ParaHash RelayHash Call Node E : Type} `{EqDecision RelayHash}
  (builder : option (list Call -> Call)) (number : Z) (asked : option Z) :
  (forall (r : headers_relay Header FinalityProof RelayHash Call E)
     (batch : option (BatchProofTransaction (HeaderId RelayHash) Call)),
   headers_honest r ->
   BatchProofTransaction.require_header (Some (relay_prove_header r)) builder number = Ok (batch, asked) ->
   match batch with
   | Some batch =>
       asked = None /\ builder <> None /\
       exists header proof, hr_id r header = proved_header batch /\ proof_of r number header proof /\
         prove_calls batch = [hr_build r header proof]
   | None => builder = None /\ asked = Some number
   end) /\
  (forall (r : parachains_relay (headers_relay Header FinalityProof RelayHash Call E)
                 ParaHash RelayHash Call Node E)
     (batch : option (BatchProofTransaction (HeaderId ParaHash) Call)),
   parachains_honest r ->
   BatchProofTransaction.require_header (Some (relay_prove_header r)) builder number = Ok (batch, asked) ->
   match batch with
   | Some batch =>
       number <= header_number (proved_header batch) /\ asked = None /\ builder <> None /\
       exists b nodes hash,
         pr_head r b = Ok (Some (proved_header batch)) /\ pr_prove_head r b = Ok (nodes, hash) /\
         (pr_at_target r = Ok b /\ prove_calls batch = [pr_build r b hash nodes] \/
          exists required header proof,
            hr_id (pr_relay r) header = b /\ proof_of (pr_relay r) required header proof /\
            prove_calls batch = [hr_build (pr_relay r) header proof; pr_build r b hash nodes])
   | None => builder = None /\ asked = Some number
   end).
Proof.
  split; intros r batch Hh Hreq; (apply required_header_batch in Hreq; [|exact Hh]);
    (destruct batch as [[id calls]|]; [cbn [proved_header prove_calls] in *|done]);
    destruct Hreq as (Hp & Hn & -> & Hb); split_and!; try done.
  - by apply headers_prove_parts.
  - apply parachains_prove_parts in Hp
      as (need & block & para & proved & relay_calls & nodes & hash & Hat & _ & _ & Hneed & Hhead & Hnodes & ->).
    exists proved, nodes, hash. split_and!; [done..|].
    destruct need; [right|left; by destruct Hneed as [-> ->]].
    apply headers_prove_parts in Hneed as (header & proof & <- & Hof & ->); [|apply Hh].
    by exists (header_number block), header, proof.
Qed.

(** ** Mandatory headers *)

Section Mandatory.
Context {E : Type} `{MaybeConnectionError E}.
Import OnDemandHeadersRelay.

Lemma find_mandatory_first (mandatory : Z -> bool) (numbers : list Z) :
  find_mandatory_loop (E := E) (fun n => Ok (mandatory n)) numbers =
    Ok (head (filter (fun n => mandatory n = true) numbers)).
Proof.
  induction numbers as [|n numbers IH]; [done|]. simpl. rewrite filter_cons.
  destruct (mandatory n); simpl; [done|exact IH].
Qed.

(** The first mandatory header of a range. *)
Lemma find_mandatory_range (mandatory : Z -> bool) (lo hi : Z) :
  match find_mandatory_header_in_range (E := E) (fun n => Ok (mandatory n)) (lo, hi) with
  | Ok (Some m) => lo <= m <= hi /\ mandatory m = true /\
      forall n, lo <= n < m -> mandatory n = false
  | Ok None => forall n, lo <= n <= hi -> mandatory n = false
  | _ => False
  end.
Proof.
  unfold find_mandatory_header_in_range. simpl. rewrite find_mandatory_first.
  destruct (filter (fun n => mandatory n = true) (seqZ lo (hi - lo + 1))) as [|m l] eqn:Ef; simpl.
  - intros n Hn. destruct (mandatory n) eqn:En; [|done]. exfalso.
    apply (not_elem_of_nil (A := Z) n). rewrite <- Ef. apply list_elem_of_filter. split; [done|].
    apply elem_of_seqZ. lia.
  - assert (m ∈ filter (fun n => mandatory n = true) (seqZ lo (hi - lo + 1))) as Hm by (rewrite Ef; by left).
    apply list_elem_of_filter in Hm as [Hm Hin]. apply elem_of_seqZ in Hin.
    split; [lia|]. split; [done|]. intros n Hn. destruct (mandatory n) eqn:En; [|done]. exfalso.
    assert (n ∈ filter (fun n => mandatory n = true) (seqZ lo (hi - lo + 1))) as Hn'.
    { apply list_elem_of_filter. split; [done|]. apply elem_of_seqZ. lia. }
    pose proof (sorted_filter Z.lt (fun n => mandatory n = true) _ (seqZ_sorted lo (hi - lo + 1))) as Hs.
    rewrite Ef in Hs, Hn'. apply elem_of_cons in Hn' as [->|Hn']; [lia|].
    inversion_clear Hs as [|? ? _ Hs']. rewrite Forall_forall in Hs'. specialize (Hs' n Hn'). lia.
Qed.

(** The background task of the relay of headers asks for the first mandatory header that it
    finds in what is left of the range between the two chains, unless it was asked for a
    later header already; and what was asked for is never taken back. *)
Theorem scan_requires_first_mandatory (mandatory : Z -> bool) (at_source at_target : Z) (t : task) :
  let r := background_turn (E := E) (fun n => Ok (mandatory n)) (inl at_source) (inl at_target) 0 t in
  let lo := Z.max (at_target + 1) (latest_non_mandatory_at_source t) in
  0 <= required_header_number t ->
  r.1 = Ok None /\
  ((required_header_number r.2 = required_header_number t /\
    (at_source <= required_header_number t \/
     (forall n, lo <= n <= at_source -> mandatory n = false) \/
     exists m, lo <= m <= required_header_number t /\ mandatory m = true /\
       forall n, lo <= n < m -> mandatory n = false)) \/
   (required_header_number t < required_header_number r.2 /\
    lo <= required_header_number r.2 <= at_source /\ mandatory (required_header_number r.2) = true /\
    forall n, lo <= n < required_header_number r.2 -> mandatory n = false)).
Proof.
  intros r lo Ht. subst r. unfold background_turn. simpl. unfold mandatory_headers_scan_range. simpl.
  destruct (Z.leb_spec at_source (required_header_number t)); [simpl; split; [done|]; left; split; [done|]; by left|].
  unfold relay_mandatory_header_from_range. simpl. fold lo.
  pose proof (find_mandatory_range mandatory lo at_source) as Hfind.
  assert (require_more_headers 0 t = t) as ->.
  { unfold require_more_headers. destruct (Z.ltb_spec (required_header_number t) 0); [lia|done]. }
  destruct (find_mandatory_header_in_range _ _) as [[m|]|e|]; try done; simpl.
  - destruct (Z.leb_spec m (required_header_number t)); simpl; split; try done.
    + left. split; [done|]. right. right. exists m. destruct Hfind as (? & ? & ?). split_and!; [lia|lia|done..].
    + right. destruct Hfind as (? & ? & ?). split_and!; [lia|lia|lia|done..].
  - split; [done|]. left. split; [done|]. right. by left.
Qed.

(** A turn that finds no mandatory header above the remembered position. *)
Lemma scan_misses (mandatory : Z -> bool) (at_source at_target s : Z) (t : task) :
  0 <= required_header_number t < s -> s <= latest_non_mandatory_at_source t ->
  s <= at_source -> (forall n, s <= n -> mandatory n = false) ->
  let t' := (background_turn (E := E) (fun n => Ok (mandatory n)) (inl at_source) (inl at_target) 0 t).2 in
  required_header_number t' = required_header_number t /\ s <= latest_non_mandatory_at_source t'.
Proof.
  intros Hr Hl Hs Hnone t'. subst t'. unfold background_turn. simpl.
  unfold mandatory_headers_scan_range. simpl.
  destruct (Z.leb_spec at_source (required_header_number t)); [done|].
  unfold relay_mandatory_header_from_range. simpl.
  set (lo := Z.max (at_target + 1) (latest_non_mandatory_at_source t)).
  pose proof (find_mandatory_range mandatory lo at_source) as Hfind.
  assert (require_more_headers 0 t = t) as ->.
  { unfold require_more_headers. destruct (Z.ltb_spec (required_header_number t) 0); [lia|done]. }
  destruct (find_mandatory_header_in_range _ _) as [[m|]|e|]; try done; simpl.
  destruct Hfind as (Hm & Hmand & _). rewrite Hnone in Hmand; [done|lia].
Qed.

(** A mandatory header can be overlooked: if the first mandatory header [m1] above the best one
    at the target is below a header that was asked for before, the task remembers the whole
    range up to [s] as scanned.  A second mandatory header [m2] in that range is then not asked
    for, however often the task looks again, until there is another mandatory header. *)
Theorem mandatory_header_overlooked (m1 m2 required t s : Z) (turns : list (Z * Z)) :
  0 <= t -> t < m1 <= required -> required < m2 < s ->
  Forall (fun turn => s <= turn.1) turns ->
  let mandatory n := bool_decide (n = m1 \/ n = m2) in
  let turn at_source at_target task :=
    (background_turn (E := E) (fun n => Ok (mandatory n)) (inl at_source) (inl at_target) 0 task).2 in
  let task1 := turn s t (require_more_headers required task_start) in
  required_header_number (fold_left (fun task tn => turn tn.1 tn.2 task) turns task1) = required.
Proof.
  intros Ht0 Hm1 Hm2 Hturns mandatory turn task1.
  assert (required_header_number task1 = required /\ s <= latest_non_mandatory_at_source task1) as [Hr Hl].
  { subst task1 turn. simpl. unfold require_more_headers. simpl.
    rewrite (proj2 (Z.ltb_lt 0 required)) by lia. unfold background_turn. simpl.
    unfold mandatory_headers_scan_range. simpl. rewrite (proj2 (Z.leb_gt s required)) by lia.
    unfold relay_mandatory_header_from_range. simpl.
    replace (Z.max (t + 1) 0) with (t + 1) by lia.
    pose proof (find_mandatory_range mandatory (t + 1) s) as Hfind.
    unfold require_more_headers. simpl. rewrite (proj2 (Z.ltb_ge required 0)) by lia.
    destruct (find_mandatory_header_in_range _ _) as [[m|]|e|]; try done; simpl.
    destruct Hfind as (Hm & Hmand & Hfirst). apply bool_decide_eq_true in Hmand.
    assert (m = m1) as ->.
    { destruct Hmand as [->| ->]; [done|]. assert (mandatory m1 = false) as Hf by (apply Hfirst; lia).
      unfold mandatory in Hf. apply bool_decide_eq_false in Hf. tauto. }
    rewrite (proj2 (Z.leb_le m1 required)) by lia. simpl. split; [done|lia]. }
  clearbody task1. revert task1 Hr Hl. induction Hturns as [|tn turns Htn _ IH]; intros task1 Hr Hl; [done|].
  simpl. assert (forall n, s <= n -> mandatory n = false) as Hnone.
  { intros n Hn. apply bool_decide_eq_false. lia. }
  destruct (scan_misses mandatory tn.1 tn.2 s task1 ltac:(lia) Hl Htn Hnone) as [Hr' Hl'].
  apply IH; [exact (eq_trans Hr' Hr)|exact Hl'].
Qed.
End Mandatory.

(** A source node with the headers 0 to 9; the headers 4 and 8 have proofs. *)
Module OnDemandChain.
#[global] Instance never_connection_error : MaybeConnectionError unit := fun _ => false.

Definition relay : headers_relay Z Z Z (Z * Z) unit :=
  HeadersRelay (fun h => HeaderId_ h h) (fun n => Ok (n, if (n =? 4) || (n =? 8) then Some n else None))
    (fun n => Ok n) (fun p => p) (fun _ => tt) (Ok 9) (Ok [3; 9]) false (fun _ p => Ok p) pair.

Lemma relay_is_honest : headers_honest relay.
Proof.
  split; [by intros n h p [= <- _]| |by intros n h [= <-]|by intros h p p' [= <-]].
  intros n h p; cbn; by destruct (_ || _); intros [= <- <-].
Qed.

(** The head of the parachain at the relay block [n] has the number [2 * n]; the target knows the
    relay block 5. *)
Definition parachain : parachains_relay (headers_relay Z Z Z (Z * Z) unit) Z Z (Z * Z) Z unit :=
  ParachainsRelay relay (Ok (HeaderId_ 9 9)) (Ok (HeaderId_ 5 5))
    (fun b => Ok (Some (HeaderId_ (2 * header_number b) (2 * header_number b))))
    (fun b => Ok ([header_number b], 2 * header_number b)) (fun _ => tt)
    (fun b hash _ => (header_number b, hash)).

Lemma parachain_is_honest : parachains_honest parachain.
Proof. split; [exact relay_is_honest|]. intros b b' id id' Hb [= <-] [= <-]. simpl. lia. Qed.
End OnDemandChain.

Lemma batch_proves_required_header_witness :
  BatchProofTransaction.require_header (Some (relay_prove_header OnDemandChain.parachain))
    (Some (fun calls => (0, 0))) 11 =
    Ok (Some (BatchProof (HeaderId_ 18 18) [(9, 9); (9, 18)]), None) /\
  11 <= 18.
Proof.
  assert (BatchProofTransaction.require_header (Some (relay_prove_header OnDemandChain.parachain))
    (Some (fun calls => (0, 0))) 11 =
    Ok (Some (BatchProof (HeaderId_ 18 18) [(9, 9); (9, 18)]), None)) as Hreq
    by (vm_compute; reflexivity).
  split; [exact Hreq|].
  exact (proj1 (proj2 (batch_proves_required_header _ 11 _) OnDemandChain.parachain _
    OnDemandChain.parachain_is_honest Hreq)).
Defined.

Lemma scan_requires_first_mandatory_witness :
  let t := OnDemandHeadersRelay.Task 12 0 in
  let r := OnDemandHeadersRelay.background_turn (E := unit) (fun n => Ok (n =? 20)) (inl 50) (inl 10) 0 t in
  OnDemandHeadersRelay.required_header_number r.2 = 20.
Proof.
  intros t r.
  destruct (scan_requires_first_mandatory (E := unit) (fun n => n =? 20) 50 10 t ltac:(done))
    as [_ [[_ [Hb|[Hb|(m & Hb & Hm & _)]]]|(_ & _ & Hm & _)]].
  - done.
  - by specialize (Hb 20 ltac:(done)).
  - simpl in *. lia.
  - fold r in Hm. lia.
Defined.

Lemma mandatory_header_overlooked_witness :
  OnDemandHeadersRelay.required_header_number
    (fold_left (fun task tn =>
       (OnDemandHeadersRelay.background_turn (E := unit)
          (fun n => Ok (bool_decide (n = 20 \/ n = 40))) (inl tn.1) (inl tn.2) 0 task).2)
       [(50, 30); (51, 30); (60, 30)]
       (OnDemandHeadersRelay.background_turn (E := unit)
          (fun n => Ok (bool_decide (n = 20 \/ n = 40))) (inl 50) (inl 10) 0
          (OnDemandHeadersRelay.require_more_headers 30 OnDemandHeadersRelay.task_start)).2) = 30.
Proof.
  exact (mandatory_header_overlooked (E := unit) 20 40 30 10 50 [(50, 30); (51, 30); (60, 30)]
    ltac:(done) ltac:(done) ltac:(done) ltac:(by repeat constructor)).
Defined.
