(* ===== verification/MessagesLane.v ===== *)
(** * relays/lib-substrate-relay/src/messages_lane.rs: the limits of a delivery transaction

    When the message relay starts, it estimates how many messages fit into a delivery
    transaction, and how much weight is left for their dispatch.  Half of both goes to the
    delivery strategy. *)

From S2P Require Import Prelude Substrate RuntimePrimitives MessagesPrimitives RelayUtils.
From S2P Require Import RaceStrategy DeliveryRace RaceLoop.
From stdpp Require Import base numbers list.
Local Open Scope Z_scope.

Section Limits.
Context `{WeightOps}.

(** [select_delivery_transaction_limits_rpc]: [estimate] is the weight that the target node
    estimates for a delivery transaction with the given number of messages. *)
Definition select_delivery_transaction_limits {E : Type} (estimate : Z -> outcome E Weight)
  (max_extrinsic_weight : Weight) (max_unconfirmed_messages_at_inbound_lane : MessageNonce) :
  outcome E (MessageNonce * Weight) :=
  let weight_for_delivery_tx := weight_div max_extrinsic_weight 3 in
  let weight_for_messages_dispatch := weight_sub max_extrinsic_weight weight_for_delivery_tx in
  let? delivery_tx_with_zero_messages_weight := estimate 0 in
  let? delivery_tx_with_one_message_weight := estimate 1 in
  let delivery_tx_weight_rest :=
    weight_sub weight_for_delivery_tx delivery_tx_with_zero_messages_weight in
  let delivery_tx_message_overhead :=
    weight_saturating_sub delivery_tx_with_one_message_weight
      delivery_tx_with_zero_messages_weight in
  let max_number_of_messages :=
    Z.min (default u64_max
             (min_components_checked_div delivery_tx_weight_rest delivery_tx_message_overhead))
      max_unconfirmed_messages_at_inbound_lane in
  if negb (0 <? max_number_of_messages) then Panic
  else if negb (ref_time max_extrinsic_weight / 2 <=? ref_time weight_for_messages_dispatch)
  then Panic
  else Ok (max_number_of_messages, weight_for_messages_dispatch).

(** The delivery parameters of [run]. *)
Definition delivery_params {E : Type} (estimate : Z -> outcome E Weight)
  (max_extrinsic_weight : Weight) (max_extrinsic_size : Z)
  (max_unrewarded_relayers_in_confirmation_tx max_unconfirmed_messages_in_confirmation_tx :
     MessageNonce) : outcome E MessageDeliveryParams :=
  let max_messages_size_in_single_batch := max_extrinsic_size / 3 in
  let? (max_messages_in_single_batch, max_messages_weight_in_single_batch) :=
    select_delivery_transaction_limits estimate max_extrinsic_weight
      max_unrewarded_relayers_in_confirmation_tx in
  Ok (DeliveryParams max_unrewarded_relayers_in_confirmation_tx
        max_unconfirmed_messages_in_confirmation_tx (max_messages_in_single_batch / 2)
        (weight_div max_messages_weight_in_single_batch 2) max_messages_size_in_single_batch).
End Limits.

(** ** What the limits promise *)

(** The limits keep a delivery transaction within the block: when the weight of an empty
    delivery transaction is below the third that is reserved for it, and every message adds
    something to both components of the weight, then a transaction with as many messages as the
    limit allows, together with the dispatch of messages of the maximal weight, is within the
    maximal weight of an extrinsic; at least one message is allowed, and at least half of the
    time is left for the dispatch. *)
Theorem delivery_transaction_fits `{WeightLaws} {E : Type} (estimate : Z -> outcome E Weight)
  (max_weight zero one dispatch : Weight) (max_unconfirmed n : MessageNonce) :
  estimate 0 = Ok zero -> estimate 1 = Ok one ->
  ref_time zero <= ref_time max_weight / 3 -> proof_size zero <= proof_size max_weight / 3 ->
  ref_time zero < ref_time one -> proof_size zero < proof_size one ->
  select_delivery_transaction_limits estimate max_weight max_unconfirmed = Ok (n, dispatch) ->
  0 < n <= max_unconfirmed /\
  ref_time zero + (ref_time one - ref_time zero) * n + ref_time dispatch <= ref_time max_weight /\
  proof_size zero + (proof_size one - proof_size zero) * n + proof_size dispatch <=
    proof_size max_weight /\
  ref_time max_weight / 2 <= ref_time dispatch.
Proof.
  intros Hzero Hone Hr Hp Hr1 Hp1. unfold select_delivery_transaction_limits. rewrite Hzero, Hone. simpl.
  pose proof (ref_time_u64 max_weight) as Hu. pose proof (proof_size_u64 max_weight) as Hu'.
  pose proof (ref_time_u64 zero). pose proof (proof_size_u64 zero).
  pose proof (ref_time_div max_weight 3 ltac:(word)) as Hd. pose proof (proof_size_div max_weight 3 ltac:(word)) as Hd'.
  set (rest := weight_sub _ zero). set (over := weight_saturating_sub one zero).
  assert (ref_time rest = ref_time max_weight / 3 - ref_time zero) as Hrest.
  { unfold rest. rewrite ref_time_sub; lia. }
  assert (proof_size rest = proof_size max_weight / 3 - proof_size zero) as Hrest'.
  { unfold rest. rewrite proof_size_sub; lia. }
  assert (ref_time over = ref_time one - ref_time zero) as Hover.
  { unfold over. rewrite ref_time_saturating_sub. word. }
  assert (proof_size over = proof_size one - proof_size zero) as Hover'.
  { unfold over. rewrite proof_size_saturating_sub. word. }
  destruct (min_components_checked_div rest over) as [q|] eqn:Eq.
  2: { unfold min_components_checked_div, checked_div in Eq.
       rewrite (proj2 (Z.eqb_neq (ref_time over) 0)) in Eq by lia. simpl in Eq.
       rewrite (proj2 (Z.eqb_neq (proof_size over) 0)) in Eq by lia. done. }
  simpl. destruct (Z.ltb_spec 0 (Z.min q max_unconfirmed)) as [Hpos|]; [simpl|done].
  destruct (Z.leb_spec (ref_time max_weight / 2)
    (ref_time (weight_sub max_weight (weight_div max_weight 3)))) as [Hhalf|]; [simpl|done].
  intros [= <- <-].
  destruct (proj1 (min_components_checked_div_spec rest over q Eq (Z.min q max_unconfirmed) ltac:(lia)) ltac:(lia))
    as [Hfit Hfit'].
  unfold is_u64 in *.
  assert (ref_time max_weight / 3 <= ref_time max_weight) by (apply Z.div_le_upper_bound; lia).
  assert (proof_size max_weight / 3 <= proof_size max_weight) by (apply Z.div_le_upper_bound; lia).
  rewrite ref_time_sub, proof_size_sub in * by lia. split_and!; lia.
Qed.

(** A batch of at most zero messages is empty. *)
Lemma decide_zero `{WeightOps} {Hash Balance : Type}
  (reference : MessageRaceLimits.RelayMessagesBatchReference Hash Balance) o :
  MessageRaceLimits.max_messages_in_this_batch reference <= 0 ->
  MessageRaceLimits.decide reference = Ok o -> o = None.
Proof.
  intros Hmax. unfold MessageRaceLimits.decide.
  destruct (MessageRaceLimits.nonces_queue_range reference) as [first final].
  intros Hd. apply obind_Ok in Hd as (e & _ & Hd). apply obind_Ok in Hd as (e' & _ & Hd).
  injection Hd as <-.
  assert (forall ready, MessageRaceLimits.decide_loop reference ready 0 0 weight_zero 0 0 = 0) as ->; [|done].
  intros [|[n d] ready]; simpl; [done|].
  destruct (MessageRaceLimits.new_selected_weight _ _ _ _); [|done].
  destruct (MessageRaceLimits.new_selected_size _ _ _ _); [|done].
  change (wrapping_add u64_max 0 1) with 1. by rewrite (proj2 (Z.ltb_lt _ _)) by lia.
Qed.

(** A limit of one message stops the relay: the limit is halved after it has been checked to be
    positive.  If only one message fits into a delivery transaction, the strategy gets a limit of
    zero messages, and then selects nothing, whatever the state of the lane and of the race. *)
Theorem single_message_limit_stalls `{WeightOps} {E Hash Balance TargetHeaderId Proof BatchTx : Type}
  (estimate : Z -> outcome E Weight) (max_weight dispatch : Weight) (max_size : Z)
  (max_unrewarded max_unconfirmed : MessageNonce) :
  select_delivery_transaction_limits estimate max_weight max_unrewarded = Ok (1, dispatch) ->
  exists p,
    delivery_params estimate max_weight max_size max_unrewarded max_unconfirmed = Ok p /\
    forall (s : MessageDeliveryStrategy Hash Balance)
      (rs : RaceStateImpl (HeaderId Hash) TargetHeaderId Proof BatchTx),
      params s = p -> MessageDeliveryStrategy.select_nonces_to_deliver s rs = Ok None.
Proof.
  intros Hlim. unfold delivery_params. rewrite Hlim. simpl. eexists. split; [done|].
  intros s rs Hp. destruct (select_total s rs) as [o Ho]. simpl in Ho. rewrite Ho. f_equal.
  unfold MessageDeliveryStrategy.select_nonces_to_deliver in Ho.
  destruct (best_target_nonce _); [|congruence].
  destruct (best_finalized_source_header_id_at_best_target rs); [|congruence].
  destruct (target_nonces s) as [tn|]; [|congruence].
  destruct (MessageDeliveryStrategy.batch_limits _ _ _) as [[required mx]|] eqn:El; [|congruence].
  destruct (BasicStrategy.available_source_queue_indices _ rs); [|congruence].
  apply obind_Ok in Ho as (sel & Hsel & Ho). injection Ho as <-.
  apply decide_zero in Hsel as ->; [done|]. simpl. unfold MessageDeliveryStrategy.batch_limits in El.
  rewrite Hp in El. simpl in El. destruct (match checked_sub _ _ with Some _ => _ | None => _ end); [done|].
  destruct (_ && _); [done|]. injection El as _ <-. apply Z.le_min_r.
Qed.

(** An extrinsic of weight 90 where an empty transaction takes 10 and every message adds 20. *)
Module SmallExtrinsic.
Definition estimate (n : Z) : outcome unit Weight := Ok (U64Weight.parts (10 + 20 * n) (10 + 20 * n)).
Definition max_weight : Weight := U64Weight.parts 90 90.
End SmallExtrinsic.

Lemma delivery_transaction_fits_witness :
  exists dispatch,
    select_delivery_transaction_limits SmallExtrinsic.estimate SmallExtrinsic.max_weight 5 =
      Ok (1, dispatch) /\ 10 + 20 * 1 + ref_time dispatch <= 90.
Proof.
  eexists. split; [reflexivity|].
  exact (proj1 (proj2 (delivery_transaction_fits SmallExtrinsic.estimate SmallExtrinsic.max_weight
    (U64Weight.parts 10 10) (U64Weight.parts 30 30) _ 5 1 eq_refl eq_refl
    ltac:(done) ltac:(done) ltac:(done) ltac:(done) eq_refl))).
Defined.

Lemma single_message_limit_stalls_witness :
  exists p, delivery_params SmallExtrinsic.estimate SmallExtrinsic.max_weight 300 5 8 = Ok p /\
    MessageDeliveryStrategy.select_nonces_to_deliver
      (MessageDeliveryStrategy.new p : MessageDeliveryStrategy Z unit)
      (race_state_default : RaceStateImpl (HeaderId Z) Z unit unit) = Ok None.
Proof.
  destruct (single_message_limit_stalls (Hash := Z) (Balance := unit) (TargetHeaderId := Z)
    (Proof := unit) (BatchTx := unit) SmallExtrinsic.estimate SmallExtrinsic.max_weight
    (weight_sub SmallExtrinsic.max_weight (weight_div SmallExtrinsic.max_weight 3)) 300 5 8
    eq_refl) as (p & Hp & Hsel).
  exists p. split; [exact Hp|]. by apply Hsel.
Defined.
