(* ===== verification/FinalityEngine.v ===== *)
(** * relays/lib-substrate-relay/src/finality: the GRANDPA engine of the headers relay

    engine.rs (what is read from the nodes for GRANDPA: the state of the pallet, the optimised
    proof, the data that the pallet is initialized with), target.rs (the target client of the
    finality loop) and initialize.rs.  RPC calls are parameters.  The theorems compose the finality
    loop with this client and with the GRANDPA pallet at the target chain. *)

From S2P Require Import Prelude Substrate RuntimePrimitives HeaderChain Justification GrandpaPallet.
From S2P Require Import RelayUtils MessagesClients FinalityLoop.
From stdpp Require Import base numbers list gmap relations.
Local Open Scope Z_scope.

(** [crate::error::Error]; [ClientError] is the error of the Substrate client. *)
Inductive InitializeError (AuthorityId Hash ClientError : Type) :=
| SubmitTransaction (e : ClientError)
| Subscribe (e : ClientError)
| ReadJustification (e : ClientError)
| ReadJustificationStreamEnded
| DecodeJustification
| ReadInvalidAuthorities (l : list (AuthorityId * Z))
| GuessInitialAuthorities (number : Z)
| RetrieveAuthorities (hash : Hash) (e : ClientError)
| DecodeAuthorities (hash : Hash)
| RetrieveHeader (hash : Hash) (e : ClientError)
| IsInitializedRetrieve (e : ClientError).
Arguments SubmitTransaction {_ _ _} _.
Arguments Subscribe {_ _ _} _.
Arguments ReadJustification {_ _ _} _.
Arguments ReadJustificationStreamEnded {_ _ _}.
Arguments DecodeJustification {_ _ _}.
Arguments ReadInvalidAuthorities {_ _ _} _.
Arguments GuessInitialAuthorities {_ _ _} _.
Arguments RetrieveAuthorities {_ _ _} _ _.
Arguments DecodeAuthorities {_ _ _} _.
Arguments RetrieveHeader {_ _ _} _ _.
Arguments IsInitializedRetrieve {_ _ _} _.

(** The errors of the Substrate client that this code makes itself. *)
Inductive EngineError (E : Type) :=
| Rpc (e : E)
| CurrentAuthoritySetMissing
| FailedToOptimize (e : Justification.Error)
| PalletIsHalted
| PalletIsNotInitialized.
Arguments Rpc {E} _.
Arguments CurrentAuthoritySetMissing {E}.
Arguments FailedToOptimize {E} _.
Arguments PalletIsHalted {E}.
Arguments PalletIsNotInitialized {E}.

Section Engine.
Context {Hash AuthorityId Signature DigestItem Hdr E : Type}.
Context `{Countable Hash} `{Countable AuthorityId}.
Context `{Header Hdr Hash} `{!GrandpaHeader Hdr DigestItem AuthorityId}.
Abbreviation GrandpaJustification := (GrandpaJustification Hash AuthorityId Signature Hdr).
Variable check_message_signature : Precommit Hash -> AuthorityId -> Signature -> Z -> Z -> bool.
Variable voter_set_new : list (AuthorityId * Z) -> option (VoterSet AuthorityId).
Abbreviation result A := (outcome (EngineError E) A).

(** ** The target node *)

(** What the target node has in the storage of the GRANDPA pallet. *)
Record target_storage := TargetStorage {
  raw_best_finalized : result (option (HeaderId Hash));
  raw_operating_mode : result (option BasicOperatingMode);
  raw_current_authority_set : result (option (AuthoritySet AuthorityId));
}.

Definition engine_is_initialized (t : target_storage) : result bool :=
  let? value := raw_best_finalized t in
  Ok (bool_decide (is_Some value)).

Definition engine_is_halted (t : target_storage) : result bool :=
  let? operating_mode := raw_operating_mode t in
  Ok (default false (mode_is_halted <$> operating_mode)).

Definition optimize_proof (t : target_storage) (header : Hdr) (proof : GrandpaJustification) :
  result GrandpaJustification :=
  let? authority_set := raw_current_authority_set t in
  let? authority_set := ok_or authority_set CurrentAuthoritySetMissing in
  let? voters := expect (voter_set_new (authorities authority_set)) in
  map_err FailedToOptimize
    (verify_and_optimize_justification check_message_signature (hdr_hash header, hdr_number header)
       (set_id authority_set) voters proof).

Definition ensure_pallet_active (t : target_storage) : result unit :=
  let? is_halted := engine_is_halted t in
  if is_halted : bool then Err PalletIsHalted
  else
    let? is_initialized := engine_is_initialized t in
    if negb is_initialized then Err PalletIsNotInitialized else Ok tt.

(** [read_state] is [read_client_state] without a peer client. *)
Definition target_best_finalized_source_block_id {TargetId : Type} (ensure_synced : result unit)
  (t : target_storage) (read_state : result (ClientState TargetId (HeaderId Hash))) :
  result (HeaderId Hash) :=
  check? ensure_synced in
  check? ensure_pallet_active t in
  let? state := read_state in
  ok_or (best_finalized_peer_at_best_self state) PalletIsNotInitialized.

(** [send] signs and submits the call of [submit_finality_proof]. *)
Definition target_submit_finality_proof (t : target_storage)
  (send : Hdr -> GrandpaJustification -> result unit) (header : Hdr) (proof : GrandpaJustification) :
  result unit :=
  let? proof := optimize_proof t header proof in
  send header proof.

(** ** The data for the initialization *)

(** What the source node answers. *)
Record source_node := SourceNode {
  finality_proofs : outcome E (outcome E (option (option GrandpaJustification)));
  header_by_hash : Hash -> outcome E Hdr;
  grandpa_authorities_set : Hash -> outcome E (option (list (AuthorityId * Z)));
}.

Abbreviation init_result A := (outcome (InitializeError AuthorityId Hash E) A).

Definition source_header (n : source_node) (header_hash : Hash) : init_result Hdr :=
  map_err (RetrieveHeader header_hash) (header_by_hash n header_hash).

(** [None] is what cannot be decoded. *)
Definition source_authorities_set (n : source_node) (header_hash : Hash) :
  init_result (list (AuthorityId * Z)) :=
  let? raw_authorities_set :=
    map_err (RetrieveAuthorities header_hash) (grandpa_authorities_set n header_hash) in
  ok_or raw_authorities_set (DecodeAuthorities header_hash).

(** The loop that guesses the set id.  The second counter is a block number, up to [number_max];
    [Panic] is an exhausted [fuel]. *)
Fixpoint guess_set_id (fuel : nat) (number_max : Z) (voters : VoterSet AuthorityId)
  (justification : GrandpaJustification) (initial_authorities_set_id min_possible_block_number : Z) :
  init_result Z :=
  let target := (commit_target_hash (commit justification),
                 commit_target_number (commit justification)) in
  match fuel with
  | O => Panic
  | S fuel =>
      match verify_and_optimize_justification check_message_signature target
              initial_authorities_set_id voters justification with
      | Ok _ => Ok initial_authorities_set_id
      | Err _ =>
          let set_id := wrapping_add u64_max initial_authorities_set_id 1 in
          let min_possible_block_number := wrapping_add number_max min_possible_block_number 1 in
          if target.2 <? min_possible_block_number then Err (GuessInitialAuthorities target.2)
          else guess_set_id fuel number_max voters justification set_id min_possible_block_number
      | Panic => Panic
      end
  end.

Definition prepare_initialization_data (number_max : Z) (n : source_node) :
  init_result (InitializationData Hdr AuthorityId) :=
  let? justifications := map_err Subscribe (finality_proofs n) in
  let? justification := map_err ReadJustification justifications in
  let? justification := ok_or justification ReadJustificationStreamEnded in
  let? justification := ok_or justification DecodeJustification in
  let initial_header_hash := commit_target_hash (commit justification) in
  let initial_header_number := commit_target_number (commit justification) in
  let? initial_header := source_header n initial_header_hash in
  let? initial_authorities_set := source_authorities_set n initial_header_hash in
  let scheduled_change := find_authorities_change (hdr_digest initial_header) in
  let zero_delay :=
    match scheduled_change with Some change => change_delay change =? 0 | None => true end in
  if negb zero_delay then Panic
  else
    let schedules_change := bool_decide (is_Some scheduled_change) in
    let? authorities_for_verification :=
      if schedules_change then source_authorities_set n (hdr_parent_hash initial_header)
      else Ok initial_authorities_set in
    let? voters :=
      ok_or (voter_set_new authorities_for_verification)
        (ReadInvalidAuthorities authorities_for_verification) in
    let? initial_authorities_set_id :=
      guess_set_id (S (Z.to_nat initial_header_number)) number_max voters justification 0 0 in
    Ok (InitData initial_header initial_authorities_set
          (if schedules_change then wrapping_add u64_max initial_authorities_set_id 1
           else initial_authorities_set_id) Normal).

(** [do_initialize]: [submit] sends the transaction with the data and waits for its status. *)
Definition do_initialize {Status : Type} (number_max : Z) (initialized : outcome E bool)
  (n : source_node) (submit : InitializationData Hdr AuthorityId -> outcome E Status)
  (dry_run_error : E) (dry_run : bool) : init_result (option Status) :=
  let? is_initialized := map_err IsInitializedRetrieve initialized in
  if (is_initialized : bool) && negb dry_run then Ok None
  else
    let? initialization_data := prepare_initialization_data number_max n in
    let? tx_status :=
      map_err SubmitTransaction
        (if dry_run then Err dry_run_error else submit initialization_data) in
    Ok (Some tx_status).
End Engine.
Arguments target_storage : clear implicits.
Arguments source_node : clear implicits.

(** Headers and proofs of a GRANDPA chain for the finality loop ([SyncHeader]). *)
#[global] Instance grandpa_pipeline {Hash AuthorityId Signature DigestItem Hdr : Type}
  `{Header Hdr Hash} `{!GrandpaHeader Hdr DigestItem AuthorityId} :
  FinalitySyncPipeline Hdr (GrandpaJustification Hash AuthorityId Signature Hdr) Hash := {|
  source_header_number := hdr_number;
  source_header_hash := hdr_hash;
  is_mandatory h := schedules_authorities_change (hdr_digest h);
  target_header_number j := commit_target_number (commit j);
|}.

(** ** The loop with its target client and the pallet *)

Section Composition.
Context `{WeightOps} `{!GrandpaConfig}.
Context {AccountId Hash AuthorityId Signature DigestItem Hdr SE E TargetId : Type}.
Context `{EqDecision AccountId} `{Countable Hash} `{Countable AuthorityId}.
Context `{Header Hdr Hash} `{!GrandpaHeader Hdr DigestItem AuthorityId}.
Abbreviation GrandpaJustification := (GrandpaJustification Hash AuthorityId Signature Hdr).
Abbreviation pallet := (GrandpaPallet.pallet AccountId Hash AuthorityId).
Context (check_message_signature : Precommit Hash -> AuthorityId -> Signature -> Z -> Z -> bool)
  (voter_set_new : list (AuthorityId * Z) -> option (VoterSet AuthorityId))
  (header_encoded_size : Hdr -> Z) (justification_encoded_size : GrandpaJustification -> Z).
Hypothesis HeadersToKeep_pos : 0 < HeadersToKeep.
Abbreviation submit :=
  (GrandpaPallet.submit_finality_proof check_message_signature voter_set_new header_encoded_size
     justification_encoded_size (AccountId := AccountId)).
Abbreviation optimize :=
  (optimize_proof (E := E) check_message_signature voter_set_new).

(** An optimized justification is for the same block, as the on-demand relay relies on
    ([headers_honest] of OnDemand.v). *)
Lemma optimize_keeps_target (t : target_storage Hash AuthorityId E) (h : Hdr) (j j' : GrandpaJustification) :
  optimize t h j = Ok j' -> commit_target_number (commit j') = commit_target_number (commit j).
Proof.
  unfold optimize_proof.
  intros (s & _ & (a & _ & (v & _ & (-> & _)%map_err_Ok%optimize_is_strict)%obind_Ok)%obind_Ok)%obind_Ok.
  by destruct j as [? [] ?].
Qed.

(** What the pallet answers to a justification that its authority set signed: the import, or one
    of the three refusals that do not depend on the justification. *)
Definition import_outcome (p : pallet) (h : Hdr) (r : outcome (DispatchError Error) (PostDispatchInfo * pallet)) :
  Prop :=
  match r with
  | Ok (_, p') =>
      BestFinalized p' = Some (header_id h) /\
      handoff (CurrentAuthoritySet p) h (CurrentAuthoritySet p')
  | Err (ModuleError TooManyRequests) => MaxRequests <= RequestCount p
  | Err (ModuleError UnsupportedScheduledChange) =>
      find_forced_change h <> None \/
      exists change, find_scheduled_change h = Some change /\ change_delay change <> 0
  | Err (ModuleError TooManyAuthoritiesInSet) =>
      exists change, find_scheduled_change h = Some change /\
        MAX_AUTHORITIES_COUNT < Z.of_nat (length (next_authorities change))
  | _ => False
  end.

(** The header asks for no forced change of authorities, and for a scheduled one only without
    delay and with a set that can be stored. *)
Definition supported_change (h : Hdr) : Prop :=
  find_forced_change h = None /\
  forall change, find_scheduled_change h = Some change ->
    change_delay change = 0 /\ Z.of_nat (length (next_authorities change)) <= MAX_AUTHORITIES_COUNT.

Lemma import_outcome_supported (p : pallet) (h : Hdr) r :
  import_outcome p h r -> RequestCount p < MaxRequests -> supported_change h ->
  exists info p', r = Ok (info, p') /\ BestFinalized p' = Some (header_id h) /\
    handoff (CurrentAuthoritySet p) h (CurrentAuthoritySet p').
Proof.
  intros Hr Hreq [Hforced Hch]. destruct r as [[info p']|e|]; [by exists info, p'| |done].
  destruct e as [|e]; [done|]. destruct e; simpl in Hr; try done; [lia|..].
  - destruct Hr as [?|(change & Hs & Hd)]; [done|]. destruct (Hch _ Hs). lia.
  - destruct Hr as (change & Hs & Hd). destruct (Hch _ Hs). lia.
Qed.

(** Between two states of the pallet no header was imported and the pallet was not stopped. *)
Definition undisturbed (p p' : pallet) : Prop :=
  PalletOperatingMode p' = PalletOperatingMode p /\ BestFinalized p' = BestFinalized p /\
  CurrentAuthoritySet p' = CurrentAuthoritySet p.

(** The node answers with the storage of the pallet. *)
Record target_view (t : target_storage Hash AuthorityId E) (p : pallet) : Prop := {
  tv_best : raw_best_finalized t = Ok (BestFinalized p);
  tv_mode : exists m, raw_operating_mode t = Ok m /\ default Normal m = PalletOperatingMode p;
  tv_set : raw_current_authority_set t = Ok (Some (CurrentAuthoritySet p));
}.

Lemma submit_signed (p : pallet) (h : Hdr) (j : GrandpaJustification) best voters :
  is_halted p = false -> BestFinalized p = Some best -> header_number best < hdr_number h ->
  voter_set_new (authorities (CurrentAuthoritySet p)) = Some voters ->
  Justification.verify_justification check_message_signature (hdr_hash h, hdr_number h)
    (set_id (CurrentAuthoritySet p)) voters j = Ok tt ->
  import_outcome p h (submit p h j).
Proof.
  intros Hhalt Hbest Hn Hv Hj. unfold GrandpaPallet.submit_finality_proof, ensure_not_halted.
  rewrite Hhalt. simpl.
  destruct (RequestCount p <? MaxRequests) eqn:Ereq; simpl; [|lia].
  unfold check_obsolete. rewrite Hbest. simpl.
  rewrite (proj2 (Z.leb_gt _ _)) by lia. simpl.
  unfold GrandpaPallet.verify_justification. rewrite Hv. simpl. rewrite Hj. simpl.
  unfold try_enact_authority_change.
  case_bool_decide as Hforced; simpl; [|by left].
  unfold import_outcome, handoff, insert_header, stored_authority_set_try_new.
  rewrite (proj2 (Z.eqb_neq _ _)) by lia.
  destruct (find_scheduled_change h) as [change|] eqn:Ech; simpl; [|by split_and!].
  destruct (change_delay change =? 0) eqn:Ed; simpl; [|right; exists change; split; [done|lia]].
  destruct (Z.of_nat (length (next_authorities change)) <=? MAX_AUTHORITIES_COUNT) eqn:El; simpl;
    [|exists change; split; [done|lia]].
  split_and!; [done|done|lia|lia|done].
Qed.

(** The target half of the clients is the Substrate client; [send] has what was sent. *)
Record substrate_target (c : clients (Header := Hdr) (FinalityProof := GrandpaJustification)
    (Hash := Hash) (SE := SE) (TE := EngineError E))
  (t : target_storage Hash AuthorityId E) (send : Hdr -> GrandpaJustification -> outcome (EngineError E) unit)
  (p : pallet) : Prop := {
  st_view : target_view t p;
  st_best : exists ensure_synced (read_state : outcome (EngineError E) (ClientState TargetId (HeaderId Hash))),
    (forall state, read_state = Ok state -> best_finalized_peer_at_best_self state = BestFinalized p) /\
    best_finalized_source_block_id c =
      target_best_finalized_source_block_id ensure_synced t read_state;
  st_submit header proof : submit_finality_proof c header proof =
    target_submit_finality_proof check_message_signature voter_set_new t send header proof;
}.

Lemma target_best_active c t send (p : pallet) id :
  substrate_target c t send p -> best_finalized_source_block_id c = Ok id ->
  is_halted p = false /\ BestFinalized p = Some id.
Proof.
  intros [[Hbest (m & Hmode & Hm) _] (synced & read & Hread & Heq) _] Hid. rewrite Heq in Hid.
  unfold target_best_finalized_source_block_id in Hid.
  apply obind_Ok in Hid as ([] & _ & Hid). apply obind_Ok in Hid as ([] & Hactive & Hid).
  apply obind_Ok in Hid as (state & Hstate & Hid). apply ok_or_Ok in Hid.
  rewrite (Hread _ Hstate) in Hid. split; [|done].
  unfold ensure_pallet_active, engine_is_halted in Hactive. rewrite Hmode in Hactive. simpl in Hactive.
  unfold is_halted. simpl. rewrite <- Hm. by destruct m as [[]|].
Qed.

(** C14. What the headers relay submits is imported.  The finality loop runs with its Substrate
    target client, which reads the state [p] of the GRANDPA pallet.  When an iteration submits a
    transaction, the submitted header has the number that is tracked and is above the best
    header of the pallet, no mandatory header is skipped, and the submitted proof is the
    optimised one.  If the pallet has imported no other header and was not stopped until the
    transaction is executed, in the state [p1], then it imports the header and hands over to
    the next authority set, provided that its rate limit leaves room and that the header asks
    for no change of authorities that the pallet does not support; without these conditions it
    imports the header or refuses it for one of these reasons. *)
Theorem submitted_headers_are_imported (params : FinalitySyncParams) c t send (p : pallet)
  (raw : list GrandpaJustification * bool + SE) `{MaybeConnectionError SE}
  `{MaybeConnectionError (EngineError E)} (st0 st : loop_state) (n : Z) s recent :
  honest_clients c -> substrate_target c t send p ->
  loop_start raw = Ok st0 ->
  rtc (loop_step (Header := Hdr) (Hash := Hash) (SE := SE) (TE := EngineError E) params) st0 st ->
  run_loop_iteration params c st = (Ok (Some n), s, recent) ->
  exists header proof proof' best,
    hdr_number header = n /\ BestFinalized p = Some best /\ header_number best < n /\
    (forall m h proof, header_number best < m < n -> header_and_finality_proof c m = Ok (h, proof) ->
       find_authorities_change (hdr_digest h) = None) /\
    optimize t header proof = Ok proof' /\
    precommits (commit proof') `sublist_of` precommits (commit proof) /\
    send header proof' = Ok tt /\
    forall p1, undisturbed p p1 ->
      import_outcome p1 header (submit p1 header proof') /\
      (RequestCount p1 < MaxRequests -> supported_change header ->
       exists info p2, submit p1 header proof' = Ok (info, p2) /\
         BestFinalized p2 = Some (header_id header) /\
         handoff (CurrentAuthoritySet p1) header (CurrentAuthoritySet p2)).
Proof.
  intros Hc Ht Hstart Hrun Hit.
  pose proof (loop_reachable_ok _ _ _ _ Hstart Hrun) as Hok.
  pose proof (run_loop_iteration_spec _ _ _ _ _ _ Hc Hok Hit)
    as [_ (s' & best & header & proof & _ & Hbest & Hsub & Hn & _ & _ & Hlt & Hplain)].
  destruct (target_best_active _ _ _ _ _ Ht Hbest) as [Hhalt Hp].
  rewrite (st_submit _ _ _ _ Ht) in Hsub. unfold target_submit_finality_proof in Hsub.
  apply obind_Ok in Hsub as (proof' & Hopt & Hsend). pose proof Hopt as Hopt'.
  unfold optimize_proof in Hopt. rewrite (tv_set _ _ (st_view _ _ _ _ Ht)) in Hopt. simpl in Hopt.
  apply obind_Ok in Hopt as (voters & Hv & Hopt). apply expect_Ok in Hv. apply map_err_Ok in Hopt.
  apply optimize_is_strict in Hopt as (_ & Hsubl & Hstrict).
  exists header, proof, proof', best. split_and!; try done; [lia| |].
  - intros m h q Hm Hh. destruct (Hplain m Hm) as (h' & q' & Hh' & Hmand). rewrite Hh in Hh'.
    injection Hh' as <- <-. simpl in Hmand. unfold schedules_authorities_change in Hmand.
    by destruct (find_authorities_change (hdr_digest h)).
  - simpl in Hn. intros p1 (Em & Eb & Ea).
    assert (import_outcome p1 header (submit p1 header proof')) as Hout.
    { unfold is_halted in Hhalt. simpl in Hhalt.
      eapply submit_signed; rewrite ?Eb, ?Ea; [|done|lia|done|done].
      unfold is_halted. simpl. by rewrite Em. }
    split; [exact Hout|]. by apply import_outcome_supported.
Qed.
End Composition.

(** ** Initialization *)

Section Initialization.
Context `{WeightOps} `{!GrandpaConfig}.
Context {AccountId Hash AuthorityId Signature DigestItem Hdr E : Type}.
Context `{EqDecision AccountId} `{Countable Hash} `{Countable AuthorityId}.
Context `{Header Hdr Hash} `{!GrandpaHeader Hdr DigestItem AuthorityId}.
Abbreviation GrandpaJustification := (GrandpaJustification Hash AuthorityId Signature Hdr).
Abbreviation pallet := (GrandpaPallet.pallet AccountId Hash AuthorityId).
Abbreviation node := (source_node Hash AuthorityId Signature Hdr E).
Context (check_message_signature : Precommit Hash -> AuthorityId -> Signature -> Z -> Z -> bool)
  (voter_set_new : list (AuthorityId * Z) -> option (VoterSet AuthorityId)) (number_max : Z).
Abbreviation prepare :=
  (prepare_initialization_data (E := E) check_message_signature voter_set_new number_max).
Abbreviation guess := (guess_set_id (E := E) check_message_signature).
Abbreviation optimize := (verify_and_optimize_justification check_message_signature).

Definition target (j : GrandpaJustification) : Hash * Z :=
  (commit_target_hash (commit j), commit_target_number (commit j)).

(** The loop tries all set ids from [k] to the number of the header, and stops at the first
    one under which the justification is valid. *)
Lemma guess_set_id_spec (voters : VoterSet AuthorityId) (j : GrandpaJustification) (fuel : nat) (k : Z) :
  voter_set_ok voters ->
  0 <= k <= (target j).2 -> (target j).2 < number_max <= u64_max ->
  (target j).2 - k < Z.of_nat fuel ->
  match guess fuel number_max voters j k k with
  | Ok id => k <= id <= (target j).2 /\ exists j', optimize (target j) id voters j = Ok j'
  | Err e => e = GuessInitialAuthorities (target j).2 /\
      forall id j', k <= id <= (target j).2 -> optimize (target j) id voters j <> Ok j'
  | Panic => False
  end.
Proof.
  intros Hv. revert k. induction fuel as [|fuel IH]; intros k Hk Hmax Hfuel; [lia|].
  cbn [guess_set_id]. fold (target j).
  pose proof (verify_and_optimize_cases check_message_signature k voters (target j) j Hv) as Hcases.
  destruct (optimize (target j) k voters j) as [j'|e|] eqn:Ej; [|clear Hcases|done].
  { split; [lia|by exists j']. }
  rewrite !wrapping_add_small by word.
  destruct ((target j).2 <? k + 1) eqn:Elast.
  - split; [done|]. intros id j' Hid. replace id with k by lia. by rewrite Ej.
  - specialize (IH (k + 1) ltac:(lia) Hmax ltac:(lia)).
    destruct (guess fuel number_max voters j (k + 1) (k + 1)) as [id|e'|]; [|destruct IH as [-> IH]|done].
    + destruct IH as [? ?]. split; [lia|done].
    + split; [done|]. intros id j' Hid. destruct (decide (id = k)) as [->|]; [by rewrite Ej|].
      apply IH. lia.
Qed.

#[local] Arguments guess_set_id : simpl never.

(** What is true of the source chain at the header [h]: [auth_at] are the authority sets in force
    in the states of its blocks. *)
Record honest_source_node (n : node) (auth_at : Hash -> AuthoritySet AuthorityId) : Prop := {
  hn_header hash h : header_by_hash n hash = Ok h -> hdr_hash h = hash;
  hn_header_answers hash : header_by_hash n hash <> Panic;
  hn_authorities hash l : grandpa_authorities_set n hash = Ok (Some l) -> l = authorities (auth_at hash);
  hn_authorities_answers hash : grandpa_authorities_set n hash <> Panic;
}.

(** The set that finalizes [h]: a change that [h] schedules is not yet in force for it. *)
Definition signing_set (auth_at : Hash -> AuthoritySet AuthorityId) (h : Hdr) :
  AuthoritySet AuthorityId :=
  if bool_decide (is_Some (find_authorities_change (hdr_digest h)))
  then auth_at (hdr_parent_hash h) else auth_at (hdr_hash h).

(** The set id of [h] is the next one if [h] schedules a change; and votes are signed with the set id
    of the set that finalizes [h]. *)
Record honest_finality (auth_at : Hash -> AuthoritySet AuthorityId) (h : Hdr) (j : GrandpaJustification) :
  Prop := {
  hf_next : is_Some (find_authorities_change (hdr_digest h)) ->
    set_id (auth_at (hdr_hash h)) = set_id (auth_at (hdr_parent_hash h)) + 1;
  hf_signed s k : s ∈ precommits (commit j) ->
    check_message_signature (precommit s) (signed_id s) (signature s) (round j) k = true ->
    k = set_id (signing_set auth_at h);
}.

Lemma source_header_Ok (n : node) auth_at hash :
  honest_source_node n auth_at ->
  match source_header n hash with
  | Ok h => header_by_hash n hash = Ok h /\ hdr_hash h = hash
  | Err e => exists e', e = RetrieveHeader hash e'
  | Panic => False
  end.
Proof.
  intros Hn. unfold source_header. destruct (header_by_hash n hash) eqn:Eh; simpl.
  - split; [done|by apply (hn_header _ _ Hn)].
  - by eexists.
  - by apply (hn_header_answers _ _ Hn hash).
Qed.

Lemma source_authorities_Ok (n : node) auth_at hash :
  honest_source_node n auth_at ->
  match source_authorities_set n hash with
  | Ok l => l = authorities (auth_at hash)
  | Err e => e = DecodeAuthorities hash \/ exists e', e = RetrieveAuthorities hash e'
  | Panic => False
  end.
Proof.
  intros Hn. unfold source_authorities_set.
  destruct (grandpa_authorities_set n hash) as [[l|]|e|] eqn:Eh; simpl.
  - by apply (hn_authorities _ _ Hn).
  - by left.
  - right. by eexists.
  - by apply (hn_authorities_answers _ _ Hn hash).
Qed.

Lemma signing_authorities_Ok (n : node) auth_at (h : Hdr) :
  honest_source_node n auth_at ->
  match (if bool_decide (is_Some (find_authorities_change (hdr_digest h)))
         then source_authorities_set n (hdr_parent_hash h)
         else Ok (authorities (auth_at (hdr_hash h))))
  with
  | Ok l => l = authorities (signing_set auth_at h)
  | Err e => exists hash, e = DecodeAuthorities hash \/ exists e', e = RetrieveAuthorities hash e'
  | Panic => False
  end.
Proof.
  intros Hn. unfold signing_set. case_bool_decide; [|done].
  pose proof (source_authorities_Ok n auth_at (hdr_parent_hash h) Hn) as Hp.
  destruct (source_authorities_set n (hdr_parent_hash h)); [done|by eexists|done].
Qed.

(** The pallet after its initialization. *)
Lemma initialized_with (p p' : pallet) (origin : RawOrigin AccountId) data :
  initialize p origin data = Ok p' ->
  BestFinalized p' = Some (header_id (init_header data)) /\
  CurrentAuthoritySet p' = Authorities (init_authority_list data) (init_set_id data) /\
  PalletOperatingMode p' = init_operating_mode data.
Proof.
  unfold initialize, initialize_bridge, stored_authority_set_try_new, insert_header. intros Hi.
  apply obind_Ok in Hi as ([] & _ & Hi). apply obind_Ok in Hi as ([] & _ & Hi).
  apply map_err_Ok in Hi. apply obind_Ok in Hi as (a & Ha & Hi).
  destruct (Z.of_nat _ <=? _); [injection Ha as <-|done].
  destruct (HeadersToKeep =? 0); [done|]. by injection Hi as <-.
Qed.

(** C36. The relay initializes the bridge with the right authority set.  It guesses the set id
    by trying all ids under which the next justification of the source chain may be valid; the loop
    always ends.  If the source node answers truthfully, and votes are only signed with the id of
    the set that finalizes the block, then the data that it prepares are the header of
    the justification with exactly the authorities and the set id in force after it, also when that
    header changes the set, and a pallet that is initialized with them starts from there.
    The guess fails only if the justification is not valid under the true set, or if the true id is
    larger than the number of the header; a scheduled change with a delay is fatal. *)
Theorem initialization_data_correct (n : node) auth_at (j : GrandpaJustification) (h : Hdr) :
  honest_source_node n auth_at -> finality_proofs n = Ok (Ok (Some (Some j))) ->
  header_by_hash n (commit_target_hash (commit j)) = Ok h -> honest_finality auth_at h j ->
  (forall l voters, voter_set_new l = Some voters -> voter_set_ok voters) ->
  0 <= commit_target_number (commit j) < number_max -> number_max <= u64_max ->
  let signing := signing_set auth_at h in
  match prepare n with
  | Ok data =>
      init_header data = h /\
      forall (p p' : pallet) origin, initialize p origin data = Ok p' ->
        BestFinalized p' = Some (header_id h) /\ CurrentAuthoritySet p' = auth_at (hdr_hash h) /\
        is_halted p' = false
  | Err (GuessInitialAuthorities _) =>
      forall voters j', voter_set_new (authorities signing) = Some voters ->
        0 <= set_id signing <= commit_target_number (commit j) ->
        optimize (target j) (set_id signing) voters j <> Ok j'
  | Err (ReadInvalidAuthorities _) => voter_set_new (authorities signing) = None
  | Err (RetrieveAuthorities _ _) | Err (DecodeAuthorities _) => True
  | Err _ => False
  | Panic => exists change, find_authorities_change (hdr_digest h) = Some change /\ change_delay change <> 0
  end.
Proof.
  intros Hn Hj Hh [Hnext Hsigned] Hvs Hnum Hmax signing. unfold prepare_initialization_data.
  rewrite Hj. simpl.
  pose proof (source_header_Ok n auth_at (commit_target_hash (commit j)) Hn) as Hsh.
  unfold source_header in *. rewrite Hh in *. simpl in *. destruct Hsh as [_ Hhash].
  pose proof (source_authorities_Ok n auth_at (commit_target_hash (commit j)) Hn) as Hset.
  destruct (source_authorities_set n (commit_target_hash (commit j))) as [l|e|]; simpl;
    [subst l|by destruct Hset as [->|(? & ->)]|done].
  destruct (match find_authorities_change (hdr_digest h) with
            | Some change => change_delay change =? 0 | None => true end) eqn:Edelay; simpl.
  2: { destruct (find_authorities_change (hdr_digest h)) as [change|]; [|done]. exists change.
       split; [done|lia]. }
  pose proof (signing_authorities_Ok n auth_at h Hn) as Hver. rewrite Hhash in Hver.
  fold signing in Hver.
  destruct (if bool_decide _ then _ else _) as [l|e|]; simpl;
    [subst l|by destruct Hver as (? & [->|(? & ->)])|done].
  destruct (voter_set_new (authorities signing)) as [voters|] eqn:Ev; simpl; [|done].
  pose proof (guess_set_id_spec voters j (S (Z.to_nat (commit_target_number (commit j)))) 0
    (Hvs _ _ Ev) ltac:(simpl; lia) ltac:(simpl; lia) ltac:(simpl; lia)) as Hguess.
  destruct (guess _ number_max voters j 0 0) as [id|e|]; simpl; [| |done].
  - destruct Hguess as [Hid [j' Hj']]. split; [done|]. intros p p' origin Hi.
    pose proof (verify_and_optimize_cases check_message_signature id voters (target j) j
      (Hvs _ _ Ev)) as Hcases. rewrite Hj' in Hcases. destruct Hcases as (s & Hs & Hsig).
    apply (Hsigned s id Hs) in Hsig. subst id.
    apply initialized_with in Hi as (Hbest & Hcur & Hmode). simpl in *.
    split_and!; [done| |by rewrite Hmode]. rewrite Hcur, Hhash.
    subst signing. unfold signing_set in *. case_bool_decide as Hch.
    + rewrite wrapping_add_small by word. rewrite <- Hnext by done. rewrite Hhash. by destruct (auth_at (commit_target_hash _)).
    + rewrite Hhash. by destruct (auth_at (commit_target_hash _)).
  - destruct Hguess as [-> Hnone]. intros voters' j' [= <-] Hid. by apply Hnone.
Qed.
End Initialization.

(** ** A small bridge *)

Module RelayedHeader.
Import SmallBridge.

(** The fourth vote is redundant. *)
Definition j_full : GrandpaJustification (Z * Z) Z Z hdr :=
  Grandpa 5 (Commit_ (3, 0) 3 [vote 1; vote 2; vote 3; vote 4]) [].

Definition source (n : Z) : outcome unit (hdr * option (GrandpaJustification (Z * Z) Z Z hdr)) :=
  if n =? 3 then Ok (h1, Some j_full) else Ok (Hdr n 0 (n - 1, 0) (0, 0) [], None).

Definition storage : target_storage (Z * Z) Z unit :=
  TargetStorage (Ok (BestFinalized p0)) (Ok None) (Ok (Some (CurrentAuthoritySet p0))).

Definition state : ClientState Z (HeaderId (Z * Z)) := ClientState_ 5 4 (BestFinalized p0) None.

Definition send (h : hdr) (j : GrandpaJustification (Z * Z) Z Z hdr) : outcome (EngineError unit) unit :=
  Ok tt.

Definition c : clients (Header := hdr) (FinalityProof := GrandpaJustification (Z * Z) Z Z hdr)
    (Hash := Z * Z) (SE := unit) (TE := EngineError unit) :=
  Clients (Ok 4) (target_best_finalized_source_block_id (Ok tt) storage (Ok state)) source
    (target_submit_finality_proof check voters_new storage send).

#[global] Instance no_source_connection_error : MaybeConnectionError unit := fun _ => false.
#[global] Instance no_target_connection_error : MaybeConnectionError (EngineError unit) := fun _ => false.

Lemma clients_are_honest : honest_clients c.
Proof.
  split; [split|done|done|].
  - intros n h p. simpl. unfold source. destruct (Z.eqb_spec n 3) as [->|]; by intros [= <- <-].
  - intros n h p. simpl. unfold source. destruct (Z.eqb_spec n 3) as [->|]; by intros [= <- <-].
  - intros n. simpl. unfold source. by destruct (n =? 3).
  - intros h j. simpl. unfold target_submit_finality_proof, optimize_proof. simpl.
    pose proof (verify_and_optimize_cases check 9 SmallSet.voters (hdr_hash h, hdr_number h) j
      SmallSet.voters_ok) as Hcases.
    simpl in Hcases. by destruct (verify_and_optimize_justification check _ 9 SmallSet.voters j).
Qed.

Lemma target_is_substrate : substrate_target (TargetId := Z) check voters_new c storage send p0.
Proof.
  split; [split; [done|by exists None|done]| |done].
  exists (Ok tt), (Ok state). by split; [intros s [= <-]|].
Qed.

(** The same header at the start of the bridge: its votes are signed by the set 2, and it
    hands over to the set 3. *)
Definition early_vote (id : Z) : SignedPrecommit (Z * Z) Z Z :=
  SignedPrecommit_ (Precommit_ (3, 0) 3) (id + 5 + 2) id.
Definition early_j : GrandpaJustification (Z * Z) Z Z hdr :=
  Grandpa 5 (Commit_ (3, 0) 3 [early_vote 1; early_vote 2; early_vote 3]) [].
Definition auth_at (hash : Z * Z) : AuthoritySet Z := Authorities four (if hash.1 <? 3 then 2 else 3).

Definition node : source_node (Z * Z) Z Z hdr unit :=
  SourceNode (Ok (Ok (Some (Some early_j))))
    (fun hash => if decide (hash = (3, 0)) then Ok h1 else Err tt) (fun _ => Ok (Some four)).

Lemma source_node_is_honest : honest_source_node node auth_at.
Proof.
  split; simpl; [|intros hash; by destruct (decide _)|by intros hash l [= <-]|done].
  intros hash h. destruct (decide _) as [->|]; [by intros [= <-]|done].
Qed.

Lemma early_finality : honest_finality check auth_at h1 early_j.
Proof.
  split; [done|]. intros s k Hs. unfold check.
  change (s ∈ [early_vote 1; early_vote 2; early_vote 3]) in Hs.
  rewrite !elem_of_cons, elem_of_nil in Hs. destruct Hs as [->|[->|[->|[]]]]; intros Heq%Z.eqb_eq; simpl in *; lia.
Qed.
End RelayedHeader.

Lemma submitted_headers_are_imported_witness :
  exists s recent header proof',
    run_loop_iteration (SyncParams 2 false) RelayedHeader.c
      (LoopState (from_stream [] false) [] None None) = (Ok (Some 3), s, recent) /\
    hdr_number header = 3 /\
    import_outcome SmallBridge.p0 header (SmallBridge.submit SmallBridge.p0 header proof').
Proof.
  assert (exists s recent, run_loop_iteration (SyncParams 2 false) RelayedHeader.c
      (LoopState (from_stream [] false) [] None None) = (Ok (Some 3), s, recent)) as (s & recent & Hit)
    by (eexists _, _; vm_compute; reflexivity).
  destruct (submitted_headers_are_imported (AccountId := Z) (TargetId := Z) SmallBridge.check
    SmallBridge.voters_new (fun _ => 60) (fun _ => 200) (proj1 SmallBridge.HeadersToKeep_ok)
    (SyncParams 2 false) RelayedHeader.c RelayedHeader.storage RelayedHeader.send SmallBridge.p0
    (inl ([], false)) (LoopState (from_stream [] false) [] None None)
    (LoopState (from_stream [] false) [] None None) 3 s recent RelayedHeader.clients_are_honest
    RelayedHeader.target_is_substrate eq_refl (rtc_refl _ _) Hit)
    as (header & proof & proof' & best & Hn & _ & _ & _ & _ & _ & _ & Hacc).
  exists s, recent, header, proof'.
  exact (conj Hit (conj Hn (proj1 (Hacc SmallBridge.p0 (conj eq_refl (conj eq_refl eq_refl)))))).
Defined.

Lemma initialization_data_correct_witness :
  exists data p',
    prepare_initialization_data SmallBridge.check SmallBridge.voters_new u32_max RelayedHeader.node =
      Ok data /\
    initialize (AccountId := Z) empty_pallet Root data = Ok p' /\
    CurrentAuthoritySet p' = Authorities SmallBridge.four 3.
Proof.
  pose proof (initialization_data_correct (AccountId := Z) SmallBridge.check SmallBridge.voters_new
    u32_max RelayedHeader.node RelayedHeader.auth_at RelayedHeader.early_j SmallBridge.h1
    RelayedHeader.source_node_is_honest eq_refl eq_refl RelayedHeader.early_finality SmallBridge.voters_new_ok
    ltac:(simpl; word) ltac:(word)) as Hcorrect.
  assert (prepare_initialization_data SmallBridge.check SmallBridge.voters_new u32_max
    RelayedHeader.node = Ok (InitData SmallBridge.h1 SmallBridge.four 3 Normal)) as Hdata
    by (vm_compute; reflexivity).
  assert (exists p', initialize (AccountId := Z) empty_pallet Root
    (InitData SmallBridge.h1 SmallBridge.four 3 Normal) = Ok p') as [p' Hp] by (eexists; reflexivity).
  exists (InitData SmallBridge.h1 SmallBridge.four 3 Normal), p'. split; [exact Hdata|].
  split; [exact Hp|]. rewrite Hdata in Hcorrect. destruct Hcorrect as [_ Hinit].
  destruct (Hinit _ _ _ Hp) as (_ & Hset & _). exact Hset.
Defined.
