(* ===== verification/SubstrateClient.v ===== *)
(** * relays/client-substrate/src: submission of transactions, and guards

    client.rs (the submission of signed transactions by concurrent tasks, the health check, the
    runtime version), chain.rs (unsigned transactions), lib.rs (the stall timeout) and guard.rs
    (the guards that abort the relay).  RPC calls are parameters or events; a task is a program
    counter with what it has read so far. *)

From S2P Require Import Prelude RuntimePrimitives.
From stdpp Require Import base numbers functions relations list sorting.
Local Open Scope Z_scope.

(** ** Unsigned transactions (chain.rs) *)

Record UnsignedTransaction (Call Hash : Type) := Unsigned {
  tx_call : Call;
  tx_nonce : Z;
  tx_tip : Z;
  tx_era : TransactionEra Hash;
}.
Arguments Unsigned {_ _} _ _ _ _.
Arguments tx_call {_ _} _.
Arguments tx_nonce {_ _} _.
Arguments tx_tip {_ _} _.
Arguments tx_era {_ _} _.

Definition unsigned_new {Call Hash : Type} (call : Call) (nonce : Z) : UnsignedTransaction Call Hash :=
  Unsigned call nonce 0 Immortal.

Definition with_tip {Call Hash : Type} (tip : Z) (tx : UnsignedTransaction Call Hash) :
  UnsignedTransaction Call Hash :=
  Unsigned (tx_call tx) (tx_nonce tx) tip (tx_era tx).

Definition with_era {Call Hash : Type} (era : TransactionEra Hash) (tx : UnsignedTransaction Call Hash) :
  UnsignedTransaction Call Hash :=
  Unsigned (tx_call tx) (tx_nonce tx) (tx_tip tx) era.

(** Durations are in nanoseconds. *)
Definition nanos_per_sec : Z := 1000000000.
Definition duration_max : Z := u64_max * nanos_per_sec + (nanos_per_sec - 1).

Definition transaction_stall_timeout (mortality_period : option Z)
  (average_block_interval default_stall_timeout : Z) : Z :=
  match mortality_period with
  | Some mortality_period =>
      saturating_mul duration_max average_block_interval
        (wrapping_add u32_max (wrapping_add u32_max mortality_period 1) 1)
  | None => default_stall_timeout
  end.

(** ** The state of the node (client.rs) *)

Record SimpleRuntimeVersion := RuntimeVersion { spec_version : Z; transaction_version : Z }.

Inductive ChainRuntimeVersion :=
| Auto
| Custom (version : SimpleRuntimeVersion).

Definition simple_runtime_version {E : Type} (chain_runtime_version : ChainRuntimeVersion)
  (runtime_version : outcome E SimpleRuntimeVersion) : outcome E SimpleRuntimeVersion :=
  match chain_runtime_version with
  | Auto => runtime_version
  | Custom version => Ok version
  end.

Definition can_start_version_guard (chain_runtime_version : ChainRuntimeVersion) : bool :=
  match chain_runtime_version with Auto => false | Custom _ => true end.

Record Health := Health_ { is_syncing : bool; should_have_peers : bool; peers : Z }.

Definition is_synced (health : Health) : bool :=
  negb (is_syncing health) && (negb (should_have_peers health) || (0 <? peers health)).

(** ** Submission of signed transactions *)

Section Submission.
Context {Account Hash Hdr : Type} `{EqDecision Account} `{Header Hdr Hash}.

(** The two methods; [SubmitAndWatch] reads the runtime version before it takes the lock. *)
Inductive method := SubmitSigned | SubmitAndWatch.

Inductive counter :=
| BuildSignParams
| TakeLock
| ReadNonce
| ReadBestHeader (transaction_nonce : Z)
| BuildSignParamsLocked (transaction_nonce : Z) (best_header_id : HeaderId Hash)
| Send (transaction_nonce : Z) (best_header_id : HeaderId Hash)
| Done (submitted : option Z).

Record task := Task {
  signer : Account;
  task_method : method;
  task_counter : counter;
}.

(** The tasks that share [submit_signed_extrinsic_lock], the holder of the lock, the next index of
    every account at the node ([account_next_index], which counts the transactions of the
    pool), and the transactions that the node has accepted. *)
Record system := System {
  tasks : list task;
  lock : option nat;
  next_index : Account -> Z;
  accepted_nonces : list (Account * Z);
}.

Definition start_counter (m : method) : counter :=
  match m with SubmitSigned => TakeLock | SubmitAndWatch => BuildSignParams end.

(** What the node answers to the request of a task; [AnswerLost] is an error after the node
    has taken the transaction. *)
Inductive answer :=
| AnswerOk (best_header : Hdr)
| AnswerLost
| AnswerFailed.

Definition set_counter (i : nat) (t : task) (c : counter) (s : system) : system :=
  System (<[i := Task (signer t) (task_method t) c]> (tasks s)) (lock s) (next_index s)
    (accepted_nonces s).

Definition set_lock (l : option nat) (s : system) : system :=
  System (tasks s) l (next_index s) (accepted_nonces s).

(** The guard is dropped with the end of the method. *)
Definition finish (i : nat) (t : task) (submitted : option Z) (s : system) : system :=
  set_lock None (set_counter i t (Done submitted) s).

Definition accept (a : Account) (nonce : Z) (s : system) : system :=
  System (tasks s) (lock s) (<[a := nonce + 1]> (next_index s)) (accepted_nonces s ++ [(a, nonce)]).

(** The block whose hash is signed: the parent of the best block, against reorganizations, when
    the transaction is not watched. *)
Definition best_header_id_for (m : method) (best_header : Hdr) : HeaderId Hash :=
  match m with
  | SubmitSigned => default (header_id best_header) (parent_id best_header)
  | SubmitAndWatch => header_id best_header
  end.

(** One step of the task [i]; [None] is a task that cannot go on.  A node only takes the next
    transaction of an account. *)
Definition task_step (i : nat) (a : answer) (s : system) : option system :=
  t ← tasks s !! i;
  match task_counter t, a with
  | BuildSignParams, AnswerOk _ => Some (set_counter i t TakeLock s)
  | BuildSignParams, _ => Some (set_counter i t (Done None) s)
  | TakeLock, _ =>
      match lock s with
      | None => Some (set_lock (Some i) (set_counter i t ReadNonce s))
      | Some _ => None
      end
  | ReadNonce, AnswerOk _ => Some (set_counter i t (ReadBestHeader (next_index s (signer t))) s)
  | ReadBestHeader nonce, AnswerOk best_header =>
      let id := best_header_id_for (task_method t) best_header in
      Some (set_counter i t
              (match task_method t with
               | SubmitSigned => BuildSignParamsLocked nonce id
               | SubmitAndWatch => Send nonce id
               end) s)
  | BuildSignParamsLocked nonce id, AnswerOk _ => Some (set_counter i t (Send nonce id) s)
  | Send nonce _, AnswerOk _ =>
      if nonce =? next_index s (signer t)
      then Some (finish i t (Some nonce) (accept (signer t) nonce s))
      else Some (finish i t None s)
  | Send nonce _, AnswerLost =>
      if nonce =? next_index s (signer t)
      then Some (finish i t None (accept (signer t) nonce s))
      else Some (finish i t None s)
  | Done _, _ => None
  | _, _ => Some (finish i t None s)
  end.

Definition system_step (s s' : system) : Prop := exists i a, task_step i a s = Some s'.

Definition system_start (l : list (Account * method)) (index : Account -> Z) : system :=
  System ((fun p => Task p.1 p.2 (start_counter p.2)) <$> l) None index [].
End Submission.
Arguments task : clear implicits.
Arguments system : clear implicits.
Arguments counter : clear implicits.
Arguments answer : clear implicits.

(** ** Guards (guard.rs) *)

Section Guards.
Context {E : Type}.

(** A turn of [abort_on_spec_version_change]: whether the relay is aborted. *)
Definition version_guard_turn (expected_spec_version : Z) (actual : SimpleRuntimeVersion + E) : bool :=
  match actual with
  | inl version => negb (spec_version version =? expected_spec_version)
  | inr _ => false
  end.

Definition DAY : Z := 60 * 60 * 24 * nanos_per_sec.

Fixpoint drop_old (time_border : Z) (balances : list (Z * Z)) : list (Z * Z) :=
  match balances with
  | (time, balance) :: rest => if time <? time_border then drop_old time_border rest else balances
  | [] => []
  end.

(** A turn of [abort_when_account_balance_decreased]: the remembered balances, and whether the
    relay is aborted. *)
Definition balance_guard_turn (maximal_decrease current_time : Z) (current_balance : Z + E)
  (balances : list (Z * Z)) : list (Z * Z) * bool :=
  let balances :=
    match checked_sub current_time DAY with
    | Some time_border => drop_old time_border balances
    | None => balances
    end in
  match current_balance with
  | inl current_balance =>
      let balances := balances ++ [(current_time, current_balance)] in
      (balances,
       match balances with
       | (_, oldest_balance) :: _ =>
           match checked_sub oldest_balance current_balance with
           | Some difference => maximal_decrease <? difference
           | None => false
           end
       | [] => false
       end)
  | inr _ => (balances, false)
  end.

(** The guard on a sequence of readings. *)
Fixpoint balance_guard (maximal_decrease : Z) (readings : list (Z * (Z + E))) (balances : list (Z * Z)) :
  list (Z * Z) * bool :=
  match readings with
  | [] => (balances, false)
  | (time, balance) :: readings =>
      let '(balances, aborted) := balance_guard_turn maximal_decrease time balance balances in
      if aborted then (balances, true) else balance_guard maximal_decrease readings balances
  end.
End Guards.

(** ** Nonces do not collide *)

Section SubmissionFacts.
Context {Account Hash Hdr : Type} `{EqDecision Account} `{Header Hdr Hash}.
Abbreviation task := (task Account Hash).
Abbreviation system := (system Account Hash).
Abbreviation step := (system_step (Account := Account) (Hash := Hash) (Hdr := Hdr)).

(** The task is behind the lock. *)
Definition critical (c : counter Hash) : bool :=
  match c with
  | ReadNonce | ReadBestHeader _ | BuildSignParamsLocked _ _ | Send _ _ => true
  | BuildSignParams | TakeLock | Done _ => false
  end.

Definition nonce_of (c : counter Hash) : option Z :=
  match c with
  | ReadBestHeader n | BuildSignParamsLocked n _ | Send n _ => Some n
  | _ => None
  end.

(** The number of steps that are left at most. *)
Definition rank (c : counter Hash) : nat :=
  match c with
  | BuildSignParams => 6
  | TakeLock => 5
  | ReadNonce => 4
  | ReadBestHeader _ => 3
  | BuildSignParamsLocked _ _ => 2
  | Send _ _ => 1
  | Done _ => 0
  end.

Definition steps_left (s : system) : nat := sum_list ((fun t => rank (task_counter t)) <$> tasks s).

Record system_ok (index : Account -> Z) (s : system) : Prop := {
  so_critical i t : tasks s !! i = Some t -> critical (task_counter t) = true -> lock s = Some i;
  so_holder i : lock s = Some i -> exists t, tasks s !! i = Some t /\ critical (task_counter t) = true;
  so_nonce i t n : tasks s !! i = Some t -> nonce_of (task_counter t) = Some n ->
    n = next_index s (signer t);
  so_done i t n : tasks s !! i = Some t -> task_counter t = Done (Some n) ->
    (signer t, n) ∈ accepted_nonces s;
  so_nodup : NoDup (accepted_nonces s);
  so_accepted a n : (a, n) ∈ accepted_nonces s <-> index a <= n < next_index s a;
  so_index a : index a <= next_index s a;
}.

Lemma start_ok l index : system_ok index (system_start l index).
Proof.
  assert (forall i t, tasks (system_start (Hash := Hash) l index) !! i = Some t ->
    critical (task_counter t) = false /\ nonce_of (task_counter t) = None /\
    forall n, task_counter t <> Done (Some n)) as Hs.
  { intros i t Ht. simpl in Ht. apply list_lookup_fmap_Some in Ht as ([a m] & -> & _). by destruct m. }
  split; simpl.
  - intros i t Ht Hc. apply Hs in Ht as [Hf _]. congruence.
  - done.
  - intros i t n Ht Hc. apply Hs in Ht as (_ & Hf & _). congruence.
  - intros i t n Ht Hc. apply Hs in Ht as (_ & _ & Hf). by destruct (Hf n).
  - constructor.
  - intros a n. rewrite elem_of_nil. lia.
  - done.
Qed.

(** A step that only moves the counter of a task, with the lock. *)
Lemma move_ok index s i t c l :
  system_ok index s -> tasks s !! i = Some t ->
  (critical c = true -> l = Some i) -> (critical c = false -> l <> Some i) ->
  (forall j, j <> i -> l = Some j <-> lock s = Some j) ->
  (forall n, nonce_of c = Some n -> n = next_index s (signer t)) ->
  (forall n, c = Done (Some n) -> (signer t, n) ∈ accepted_nonces s) ->
  system_ok index (set_lock l (set_counter i t c s)).
Proof.
  intros [Hcrit Hhold Hnonce Hdone Hnd Hacc Hidx] Ht Hc Hc' Hl Hn Hd.
  assert (forall j t', <[i := Task (signer t) (task_method t) c]> (tasks s) !! j = Some t' ->
    j = i /\ t' = Task (signer t) (task_method t) c \/ j <> i /\ tasks s !! j = Some t') as Hlk.
  { intros j t' Hj. apply list_lookup_insert_Some in Hj as [(-> & -> & _)|[? ?]]; [by left|right; done]. }
  split; simpl.
  - intros j t' [[-> ->]|[Hne Hj]]%Hlk Hcr; simpl in *; [by apply Hc|]. apply Hl; [done|]. by eapply Hcrit.
  - intros j Hj. destruct (decide (j = i)) as [->|Hne].
    + exists (Task (signer t) (task_method t) c). split.
      * apply list_lookup_insert_eq. by apply lookup_lt_Some in Ht.
      * simpl. destruct (critical c) eqn:Ec; [done|]. by destruct (Hc' eq_refl).
    + apply Hl, Hhold in Hj as (t' & Hj & Hcr); [|done]. exists t'. by rewrite list_lookup_insert_ne.
  - intros j t' n [[-> ->]|[Hne Hj]]%Hlk Hnn; simpl in *; [by apply Hn|by eapply Hnonce].
  - intros j t' n [[-> ->]|[Hne Hj]]%Hlk Hnn; simpl in *; [by apply Hd|by eapply Hdone].
  - done.
  - done.
  - done.
Qed.

(** Nobody behind the lock: the node takes a transaction. *)
Lemma accept_ok index s a n :
  system_ok index s -> lock s = None -> n = next_index s a -> system_ok index (accept a n s).
Proof.
  intros [Hcrit Hhold Hnonce Hdone Hnd Hacc Hidx] Hlock ->.
  split; simpl; [done|done| | | | |].
  - intros i t n Ht Hn. exfalso.
    assert (critical (task_counter t) = true) as Hc by (by destruct (task_counter t)).
    specialize (Hcrit i t Ht Hc). congruence.
  - intros i t n Ht Hd. apply elem_of_app. left. by eapply Hdone.
  - apply NoDup_app. split_and!; [done| |apply NoDup_singleton].
    intros [b m] Hin [= -> ->]%list_elem_of_singleton. apply Hacc in Hin. lia.
  - intros b n. rewrite elem_of_app, list_elem_of_singleton, Hacc.
    destruct (decide (a = b)) as [->|Hne].
    + rewrite fn_lookup_insert. specialize (Hidx b). split; [intros [?|[= ->]]; lia|].
      intros ?. destruct (decide (n = next_index s b)) as [->|]; [by right|left; lia].
    + rewrite fn_lookup_insert_ne by done. split; [intros [?|[= -> ->]]; [lia|done]|by left].
  - intros b. specialize (Hidx b). destruct (decide (a = b)) as [->|Hne].
    + rewrite fn_lookup_insert. lia.
    + by rewrite fn_lookup_insert_ne.
Qed.

Lemma finish_ok index s i t :
  system_ok index s -> tasks s !! i = Some t -> lock s = Some i ->
  system_ok index (finish i t None s).
Proof. intros Hok Ht Hl. by apply move_ok; try done; simpl; rewrite ?Hl; try naive_solver. Qed.

Lemma accepted_ok index s i t n submitted :
  system_ok index s -> tasks s !! i = Some t -> lock s = Some i -> n = next_index s (signer t) ->
  submitted = None \/ submitted = Some n ->
  system_ok index (finish i t submitted (accept (signer t) n s)).
Proof.
  intros Hok Ht Hl Hn Hs. pose proof (finish_ok _ _ _ _ Hok Ht Hl) as Hf.
  apply (accept_ok _ _ (signer t) n) in Hf; [|done|done].
  destruct Hs as [->| ->]; [exact Hf|].
  assert (tasks (accept (signer t) n (finish i t None s)) !! i =
    Some (Task (signer t) (task_method t) (Done None))) as Ht'
    by (apply list_lookup_insert_eq; by apply lookup_lt_Some in Ht).
  assert (system_ok index (set_lock None (set_counter i (Task (signer t) (task_method t) (Done None))
    (Done (Some n)) (accept (signer t) n (finish i t None s))))) as Hm.
  { apply move_ok; try done. intros m [= <-]. apply elem_of_app. right. by apply list_elem_of_singleton. }
  revert Hm. unfold finish, accept, set_lock, set_counter. simpl. by rewrite list_insert_insert_eq.
Qed.

(** A step with the lock as it is. *)
Lemma counter_ok index s i t c :
  system_ok index s -> tasks s !! i = Some t -> critical c = critical (task_counter t) ->
  (forall n, nonce_of c = Some n -> n = next_index s (signer t)) -> (forall n, c <> Done (Some n)) ->
  system_ok index (set_counter i t c s).
Proof.
  intros Hok Ht Hc Hn Hd. change (set_counter i t c s) with (set_lock (lock s) (set_counter i t c s)).
  apply move_ok; try done.
  - intros Hcr. apply (so_critical _ _ Hok i t Ht). congruence.
  - intros Hcr (t' & Ht' & Hcr')%(so_holder _ _ Hok). congruence.
  - intros n ->. by destruct (Hd n).
Qed.

Lemma task_step_ok index s i a s' :
  system_ok index s -> task_step (Hdr := Hdr) i a s = Some s' -> system_ok index s'.
Proof.
  intros Hok Hs. unfold task_step in Hs. destruct (tasks s !! i) as [t|] eqn:Ht; [simpl in Hs|done].
  pose proof (so_critical _ _ Hok i t Ht) as Hcrit. pose proof (fun n => so_nonce _ _ Hok i t n Ht) as Hn.
  pose proof (fun c => counter_ok index s i t c Hok Ht) as Hmove.
  pose proof (finish_ok index s i t Hok Ht) as Hfinish.
  destruct (task_counter t) as [| | |n|n id|n id|r] eqn:Ec, a as [h| |]; simpl in Hcrit, Hn, Hs;
    rewrite ?Hcrit in Hs by done; try done; try injection Hs as <-; try by apply Hfinish, Hcrit.
  all: try by apply Hmove.
  all: try (destruct (lock s) eqn:El; [done|]; injection Hs as <-;
    apply move_ok; try done; rewrite El; naive_solver).
  - apply Hmove; [done|by intros m [= <-]|done].
  - apply Hmove; destruct (task_method t); simpl; try done; intros m [= <-]; by apply Hn.
  - rewrite (proj2 (Z.eqb_eq _ _) (Hn n eq_refl)) in Hs. injection Hs as <-.
    apply accepted_ok; [done|done|by apply Hcrit|by apply Hn|by right].
  - rewrite (proj2 (Z.eqb_eq _ _) (Hn n eq_refl)) in Hs. injection Hs as <-.
    apply accepted_ok; [done|done|by apply Hcrit|by apply Hn|by left].
Qed.

Lemma reachable_ok l index s : rtc step (system_start l index) s -> system_ok index s.
Proof.
  intros Hr. remember (system_start l index) as s0 eqn:E0. assert (system_ok index s0) as Hok.
  { subst s0. apply start_ok. }
  clear E0. induction Hr as [|s1 s2 s3 (i & a & Hs) _ IH]; [done|]. apply IH. by eapply task_step_ok.
Qed.

(** Every step moves a task forward. *)
Lemma set_counter_left i t c s :
  tasks s !! i = Some t ->
  (steps_left (set_counter i t c s) + rank (task_counter t) = steps_left s + rank c)%nat.
Proof.
  intros Ht. unfold steps_left. simpl. apply list_elem_of_split_length in Ht as (l1 & l2 & -> & ->).
  rewrite insert_app_r_alt, Nat.sub_diag by lia. rewrite !fmap_app. simpl.
  rewrite !sum_list_with_app. simpl. lia.
Qed.

Lemma task_step_left i a s s' :
  task_step (Hdr := Hdr) i a s = Some s' -> (steps_left s' < steps_left s)%nat.
Proof.
  intros Hs. unfold task_step in Hs. destruct (tasks s !! i) as [t|] eqn:Ht; [simpl in Hs|done].
  assert (forall c, (rank c < rank (task_counter t))%nat ->
    (steps_left (set_counter i t c s) < steps_left s)%nat) as Hlt.
  { intros c Hc. pose proof (set_counter_left i t c s Ht). lia. }
  destruct (task_counter t) as [| | |n|n id|n id|r], a as [h| |]; simpl in Hs, Hlt; try done;
    try (destruct (lock s)); try (destruct (n =? next_index s (signer t))); try done;
    injection Hs as <-; try (apply Hlt; simpl; lia).
  all: destruct (task_method t); apply Hlt; simpl; lia.
Qed.

Lemma start_left l index : (steps_left (system_start l index) <= 6 * length l)%nat.
Proof.
  unfold steps_left. simpl. rewrite <- list_fmap_compose.
  induction l as [|[a m] l IH]; [done|]. cbn [fmap list_fmap sum_list_with length].
  assert (rank (start_counter (Hash := Hash) m) <= 6)%nat by (destruct m; simpl; lia). simpl in *. lia.
Qed.

Lemma run_length k s s' : nsteps step k s s' -> (k + steps_left s' <= steps_left s)%nat.
Proof.
  induction 1 as [|k s1 s2 s3 (i & a & Hs) _ IH]; [lia|]. apply task_step_left in Hs. lia.
Qed.

(** Some task can go on as long as one is not done. *)
Lemma step_possible index s i t (h : Hdr) :
  system_ok index s -> tasks s !! i = Some t -> (forall r, task_counter t <> Done r) ->
  exists s', step s s'.
Proof.
  intros Hok Ht Hnd. destruct (lock s) as [j|] eqn:El.
  - destruct (so_holder _ _ Hok j El) as (u & Hu & Hc).
    assert (exists s', task_step (Hdr := Hdr) j AnswerFailed s = Some s') as [s' Hs'].
    { unfold task_step. rewrite Hu. simpl. destruct (task_counter u); try done; by eexists. }
    exists s'. by exists j, AnswerFailed.
  - assert (exists s', task_step i (AnswerOk h) s = Some s') as [s' Hs'].
    { unfold task_step. rewrite Ht. simpl. pose proof (so_critical _ _ Hok i t Ht) as Hc.
      destruct (task_counter t); try (rewrite Hc in El by done; done).
      - by eexists.
      - rewrite El. by eexists.
      - by destruct (Hnd submitted). }
    exists s'. by exists i, (AnswerOk h).
Qed.
End SubmissionFacts.

(** C19. Concurrent tasks of the relay never collide on a nonce.  Any number of tasks share one
    client and submit transactions of any accounts with either method; their steps interleave in
    any order and every request may fail, also after the node has taken a transaction.  Whenever a
    task sends its transaction, the nonce is the next one of the account at the node.  The
    accepted transactions have pairwise different nonces, exactly the ones from the initial index of
    the account up to the next one, and a task that reports success has had its transaction
    accepted.  The lock cannot deadlock, and all tasks are done after at most six steps each. *)
Theorem nonces_never_collide {Account Hash Hdr : Type} `{EqDecision Account} `{Header Hdr Hash}
  (l : list (Account * method)) (index : Account -> Z) (n : nat) (s : system Account Hash) (h : Hdr) :
  nsteps (system_step (Hdr := Hdr)) n (system_start l index) s ->
  (forall i t nonce id, tasks s !! i = Some t -> task_counter t = Send nonce id ->
     nonce = next_index s (signer t)) /\
  (forall i t nonce, tasks s !! i = Some t -> task_counter t = Done (Some nonce) ->
     (signer t, nonce) ∈ accepted_nonces s) /\
  NoDup (accepted_nonces s) /\
  (forall a nonce, (a, nonce) ∈ accepted_nonces s <-> index a <= nonce < next_index s a) /\
  (n <= 6 * length l)%nat /\
  (Forall (fun t => exists r, task_counter t = Done r) (tasks s) \/
   exists s', system_step (Hdr := Hdr) s s').
Proof.
  intros Hn. assert (system_ok index s) as Hok.
  { apply (reachable_ok (Hdr := Hdr) l). apply rtc_nsteps. by exists n. }
  split_and!; [|apply Hok|apply Hok|apply Hok| |].
  - intros i t nonce id Ht Hc. apply (so_nonce _ _ Hok i t nonce Ht). by rewrite Hc.
  - apply run_length in Hn. pose proof (start_left (Hash := Hash) l index). lia.
  - destruct (decide (Forall (fun t => rank (task_counter t) = 0%nat) (tasks s))) as [Hall|Hall].
    + left. eapply Forall_impl; [exact Hall|]. simpl. intros t Ht. destruct (task_counter t); try done. by eexists.
    + right. apply not_Forall_Exists in Hall; [|apply _].
      apply Exists_exists in Hall as (t & Hin & Ht). apply list_elem_of_lookup in Hin as (i & Hi).
      apply (step_possible index s i t h Hok Hi). intros r Hr. simpl in Ht. by rewrite Hr in Ht.
Qed.

(** ** The balance guard *)

Section GuardFacts.
Context {E : Type}.

(** The balances that were read, with their times. *)
Definition read_balances (readings : list (Z * (Z + E))) : list (Z * Z) :=
  omap (fun r => match r.2 with inl b => Some (r.1, b) | inr _ => None end) readings.

Abbreviation sorted := (StronglySorted (fun a b : Z * Z => a.1 <= b.1)).

Lemma drop_old_filter (border : Z) (l : list (Z * Z)) :
  sorted l -> drop_old border l = filter (fun r => border <= r.1) l.
Proof.
  induction 1 as [|[t b] l Hl IH Hall]; [done|]. cbn [drop_old]. rewrite filter_cons. simpl.
  destruct (Z.ltb_spec t border); [rewrite decide_False by lia; exact IH|].
  rewrite decide_True by lia. f_equal. symmetry. apply filter_all. eapply Forall_impl; [exact Hall|]. simpl. lia.
Qed.

Lemma sorted_app_filter (border : Z) (l1 l2 : list (Z * Z)) :
  sorted (l1 ++ l2) -> sorted (filter (fun r => border <= r.1) l1 ++ l2).
Proof.
  induction l1 as [|r l1 IH]; [done|]. simpl. intros Hs. apply StronglySorted_inv in Hs as [Hs Hall].
  rewrite filter_cons. case_decide; [|by apply IH]. simpl. constructor; [by apply IH|].
  apply Forall_app in Hall as [H1 H2]. apply Forall_app. split; [|done].
  apply Forall_forall. intros x [_ Hx]%list_elem_of_filter. rewrite Forall_forall in H1. by apply H1.
Qed.

(** A turn in terms of the window of the last day. *)
Lemma guard_turn_window (maximal_decrease now : Z) (r : Z + E) (balances : list (Z * Z)) :
  sorted balances -> Forall (fun b => 0 <= b.1) balances ->
  (balance_guard_turn maximal_decrease now r balances).1 =
    filter (fun b => now - DAY <= b.1) balances ++ read_balances [(now, r)].
Proof.
  intros Hs H0. unfold balance_guard_turn, checked_sub.
  assert ((if DAY <=? now then Some (now - DAY) else None) = None ->
    filter (fun b => now - DAY <= b.1) balances = balances) as Hnone.
  { destruct (Z.leb_spec DAY now); [done|]. intros _. apply filter_all.
    eapply Forall_impl; [exact H0|]. simpl. lia. }
  destruct (DAY <=? now); [rewrite drop_old_filter by done|rewrite Hnone by done]; destruct r; simpl;
    by rewrite ?app_nil_r.
Qed.

Lemma guard_window (maximal_decrease border : Z) (readings : list (Z * (Z + E))) (balances bs : list (Z * Z)) :
  sorted (balances ++ read_balances readings) -> Forall (fun b => 0 <= b.1) balances ->
  Forall (fun r => 0 <= r.1 /\ r.1 - DAY <= border) readings ->
  balance_guard maximal_decrease readings balances = (bs, false) ->
  sorted bs /\ Forall (fun b => 0 <= b.1) bs /\
  filter (fun b => border <= b.1) bs =
    filter (fun b => border <= b.1) (balances ++ read_balances readings).
Proof.
  revert balances. induction readings as [|[now r] readings IH]; intros balances Hs H0 Hr; cbn [balance_guard].
  { intros [= <-]. simpl in *. rewrite app_nil_r in *. done. }
  apply Forall_cons in Hr as [[Hnow Hb] Hr]. simpl in Hnow, Hb.
  change ((now, r) :: readings) with ([(now, r)] ++ readings) in *.
  unfold read_balances in *. rewrite omap_app in *. fold (read_balances [(now, r)]) in *.
  fold (read_balances readings) in *. rewrite app_assoc in Hs.
  pose proof (guard_turn_window maximal_decrease now r balances
    ltac:(by do 2 apply StronglySorted_app_1_l in Hs) H0) as Hturn.
  destruct (balance_guard_turn maximal_decrease now r balances) as [balances' aborted]. simpl in Hturn.
  destruct aborted; [done|]. intros Hrest. subst balances'.
  rewrite <- app_assoc in Hs. apply (sorted_app_filter (now - DAY)) in Hs. rewrite app_assoc in Hs.
  apply IH in Hrest as (Hs' & H0' & ->); [|done| |done].
  - split_and!; [done|done|]. rewrite !filter_app, list_filter_filter_l by (intros; lia).
    by rewrite app_assoc.
  - apply Forall_app. split.
    + apply Forall_forall. intros x [_ Hx]%list_elem_of_filter. rewrite Forall_forall in H0. by apply H0.
    + destruct r; simpl; [by repeat constructor|constructor].
Qed.

(** The balance guard does what it is for: when it has not aborted the relay before, it aborts at
    a reading exactly if the balance has decreased by more than the limit since the oldest
    reading of the last 24 hours.  A reading that fails never aborts the relay, and
    neither do older balances. *)
Theorem balance_guard_correct (maximal_decrease now balance : Z) (readings : list (Z * (Z + E)))
  (bs : list (Z * Z)) :
  0 <= maximal_decrease -> sorted (read_balances (readings ++ [(now, inl balance)])) ->
  Forall (fun r => 0 <= r.1 <= now) readings -> 0 <= now ->
  balance_guard maximal_decrease readings [] = (bs, false) ->
  ((balance_guard_turn (E := E) maximal_decrease now (inl balance) bs).2 = true <->
   exists oldest, head (filter (fun b => now - DAY <= b.1)
                          (read_balances (readings ++ [(now, inl balance)]))) = Some oldest /\
     maximal_decrease < oldest.2 - balance).
Proof.
  intros Hmax Hs Hr Hnow Hg. unfold read_balances in *. rewrite omap_app in *.
  fold (read_balances readings) in *. fold (read_balances [(now, inl balance : Z + E)]) in *.
  apply (guard_window _ (now - DAY)) in Hg as (Hbs & H0 & Hwin);
    [|by apply StronglySorted_app_1_l in Hs|done|]. 2: { eapply Forall_impl; [exact Hr|]. simpl. lia. }
  rewrite filter_app. simpl in Hwin. rewrite <- Hwin.
  pose proof (guard_turn_window maximal_decrease now (inl balance : Z + E) bs Hbs H0) as Hturn.
  change (read_balances [(now, inl balance : Z + E)]) with [(now, balance)] in *.
  assert (0 < DAY) as Hday by done.
  rewrite (filter_all _ [(now, balance)]) by (constructor; [cbn [fst]; lia|done]).
  unfold balance_guard_turn in *. simpl in *. rewrite Hturn.
  destruct (filter (fun b => now - DAY <= b.1) bs ++ [(now, balance)]) as [|[t b] l] eqn:Ew; [by destruct (filter _ bs)|].
  simpl. unfold checked_sub. destruct (Z.leb_spec balance b).
  - split; [intros ?; exists (t, b); simpl; split; [done|lia]|]. intros (? & [= <-] & ?). simpl in *. lia.
  - split; [done|]. intros (? & [= <-] & ?). simpl in *. lia.
Qed.
End GuardFacts.

(** ** Witnesses *)

Module TwoTasks.
#[global] Instance number_header : Header Z Z := {|
  hdr_number n := n; hdr_hash n := n; hdr_parent_hash n := n - 1; hdr_state_root n := n;
|}.

Fixpoint run (l : list (nat * answer Z)) (s : system bool Z) : option (system bool Z) :=
  match l with
  | [] => Some s
  | (i, a) :: l => s' ← task_step i a s; run l s'
  end.

Lemma run_steps (l : list (nat * answer Z)) (s s' : system bool Z) :
  run l s = Some s' -> nsteps (system_step (Hdr := Z)) (length l) s s'.
Proof.
  revert s. induction l as [|[i a] l IH]; intros s; simpl; [intros [= <-]; constructor|].
  destruct (task_step i a s) as [s1|] eqn:E; [|done]. intros Hr.
  econstructor; [by exists i, a|by apply IH].
Qed.

(** Two tasks of one account: the answer to the first submission is lost. *)
Definition tasks0 : list (bool * method) := [(true, SubmitSigned); (true, SubmitAndWatch)].
Definition events : list (nat * answer Z) :=
  [(1%nat, AnswerOk 9); (0%nat, AnswerOk 9); (0%nat, AnswerOk 9); (0%nat, AnswerOk 9);
   (0%nat, AnswerOk 9); (0%nat, AnswerLost); (1%nat, AnswerOk 9); (1%nat, AnswerOk 9);
   (1%nat, AnswerOk 9)].
End TwoTasks.

Lemma nonces_never_collide_witness :
  exists s, TwoTasks.run TwoTasks.events (system_start TwoTasks.tasks0 (fun _ => 7)) = Some s /\
    (task_counter <$> tasks s) = [Done None; Send 8 (HeaderId_ 9 9)] /\ 8 = next_index s true.
Proof.
  destruct (TwoTasks.run TwoTasks.events (system_start TwoTasks.tasks0 (fun _ => 7))) as [s|] eqn:E;
    [|vm_compute in E; discriminate E].
  exists s. split; [reflexivity|].
  destruct (nonces_never_collide TwoTasks.tasks0 (fun _ => 7) _ s 0 (TwoTasks.run_steps _ _ _ E))
    as [Hsend _].
  assert (tasks s = [Task true SubmitSigned (Done None);
    Task true SubmitAndWatch (Send 8 (HeaderId_ 9 9))]) as Ht.
  { vm_compute in E. injection E as <-. reflexivity. }
  rewrite Ht in *. split; [reflexivity|]. exact (Hsend 1%nat _ 8 _ eq_refl eq_refl).
Defined.

Lemma balance_guard_correct_witness :
  (balance_guard_turn (E := unit) 10 (30 * 3600 * nanos_per_sec) (inl 85)
     [(1 * 3600 * nanos_per_sec, 90); (20 * 3600 * nanos_per_sec, 96)]).2 = true.
Proof.
  set (readings := [(1 * 3600 * nanos_per_sec, inl 90); (2 * 3600 * nanos_per_sec, inr tt);
    (20 * 3600 * nanos_per_sec, inl 96)] : list (Z * (Z + unit))).
  assert (balance_guard 10 readings [] =
    ([(1 * 3600 * nanos_per_sec, 90); (20 * 3600 * nanos_per_sec, 96)], false)) as Hg
    by (vm_compute; reflexivity).
  assert (StronglySorted (fun a b : Z * Z => a.1 <= b.1)
    (read_balances (readings ++ [(30 * 3600 * nanos_per_sec, inl 85)]))) as Hs
    by (vm_compute; repeat constructor; discriminate).
  assert (Forall (fun r : Z * (Z + unit) => 0 <= r.1 <= 30 * 3600 * nanos_per_sec) readings) as Hr
    by (repeat (constructor; [split; vm_compute; discriminate|]); constructor).
  assert (0 <= 10) as H0 by discriminate. assert (0 <= 30 * 3600 * nanos_per_sec) as Hnow
    by (vm_compute; discriminate).
  pose proof (proj2 (balance_guard_correct 10 (30 * 3600 * nanos_per_sec) 85 readings _ H0 Hs Hr Hnow Hg))
    as Habort.
  apply Habort. exists (20 * 3600 * nanos_per_sec, 96). split; [vm_compute; reflexivity|reflexivity].
Defined.
