(* ===== verification/SubstrateRpc.v ===== *)
(** * relays/client-substrate/src: requests and subscriptions

    client.rs (the requests to a node, and the worker that forwards the items of a subscription to
    the relay), error.rs (the errors, and which of them make the relay connect again) and the stream
    of finality proofs of relays/lib-substrate-relay/src/finality/source.rs.  The JSON-RPC methods of
    rpc.rs, the codec, the runtime that executes the requests and the channels of the futures crate
    are parameters. *)

From S2P Require Import Prelude RuntimePrimitives RelayUtils SubstrateClient FinalityLoop.
From Stdlib Require Import String.
From stdpp Require Import base numbers functions relations list strings.
Local Open Scope Z_scope.

(** ** Errors (error.rs) *)

(** [jsonrpsee::core::Error]: the errors that the relay tells apart. *)
Inductive RpcError :=
| Transport (message : string)
| Internal (message : string)
| RestartNeeded (message : string)
| OtherRpcError (message : string).

(** [sp_core::storage::StorageKey], [codec::Error]. *)
Abbreviation StorageKey := (list Z).
Abbreviation CodecError := string.

Inductive Error :=
| Io (message : string)
| RpcError_ (error : RpcError)
| ResponseParseFailed (error : CodecError)
| AccountDoesNotExist
| MissingMandatoryStorageValue
| MissingRequiredParachainHead (id number : Z)
| FinalityProofNotFound (number : Z)
| ClientNotSynced (health : Health)
| FailedToReadBestFinalizedHeaderHash (chain : string) (error : Error)
| FailedToReadBestHeader (chain : string) (error : Error)
| FailedToReadHeaderByHash (chain hash : string) (error : Error)
| ErrorExecutingRuntimeCall (chain method : string) (error : Error)
| FailedToReadRuntimeStorageValue (chain : string) (key : StorageKey) (error : Error)
| BridgePalletIsHalted
| BridgePalletIsNotInitialized
| NoParachainHeadAtTarget (id : Z) (chain : string)
| StorageProofError (message : string)
| TransactionInvalid (message : string)
| CustomError (message : string).

#[export] Instance Error_is_connection_error : MaybeConnectionError Error :=
  fix is_connection_error error :=
    match error with
    | RpcError_ (Transport _) | RpcError_ (Internal _) | RpcError_ (RestartNeeded _)
    | ClientNotSynced _ => true
    | FailedToReadBestFinalizedHeaderHash _ error => is_connection_error error
    | FailedToReadBestHeader _ error => is_connection_error error
    | FailedToReadHeaderByHash _ _ error => is_connection_error error
    | ErrorExecutingRuntimeCall _ _ error => is_connection_error error
    | FailedToReadRuntimeStorageValue _ _ error => is_connection_error error
    | _ => false
    end.

Abbreviation result T := (outcome Error T).

(** ** Requests (client.rs) *)

Section Requests.
Context {Hash Hdr Block AccountId : Type} `{Header Hdr Hash} (hash_to_string : Hash -> string).
Abbreviation Bytes := (list Z).

(** The methods of rpc.rs that are called. *)
Record RpcClient := Rpc {
  rpc_health : outcome RpcError Health;
  rpc_token_decimals : outcome RpcError (option Z);
  rpc_block_hash : option Z -> outcome RpcError Hash;
  rpc_header : option Hash -> outcome RpcError Hdr;
  rpc_finalized_head : outcome RpcError Hash;
  rpc_block : option Hash -> outcome RpcError Block;
  rpc_pending_extrinsics : outcome RpcError (list Bytes);
  rpc_runtime_version : outcome RpcError SimpleRuntimeVersion;
  rpc_call : string -> Bytes -> option Hash -> outcome RpcError Bytes;
  rpc_storage : StorageKey -> option Hash -> outcome RpcError (option Bytes);
  rpc_prove_storage : list StorageKey -> option Hash -> outcome RpcError (list Bytes);
  rpc_account_next_index : AccountId -> outcome RpcError Z;
}.

(** What [tokio::spawn] makes of the result of a task: the task may not be joined. *)
Context (spawn : forall {T : Type}, result T -> result T) (chain_name : string) (client : RpcClient).

(** [jsonrpsee_execute] of a request; [?] turns its error into one of the client. *)
Definition jsonrpsee_execute {T : Type} (future : result T) : result T := spawn T future.

Abbreviation rpc r := (map_err RpcError_ r).

Definition ensure_synced : result unit :=
  jsonrpsee_execute
    (let? health := rpc (rpc_health client) in
     if is_synced health then Ok tt else Err (ClientNotSynced health)).

Definition best_finalized_header_hash : result Hash :=
  map_err (FailedToReadBestFinalizedHeaderHash chain_name)
    (jsonrpsee_execute (rpc (rpc_finalized_head client))).

Definition header_by_hash (block_hash : Hash) : result Hdr :=
  map_err (FailedToReadHeaderByHash chain_name (hash_to_string block_hash))
    (jsonrpsee_execute (rpc (rpc_header client (Some block_hash)))).

Definition best_finalized_header : result Hdr :=
  let? hash := best_finalized_header_hash in
  header_by_hash hash.

Definition best_finalized_header_number : result Z :=
  let? header := best_finalized_header in
  Ok (hdr_number header).

Definition best_header : result Hdr :=
  map_err (FailedToReadBestHeader chain_name) (jsonrpsee_execute (rpc (rpc_header client None))).

Definition get_block (block_hash : option Hash) : result Block :=
  jsonrpsee_execute (rpc (rpc_block client block_hash)).

Definition block_hash_by_number (number : Z) : result Hash :=
  jsonrpsee_execute (rpc (rpc_block_hash client (Some number))).

Definition header_by_number (block_number : Z) : result Hdr :=
  let? block_hash := block_hash_by_number block_number in
  let? header_by_hash := header_by_hash block_hash in
  Ok header_by_hash.

Definition runtime_version : result SimpleRuntimeVersion :=
  jsonrpsee_execute (rpc (rpc_runtime_version client)).

Definition raw_storage_value (storage_key : StorageKey) (block_hash : option Hash) :
  result (option Bytes) :=
  map_err (FailedToReadRuntimeStorageValue chain_name storage_key)
    (jsonrpsee_execute (rpc (rpc_storage client storage_key block_hash))).

(** [storage_value], and [storage_map_value] and [storage_double_map_value] with the final key of
    their entry. *)
Definition storage_value {T : Type} (decode : Bytes -> outcome CodecError T) (storage_key : StorageKey)
  (block_hash : option Hash) : result (option T) :=
  let? encoded_value := raw_storage_value storage_key block_hash in
  match encoded_value with
  | Some encoded_value =>
      let? value := map_err ResponseParseFailed (decode encoded_value) in
      Ok (Some value)
  | None => Ok None
  end.

(** [decode] gives the free balance of an account. *)
Definition free_native_balance (account_info_storage_key : AccountId -> StorageKey)
  (decode : Bytes -> outcome CodecError Z) (account : AccountId) : result Z :=
  jsonrpsee_execute
    (let? encoded_account_data := rpc (rpc_storage client (account_info_storage_key account) None) in
     let? encoded_account_data := ok_or encoded_account_data AccountDoesNotExist in
     map_err ResponseParseFailed (decode encoded_account_data)).

Definition next_account_index (account : AccountId) : result Z :=
  jsonrpsee_execute (rpc (rpc_account_next_index client account)).

Definition pending_extrinsics : result (list Bytes) :=
  jsonrpsee_execute (rpc (rpc_pending_extrinsics client)).

(** [encode] is the encoding of the source, the transaction and the block. *)
Definition validate_transaction {Tx Validity : Type} (encode : Tx -> Hash -> Bytes)
  (decode : Bytes -> outcome CodecError Validity) (at_block : Hash) (transaction : Tx) :
  result Validity :=
  jsonrpsee_execute
    (let? encoded_response :=
       rpc (rpc_call client "TaggedTransactionQueue_validate_transaction" (encode transaction at_block)
              (Some at_block)) in
     map_err ResponseParseFailed (decode encoded_response)).

(** [encode] is the encoding of the transaction and of its length, [decode] gives the weight. *)
Definition extimate_extrinsic_weight {Tx Weight : Type} (encode : Tx -> Bytes)
  (decode : Bytes -> outcome CodecError Weight) (transaction : Tx) : result Weight :=
  jsonrpsee_execute
    (let? encoded_response :=
       rpc (rpc_call client "TransactionPaymentApi_query_info" (encode transaction) None) in
     map_err ResponseParseFailed (decode encoded_response)).

Definition grandpa_authorities_set (block : Hash) : result Bytes :=
  jsonrpsee_execute (rpc (rpc_call client "GrandpaApi_grandpa_authorities" [] (Some block))).

Definition state_call (method : string) (data : Bytes) (at_block : option Hash) : result Bytes :=
  jsonrpsee_execute (rpc (rpc_call client method data at_block)).

Definition typed_state_call {Input Output : Type} (encode : Input -> Bytes)
  (decode : Bytes -> outcome CodecError Output) (method_name : string) (input : Input)
  (at_block : option Hash) : result Output :=
  let? encoded_output :=
    map_err (ErrorExecutingRuntimeCall chain_name method_name)
      (state_call method_name (encode input) at_block) in
  map_err ResponseParseFailed (decode encoded_output).

Definition prove_storage (keys : list StorageKey) (at_block : Hash) : result (list Bytes) :=
  jsonrpsee_execute (rpc (rpc_prove_storage client keys (Some at_block))).

Definition token_decimals : result (option Z) :=
  jsonrpsee_execute (rpc (rpc_token_decimals client)).

(** *** The finality source (finality/source.rs) *)

Context {FinalityProof : Type} (decode_proof : Bytes -> outcome CodecError FinalityProof).
Context (block_header : Block -> Hdr) (block_justification : Block -> option Bytes).

Definition header_and_finality_proof (number : Z) : result (Hdr * option FinalityProof) :=
  let? header_hash := block_hash_by_number number in
  let? signed_block := get_block (Some header_hash) in
  let? justification :=
    match block_justification signed_block with
    | Some raw_justification =>
        let? proof := map_err ResponseParseFailed (decode_proof raw_justification) in
        Ok (Some proof)
    | None => Ok None
    end in
  Ok (block_header signed_block, justification).

(** *** Lost connections *)

(** The connection itself has failed, as opposed to the request. *)
Definition lost (e : RpcError) : bool :=
  match e with Transport _ | Internal _ | RestartNeeded _ => true | OtherRpcError _ => false end.

(** The error of the first of two requests that fails; the second one depends on the first. *)
Definition failure {A : Type} (r : outcome RpcError A) : option RpcError :=
  match r with Err e => Some e | _ => None end.
Definition failure_then {A : Type} (r : outcome RpcError A) (k : A -> option RpcError) :
  option RpcError :=
  match r with Ok a => k a | Err e => Some e | Panic => None end.

(** All reads of the client, each with the error of the request that fails. *)
Inductive client_read : forall {T : Type}, result T -> option RpcError -> Prop :=
| ReadSynced : client_read ensure_synced (failure (rpc_health client))
| ReadFinalizedHash : client_read best_finalized_header_hash (failure (rpc_finalized_head client))
| ReadHeader hash : client_read (header_by_hash hash) (failure (rpc_header client (Some hash)))
| ReadFinalized : client_read best_finalized_header
    (failure_then (rpc_finalized_head client) (fun hash => failure (rpc_header client (Some hash))))
| ReadFinalizedNumber : client_read best_finalized_header_number
    (failure_then (rpc_finalized_head client) (fun hash => failure (rpc_header client (Some hash))))
| ReadBest : client_read best_header (failure (rpc_header client None))
| ReadBlock hash : client_read (get_block hash) (failure (rpc_block client hash))
| ReadHash number : client_read (block_hash_by_number number) (failure (rpc_block_hash client (Some number)))
| ReadNumber number : client_read (header_by_number number)
    (failure_then (rpc_block_hash client (Some number)) (fun hash => failure (rpc_header client (Some hash))))
| ReadVersion : client_read runtime_version (failure (rpc_runtime_version client))
| ReadRaw key at_block : client_read (raw_storage_value key at_block) (failure (rpc_storage client key at_block))
| ReadStorage T decode key at_block :
    client_read (storage_value (T := T) decode key at_block) (failure (rpc_storage client key at_block))
| ReadBalance final_key decode account :
    client_read (free_native_balance final_key decode account) (failure (rpc_storage client (final_key account) None))
| ReadIndex account : client_read (next_account_index account) (failure (rpc_account_next_index client account))
| ReadPending : client_read pending_extrinsics (failure (rpc_pending_extrinsics client))
| ReadValidity Tx Validity encode decode at_block tx :
    client_read (validate_transaction (Tx := Tx) (Validity := Validity) encode decode at_block tx)
      (failure (rpc_call client "TaggedTransactionQueue_validate_transaction" (encode tx at_block) (Some at_block)))
| ReadWeight Tx Weight encode decode tx :
    client_read (extimate_extrinsic_weight (Tx := Tx) (Weight := Weight) encode decode tx)
      (failure (rpc_call client "TransactionPaymentApi_query_info" (encode tx) None))
| ReadAuthorities block : client_read (grandpa_authorities_set block)
    (failure (rpc_call client "GrandpaApi_grandpa_authorities" [] (Some block)))
| ReadCall method data at_block :
    client_read (state_call method data at_block) (failure (rpc_call client method data at_block))
| ReadTyped Input Output encode decode method input at_block :
    client_read (typed_state_call (Input := Input) (Output := Output) encode decode method input at_block)
      (failure (rpc_call client method (encode input) at_block))
| ReadProof keys at_block :
    client_read (prove_storage keys at_block) (failure (rpc_prove_storage client keys (Some at_block)))
| ReadDecimals : client_read token_decimals (failure (rpc_token_decimals client))
| ReadJustification number : client_read (header_and_finality_proof number)
    (failure_then (rpc_block_hash client (Some number)) (fun hash => failure (rpc_block client (Some hash)))).

(** What a read makes of a failed request. *)
Record reports {T : Type} (r : result T) (f : option RpcError) : Prop := {
  rp_failed e : f = Some e -> exists err, r = Err err /\ is_connection_error err = lost e;
  rp_other err : f = None -> r = Err err -> is_connection_error err = true ->
    exists health, err = ClientNotSynced health;
}.

Lemma reports_rpc {T : Type} (r : outcome RpcError T) : reports (rpc r) (failure r).
Proof.
  split; destruct r as [a|e|]; try done.
  intros e' [= <-]. exists (RpcError_ e). split; [done|]. by destruct e.
Qed.

Lemma reports_Ok {T : Type} (a : T) : reports (Ok a) None.
Proof. by split. Qed.

Lemma reports_Err {T : Type} (err : Error) :
  is_connection_error err = false -> reports (Err (A := T) err) None.
Proof. intros He. split; [done|]. intros e _ [= <-]. congruence. Qed.

Lemma reports_decoded {A T : Type} (r : result A) f (k : A -> result T) :
  reports r f -> (forall a, r = Ok a -> reports (k a) None) -> reports (let? a := r in k a) f.
Proof.
  intros [Hf Ho] Hk. split.
  - intros e He. destruct (Hf e He) as (err & -> & Hc). by exists err.
  - intros err Hn. destruct r as [a|e|]; simpl; [|intros [= <-]; by apply Ho|done].
    by apply (rp_other _ _ (Hk a eq_refl)).
Qed.

Lemma reports_then {A B T : Type} (q : outcome RpcError B) (r : result A) (k : A -> result T)
  (g : B -> option RpcError) (h : A -> B) :
  reports r (failure q) -> (forall b, q = Ok b -> exists a, r = Ok a /\ b = h a) ->
  (forall a, r = Ok a -> reports (k a) (g (h a))) -> (q = Panic -> r = Panic) ->
  reports (let? a := r in k a) (failure_then q g).
Proof.
  intros Hr Hok Hk Hp. destruct q as [b|e|]; simpl.
  - destruct (Hok b eq_refl) as (a & -> & ->). by apply Hk.
  - destruct (rp_failed _ _ Hr e eq_refl) as (err & -> & Hc). split; [|done].
    intros e' [= <-]. by exists err.
  - rewrite Hp by done. by split.
Qed.

Lemma reports_wrapped {T : Type} (wrap : Error -> Error) (r : outcome RpcError T) :
  (forall e, is_connection_error (wrap e) = is_connection_error e) ->
  reports (map_err wrap (rpc r)) (failure r).
Proof.
  intros Hw. split; destruct r as [a|e|]; try done.
  intros e' [= <-]. eexists. split; [done|]. rewrite Hw. by destruct e.
Qed.

Lemma reports_decode {T : Type} (r : outcome CodecError T) : reports (map_err ResponseParseFailed r) None.
Proof. by destruct r; [apply reports_Ok|apply reports_Err|split]. Qed.

Create HintDb rpc.
Hint Resolve reports_rpc reports_wrapped reports_decode reports_Ok : rpc.
Hint Extern 1 (is_connection_error _ = _) => reflexivity : rpc.

Lemma reports_header_of (q : outcome RpcError Hash) (r : result Hash) :
  (forall T (t : result T), spawn T t = t) ->
  reports r (failure q) -> (forall b, q = Ok b -> r = Ok b) -> (q = Panic -> r = Panic) ->
  reports (let? hash := r in header_by_hash hash)
    (failure_then q (fun hash => failure (rpc_header client (Some hash)))).
Proof.
  intros joined Hr Hok Hp. apply (reports_then q r _ _ id); [done| | |done].
  - intros b Hb. exists b. by rewrite (Hok b Hb).
  - intros a _. unfold header_by_hash, jsonrpsee_execute. rewrite joined. auto with rpc.
Qed.

Lemma reports_finalized_header :
  (forall T (t : result T), spawn T t = t) ->
  reports best_finalized_header
    (failure_then (rpc_finalized_head client) (fun hash => failure (rpc_header client (Some hash)))).
Proof.
  intros joined. unfold best_finalized_header. apply reports_header_of; [done|..];
    unfold best_finalized_header_hash, jsonrpsee_execute; rewrite joined.
  - by apply reports_wrapped.
  - by intros b ->.
  - by intros ->.
Qed.

Lemma reports_mapped {A T : Type} (r : result A) f (g : A -> T) :
  reports r f -> reports (let? a := r in Ok (g a)) f.
Proof. intros Hr. apply reports_decoded; [done|]. intros. apply reports_Ok. Qed.

Lemma reports_header_by_number (number : Z) :
  (forall T (t : result T), spawn T t = t) ->
  reports (header_by_number number)
    (failure_then (rpc_block_hash client (Some number)) (fun hash => failure (rpc_header client (Some hash)))).
Proof.
  intros joined. unfold header_by_number.
  apply (reports_then (rpc_block_hash client (Some number)) _ _ _ id);
    unfold block_hash_by_number, header_by_hash, jsonrpsee_execute; rewrite ?joined.
  - apply reports_rpc.
  - intros b ->. by exists b.
  - intros hash _. rewrite joined. apply (reports_mapped _ _ (fun header => header)). by apply reports_wrapped.
  - by intros ->.
Qed.

Lemma reports_header_and_proof (number : Z) :
  (forall T (t : result T), spawn T t = t) ->
  reports (header_and_finality_proof number)
    (failure_then (rpc_block_hash client (Some number)) (fun hash => failure (rpc_block client (Some hash)))).
Proof.
  intros joined. unfold header_and_finality_proof.
  apply (reports_then (rpc_block_hash client (Some number)) _ _ _ id);
    unfold block_hash_by_number, get_block, jsonrpsee_execute; rewrite ?joined; [apply reports_rpc| | |].
  - intros b ->. by exists b.
  - intros hash _. apply reports_decoded; [rewrite joined; apply reports_rpc|]. intros block _.
    apply reports_mapped. destruct (block_justification block); [|apply reports_Ok].
    apply reports_mapped, reports_decode.
  - by intros ->.
Qed.

(** C38. A lost connection is noticed. Whatever the client reads, if a request fails then the read
    fails, and its error makes the relay connect again exactly when the connection was the
    reason; if no request fails, then only a node that is not synced makes it connect again.
    The errors that are wrapped on the way do not hide the reason. *)
Theorem lost_connections_are_noticed {T : Type} (r : result T) (f : option RpcError) :
  (forall T (t : result T), spawn T t = t) -> client_read r f ->
  (forall e, f = Some e -> exists err, r = Err err /\ is_connection_error err = lost e) /\
  (forall err, f = None -> r = Err err -> is_connection_error err = true ->
   exists health, err = ClientNotSynced health).
Proof.
  intros joined Hr. enough (reports r f) as [Hf Ho] by done.
  destruct Hr; unfold ensure_synced, best_finalized_header_hash, header_by_hash, best_header, get_block,
    block_hash_by_number, runtime_version, storage_value, raw_storage_value, free_native_balance,
    next_account_index, pending_extrinsics, validate_transaction, extimate_extrinsic_weight,
    grandpa_authorities_set, typed_state_call, state_call, prove_storage, token_decimals,
    jsonrpsee_execute; rewrite ?joined; auto with rpc.
  - apply reports_decoded; [apply reports_rpc|]. intros health _.
    destruct (is_synced health); [apply reports_Ok|]. split; [done|]. intros err _ [= <-] _. by eexists.
  - by apply reports_finalized_header.
  - by apply reports_mapped, reports_finalized_header.
  - by apply reports_header_by_number.
  - apply reports_decoded; [by apply reports_wrapped|]. intros [v|] _; [|apply reports_Ok].
    apply reports_mapped, reports_decode.
  - apply reports_decoded; [apply reports_rpc|]. intros [v|] _; [apply reports_decode|by apply reports_Err].
  - apply reports_decoded; [apply reports_rpc|]. intros; apply reports_decode.
  - apply reports_decoded; [apply reports_rpc|]. intros; apply reports_decode.
  - apply reports_decoded; [by apply reports_wrapped|]. intros; apply reports_decode.
  - by apply reports_header_and_proof.
Qed.
End Requests.

(** ** Subscriptions (client.rs)

    A worker in the background waits for the items that the node sends and passes them on through a
    bounded channel; the relay reads from the other end. *)

Section Subscriptions.
Context {T : Type}.

(** What the connection gives to the worker: [Some(Ok(item))], [Some(Err(_))] or [None]. *)
Inductive node_item := Item (item : T) | ItemError | NoMoreItems.

(** The worker waits for an item, waits until it can send, or has ended. *)
Inductive worker := Waiting | Sending (item : option T) | Stopped.

Record Subscription := Subscription_ {
  sub_worker : worker;
  sub_channel : list (option T);
  sub_open : bool;
}.

(** The capacity of a channel is its buffer and one slot for the sender. *)
Definition MAX_SUBSCRIPTION_CAPACITY : Z := 4096.
Definition channel_capacity : Z := MAX_SUBSCRIPTION_CAPACITY + 1.

(** [subscribe_finality_justifications]: a new channel, and a worker at its start. *)
Definition subscribe : Subscription := Subscription_ Waiting [] true.

(** The arms of [background_worker]. *)
Definition worker_receive (i : node_item) (s : Subscription) : option Subscription :=
  match sub_worker s with
  | Waiting =>
      let item := match i with Item item => Some item | ItemError | NoMoreItems => None end in
      Some (Subscription_ (Sending item) (sub_channel s) (sub_open s))
  | _ => None
  end.

(** [sender.send]: waits for a free slot, and fails when the receiver is gone. *)
Definition worker_send (s : Subscription) : option Subscription :=
  match sub_worker s with
  | Sending item =>
      if sub_open s then
        if Z.of_nat (length (sub_channel s)) <? channel_capacity then
          Some (Subscription_ (match item with Some _ => Waiting | None => Stopped end)
                  (sub_channel s ++ [item]) true)
        else None
      else Some (Subscription_ Stopped (sub_channel s) false)
  | _ => None
  end.

(** [Subscription::next]: the channel ends when the worker is gone. *)
Definition sub_next (s : Subscription) : option (option T * Subscription) :=
  match sub_channel s with
  | item :: rest => Some (item, Subscription_ (sub_worker s) rest (sub_open s))
  | [] =>
      match sub_worker s with
      | Stopped => Some (None, s)
      | _ => None
      end
  end.

(** [Subscription::into_stream] on what the channel is going to give: the items until the first
    [None], and whether it has come. *)
Fixpoint into_stream (results : list (option T)) : list T * bool :=
  match results with
  | Some item :: results => let '(items, ended) := into_stream results in (item :: items, ended)
  | None :: _ => ([], true)
  | [] => ([], false)
  end.

(** *** Runs *)

(** A subscription with all that the node has sent and all that the relay has read. *)
Record sub_run := Run {
  run_sub : Subscription;
  node_sent : list node_item;
  reads : list (option T);
}.

Inductive sub_event := NodeSends (i : node_item) | WorkerSends | RelayReads | RelayDrops.

Definition sub_step (e : sub_event) (r : sub_run) : option sub_run :=
  match e with
  | NodeSends i => s ← worker_receive i (run_sub r); Some (Run s (node_sent r ++ [i]) (reads r))
  | WorkerSends => s ← worker_send (run_sub r); Some (Run s (node_sent r) (reads r))
  | RelayReads =>
      if sub_open (run_sub r) then
        '(item, s) ← sub_next (run_sub r); Some (Run s (node_sent r) (reads r ++ [item]))
      else None
  | RelayDrops =>
      let s := run_sub r in
      Some (Run (Subscription_ (sub_worker s) (sub_channel s) false) (node_sent r) (reads r))
  end.

Definition sub_steps (r r' : sub_run) : Prop := exists e, sub_step e r = Some r'.

(** The steps of the worker and of the relay that reads. *)
Definition forwards (r r' : sub_run) : Prop :=
  sub_step WorkerSends r = Some r' \/ sub_step RelayReads r = Some r'.

Definition new_run : sub_run := Run subscribe [] [].

(** The items before the first failure, and whether there is one. *)
Fixpoint sent_items (sent : list node_item) : list T :=
  match sent with
  | Item item :: sent => item :: sent_items sent
  | _ => []
  end.

Definition is_item (i : node_item) : Prop := exists item, i = Item item.
Definition sub_failed (sent : list node_item) : Prop := Exists (fun i => ~ is_item i) sent.

(** Whether a [None] was read. *)
Definition has_end (l : list (option T)) : bool :=
  existsb (fun x => match x with None => true | Some _ => false end) l.

Abbreviation items l := (omap (fun item : option T => item) l).
Abbreviation pending w := (match w with Sending (Some item) => [item] | _ => [] end).

Record sub_inv (r : sub_run) : Prop := {
  si_items : items (reads r) ++ items (sub_channel (run_sub r)) ++ pending (sub_worker (run_sub r)) =
    sent_items (node_sent r);
  si_worker :
    match sub_worker (run_sub r) with
    | Waiting | Sending (Some _) =>
        Forall is_item (node_sent r) /\ (None ∉ sub_channel (run_sub r)) /\ (None ∉ reads r)
    | Sending None => sub_failed (node_sent r) /\ (None ∉ sub_channel (run_sub r)) /\ (None ∉ reads r)
    | Stopped =>
        sub_failed (node_sent r) /\
        (sub_channel (run_sub r) = [] /\ (None ∈ reads r) \/
         (None ∉ reads r) /\ exists l, sub_channel (run_sub r) = l ++ [None] /\ None ∉ l)
    end;
  si_stream : into_stream (reads r) = (items (reads r), has_end (reads r));
  si_capacity : Z.of_nat (length (sub_channel (run_sub r))) <= channel_capacity;
}.

Lemma sent_items_app (sent : list node_item) (i : node_item) :
  Forall is_item sent ->
  sent_items (sent ++ [i]) = sent_items sent ++ match i with Item item => [item] | _ => [] end.
Proof.
  induction 1 as [|x l [item ->] _ IH]; simpl; [by destruct i|]. by rewrite IH.
Qed.

Lemma new_run_inv : sub_inv new_run.
Proof. split; simpl; [done| |done|done]. split_and!; [constructor|apply not_elem_of_nil..]. Qed.

Lemma has_end_iff (l : list (option T)) : has_end l = true <-> None ∈ l.
Proof.
  induction l as [|[x|] l IH]; simpl; [by split; [|intros ?%not_elem_of_nil]|..];
    rewrite ?IH, elem_of_cons; naive_solver.
Qed.

Lemma into_stream_snoc (l : list (option T)) (x : option T) :
  into_stream l = (items l, has_end l) -> (None ∈ l -> x = None) ->
  into_stream (l ++ [x]) = (items (l ++ [x]), has_end (l ++ [x])).
Proof.
  induction l as [|[y|] l IH]; simpl; intros Hl Hx; [by destruct x| |].
  - destruct (into_stream l) as [its e]. injection Hl as -> ->. rewrite IH; [done..|].
    intros Hn. apply Hx. by right.
  - rewrite Hx by (by left). injection Hl as Hl.
    pose proof (omap_app (fun item : option T => item) l [None]) as Ha. rewrite app_nil_r in Ha.
    f_equal. rewrite Hl. symmetry. exact Ha.
Qed.

Lemma items_snoc (l : list (option T)) (x : option T) :
  items (l ++ [x]) = items l ++ match x with Some item => [item] | None => [] end.
Proof. rewrite omap_app. by destruct x. Qed.

(** The steps, as long as the relay keeps its end of the channel. *)
Lemma receive_inv (r : sub_run) (i : node_item) (s : Subscription) :
  sub_inv r -> worker_receive i (run_sub r) = Some s -> sub_inv (Run s (node_sent r ++ [i]) (reads r)).
Proof.
  destruct r as [[w c o] sent rd]. unfold worker_receive. intros [Hi Hw Hst Hc]; simpl in *.
  destruct w as [|item|]; [|done..]. intros [= <-]. destruct Hw as (Hall & Hch & Hrd).
  split; simpl; [|destruct i|done|done].
  - rewrite sent_items_app, <- Hi by done. rewrite !app_nil_r, <- app_assoc. by destruct i.
  - split_and!; [|done..]. apply Forall_app. split; [done|]. constructor; [by eexists|constructor].
  - split_and!; [|done..]. apply Exists_app. right. constructor. by intros [].
  - split_and!; [|done..]. apply Exists_app. right. constructor. by intros [].
Qed.

Lemma send_inv (r : sub_run) (s : Subscription) :
  sub_inv r -> sub_open (run_sub r) = true -> worker_send (run_sub r) = Some s ->
  sub_inv (Run s (node_sent r) (reads r)).
Proof.
  destruct r as [[w c o] sent rd]. unfold worker_send. intros [Hi Hw Hst Hc]; simpl in *. intros ->.
  destruct w as [|item|]; [done| |done]. destruct (Z.ltb_spec (Z.of_nat (length c)) channel_capacity) as [Hlt|];
    [|done]. intros [= <-].
  split; simpl; [|destruct item as [x|]|done|rewrite length_app; simpl; lia].
  - rewrite items_snoc, <- Hi. destruct item; by rewrite ?app_nil_r.
  - destruct Hw as (Hall & Hch & Hrd). split_and!; [done| |done]. rewrite elem_of_app, list_elem_of_singleton.
    by intros [|].
  - destruct Hw as (Hf & Hch & Hrd). split; [done|]. right. split; [done|]. by exists c.
Qed.

Lemma next_inv (r : sub_run) (item : option T) (s : Subscription) :
  sub_inv r -> sub_next (run_sub r) = Some (item, s) ->
  sub_inv (Run s (node_sent r) (reads r ++ [item])).
Proof.
  destruct r as [[w c o] sent rd]. unfold sub_next. intros [Hi Hw Hst Hc]; simpl in *.
  destruct c as [|x c].
  - destruct w as [| |]; [done..|]. intros [= <- <-]. destruct Hw as [Hf [[_ Hrd]|(_ & l & Hl & _)]];
      [|by destruct l].
    split; simpl; [by rewrite items_snoc, app_nil_r| |by apply into_stream_snoc|done]. split; [done|].
    left. split; [done|]. apply elem_of_app. by left.
  - intros [= <- <-]. split; simpl; [| |apply into_stream_snoc; [done|]|simpl in Hc; lia].
    + rewrite items_snoc, <- Hi. by destruct x; simpl; rewrite ?app_nil_r, <- ?app_assoc.
    + assert (forall P, P /\ (None ∉ x :: c) /\ (None ∉ rd) -> P /\ (None ∉ c) /\ None ∉ rd ++ [x]) as Hkeep.
      { intros P (HP & Hch & Hrd). rewrite not_elem_of_cons in Hch. destruct Hch as [Hx Hch].
        split_and!; [done..|]. rewrite elem_of_app, list_elem_of_singleton. naive_solver. }
      destruct w as [|[y|]|]; try by apply Hkeep. destruct Hw as [Hf [[? _]|(Hrd & l & Hl & Hn)]]; [done|].
      split; [done|]. destruct l as [|y l]; simplify_eq/=.
      * left. split; [done|]. apply elem_of_app. right. by left.
      * right. apply not_elem_of_cons in Hn as [Hy Hn]. split; [|by exists l].
        rewrite elem_of_app, list_elem_of_singleton. naive_solver.
    + intros Hn. destruct w as [|[y|]|]; naive_solver.
Qed.

Lemma sub_step_inv (e : sub_event) (r r' : sub_run) :
  (sub_open (run_sub r) = true -> sub_inv r) -> sub_step e r = Some r' ->
  sub_open (run_sub r') = true -> sub_inv r'.
Proof.
  intros Hinv Hstep Hopen. destruct e as [i| | |]; simpl in Hstep.
  - apply bind_Some in Hstep as (s & Hs & [= <-]). apply receive_inv; [|done]. apply Hinv.
    revert Hopen Hs. unfold worker_receive. simpl. by destruct (sub_worker _); [intros ? [= <-]|..].
  - apply bind_Some in Hstep as (s & Hs & [= <-]). simpl in Hopen.
    destruct (sub_open (run_sub r)) eqn:Eo; [by apply send_inv; [apply Hinv|..]|].
    revert Hs. unfold worker_send. rewrite Eo. destruct (sub_worker _); [done| |done]. by intros [= <-].
  - destruct (sub_open (run_sub r)) eqn:Eo; [|done].
    apply bind_Some in Hstep as ([item s] & Hs & [= <-]). apply next_inv; [by apply Hinv|done].
  - by injection Hstep as <-.
Qed.

(** Nothing is on its way to the relay any more. *)
Definition drained (r : sub_run) : Prop :=
  sub_channel (run_sub r) = [] /\ match sub_worker (run_sub r) with Sending _ => False | _ => True end.

Lemma drained_inv (r : sub_run) :
  sub_inv r -> drained r ->
  items (reads r) = sent_items (node_sent r) /\ (has_end (reads r) = true <-> sub_failed (node_sent r)).
Proof.
  intros [Hi Hw _ _] [Hch Hnot]; rewrite Hch in Hi, Hw; rewrite <- Hi, has_end_iff.
  destruct (sub_worker _) as [|x|]; [|done|]; rewrite !app_nil_r; (split; [done|]).
  - destruct Hw as (Hall & _ & Hn); split; [done|]; unfold sub_failed; rewrite Exists_exists, Forall_forall in *.
    intros (x & Hx & Hbad); by destruct Hbad; apply Hall.
  - destruct Hw as [Hf [[_ Hin]|(_ & l & Hl & _)]]; [done|by destruct l].
Qed.

(** The worker and the relay together pass on everything, without help of the node. *)
Lemma all_forwarded (n : nat) (r : sub_run) :
  (length (sub_channel (run_sub r)) + match sub_worker (run_sub r) with Sending _ => 2 | _ => 0 end <= n)%nat ->
  sub_inv r -> sub_open (run_sub r) = true ->
  exists r', rtc forwards r r' /\ node_sent r' = node_sent r /\ drained r' /\ sub_inv r'.
Proof.
  revert r. induction n as [|n IH]; intros r Hn Hinv Hopen.
  - exists r. split_and!; [done..| |done]. destruct r as [[w c o] sent rd]; unfold drained; simpl in *.
    destruct c; [|simpl in Hn; lia]. by destruct w; [|lia|].
  - assert (forall e r1, sub_step e r = Some r1 -> forwards r r1 -> node_sent r1 = node_sent r ->
      sub_open (run_sub r1) = true ->
      (length (sub_channel (run_sub r1)) + match sub_worker (run_sub r1) with Sending _ => 2 | _ => 0 end <= n)%nat ->
      exists r', rtc forwards r r' /\ node_sent r' = node_sent r /\ drained r' /\ sub_inv r')
      as Hgo.
    { intros e r1 Hs Hf Hsent Ho Hle. destruct (IH r1 Hle) as (r' & Hr & Hs' & Hi' & Hv); [|done|].
      - by eapply sub_step_inv.
      - exists r'. split_and!; [by eapply rtc_l|congruence|done..]. }
    destruct r as [[w c o] sent rd]; simpl in *. subst o. destruct c as [|x c].
    + destruct w as [|item|]; [by apply (IH (Run (Subscription_ Waiting [] true) sent rd)); [simpl; lia|..]| |
        by apply (IH (Run (Subscription_ Stopped [] true) sent rd)); [simpl; lia|..]].
      eapply (Hgo WorkerSends); [reflexivity|by left|done..|]. simpl in *. destruct item; simpl; lia.
    + eapply (Hgo RelayReads); [reflexivity|by right|done..|]. simpl in *. lia.
Qed.

Lemma runs_inv (r : sub_run) : rtc sub_steps new_run r -> sub_open (run_sub r) = true -> sub_inv r.
Proof.
  revert r. apply (rtc_ind_r (fun r => sub_open (run_sub r) = true -> sub_inv r)).
  - intros _. apply new_run_inv.
  - intros y z _ [e He] IH. by eapply sub_step_inv.
Qed.
End Subscriptions.

(** *** The stream of finality proofs (finality/source.rs) *)

Section FinalityProofs.
Context {FinalityProof : Type} (decode_proof : list Z -> outcome CodecError FinalityProof).

(** The body of the [unfold] in [finality_proofs] on what the subscription is going to return;
    [None] while it waits for more. *)
Fixpoint finality_proofs_next (results : list (option (list Z))) :
  option (option (FinalityProof * list (option (list Z)))) :=
  match results with
  | [] => None
  | None :: _ => Some None
  | Some next_justification :: results =>
      match decode_proof next_justification with
      | Ok justification => Some (Some (justification, results))
      | _ => finality_proofs_next results
      end
  end.

(** What the stream has given, and whether it has ended. *)
Fixpoint finality_proofs (fuel : nat) (results : list (option (list Z))) : list FinalityProof * bool :=
  match fuel, finality_proofs_next results with
  | S fuel, Some (Some (justification, results)) =>
      let '(proofs, ended) := finality_proofs fuel results in (justification :: proofs, ended)
  | _, Some None => ([], true)
  | _, _ => ([], false)
  end.

Definition decoded (raw : list Z) : option FinalityProof :=
  match decode_proof raw with Ok proof => Some proof | _ => None end.

Lemma finality_proofs_next_spec (results : list (option (list Z))) :
  let '(raws, ended) := into_stream results in
  match finality_proofs_next results with
  | Some (Some (proof, rest)) => (length rest < length results)%nat /\
      omap decoded raws = proof :: omap decoded (into_stream rest).1 /\ (into_stream rest).2 = ended
  | Some None => omap decoded raws = [] /\ ended = true
  | None => omap decoded raws = [] /\ ended = false
  end.
Proof.
  induction results as [|[raw|] results IH]; simpl; [done| |done].
  destruct (into_stream results) as [raws ended] eqn:Es. simpl.
  destruct (decode_proof raw) as [proof|e|] eqn:E.
  1: by unfold decoded at 1; rewrite E, Es; split_and!; [simpl; lia|done..].
  all: assert (decoded raw = None) as -> by (unfold decoded; by rewrite E).
  all: destruct (finality_proofs_next results) as [[[proof rest]|]|]; [|done..].
  all: destruct IH as (Hl & IH); split; [lia|done].
Qed.

(** The stream is the decoded stream of the subscription. *)
Lemma finality_proofs_spec (fuel : nat) (results : list (option (list Z))) :
  (length results <= fuel)%nat ->
  finality_proofs fuel results = (omap decoded (into_stream results).1, (into_stream results).2).
Proof.
  revert results. induction fuel as [|fuel IH]; intros results Hle;
    pose proof (finality_proofs_next_spec results) as Hnext;
    destruct (into_stream results) as [raws ended]; simpl;
    destruct (finality_proofs_next results) as [[[proof rest]|]|].
  1: lia.
  1, 2, 4, 5: by destruct Hnext as [-> ->].
  destruct Hnext as (Hlt & -> & <-). by rewrite IH by lia.
Qed.

(** C18. A subscription passes on what the node sends, while the relay keeps reading. In every run of
    the worker and the relay the finality proofs that the stream has given are the decoded
    items that the node has sent, in order, up to some point: nothing is lost, repeated or
    swapped, and what cannot be decoded is skipped. The stream ends only after the
    subscription has failed and when everything sent before was read; the channel stays within
    its bounds. And without any help of the node the worker and the relay get to everything that
    was sent, and to the end of the stream when the subscription has failed. *)
Theorem subscribed_proofs_are_faithful (r : sub_run (T := list Z)) :
  rtc sub_steps new_run r -> sub_open (run_sub r) = true ->
  let given r := finality_proofs (length (reads r)) (reads r) in
  let proofs := omap decoded (sent_items (node_sent r)) in
  (given r).1 `prefix_of` proofs /\
  ((given r).2 = true -> sub_failed (node_sent r) /\ (given r).1 = proofs) /\
  Z.of_nat (length (sub_channel (run_sub r))) <= channel_capacity /\
  exists r', rtc forwards r r' /\ (given r').1 = proofs /\ ((given r').2 = true <-> sub_failed (node_sent r)).
Proof.
  intros Hr Hopen given proofs.
  assert (forall r, sub_inv r -> given r =
    (omap decoded (omap (fun item => item) (reads r)), has_end (reads r))) as Hgiven.
  { intros r1 [_ _ Hst _]. unfold given. rewrite finality_proofs_spec by done. by rewrite Hst. }
  pose proof (runs_inv r Hr Hopen) as Hinv. pose proof Hinv as [Hi Hw Hst Hc].
  rewrite (Hgiven r Hinv). cbn [fst snd]. split_and!; [|intros Hend|done|].
  - unfold proofs. rewrite <- Hi, omap_app. by eexists.
  - apply has_end_iff in Hend. destruct (sub_worker _) as [|[x|]|]; try naive_solver.
    destruct Hw as [Hf [[Hch _]|[? _]]]; [|done]. split; [done|].
    unfold proofs. rewrite <- Hi, Hch. by rewrite !app_nil_r.
  - destruct (all_forwarded _ r (le_n _) Hinv Hopen) as (r' & Hsteps & Hsent & Hdrained & Hinv').
    exists r'. split; [done|]. rewrite (Hgiven r' Hinv'). cbn [fst snd]. unfold proofs.
    rewrite <- Hsent. by destruct (drained_inv r' Hinv' Hdrained) as [-> ?].
Qed.
End FinalityProofs.

(** ** Instances: a node that went away, and a subscription that gives one justification *)
Module LostNode.
#[global] Instance hdr : Header (Z * Z) Z := {|
  hdr_number := fst; hdr_hash := snd; hdr_parent_hash h := snd h - 1; hdr_state_root _ := 0;
|}.
Definition gone {A : Type} : outcome RpcError A := Err (Transport "connection closed").
Definition client : RpcClient (Hash := Z) (Hdr := Z * Z) (Block := Z) (AccountId := Z) :=
  Rpc gone gone (fun _ => gone) (fun _ => gone) (Ok 5) (fun _ => gone) gone gone (fun _ _ _ => gone)
    (fun _ _ => gone) (fun _ _ => gone) (fun _ => gone).
Definition decode (raw : list Z) : outcome CodecError Z :=
  match raw with [n] => Ok n | _ => Err "not a proof"%string end.

Definition run : sub_run (T := list Z) :=
  Run (Subscription_ Stopped [None] true) [Item [7; 7]; Item [3]; ItemError] [Some [7; 7]; Some [3]].

Lemma run_reachable : rtc sub_steps new_run run.
Proof.
  assert (forall (r : sub_run (T := list Z)) e r' r'', sub_step e r = Some r' -> rtc sub_steps r' r'' -> rtc sub_steps r r'') as Hstep.
  { intros r e r' r'' Hs. apply rtc_l. by exists e. }
  do 2 (eapply (Hstep _ (NodeSends (Item _))); [reflexivity|]; eapply (Hstep _ WorkerSends); [reflexivity|];
    eapply (Hstep _ RelayReads); [reflexivity|]).
  eapply (Hstep _ (NodeSends ItemError)); [reflexivity|]. eapply (Hstep _ WorkerSends); [reflexivity|].
  apply rtc_refl.
Qed.
End LostNode.

Lemma lost_connections_are_noticed_witness :
  exists err,
    best_finalized_header_number (fun _ => "hash"%string) (fun _ t => t) "Rialto" LostNode.client = Err err /\
    is_connection_error err = true.
Proof.
  refine (proj1 (lost_connections_are_noticed (fun _ => "hash"%string) (fun _ t => t) "Rialto" LostNode.client
    LostNode.decode (fun b => (b, b)) (fun b => None) _ _ (fun _ _ => eq_refl)
    (ReadFinalizedNumber _ _ _ _ _ _ _)) (Transport "connection closed") _).
  reflexivity.
Defined.

Lemma subscribed_proofs_are_faithful_witness :
  (finality_proofs LostNode.decode 2 (reads LostNode.run)).1 = [3] /\
  [3] `prefix_of` omap (decoded LostNode.decode) (sent_items (node_sent LostNode.run)) /\
  exists r', rtc forwards LostNode.run r' /\ (finality_proofs LostNode.decode (length (reads r')) (reads r')).2 = true.
Proof.
  split; [reflexivity|].
  destruct (subscribed_proofs_are_faithful LostNode.decode LostNode.run LostNode.run_reachable eq_refl)
    as (Hp & _ & _ & r' & Hr & _ & Hend).
  split; [exact Hp|]; exists r'; split; [exact Hr|]; apply Hend.
  do 2 apply Exists_cons_tl; apply Exists_cons_hd; by intros [].
Defined.
