(* ===== verification/Resubmitter.v ===== *)
(** * relays/bin-substrate/src/cli/resubmit_transactions.rs: resubmission of stalled transactions

    A process that watches the transaction pool and replaces a transaction of the relayer that is
    not mined by one with a larger tip.  The codec, the signing scheme of the chain and the answers
    of the node are parameters. *)

From S2P Require Import Prelude RuntimePrimitives SubstrateClient.
From stdpp Require Import base numbers list.
Local Open Scope Z_scope.

Inductive PrioritySelectionStrategy :=
| MakeItBestTransaction
| MakeItBetterThanQueuedTransaction.

Section Resubmitter.
Context {Bytes Tx Call Hash Hdr Version E : Type} `{EqDecision Hash} `{Header Hdr Hash}.
Abbreviation Unsigned := (UnsignedTransaction Call Hash).

(** The chain: [ChainWithTransactions] and the codec.  [is_signed_by] is for the key pair of the
    relayer. *)
Context (decode : Bytes -> option Tx) (hash_of : Tx -> Hash).
Context (is_signed_by is_signed : Tx -> bool) (parse_transaction : Tx -> option Unsigned).
Context (sign_transaction : Version -> Unsigned -> outcome E Tx).
Context (response_parse_failed parse_failed : E).

(** The maximal block number and balance. *)
Context (number_max balance_max : Z) (mortality : option Z).

(** What the node answers during an iteration; the pool is read twice.  [validate_transaction]
    gives the priority. *)
Record pool_client := PoolClient {
  pool_best_header : outcome E Hdr;
  pending_extrinsics : outcome E (list Bytes);
  queued_extrinsics : outcome E (list Bytes);
  block_extrinsics : Hash -> outcome E (list Bytes);
  validate_transaction : Hash -> Tx -> outcome E Z;
  runtime_version : outcome E Version;
  submit_extrinsic : Tx -> outcome E unit;
}.

Record Context := Context_ {
  strategy : PrioritySelectionStrategy;
  best_header : Hdr;
  transaction : option Hash;
  resubmitted : Z;
  stalled_for : Z;
  stalled_for_limit : Z;
  tip_step : Z;
  tip_limit : Z;
}.

Definition is_stalled (c : Context) : bool := stalled_for_limit c <=? stalled_for c.

Definition notice_resubmitted_transaction (tx : Hash) (c : Context) : Context :=
  Context_ (strategy c) (best_header c) (Some tx) (wrapping_add u32_max (resubmitted c) 1) 0
    (stalled_for_limit c) (tip_step c) (tip_limit c).

Definition notice_transaction (tx : Hash) (c : Context) : Context :=
  if decide (transaction c = Some tx) then
    Context_ (strategy c) (best_header c) (transaction c) (resubmitted c)
      (wrapping_add number_max (stalled_for c) 1) (stalled_for_limit c) (tip_step c) (tip_limit c)
  else
    Context_ (strategy c) (best_header c) (Some tx) 0 1 (stalled_for_limit c) (tip_step c) (tip_limit c).

Definition set_best_header (h : Hdr) (c : Context) : Context :=
  Context_ (strategy c) h (transaction c) (resubmitted c) (stalled_for c) (stalled_for_limit c)
    (tip_step c) (tip_limit c).

(** The loop of [lookup_signer_transaction]. *)
Fixpoint lookup_signer_transaction (pending : list Bytes) : outcome E (option Tx) :=
  match pending with
  | [] => Ok None
  | raw :: pending =>
      let? tx := ok_or (decode raw) response_parse_failed in
      if is_signed_by tx then Ok (Some tx) else lookup_signer_transaction pending
  end.

Definition read_previous_block_best_priority (client : pool_client) (c : Context) :
  outcome E (option Z) :=
  let? extrinsics := block_extrinsics client (hdr_hash (best_header c)) in
  match head (filter (fun tx => is_signed tx = true) (omap decode extrinsics)) with
  | Some best_transaction =>
      let? priority := validate_transaction client (hdr_parent_hash (best_header c)) best_transaction in
      Ok (Some priority)
  | None => Ok None
  end.

(** The index that [swap_remove] takes out of a queue with [total] transactions. *)
Definition selected_index (total resubmitted : Z) : Z :=
  let divisor :=
    saturating_add u64_max 1 (if resubmitted <? 64 then 2 ^ resubmitted else u64_max) in
  Z.min (total - 1) (total / divisor).

Definition select_transaction_from_queue (queued : list Bytes) (c : Context) : option Bytes :=
  match queued with
  | [] => None
  | _ => queued !! Z.to_nat (selected_index (Z.of_nat (length queued)) (resubmitted c))
  end.

Definition select_priority_from_queue (client : pool_client) (c : Context) :
  outcome E (option Z) :=
  let? queued := queued_extrinsics client in
  match select_transaction_from_queue queued c with
  | None => Ok None
  | Some raw =>
      let? selected := ok_or (decode raw) response_parse_failed in
      let? target_priority := validate_transaction client (hdr_hash (best_header c)) selected in
      Ok (Some target_priority)
  end.

Definition select_target_priority (client : pool_client) (c : Context) :
  outcome E (option Z) :=
  match strategy c with
  | MakeItBestTransaction => read_previous_block_best_priority client c
  | MakeItBetterThanQueuedTransaction => select_priority_from_queue client c
  end.

(** The loop of [update_transaction_tip]; [Panic] is an exhausted [fuel]. *)
Fixpoint tip_loop (fuel : nat) (client : pool_client) (at_block : HeaderId Hash) (version : Version)
  (tip_step tip_limit target_priority current_priority : Z) (tx : Unsigned) : outcome E Unsigned :=
  match fuel with
  | O => Panic
  | S fuel =>
      if current_priority <? target_priority then
        let next_tip := wrapping_add balance_max (tx_tip tx) tip_step in
        if tip_limit <? next_tip then Ok tx
        else
          let tx := with_tip next_tip tx in
          let? signed := sign_transaction version tx in
          let? priority := validate_transaction client (header_hash at_block) signed in
          tip_loop fuel client at_block version tip_step tip_limit target_priority priority tx
      else Ok tx
  end.

Definition update_transaction_tip (fuel : nat) (client : pool_client) (at_block : HeaderId Hash) (tx : Tx)
  (tip_step tip_limit target_priority : Z) : outcome E (bool * Tx) :=
  let? current_priority := validate_transaction client (header_hash at_block) tx in
  let? unsigned_tx := ok_or (parse_transaction tx) parse_failed in
  let old_tip := tx_tip unsigned_tx in
  let? version := runtime_version client in
  let? unsigned_tx :=
    tip_loop fuel client at_block version tip_step tip_limit target_priority current_priority
      unsigned_tx in
  let? signed := sign_transaction version (with_era (era_new at_block mortality) unsigned_tx) in
  Ok (negb (old_tip =? tx_tip unsigned_tx), signed).

(** The context after the iteration, and the transaction that was submitted. *)
Definition resubmitter_iteration (fuel : nat) (client : pool_client) (c : Context) :
  outcome E (Context * option Tx) :=
  let? header := pool_best_header client in
  let c := set_best_header header c in
  let? pending := pending_extrinsics client in
  let? original := lookup_signer_transaction pending in
  match original with
  | None => Ok (c, None)
  | Some original_transaction =>
      let c := notice_transaction (hash_of original_transaction) c in
      if negb (is_stalled c) then Ok (c, None)
      else
        let? target_priority := select_target_priority client c in
        match target_priority with
        | None => Ok (c, None)
        | Some target_priority =>
            let? (is_updated, updated_transaction) :=
              update_transaction_tip fuel client (header_id (best_header c)) original_transaction
                (tip_step c) (tip_limit c) target_priority in
            if negb is_updated then Ok (c, None)
            else
              check? submit_extrinsic client updated_transaction in
              Ok (notice_resubmitted_transaction (hash_of updated_transaction) c,
                  Some updated_transaction)
        end
  end.

(** The context that [run] starts with; [default_header] has default fields. *)
Definition context_start (default_header : Hdr) (s : PrioritySelectionStrategy)
  (stalled_blocks step limit : Z) : Context :=
  Context_ s default_header None 0 0 stalled_blocks step limit.
End Resubmitter.
Arguments pool_client : clear implicits.
Arguments Context : clear implicits.

Section ResubmitterFacts.
Context {Bytes Tx Call Hash Hdr Version E : Type} `{EqDecision Hash} `{Header Hdr Hash}.
Context (decode : Bytes -> option Tx) (hash_of : Tx -> Hash).
Context (is_signed_by is_signed : Tx -> bool).
Context (parse_transaction : Tx -> option (UnsignedTransaction Call Hash)).
Context (sign_transaction : Version -> UnsignedTransaction Call Hash -> outcome E Tx).
Context (response_parse_failed parse_failed : E).
Context (number_max balance_max : Z) (mortality : option Z).
Abbreviation client := (pool_client Bytes Tx Hash Hdr Version E).
Abbreviation context := (Context Hash Hdr).
Abbreviation loop := (tip_loop sign_transaction balance_max).
Abbreviation update :=
  (update_transaction_tip parse_transaction sign_transaction parse_failed balance_max mortality).
Abbreviation iteration :=
  (resubmitter_iteration decode hash_of is_signed_by is_signed parse_transaction sign_transaction
     response_parse_failed parse_failed number_max balance_max mortality).
Abbreviation lookup_signer := (lookup_signer_transaction decode is_signed_by response_parse_failed).

(** ** The transaction of the queue that must be outbid *)

Lemma selected_index_range (total r : Z) :
  0 < total -> 0 <= r -> 0 <= selected_index total r < total.
Proof.
  intros Ht Hr. unfold selected_index.
  assert (0 <= total / saturating_add u64_max 1 (if r <? 64 then 2 ^ r else u64_max)); [|lia].
  apply Z_div_nonneg_nonneg; [lia|]. unfold saturating_add.
  destruct (Z.ltb_spec r 64); word.
Qed.

(** Every resubmission moves the target closer to the front of the queue. *)
Lemma selected_index_moves (total r r' : Z) :
  0 < total -> 0 <= r <= r' -> selected_index total r' <= selected_index total r.
Proof.
  intros Ht Hr. unfold selected_index, saturating_add.
  apply Z.min_le_compat_l, Z.div_le_compat_l; [lia|].
  pose proof (Z.pow_pos_nonneg 2 r ltac:(lia) ltac:(lia)).
  destruct (Z.ltb_spec r 64), (Z.ltb_spec r' 64); try word.
  pose proof (Z.pow_le_mono_r 2 r r' ltac:(lia) ltac:(lia)). word.
Qed.

Lemma selected_from_queue (queued : list Bytes) (c : context) :
  queued <> [] -> 0 <= resubmitted c -> is_Some (select_transaction_from_queue queued c).
Proof.
  intros Hq Hr. unfold select_transaction_from_queue. destruct queued as [|b queued]; [done|].
  apply lookup_lt_is_Some.
  pose proof (selected_index_range (Z.of_nat (length (b :: queued))) (resubmitted c)
    ltac:(simpl; lia) Hr). lia.
Qed.

(** ** The search of a tip *)

(** The priority after [i] steps; [current] is the priority of the original transaction. *)
Definition step_priority (cl : client) (at_block : HeaderId Hash) (version : Version) (step current : Z)
  (tx : UnsignedTransaction Call Hash) (i : nat) : outcome E Z :=
  match i with
  | O => Ok current
  | _ =>
      let? signed := sign_transaction version (with_tip (tx_tip tx + Z.of_nat i * step) tx) in
      validate_transaction cl (header_hash at_block) signed
  end.

Lemma step_priority_next cl at_block version step current p tx i :
  step_priority cl at_block version step current tx 1 = Ok p ->
  step_priority cl at_block version step p (with_tip (tx_tip tx + step) tx) i =
  step_priority cl at_block version step current tx (S i).
Proof.
  intros Hp. destruct i as [|i]; [done|]. unfold step_priority. cbn [with_tip tx_call tx_nonce tx_tip tx_era].
  unfold with_tip at 1. cbn [tx_call tx_nonce tx_tip tx_era].
  unfold with_tip. do 3 f_equal. lia.
Qed.

(** The tip that the loop stops at: the first sufficient one, or the last one under the limit. *)
Definition tip_found (cl : client) (at_block : HeaderId Hash) (version : Version)
  (step limit target current : Z) (tx : UnsignedTransaction Call Hash) (k : nat) : Prop :=
  (k = 0%nat \/ tx_tip tx + Z.of_nat k * step <= limit) /\
  (forall i, (i < k)%nat -> exists p,
     step_priority cl at_block version step current tx i = Ok p /\ p < target) /\
  exists p, step_priority cl at_block version step current tx k = Ok p /\
    (target <= p \/ limit < tx_tip tx + (Z.of_nat k + 1) * step).

Lemma tip_loop_spec fuel cl at_block version step limit target : forall current tx,
  0 < step -> 0 <= tx_tip tx -> tx_tip tx + step <= balance_max -> limit + step <= balance_max ->
  (0 < fuel)%nat -> limit < tx_tip tx + Z.of_nat fuel * step ->
  (forall v u, sign_transaction v u <> Panic) ->
  (forall h t, validate_transaction cl h t <> Panic) ->
  match loop fuel cl at_block version step limit target current tx with
  | Ok tx' => exists k : nat,
      tx' = with_tip (tx_tip tx + Z.of_nat k * step) tx /\
      tip_found cl at_block version step limit target current tx k
  | Err e => exists k : nat,
      (0 < k)%nat /\ tx_tip tx + Z.of_nat k * step <= limit /\
      step_priority cl at_block version step current tx k = Err e
  | Panic => False
  end.
Proof.
  induction fuel as [|fuel IH]; intros current tx Hs H0 Hb Hl Hf Hlim Hsign Hval; [lia|].
  cbn [tip_loop]. destruct (Z.ltb_spec current target) as [Hc|Hc].
  2: { exists 0%nat. split; [destruct tx; unfold with_tip; cbn; f_equal; lia|].
       split; [auto|]. split; [lia|]. exists current. auto. }
  rewrite wrapping_add_small by lia.
  destruct (Z.ltb_spec limit (tx_tip tx + step)) as [Ho|Ho].
  { exists 0%nat. split; [destruct tx; unfold with_tip; cbn; f_equal; lia|].
    split; [auto|]. split; [lia|]. exists current. split; [done|]. right. lia. }
  assert (Hone : step_priority cl at_block version step current tx 1 =
    (let? signed := sign_transaction version (with_tip (tx_tip tx + step) tx) in
     validate_transaction cl (header_hash at_block) signed)).
  { unfold step_priority. do 3 f_equal. lia. }
  destruct (sign_transaction version _) as [signed|e|] eqn:Esign;
    [|exists 1%nat; rewrite Hone; repeat split; lia || done|by eapply Hsign].
  cbn [obind] in Hone |- *.
  destruct (validate_transaction cl _ signed) as [p|e|] eqn:Eval;
    [|exists 1%nat; rewrite Hone; repeat split; lia || done|by eapply Hval].
  cbn [obind].
  assert (Hf' : (0 < fuel)%nat) by (destruct fuel; lia).
  specialize (IH p (with_tip (tx_tip tx + step) tx) Hs).
  cbn [with_tip tx_tip] in IH.
  specialize (IH ltac:(lia) ltac:(lia) Hl Hf' ltac:(lia) Hsign Hval).
  destruct (loop fuel _ _ _ _ _ _ _ _) as [tx'|e|]; [| |done].
  - destruct IH as (k & -> & Hk & Hbefore & q & Hq & Hend). exists (S k).
    cbn [with_tip tx_tip] in *.
    split; [unfold with_tip; cbn; f_equal; lia|].
    split; [right; lia|]. split.
    + intros [|i] Hi; [by exists current|].
      rewrite <- (step_priority_next _ _ _ _ _ p) by done. apply Hbefore. lia.
    + exists q. rewrite <- (step_priority_next _ _ _ _ _ p) by done. split; [done|].
      destruct Hend as [?|?]; [by left|right; lia].
  - destruct IH as (k & ? & ? & Hk). exists (S k). cbn [with_tip tx_tip] in *.
    rewrite <- (step_priority_next _ _ _ _ _ p) by done. repeat split; lia || done.
Qed.

(** A tip step of zero makes the search endless: no fuel is enough. *)
Lemma zero_tip_step_never_ends fuel cl at_block version limit target current tx :
  0 <= tx_tip tx <= limit -> limit <= balance_max -> current < target ->
  (forall i, step_priority cl at_block version 0 current tx i = Ok current) ->
  loop fuel cl at_block version 0 limit target current tx = Panic.
Proof.
  intros Ht Hl Hc Hp. induction fuel as [|fuel IH]; [done|]. cbn [tip_loop].
  rewrite (proj2 (Z.ltb_lt _ _)) by lia. rewrite wrapping_add_small by lia.
  rewrite (proj2 (Z.ltb_ge _ _)) by lia.
  specialize (Hp 1%nat). unfold step_priority in Hp. rewrite Z.mul_0_r in Hp. rewrite Z.add_0_r in Hp |- *.
  replace (with_tip (tx_tip tx) tx) with tx in * by (by destruct tx).
  apply obind_Ok in Hp as (signed & -> & Hv). cbn [obind]. by rewrite Hv.
Qed.

(** The search of a tip always ends: the transaction that [update_transaction_tip] returns keeps
    the call and the nonce, and its tip is the first one of the grid that reaches the target
    priority or, when there is none, the largest one of the grid under the limit; the flag tells
    whether the tip has changed.  An error is an answer of the node. *)
Theorem tip_update_correct (fuel : nat) (cl : client) (at_block : HeaderId Hash) (tx : Tx)
  (step limit target : Z) :
  0 < step ->
  limit + step <= balance_max ->
  (forall u, parse_transaction tx = Some u ->
     0 <= tx_tip u /\ tx_tip u + step <= balance_max) ->
  limit / step < Z.of_nat fuel ->
  (0 < fuel)%nat ->
  (forall v u, sign_transaction v u <> Panic) ->
  (forall h t, validate_transaction cl h t <> Panic) ->
  runtime_version cl <> Panic ->
  match update fuel cl at_block tx step limit target with
  | Panic => False
  | Err e =>
      e = parse_failed \/ runtime_version cl = Err e \/
      (exists v u, sign_transaction v u = Err e) \/
      exists t, validate_transaction cl (header_hash at_block) t = Err e
  | Ok (updated, tx') =>
      exists u current version (k : nat),
        parse_transaction tx = Some u /\
        validate_transaction cl (header_hash at_block) tx = Ok current /\
        runtime_version cl = Ok version /\
        tip_found cl at_block version step limit target current u k /\
        updated = bool_decide (0 < k)%nat /\
        sign_transaction version
          (Unsigned (tx_call u) (tx_nonce u) (tx_tip u + Z.of_nat k * step)
             (era_new at_block mortality)) = Ok tx'
  end.
Proof.
  intros Hs Hl Hparse Hfuel Hf Hsign Hval Hver. unfold update_transaction_tip.
  destruct (validate_transaction cl _ tx) as [current|e|] eqn:Ec;
    [|right; right; right; by exists tx|by eapply Hval]. cbn [obind].
  destruct (parse_transaction tx) as [u|] eqn:Eu; [|by left]. cbn [ok_or obind].
  destruct (runtime_version cl) as [version|e|] eqn:Ev; [|by right; left|done]. cbn [obind].
  destruct (Hparse u eq_refl) as [Hu0 Hu].
  pose proof (tip_loop_spec fuel cl at_block version step limit target current u Hs Hu0 Hu Hl Hf) as Hloop.
  assert (Hlim : limit < tx_tip u + Z.of_nat fuel * step).
  { pose proof (Z.mul_succ_div_gt limit step Hs).
    assert (step * Z.succ (limit / step) <= step * Z.of_nat fuel) by (apply Z.mul_le_mono_nonneg_l; lia). lia. }
  specialize (Hloop Hlim Hsign Hval).
  destruct (loop fuel _ _ _ _ _ _ _ _) as [u'|e|]; [| |done]; cbn [obind].
  - destruct Hloop as (k & -> & Hk). unfold with_era. cbn [with_tip tx_call tx_nonce tx_tip tx_era].
    destruct (sign_transaction version _) as [tx'|e|] eqn:Es; cbn [obind];
      [|right; right; left; eauto|by eapply Hsign].
    exists u, current, version, k. split_and!; try done.
    destruct k as [|k]; [by rewrite Z.add_0_r, Z.eqb_refl|].
    rewrite (proj2 (Z.eqb_neq _ _)) by lia. by rewrite bool_decide_true by lia.
  - destruct Hloop as ([|k] & ? & _ & Hk); [lia|]. cbn [step_priority] in Hk.
    apply obind_Err in Hk as [Hk|(signed & _ & Hk)]; right; right; [left|right]; eauto.
Qed.

(** ** The process *)

(** What an iteration sees in the pool. *)
Definition observed (cl : client) : list Hash :=
  match pending_extrinsics cl with
  | Ok pending =>
      match lookup_signer pending with Ok (Some tx) => [hash_of tx] | _ => [] end
  | _ => []
  end.

(** The contexts that a process passes through, with the transactions that it has seen (the latest
    one first). *)
Inductive resubmitter_run (fuel : nat) (start : context) : context -> list Hash -> Prop :=
| RunStart : resubmitter_run fuel start start []
| RunIteration c seen cl c' submitted :
    resubmitter_run fuel start c seen ->
    iteration fuel cl c = Ok (c', submitted) ->
    resubmitter_run fuel start c' (observed cl ++ seen).

Record watches (start c : context) (seen : list Hash) : Prop := Watches {
  watch_limits : stalled_for_limit c = stalled_for_limit start /\
    tip_step c = tip_step start /\ tip_limit c = tip_limit start;
  watch_range : 0 <= stalled_for c <= Z.of_nat (length seen);
  watch_seen : Forall (fun h => transaction c = Some h) (take (Z.to_nat (stalled_for c)) seen);
}.

Lemma watches_start (h : Hdr) s stalled step limit :
  watches (context_start h s stalled step limit) (context_start h s stalled step limit) [].
Proof. split; [done|simpl; lia|by constructor]. Qed.

Lemma watches_header start c seen h : watches start c seen -> watches start (set_best_header h c) seen.
Proof. by intros [? ? ?]. Qed.

Lemma watches_notice start c seen tx :
  0 <= number_max -> watches start c seen -> watches start (notice_transaction number_max tx c) (tx :: seen).
Proof.
  intros Hmax [Hl Hr Hseen]. unfold notice_transaction.
  destruct (decide (transaction c = Some tx)) as [Htx|Htx].
  2: { split; [done|simpl; lia|]. cbn. by repeat constructor. }
  assert (Hw : wrapping_add number_max (stalled_for c) 1 = 0 \/
    0 <= wrapping_add number_max (stalled_for c) 1 <= stalled_for c + 1).
  { right. unfold wrapping_add.
    pose proof (Z.mod_pos_bound (stalled_for c + 1) (number_max + 1) ltac:(lia)).
    pose proof (Z.mod_le (stalled_for c + 1) (number_max + 1) ltac:(lia) ltac:(lia)). lia. }
  split; cbn [stalled_for_limit tip_step tip_limit stalled_for transaction]; [done|simpl length; lia|].
  destruct (Z.to_nat (wrapping_add number_max (stalled_for c) 1)) as [|n] eqn:En; [by constructor|].
  cbn [take]. constructor; [done|].
  eapply Forall_take with (n := n) in Hseen. rewrite take_take in Hseen.
  by replace (n `min` Z.to_nat (stalled_for c))%nat with n in Hseen by lia.
Qed.

Lemma watches_resubmitted start c seen tx :
  watches start c seen -> watches start (notice_resubmitted_transaction tx c) seen.
Proof. intros [? ? ?]. split; [done|simpl; lia|by constructor]. Qed.

(** Without a bound on the fuel: a search that ends has not gone over the limit. *)
Lemma tip_loop_limit fuel (cl : client) at_block version step limit target : forall current tx tx',
  0 < step -> 0 <= tx_tip tx -> tx_tip tx + step <= balance_max -> limit + step <= balance_max ->
  loop fuel cl at_block version step limit target current tx = Ok tx' ->
  exists tip, tx' = with_tip tip tx /\ (tip = tx_tip tx \/ tx_tip tx < tip <= limit).
Proof.
  induction fuel as [|fuel IH]; intros current tx tx' Hs H0 Hb Hl; [done|]. cbn [tip_loop].
  assert (Hsame : Ok tx = Ok (E := E) tx' ->
    exists tip, tx' = with_tip tip tx /\ (tip = tx_tip tx \/ tx_tip tx < tip <= limit)).
  { intros [= <-]. exists (tx_tip tx). destruct tx. auto. }
  destruct (current <? target); [|done]. rewrite wrapping_add_small by lia.
  destruct (Z.ltb_spec limit (tx_tip tx + step)) as [Ho|Ho]; [done|]. clear Hsame.
  rewrite obind_Ok. intros (signed & _ & Hloop). apply obind_Ok in Hloop as (p & _ & Hloop).
  apply IH in Hloop as (tip & -> & Htip); cbn [with_tip tx_tip] in *; [|lia..].
  exists tip. split; [done|]. right. lia.
Qed.

Lemma updated_tip fuel (cl : client) at_block tx step limit target tx' :
  0 < step -> limit + step <= balance_max ->
  (forall u, parse_transaction tx = Some u -> 0 <= tx_tip u /\ tx_tip u + step <= balance_max) ->
  update fuel cl at_block tx step limit target = Ok (true, tx') ->
  exists u version tip, parse_transaction tx = Some u /\ tx_tip u < tip <= limit /\
    runtime_version cl = Ok version /\
    sign_transaction version
      (Unsigned (tx_call u) (tx_nonce u) tip (era_new at_block mortality)) = Ok tx'.
Proof.
  intros Hs Hl Hparse. unfold update_transaction_tip.
  rewrite obind_Ok. intros (current & _ & Hup). apply obind_Ok in Hup as (u & Hu & Hup).
  apply ok_or_Ok in Hu. destruct (Hparse u Hu) as [Hu0 Hub].
  apply obind_Ok in Hup as (version & Hv & Hup). apply obind_Ok in Hup as (u' & Hloop & Hup).
  apply obind_Ok in Hup as (signed & Hsigned & [= Hne ->]).
  apply tip_loop_limit in Hloop as (tip & -> & Htip); [|done..].
  apply negb_true_iff, Z.eqb_neq in Hne. cbn [with_tip tx_tip] in *.
  exists u, version, tip. destruct Htip as [->|[? ?]]; [done|]. by split_and!.
Qed.

Lemma iteration_cases fuel cl c c' submitted :
  iteration fuel cl c = Ok (c', submitted) ->
  exists h, pool_best_header cl = Ok h /\
  let c0 := set_best_header h c in
  (observed cl = [] /\ c' = c0 /\ submitted = None) \/
  exists pending tx, pending_extrinsics cl = Ok pending /\ lookup_signer pending = Ok (Some tx) /\
    observed cl = [hash_of tx] /\
    let c1 := notice_transaction number_max (hash_of tx) c0 in
    (c' = c1 /\ submitted = None) \/
    exists target tx', is_stalled c1 = true /\
      update fuel cl (header_id h) tx (tip_step c) (tip_limit c) target = Ok (true, tx') /\
      submit_extrinsic cl tx' = Ok tt /\
      c' = notice_resubmitted_transaction (hash_of tx') c1 /\ submitted = Some tx'.
Proof.
  unfold resubmitter_iteration. rewrite obind_Ok. intros (h & Hh & Hrun). exists h. split; [done|].
  apply obind_Ok in Hrun as (pending & Hpending & Hrun). apply obind_Ok in Hrun as (found & Hfound & Hrun).
  unfold observed. rewrite Hpending, Hfound.
  destruct found as [tx|]; [right; exists pending, tx|left; naive_solver].
  do 3 (split; [done|]). cbv zeta.
  set (c1 := notice_transaction number_max (hash_of tx) (set_best_header h c)) in *.
  assert (Hc1 : best_header c1 = h /\ tip_step c1 = tip_step c /\ tip_limit c1 = tip_limit c).
  { unfold c1, notice_transaction. by case_decide. }
  destruct Hc1 as (Hb & Hstep & Hlimit).
  destruct (is_stalled c1) eqn:Est; cbn [negb] in Hrun; [|left; naive_solver].
  apply obind_Ok in Hrun as ([target|] & _ & Hrun); [|left; naive_solver].
  rewrite Hb, Hstep, Hlimit in Hrun. apply obind_Ok in Hrun as ([updated tx'] & Hup & Hrun).
  destruct updated; cbn [negb] in Hrun; [right|left; naive_solver].
  apply obind_Ok in Hrun as ([] & Hsubmit & [= <- <-]). by exists target, tx'.
Qed.

Lemma run_watches fuel start c seen :
  0 <= number_max -> watches start start [] -> resubmitter_run fuel start c seen ->
  watches start c seen.
Proof.
  intros Hmax Hstart. induction 1 as [|c seen cl c' submitted _ IH Hit]; [done|].
  apply iteration_cases in Hit as (h & _ & [(-> & -> & _)|(pending & tx & _ & _ & -> & Hc)]);
    [by apply watches_header|].
  pose proof (watches_notice start _ seen (hash_of tx) Hmax (watches_header _ _ _ h IH)) as Hw.
  destruct Hc as [[-> _]|(target & tx' & _ & _ & _ & -> & _)]; [done|by apply watches_resubmitted].
Qed.

(** At any point of a run, a transaction is submitted only instead of the pending transaction of
    the relayer that was the first one in the pool at each of the last [stalled_blocks] times that
    the relayer had one there.  The replacement has the same call and nonce (so at most one of the
    two is mined), a larger tip, and the tip never exceeds the limit of the operator. *)
Theorem resubmissions_are_justified (fuel : nat) (h : Hdr) (s : PrioritySelectionStrategy)
  (stalled_blocks step limit : Z) (c c' : context) (seen : list Hash) (cl : client) (tx' : Tx) :
  0 <= number_max -> 0 <= stalled_blocks -> 0 < step -> limit + step <= balance_max ->
  (forall pending tx u, pending_extrinsics cl = Ok pending -> lookup_signer pending = Ok (Some tx) ->
     parse_transaction tx = Some u -> 0 <= tx_tip u /\ tx_tip u + step <= balance_max) ->
  resubmitter_run fuel (context_start h s stalled_blocks step limit) c seen ->
  iteration fuel cl c = Ok (c', Some tx') ->
  exists pending tx u header version tip,
    pending_extrinsics cl = Ok pending /\
    lookup_signer pending = Ok (Some tx) /\
    pool_best_header cl = Ok header /\ runtime_version cl = Ok version /\
    stalled_blocks <= Z.of_nat (length (hash_of tx :: seen)) /\
    Forall (fun h => h = hash_of tx) (take (Z.to_nat stalled_blocks) (hash_of tx :: seen)) /\
    parse_transaction tx = Some u /\ tx_tip u < tip <= limit /\
    sign_transaction version
      (Unsigned (tx_call u) (tx_nonce u) tip (era_new (header_id header) mortality)) = Ok tx' /\
    transaction c' = Some (hash_of tx') /\ stalled_for c' = 0.
Proof.
  intros Hmax Hblocks Hs Hl Hparse Hrun Hit.
  apply run_watches in Hrun; [|done|apply watches_start].
  apply iteration_cases in Hit
    as (header & Hh & [(_ & _ & ?)|(pending & tx & Hp & Htx & _ & [[_ ?]|Hc])]); [done|done|].
  destruct Hc as (target & t & Hst & Hup & _ & -> & [= <-]).
  pose proof (watches_notice _ _ _ (hash_of tx) Hmax (watches_header _ _ _ header Hrun)) as [Hlim Hr Hseen].
  destruct (watch_limits _ _ _ Hrun) as (_ & Hstep & Hlimit). cbn [tip_step tip_limit context_start] in Hstep, Hlimit.
  rewrite Hstep, Hlimit in Hup.
  apply updated_tip in Hup as (u & version & tip & Hu & Htip & Hv & Hsign); [|done|done|by eauto].
  exists pending, tx, u, header, version, tip.
  destruct Hlim as (Hsl & _). cbn [stalled_for_limit context_start] in Hsl.
  unfold is_stalled in Hst. rewrite Hsl in Hst. apply Z.leb_le in Hst.
  split_and!; try done; [lia| |lia|lia].
  apply Forall_take with (n := Z.to_nat stalled_blocks) in Hseen. rewrite take_take in Hseen.
  rewrite Nat.min_l in Hseen by lia. eapply Forall_impl; [exact Hseen|]. simpl.
  unfold notice_transaction. case_decide; cbn [transaction set_best_header] in *; congruence.
Qed.
End ResubmitterFacts.

(** ** A transaction that is replaced when it is seen for the third time *)

Module StalledTransaction.
Definition Tx := UnsignedTransaction Z Z.
#[global] Instance number_header : Header Z Z :=
  {| hdr_number := fun h => h; hdr_hash := fun h => h; hdr_parent_hash := fun h => h - 1;
     hdr_state_root := fun h => h |}.
Definition sign (_ : unit) (tx : Tx) : outcome unit Tx := Ok tx.
Definition parse (tx : Tx) : option Tx := if (0 <=? tx_tip tx) && (tx_tip tx <=? 1000) then Some tx else None.

(** A call of the relayer with the tip 5, behind transactions of others with the tips 40 and 30. *)
Definition ours : Tx := Unsigned 7 1 5 Immortal.
Definition other : Tx := Unsigned 8 1 40 Immortal.
Definition third : Tx := Unsigned 9 1 30 Immortal.
Definition node (number : Z) : pool_client Tx Tx Z Z unit unit :=
  PoolClient (Ok number) (Ok [other; third; ours]) (Ok [other; third; ours]) (fun _ => Ok [other])
    (fun _ tx => Ok (tx_tip tx)) (Ok tt) (fun _ => Ok tt).

Definition iteration :=
  resubmitter_iteration (Bytes := Tx) (Hash := Z) (Hdr := Z) Some (@tx_tip Z Z)
    (fun tx => tx_call tx =? 7) (fun _ => true) parse sign tt tt u32_max u128_max None 100.
Definition start : Context Z Z := context_start 0 MakeItBetterThanQueuedTransaction 3 10 50.
Definition after (c : Context Z Z) (number : Z) : Context Z Z :=
  match iteration (node number) c with Ok (c, _) => c | _ => c end.
Definition twice : Context Z Z := after (after start 1) 2.

Lemma parsed_tips (tx u : Tx) : parse tx = Some u -> 0 <= tx_tip u /\ tx_tip u + 10 <= u128_max.
Proof.
  unfold parse. destruct (0 <=? tx_tip tx) eqn:H0; [|done].
  destruct (tx_tip tx <=? 1000) eqn:H1; [|done]. intros [= <-].
  apply Z.leb_le in H0, H1. unfold u128_max. lia.
Qed.

Lemma twice_reached :
  resubmitter_run (Bytes := Tx) (Hdr := Z) Some (@tx_tip Z Z) (fun tx => tx_call tx =? 7) (fun _ => true)
    parse sign tt tt u32_max u128_max None 100 start twice [5; 5].
Proof.
  refine (RunIteration Some (@tx_tip Z Z) (fun tx => tx_call tx =? 7) (fun _ => true) parse sign tt tt
    u32_max u128_max None 100 start
    (after start 1) [5] (node 2) twice None _ _); [|vm_compute; reflexivity].
  refine (RunIteration Some (@tx_tip Z Z) (fun tx => tx_call tx =? 7) (fun _ => true) parse sign tt tt
    u32_max u128_max None 100 start
    start [] (node 1) (after start 1) None _ _); [constructor|vm_compute; reflexivity].
Qed.
End StalledTransaction.

Lemma tip_update_correct_witness :
  let at_block := HeaderId_ 1 1 in
  update_transaction_tip StalledTransaction.parse StalledTransaction.sign tt u128_max None 100
    (StalledTransaction.node 1) at_block StalledTransaction.ours 10 50 30 =
    Ok (true, Unsigned 7 1 35 Immortal) /\
  exists u current version (k : nat),
    StalledTransaction.parse StalledTransaction.ours = Some u /\
    Ok (tx_tip StalledTransaction.ours) = Ok (E := unit) current /\
    Ok tt = Ok (E := unit) version /\
    tip_found StalledTransaction.sign (StalledTransaction.node 1) at_block version 10 50 30 current u k /\
    true = bool_decide (0 < k)%nat /\
    StalledTransaction.sign version
      (Unsigned (tx_call u) (tx_nonce u) (tx_tip u + Z.of_nat k * 10) (era_new at_block None)) =
      Ok (Unsigned 7 1 35 Immortal).
Proof.
  split; [reflexivity|].
  refine (tip_update_correct StalledTransaction.parse StalledTransaction.sign tt u128_max None 100
    (StalledTransaction.node 1) (HeaderId_ 1 1) StalledTransaction.ours 10 50 30 _ _ _ _ _ _ _ _).
  - reflexivity.
  - by (vm_compute; discriminate).
  - intros u [= <-]. split; by (vm_compute; discriminate).
  - reflexivity.
  - lia.
  - done.
  - done.
  - done.
Defined.

Lemma resubmissions_are_justified_witness :
  exists c', StalledTransaction.iteration (StalledTransaction.node 3) StalledTransaction.twice =
    Ok (c', Some (Unsigned 7 1 35 Immortal)) /\ stalled_for c' = 0.
Proof.
  eexists. split; [vm_compute; reflexivity|].
  pose proof (resubmissions_are_justified (Hdr := Z) (Bytes := StalledTransaction.Tx) Some (@tx_tip Z Z)
    (fun tx => tx_call tx =? 7) (fun _ => true) StalledTransaction.parse StalledTransaction.sign tt tt
    u32_max u128_max None 100 0 MakeItBetterThanQueuedTransaction 3 10 50 StalledTransaction.twice
    _ [5; 5] (StalledTransaction.node 3) (Unsigned 7 1 35 Immortal)
    ltac:(by vm_compute) ltac:(by vm_compute) ltac:(by vm_compute) ltac:(by vm_compute)
    (fun _ tx u _ _ => StalledTransaction.parsed_tips tx u) StalledTransaction.twice_reached eq_refl)
    as (pending & tx & u & header & version & tip & _ & _ & _ & _ & _ & _ & _ & _ & _ & _ & Hst).
  exact Hst.
Defined.
