(* ===== verification/Transactions.v ===== *)
(** * Signed transactions of the relay

    primitives/runtime/src/chain.rs (calls that may be encoded), primitives/runtime/src/extensions.rs
    and the signed extensions of primitives/polkadot-core and primitives/chain-bridge-hub-cumulus, and
    the signing schemes of the clients: relays/client-millau and relays/client-rialto, which bundle the
    runtime, relays/client-rialto-parachain and relays/client-bridge-hub-rococo, which do not.

    The codec, the eras of [sp_runtime], the key pairs, the accounts and the signatures are
    parameters. *)

From S2P Require Import Prelude RuntimePrimitives SubstrateClient Resubmitter.
From stdpp Require Import base numbers list.
Local Open Scope Z_scope.

(** ** Calls (chain.rs) *)

Inductive EncodedOrDecodedCall (Call : Type) :=
| Encoded (encoded_call : list Z)
| Decoded (decoded_call : Call).
Arguments Encoded {Call} _.
Arguments Decoded {Call} _.

Section Calls.
Context {Call E : Type} (encode_call : Call -> list Z) (decode_call : list Z -> outcome E Call).

(** [to_decoded] and [into_decoded]. *)
Definition into_decoded (c : EncodedOrDecodedCall Call) : outcome E Call :=
  match c with
  | Encoded encoded_call => decode_call encoded_call
  | Decoded decoded_call => Ok decoded_call
  end.

Definition call_encode (c : EncodedOrDecodedCall Call) : list Z :=
  match c with
  | Encoded encoded_call => encoded_call
  | Decoded decoded_call => encode_call decoded_call
  end.

(** The bytes of an input, and what it answers to [remaining_len]; [read_failed] is the error of
    [read] on an input that is too short. *)
Definition call_decode (read_failed : E) (input : list Z) (remaining_len : outcome E (option nat)) :
  outcome E (EncodedOrDecodedCall Call) :=
  let? remaining_len := remaining_len in
  match remaining_len with
  | Some remaining_len =>
      check? ensure (remaining_len <=? length input)%nat read_failed in
      Ok (Encoded (take remaining_len input))
  | None =>
      let? decoded_call := decode_call input in
      Ok (Decoded decoded_call)
  end.
End Calls.

(** ** The codec *)

Class Encode (A : Type) := encode : A -> list Z.

(** [Compact] of the codec. *)
Inductive Compact := Compact_ (n : Z).
Definition compact_value (c : Compact) : Z := let 'Compact_ n := c in n.

(** What the codec documents of tuples: the parts follow each other, and the unit takes no space. *)
Class TupleCodec := {
  encode_unit :: Encode unit;
  encode_pair {A B : Type} (EA : Encode A) (EB : Encode B) :: Encode (A * B);
}.
Class TupleCodecLaws `{TupleCodec} : Prop := {
  encode_unit_empty (u : unit) : encode u = [];
  encode_pair_app {A B : Type} (EA : Encode A) (EB : Encode B) (a : A) (b : B) :
    encode (a, b) = encode a ++ encode b;
}.

(** ** Signed extensions (extensions.rs) *)

Record GenericSignedExtension (Payload AdditionalSigned : Type) := SignedExtension_ {
  payload : Payload;
  additional_signed_data : option AdditionalSigned;
}.
Arguments SignedExtension_ {_ _} _ _.
Arguments payload {_ _} _.
Arguments additional_signed_data {_ _} _.

(** [UnknownTransaction::Custom(0xFF)] is [unknown]. *)
Definition additional_signed {P S E : Type} (unknown : E) (e : GenericSignedExtension P S) : outcome E S :=
  ok_or (additional_signed_data e) unknown.

(** The additional data is skipped by the codec. *)
Definition extension_encode {P S : Type} `{Encode P} (e : GenericSignedExtension P S) : list Z :=
  encode (payload e).

Definition extension_decode {P S E : Type} (decode_payload : list Z -> outcome E P) (l : list Z) :
  outcome E (GenericSignedExtension P S) :=
  let? p := decode_payload l in Ok (SignedExtension_ p None).

(** [sp_runtime::generic::UncheckedExtrinsic]. *)
Record UncheckedExtrinsic (Address Signature Call Extra : Type) := Extrinsic {
  signature : option (Address * Signature * Extra);
  function : Call;
}.
Arguments Extrinsic {_ _ _ _} _ _.
Arguments signature {_ _ _ _} _.
Arguments function {_ _ _ _} _.

Record SignParam (Hash KeyPair : Type) := SignParam_ {
  param_spec_version : Z;
  param_transaction_version : Z;
  param_genesis_hash : Hash;
  param_signer : KeyPair;
}.
Arguments SignParam_ {_ _} _ _ _ _.
Arguments param_spec_version {_ _} _.
Arguments param_transaction_version {_ _} _.
Arguments param_genesis_hash {_ _} _.
Arguments param_signer {_ _} _.

(** ** Accounts and signatures ([sp_core] and [sp_runtime]) *)

Class AccountKeys (KeyPair Public AccountId Signature : Type) := {
  public : KeyPair -> Public;
  as_array_ref : Public -> list Z;

  (** [AccountId::from] of an array and of a public key, and [MultiSigner::into_account]. *)
  from_array : list Z -> AccountId;
  from_public : Public -> AccountId;
  into_account : Public -> AccountId;

  (** What [SignedPayload::using_encoded] passes on of a payload: long payloads are hashed. *)
  using_encoded : list Z -> list Z;

  (** A signature as [MultiSignature], and the verification of one for an account. *)
  sign : KeyPair -> list Z -> Signature;
  verify : Signature -> list Z -> AccountId -> bool;
}.

(** The account of a key is the same in all three ways, and verifies what the key has signed. *)
Class AccountKeysLaws (KeyPair Public AccountId Signature : Type)
  `{!AccountKeys KeyPair Public AccountId Signature} : Prop := {
  from_array_account (p : Public) : from_array (as_array_ref p) = into_account p;
  from_public_account (p : Public) : from_public p = into_account p;
  verify_sign (k : KeyPair) (l : list Z) : verify (sign k l) l (into_account (public k)) = true;
}.

(** [MultiAddress<AccountId, ()>]. *)
Inductive MultiAddress (AccountId : Type) :=
| Id (id : AccountId)
| Index (index : unit)
| Raw (raw : list Z)
| Address32 (raw : list Z)
| Address20 (raw : list Z).
Arguments Id {_} _.
Arguments Index {_} _.
Arguments Raw {_} _.
Arguments Address32 {_} _.
Arguments Address20 {_} _.

#[global] Instance MultiAddress_eq_dec {AccountId : Type} `{!EqDecision AccountId} :
  EqDecision (MultiAddress AccountId).
Proof. solve_decision. Defined.

Section Signing.
Context {Call Hash KeyPair Public AccountId Signature Era E : Type}.
Context (encode_call : Call -> list Z) (decode_call : list Z -> outcome E Call).
Context `{TupleCodec} `{Encode Compact} `{Encode Era} `{Encode Hash} `{Encode Z}.
Context (era_immortal : Era) (era_mortal : Z -> Z -> Era).

Context `{!AccountKeys KeyPair Public AccountId Signature} `{!EqDecision AccountId}.
Abbreviation Unsigned := (UnsignedTransaction (EncodedOrDecodedCall Call) Hash).
Abbreviation SignParam := (SignParam Hash KeyPair).

Definition frame_era (era : TransactionEra Hash) : Era :=
  match era with
  | Immortal => era_immortal
  | Mortal id period => era_mortal period (Z.min u64_max (header_number id))
  end.

Definition is_signed {Address C X : Type} (tx : UncheckedExtrinsic Address Signature C X) : bool :=
  match signature tx with Some _ => true | None => false end.

(** An address of Millau is an account. *)
Definition millau_is_signed_by {C X : Type} (signer : KeyPair)
  (tx : UncheckedExtrinsic AccountId Signature C X) : bool :=
  match signature tx with
  | Some (address, _, _) => bool_decide (address = from_array (as_array_ref (public signer)))
  | None => false
  end.

(** The addresses of the other chains. *)
Definition is_signed_by {C X : Type} (signer : KeyPair)
  (tx : UncheckedExtrinsic (MultiAddress AccountId) Signature C X) : bool :=
  match signature tx with
  | Some (address, _, _) => bool_decide (address = Id (from_public (public signer)))
  | None => false
  end.

(** [SignedPayload]: what is signed is the call, the extension and the additional data. *)
Definition raw_payload {X S : Type} `{Encode X} `{Encode S} (call : list Z) (extra : X) (additional : S) :
  list Z := call ++ encode extra ++ encode additional.

(** *** client-millau and client-rialto *)

Abbreviation MillauExtra := (unit * unit * unit * unit * Era * Compact * unit * Compact * unit * unit)%type.

Definition millau_sign_transaction (param : SignParam) (unsigned : Unsigned) :
  outcome E (UncheckedExtrinsic AccountId Signature Call MillauExtra) :=
  let extra : MillauExtra :=
    (tt, tt, tt, tt, frame_era (tx_era unsigned), Compact_ (tx_nonce unsigned), tt,
     Compact_ (tx_tip unsigned), tt, tt) in
  let additional :=
    (tt, param_spec_version param, param_transaction_version param, param_genesis_hash param,
     era_signed_payload (tx_era unsigned) (param_genesis_hash param), tt, tt, tt, tt, tt) in
  let signature :=
    sign (param_signer param)
      (using_encoded (raw_payload (call_encode encode_call (tx_call unsigned)) extra additional)) in
  let signer := into_account (public (param_signer param)) in
  let? call := into_decoded decode_call (tx_call unsigned) in
  Ok (Extrinsic (Some (signer, signature, extra)) call).

(** [compact_decode max] decodes a [Compact] of a type with the largest value [max]; an index is a
    [u32], a balance of Millau is a [u64] and one of Rialto a [u128]. *)
Context (compact_decode : Z -> list Z -> option Z).

Definition millau_parse_transaction (tx : UncheckedExtrinsic AccountId Signature Call MillauExtra) :
  option Unsigned :=
  '(_, _, extra) ← signature tx;
  let '(_, _, _, _, _, check_nonce, _, charge_payment, _, _) := extra in
  nonce ← compact_decode u32_max (encode check_nonce);
  tip ← compact_decode u64_max (encode charge_payment);
  Some (with_tip tip (unsigned_new (Decoded (function tx)) nonce)).

Abbreviation RialtoExtra := (unit * unit * unit * unit * Era * Compact * unit * Compact)%type.

Definition rialto_sign_transaction (param : SignParam) (unsigned : Unsigned) :
  outcome E (UncheckedExtrinsic (MultiAddress AccountId) Signature Call RialtoExtra) :=
  let extra : RialtoExtra :=
    (tt, tt, tt, tt, frame_era (tx_era unsigned), Compact_ (tx_nonce unsigned), tt,
     Compact_ (tx_tip unsigned)) in
  let additional :=
    (tt, param_spec_version param, param_transaction_version param, param_genesis_hash param,
     era_signed_payload (tx_era unsigned) (param_genesis_hash param), tt, tt, tt) in
  let signature :=
    sign (param_signer param)
      (using_encoded (raw_payload (call_encode encode_call (tx_call unsigned)) extra additional)) in
  let signer := into_account (public (param_signer param)) in
  let? call := into_decoded decode_call (tx_call unsigned) in
  Ok (Extrinsic (Some (Id signer, signature, extra)) call).

Definition rialto_parse_transaction (tx : UncheckedExtrinsic (MultiAddress AccountId) Signature Call RialtoExtra) :
  option Unsigned :=
  '(_, _, extra) ← signature tx;
  let '(_, _, _, _, _, check_nonce, _, charge_payment) := extra in
  nonce ← compact_decode u32_max (encode check_nonce);
  tip ← compact_decode u128_max (encode charge_payment);
  Some (with_tip tip (unsigned_new (Decoded (function tx)) nonce)).

(** *** Extensions of chains whose runtime is not bundled *)

(** [DefaultSignedExtension::from_params] of polkadot-core. *)
Abbreviation DefaultPayload := (unit * unit * unit * unit * Era * Compact * unit * Compact)%type.
Abbreviation DefaultAdditional := (unit * Z * Z * Hash * Hash * unit * unit * unit)%type.

Definition default_from_params (spec_version transaction_version : Z) (era : TransactionEra Hash)
  (genesis_hash : Hash) (nonce tip : Z) : GenericSignedExtension DefaultPayload DefaultAdditional :=
  SignedExtension_
    (tt, tt, tt, tt, frame_era era, Compact_ nonce, tt, Compact_ tip)
    (Some (tt, spec_version, transaction_version, genesis_hash, era_signed_payload era genesis_hash,
           tt, tt, tt)).

Definition default_nonce (e : GenericSignedExtension DefaultPayload DefaultAdditional) : Z :=
  let '(_, _, _, _, _, nonce, _, _) := payload e in compact_value nonce.
Definition default_tip (e : GenericSignedExtension DefaultPayload DefaultAdditional) : Z :=
  let '(_, _, _, _, _, _, _, tip) := payload e in compact_value tip.

(** [rewarding_bridge_signed_extension::from_params] of chain-bridge-hub-cumulus. *)
Abbreviation RewardingAdditional := (unit * Z * Z * Hash * Hash * unit * unit * unit * unit * unit)%type.

Definition rewarding_from_params (spec_version transaction_version : Z) (era : TransactionEra Hash)
  (genesis_hash : Hash) (nonce tip : Z) : GenericSignedExtension MillauExtra RewardingAdditional :=
  SignedExtension_
    (tt, tt, tt, tt, frame_era era, Compact_ nonce, tt, Compact_ tip, tt, tt)
    (Some (tt, spec_version, transaction_version, genesis_hash, era_signed_payload era genesis_hash,
           tt, tt, tt, tt, tt)).

Definition rewarding_nonce (e : GenericSignedExtension MillauExtra RewardingAdditional) : Z :=
  let '(_, _, _, _, _, nonce, _, _, _, _) := payload e in compact_value nonce.
Definition rewarding_tip (e : GenericSignedExtension MillauExtra RewardingAdditional) : Z :=
  let '(_, _, _, _, _, _, _, tip, _, _) := payload e in compact_value tip.

(** *** client-rialto-parachain and client-bridge-hub-rococo *)

Abbreviation transaction P S :=
  (UncheckedExtrinsic (MultiAddress AccountId) Signature (EncodedOrDecodedCall Call) (GenericSignedExtension P S)).

Definition rialto_parachain_sign_transaction (unknown : E) (param : SignParam) (unsigned : Unsigned) :
  outcome E (transaction DefaultPayload DefaultAdditional) :=
  let extra :=
    default_from_params (param_spec_version param) (param_transaction_version param) (tx_era unsigned)
      (param_genesis_hash param) (tx_nonce unsigned) (tx_tip unsigned) in
  let? additional := additional_signed unknown extra in
  let signature :=
    sign (param_signer param)
      (using_encoded (raw_payload (call_encode encode_call (tx_call unsigned)) (payload extra) additional)) in
  let signer := into_account (public (param_signer param)) in
  Ok (Extrinsic (Some (Id signer, signature, extra)) (tx_call unsigned)).

Definition rialto_parachain_parse_transaction (tx : transaction DefaultPayload DefaultAdditional) :
  option Unsigned :=
  '(_, _, extra) ← signature tx;
  Some (with_tip (default_tip extra) (unsigned_new (function tx) (default_nonce extra))).

Definition bridge_hub_sign_transaction (unknown : E) (param : SignParam) (unsigned : Unsigned) :
  outcome E (transaction MillauExtra RewardingAdditional) :=
  let extra :=
    rewarding_from_params (param_spec_version param) (param_transaction_version param) (tx_era unsigned)
      (param_genesis_hash param) (tx_nonce unsigned) (tx_tip unsigned) in
  let? additional := additional_signed unknown extra in
  let signature :=
    sign (param_signer param)
      (using_encoded (raw_payload (call_encode encode_call (tx_call unsigned)) (payload extra) additional)) in
  let signer := into_account (public (param_signer param)) in
  Ok (Extrinsic (Some (Id signer, signature, extra)) (tx_call unsigned)).

Definition bridge_hub_parse_transaction (tx : transaction MillauExtra RewardingAdditional) :
  option Unsigned :=
  '(_, _, extra) ← signature tx;
  Some (with_tip (rewarding_tip extra) (unsigned_new (function tx) (rewarding_nonce extra))).
End Signing.

Section SigningFacts.
Context {Call Hash KeyPair Public AccountId Signature Era E : Type}.
Context (encode_call : Call -> list Z) (decode_call : list Z -> outcome E Call).
Context `{TupleCodecLaws} `{Encode Compact} `{Encode Era} `{Encode Hash} `{Encode Z}.
Context (era_immortal : Era) (era_mortal : Z -> Z -> Era).
Context `{!AccountKeys KeyPair Public AccountId Signature} `{!EqDecision AccountId}.
Context `{!AccountKeysLaws KeyPair Public AccountId Signature}.
Context (compact_decode : Z -> list Z -> option Z).
Abbreviation unsigned := (UnsignedTransaction (EncodedOrDecodedCall Call) Hash).

(** The codec of compact integers: what was encoded is decoded, and nothing out of range is. *)
Hypothesis compact_round_trip :
  forall max n, 0 <= n <= max -> compact_decode max (encode (Compact_ n)) = Some n.
Hypothesis compact_range : forall max l n, compact_decode max l = Some n -> 0 <= n <= max.

Abbreviation millau_sign := (millau_sign_transaction encode_call decode_call era_immortal era_mortal).
Abbreviation rialto_sign := (rialto_sign_transaction encode_call decode_call era_immortal era_mortal).
Abbreviation parachain_sign := (rialto_parachain_sign_transaction encode_call era_immortal era_mortal).
Abbreviation hub_sign := (bridge_hub_sign_transaction encode_call era_immortal era_mortal).

Definition account_of (k : KeyPair) : AccountId := into_account (public k).

(** Signed by a key, and by no key of another account; [by_key] is the test of the chain. *)
Definition signed_by_only {A C X : Type}
  (by_key : KeyPair -> UncheckedExtrinsic A Signature C X -> bool) (k : KeyPair)
  (tx : UncheckedExtrinsic A Signature C X) : Prop :=
  is_signed tx = true /\ forall k', by_key k' tx = true <-> account_of k' = account_of k.

Lemma millau_signed_by_signer {C X : Type} (k : KeyPair) (s : Signature) (x : X) (c : C) :
  signed_by_only millau_is_signed_by k (Extrinsic (Some (account_of k, s, x)) c).
Proof.
  split; [done|]; intros k'; unfold millau_is_signed_by, account_of; cbn [signature].
  rewrite from_array_account, bool_decide_eq_true; split; congruence.
Qed.

Lemma signed_by_signer {C X : Type} (k : KeyPair) (s : Signature) (x : X) (c : C) :
  signed_by_only is_signed_by k (Extrinsic (Some (Id (account_of k), s, x)) c).
Proof.
  split; [done|]; intros k'; unfold is_signed_by, account_of; cbn [signature].
  rewrite from_public_account, bool_decide_eq_true; split; congruence.
Qed.

(** What a runtime reads of the extensions: the era, the nonce and the tip; and what it adds of its
    own before it verifies the signature: its versions, its genesis hash and the hash of the block
    where the era begins. *)
Definition extension_bytes (u : unsigned) : list Z :=
  encode (match tx_era u with
          | Immortal => era_immortal
          | Mortal id period => era_mortal period (Z.min u64_max (header_number id))
          end)
  ++ encode (Compact_ (tx_nonce u)) ++ encode (Compact_ (tx_tip u)).

Definition implicit_bytes (param : SignParam Hash KeyPair) (u : unsigned) : list Z :=
  encode (param_spec_version param) ++ encode (param_transaction_version param)
  ++ encode (param_genesis_hash param)
  ++ encode (match tx_era u with Immortal => param_genesis_hash param | Mortal id _ => header_hash id end).

(** The transaction comes from the account of the signer, its extensions are the era, the nonce and
    the tip, and its signature is valid for them, the call and what the runtime adds. *)
Definition valid_signature {A C X : Type} (address : AccountId -> A) (encode_extra : X -> list Z)
  (param : SignParam Hash KeyPair) (u : unsigned) (tx : UncheckedExtrinsic A Signature C X) : Prop :=
  exists s extra,
    signature tx = Some (address (account_of (param_signer param)), s, extra)
    /\ encode_extra extra = extension_bytes u
    /\ verify s (using_encoded (call_encode encode_call (tx_call u) ++ extension_bytes u ++ implicit_bytes param u))
         (account_of (param_signer param)) = true.

Ltac tuples := rewrite ?encode_pair_app, ?encode_unit_empty, ?app_nil_r, ?app_nil_l, <- ?app_assoc.

(** The signature of a payload that encodes as the extensions and what the runtime adds. *)
Lemma signature_valid {A C X : Type} (address : AccountId -> A) (encode_extra : X -> list Z)
  (param : SignParam Hash KeyPair) (u : unsigned) (extra : X) (c : C) (payload : list Z) :
  encode_extra extra = extension_bytes u ->
  payload = call_encode encode_call (tx_call u) ++ extension_bytes u ++ implicit_bytes param u ->
  valid_signature address encode_extra param u
    (Extrinsic (Some (address (account_of (param_signer param)),
                      sign (param_signer param) (using_encoded payload), extra)) c).
Proof.
  intros Hx ->; eexists _, _; split; [reflexivity|]; split; [exact Hx|]; apply verify_sign.
Qed.

(** What parsing forgets: the era, and that a call was encoded. *)
Definition parsed (c : EncodedOrDecodedCall Call) (u : unsigned) : unsigned :=
  Unsigned c (tx_nonce u) (tx_tip u) Immortal.

Ltac payload_bytes :=
  unfold raw_payload, extension_encode, extension_bytes, implicit_bytes, frame_era, era_signed_payload;
  cbn [payload default_from_params rewarding_from_params]; tuples; done.

Lemma millau_round_trip (param : SignParam Hash KeyPair) (u : unsigned) :
  is_u32 (tx_nonce u) -> is_u64 (tx_tip u) ->
  match millau_sign param u with
  | Ok tx => signed_by_only millau_is_signed_by (param_signer param) tx /\
      valid_signature id encode param u tx /\
      into_decoded decode_call (tx_call u) = Ok (function tx) /\
      millau_parse_transaction compact_decode tx = Some (parsed (Decoded (function tx)) u)
  | Err e => into_decoded decode_call (tx_call u) = Err e
  | Panic => into_decoded decode_call (tx_call u) = Panic
  end.
Proof.
  intros Hn Ht. unfold millau_sign_transaction.
  destruct (into_decoded decode_call (tx_call u)) as [c|e|]; [|done..]. cbn [obind].
  split; [apply millau_signed_by_signer|]. split; [apply (signature_valid id); payload_bytes|].
  split; [done|]. unfold millau_parse_transaction. simpl. by rewrite !compact_round_trip.
Qed.

Lemma rialto_round_trip (param : SignParam Hash KeyPair) (u : unsigned) :
  is_u32 (tx_nonce u) -> 0 <= tx_tip u <= u128_max ->
  match rialto_sign param u with
  | Ok tx => signed_by_only is_signed_by (param_signer param) tx /\
      valid_signature Id encode param u tx /\
      into_decoded decode_call (tx_call u) = Ok (function tx) /\
      rialto_parse_transaction compact_decode tx = Some (parsed (Decoded (function tx)) u)
  | Err e => into_decoded decode_call (tx_call u) = Err e
  | Panic => into_decoded decode_call (tx_call u) = Panic
  end.
Proof.
  intros Hn Ht. unfold rialto_sign_transaction.
  destruct (into_decoded decode_call (tx_call u)) as [c|e|]; [|done..]. cbn [obind].
  split; [apply signed_by_signer|]. split; [apply (signature_valid Id); payload_bytes|].
  split; [done|]. unfold rialto_parse_transaction. simpl. by rewrite !compact_round_trip.
Qed.

(** C20. What the relay signs can be read back, with each of the four signing schemes: the transaction
    is signed by the given key and by no key of another account; its signature is valid, for the
    account of the key, over the call, the era, the nonce and the tip that the transaction has, and
    over the versions, the genesis hash and the block of the era that the runtime adds; and parsing
    the transaction gives the call, the nonce and the tip, while the era is forgotten.  The schemes
    that bundle the runtime fail exactly for a call that cannot be decoded, the others never fail. *)
Theorem signed_transactions_round_trip (unknown : E) (param : SignParam Hash KeyPair) (u : unsigned) :
  is_u32 (tx_nonce u) -> is_u64 (tx_tip u) ->
  match millau_sign param u with
  | Ok tx => signed_by_only millau_is_signed_by (param_signer param) tx /\
      valid_signature id encode param u tx /\
      into_decoded decode_call (tx_call u) = Ok (function tx) /\
      millau_parse_transaction compact_decode tx = Some (parsed (Decoded (function tx)) u)
  | Err e => into_decoded decode_call (tx_call u) = Err e
  | Panic => into_decoded decode_call (tx_call u) = Panic
  end /\
  match rialto_sign param u with
  | Ok tx => signed_by_only is_signed_by (param_signer param) tx /\
      valid_signature Id encode param u tx /\
      into_decoded decode_call (tx_call u) = Ok (function tx) /\
      rialto_parse_transaction compact_decode tx = Some (parsed (Decoded (function tx)) u)
  | Err e => into_decoded decode_call (tx_call u) = Err e
  | Panic => into_decoded decode_call (tx_call u) = Panic
  end /\
  (exists tx, parachain_sign unknown param u = Ok tx /\ signed_by_only is_signed_by (param_signer param) tx /\
     valid_signature Id extension_encode param u tx /\
     rialto_parachain_parse_transaction tx = Some (parsed (tx_call u) u)) /\
  (exists tx, hub_sign unknown param u = Ok tx /\ signed_by_only is_signed_by (param_signer param) tx /\
     valid_signature Id extension_encode param u tx /\
     bridge_hub_parse_transaction tx = Some (parsed (tx_call u) u)).
Proof.
  intros Hn Ht. split_and!.
  - by apply millau_round_trip.
  - apply rialto_round_trip; [done|]. unfold is_u64, u64_max in Ht. unfold u128_max. lia.
  - eexists. split; [reflexivity|]. split; [apply signed_by_signer|].
    split; [apply (signature_valid Id); payload_bytes|done].
  - eexists. split; [reflexivity|]. split; [apply signed_by_signer|].
    split; [apply (signature_valid Id); payload_bytes|done].
Qed.

(** ** The formats agree *)

(** A transaction as bytes, without its address: the signature and the encoded extension. *)
Definition wire {A C X : Type} (encode_extra : X -> list Z) (tx : UncheckedExtrinsic A Signature C X) :
  option (Signature * list Z) :=
  (fun '(_, s, extra) => (s, encode_extra extra)) <$> signature tx.

(** A chain may add extensions without data, and the clients that do not bundle its runtime still
    sign what the runtime checks: for the same call, nonce, tip, era and key, the four signing schemes
    give the same signature and the same encoded extension, although their tuples of extensions
    differ. *)
Theorem extension_formats_agree (unknown : E) (param : SignParam Hash KeyPair) (u : unsigned) tm tr tp tb :
  millau_sign param u = Ok tm -> rialto_sign param u = Ok tr ->
  parachain_sign unknown param u = Ok tp -> hub_sign unknown param u = Ok tb ->
  wire encode tm = wire encode tr /\ wire encode tr = wire extension_encode tp /\
  wire extension_encode tp = wire extension_encode tb.
Proof.
  unfold millau_sign_transaction, rialto_sign_transaction, rialto_parachain_sign_transaction,
    bridge_hub_sign_transaction.
  destruct (into_decoded decode_call (tx_call u)) as [c|e|]; [|done..].
  intros [= <-] [= <-] [= <-] [= <-]. unfold wire, extension_encode, raw_payload.
  cbn [signature fmap option_fmap option_map payload default_from_params rewarding_from_params].
  tuples. done.
Qed.

(** ** The resubmitter on Millau *)

Context {Bytes Hdr : Type} `{EqDecision Hash} `{Header Hdr Hash}.
Context (key : KeyPair) (genesis_hash : Hash).
Abbreviation tx := (UncheckedExtrinsic AccountId Signature Call
  (unit * unit * unit * unit * Era * Compact * unit * Compact * unit * unit)).
Context (decode_tx : Bytes -> option tx) (tx_hash : tx -> Hash).
Context (response_parse_failed parse_failed : E) (number_max : Z) (mortality : option Z).

(** [sign_transaction] with the parameters that the resubmitter builds. *)
Definition sign_at (v : SimpleRuntimeVersion) (u : unsigned) : outcome E tx :=
  millau_sign (SignParam_ (spec_version v) (transaction_version v) genesis_hash key) u.

Abbreviation by_key := (millau_is_signed_by key).
Abbreviation millau_iteration :=
  (resubmitter_iteration decode_tx tx_hash by_key is_signed (millau_parse_transaction compact_decode)
     sign_at response_parse_failed parse_failed number_max u64_max mortality).
Abbreviation millau_run :=
  (resubmitter_run decode_tx tx_hash by_key is_signed (millau_parse_transaction compact_decode)
     sign_at response_parse_failed parse_failed number_max u64_max mortality).

Lemma millau_parse_inv (t : tx) (u : unsigned) :
  millau_parse_transaction compact_decode t = Some u ->
  tx_call u = Decoded (function t) /\ is_u32 (tx_nonce u) /\ is_u64 (tx_tip u).
Proof.
  unfold millau_parse_transaction. destruct (signature t) as [[[a sg] extra]|]; [|done]. simpl.
  destruct extra as [[[[[[[[[? ?] ?] ?] ?] n] ?] tip] ?] ?].
  destruct (compact_decode u32_max _) as [nonce|] eqn:Hn; [|done]. simpl.
  destruct (compact_decode u64_max _) as [tip'|] eqn:Ht; [|done]. simpl. intros [= <-].
  apply compact_range in Hn, Ht. by split_and!.
Qed.

Lemma signed_at_parsed (v : SimpleRuntimeVersion) (u : unsigned) (t : tx) :
  is_u32 (tx_nonce u) -> is_u64 (tx_tip u) -> sign_at v u = Ok t ->
  signed_by_only millau_is_signed_by key t /\ into_decoded decode_call (tx_call u) = Ok (function t) /\
  millau_parse_transaction compact_decode t = Some (parsed (Decoded (function t)) u).
Proof.
  intros Hn Ht Hs. unfold sign_at in Hs.
  pose proof (millau_round_trip (SignParam_ (spec_version v) (transaction_version v) genesis_hash key)
    u Hn Ht) as Hr. rewrite Hs in Hr. by destruct Hr as (? & _ & ?).
Qed.

(** The resubmitter replaces transactions on Millau: in every run, what an iteration submits is
    signed by the relayer and has the call and the nonce of the transaction of the relayer that it has
    found in the pool, and a larger tip, within the limit; it is found again when it is the first
    one of the relayer in the pool. *)
Theorem millau_transaction_is_replaced (fuel : nat) (h : Hdr) (s : PrioritySelectionStrategy)
  (stalled_blocks step limit : Z) (c c' : Context Hash Hdr) (seen : list Hash)
  (cl : pool_client Bytes tx Hash Hdr SimpleRuntimeVersion E) (t' : tx) :
  0 <= number_max -> 0 < step -> limit + step <= u64_max ->
  (forall pending t (u : unsigned), pending_extrinsics cl = Ok pending ->
     lookup_signer_transaction decode_tx by_key response_parse_failed pending = Ok (Some t) ->
     millau_parse_transaction compact_decode t = Some u -> tx_tip u + step <= u64_max) ->
  millau_run fuel (context_start h s stalled_blocks step limit) c seen ->
  millau_iteration fuel cl c = Ok (c', Some t') ->
  exists pending t (u : unsigned) tip,
    pending_extrinsics cl = Ok pending /\
    lookup_signer_transaction decode_tx by_key response_parse_failed pending = Ok (Some t) /\
    millau_parse_transaction compact_decode t = Some u /\
    function t' = function t /\ tx_tip u < tip <= limit /\ signed_by_only millau_is_signed_by key t' /\
    millau_parse_transaction compact_decode t' =
      Some (Unsigned (tx_call u) (tx_nonce u) tip Immortal : unsigned) /\
    forall raw rest, decode_tx raw = Some t' ->
      lookup_signer_transaction decode_tx by_key response_parse_failed (raw :: rest) = Ok (Some t').
Proof.
  intros Hmax Hs Hl Hparse Hrun Hit.
  apply run_watches in Hrun; [|done|apply watches_start].
  destruct (watch_limits _ _ _ Hrun) as (_ & Hstep & Hlimit). cbn [tip_step tip_limit context_start] in *.
  apply iteration_cases in Hit
    as (header & _ & [(_ & _ & ?)|(pending & t & Hp & Ht & _ & [[_ ?]|Hc])]); [done|done|].
  destruct Hc as (target & t1 & _ & Hup & _ & _ & [= <-]). rewrite Hstep, Hlimit in Hup.
  apply updated_tip in Hup as (u & version & tip & Hu & Htip & _ & Hsign); [|done|done|].
  2: { intros u Hu. pose proof (Hparse _ _ _ Hp Ht Hu). apply millau_parse_inv in Hu as (_ & _ & Hu).
       unfold is_u64 in Hu. lia. }
  pose proof (millau_parse_inv _ _ Hu) as (Hcall & Hnonce & Htip0).
  apply signed_at_parsed in Hsign as (Hby & Hcall' & Hparsed); [|done|unfold is_u64 in *; cbn; lia].
  cbn [tx_call] in Hcall'. rewrite Hcall in Hcall'. cbn in Hcall'. injection Hcall' as Hfun.
  exists pending, t, u, tip. split_and!; try done; [lia|lia| |].
  - rewrite Hparsed. unfold parsed. cbn. by rewrite Hcall, Hfun.
  - intros raw rest Hraw. cbn [lookup_signer_transaction]. rewrite Hraw. cbn [ok_or obind].
    by rewrite (proj2 (proj2 Hby key) eq_refl).
Qed.
End SigningFacts.

(** ** Witnesses: two accounts, and a transaction that is replaced *)

Module SmallScheme.
#[global] Instance tuples : TupleCodec := {|
  encode_unit := fun _ => [];
  encode_pair A B EA EB := fun p => EA p.1 ++ EB p.2;
|}.
#[global] Instance tuples_laws : TupleCodecLaws.
Proof. by split. Qed.
#[global] Instance compact_codec : Encode Compact := fun c => [compact_value c].
#[global] Instance number_codec : Encode Z := fun n => [n].
#[global] Instance era_codec : Encode (option (Z * Z)) :=
  fun e => match e with Some (p, n) => [1; p; n] | None => [0] end.

Definition compact_decode (max : Z) (l : list Z) : option Z :=
  match l with [n] => if (0 <=? n) && (n <=? max) then Some n else None | _ => None end.

Lemma compact_round_trip max n : 0 <= n <= max -> compact_decode max (encode (Compact_ n)) = Some n.
Proof.
  intros Hn. unfold compact_decode, encode, compact_codec. cbn [compact_value].
  rewrite (proj2 (Z.leb_le 0 n)), (proj2 (Z.leb_le n max)) by lia. done.
Qed.

Lemma compact_range max l n : compact_decode max l = Some n -> 0 <= n <= max.
Proof.
  unfold compact_decode. destruct l as [|m [|? ?]]; try done.
  destruct (0 <=? m) eqn:H0, (m <=? max) eqn:H1; simpl; try done. intros [= <-].
  apply Z.leb_le in H0, H1. lia.
Qed.

Definition encode_call (c : Z) : list Z := [c].
Definition decode_call (l : list Z) : outcome unit Z := match l with [c] => Ok c | _ => Err tt end.
(** The key, the account and the public key are a number, a signature is the message with it. *)
#[global] Instance keys : AccountKeys Z Z Z (list Z) := {|
  public := id; as_array_ref p := [p]; from_array l := default 0 (head l); from_public := id;
  into_account := id; using_encoded := id; sign k l := k :: l;
  verify s l a := bool_decide (s = a :: l);
|}.
#[global] Instance keys_laws : AccountKeysLaws Z Z Z (list Z).
Proof. split; [done..|]; intros k l; by apply bool_decide_eq_true. Qed.
Definition era_mortal (period number : Z) : option (Z * Z) := Some (period, number).
Definition param : SignParam Z Z := SignParam_ 42 5 7 100.
Definition call7 : UnsignedTransaction (EncodedOrDecodedCall Z) Z :=
  Unsigned (Encoded [7]) 3 20 (Mortal (HeaderId_ 11 12) 64).

(** The transaction of the account 100, which is seen for the first time, while the last block has
    begun with one whose tip is 30. *)
#[global] Instance number_header : Header Z Z :=
  {| hdr_number := fun h => h; hdr_hash := fun h => h; hdr_parent_hash := fun h => h - 1;
     hdr_state_root := fun h => h |}.
Definition Tx := UncheckedExtrinsic Z (list Z) Z
  (unit * unit * unit * unit * option (Z * Z) * Compact * unit * Compact * unit * unit).
Definition tx_of (k call tip : Z) : Tx :=
  Extrinsic (Some (k, [], (tt, tt, tt, tt, None, Compact_ 3, tt, Compact_ tip, tt, tt))) call.
Definition priority (t : Tx) : Z :=
  match signature t with Some (_, _, (_, _, _, _, _, _, _, tip, _, _)) => compact_value tip | None => 0 end.
Definition node : pool_client Tx Tx Z Z SimpleRuntimeVersion unit :=
  PoolClient (Ok 9) (Ok [tx_of 100 7 20]) (Ok []) (fun _ => Ok [tx_of 200 8 30])
    (fun _ t => Ok (priority t)) (Ok (RuntimeVersion 42 5)) (fun _ => Ok tt).
Definition start : Context Z Z := context_start 0 MakeItBestTransaction 1 5 40.
End SmallScheme.

Lemma signed_transactions_round_trip_witness :
  exists t, millau_sign_transaction SmallScheme.encode_call SmallScheme.decode_call None
    SmallScheme.era_mortal SmallScheme.param SmallScheme.call7 = Ok t /\
  valid_signature SmallScheme.encode_call None SmallScheme.era_mortal id encode SmallScheme.param SmallScheme.call7 t /\
  millau_parse_transaction (Hash := Z) SmallScheme.compact_decode t =
    Some (Unsigned (Decoded 7) 3 20 Immortal).
Proof.
  eexists. split; [reflexivity|].
  destruct (proj1 (signed_transactions_round_trip SmallScheme.encode_call
    SmallScheme.decode_call None SmallScheme.era_mortal
    SmallScheme.compact_decode SmallScheme.compact_round_trip tt SmallScheme.param SmallScheme.call7
    ltac:(split; by vm_compute) ltac:(split; by vm_compute))) as (_ & Hvalid & _ & Hparsed).
  split; [exact Hvalid | exact Hparsed].
Defined.

Lemma extension_formats_agree_witness :
  exists tm tr, millau_sign_transaction SmallScheme.encode_call SmallScheme.decode_call None
    SmallScheme.era_mortal SmallScheme.param SmallScheme.call7 = Ok tm /\
  rialto_sign_transaction SmallScheme.encode_call SmallScheme.decode_call None
    SmallScheme.era_mortal SmallScheme.param SmallScheme.call7 = Ok tr /\
  wire encode tm = wire encode tr.
Proof.
  eexists _, _. split; [reflexivity|]. split; [reflexivity|].
  exact (proj1 (extension_formats_agree SmallScheme.encode_call SmallScheme.decode_call None
    SmallScheme.era_mortal tt SmallScheme.param
    SmallScheme.call7 _ _ _ _ eq_refl eq_refl eq_refl eq_refl)).
Defined.

Lemma millau_transaction_is_replaced_witness :
  exists c t, resubmitter_iteration Some SmallScheme.priority (millau_is_signed_by 100)
      is_signed (millau_parse_transaction (Hash := Z) SmallScheme.compact_decode)
      (sign_at SmallScheme.encode_call SmallScheme.decode_call None SmallScheme.era_mortal 100 7)
      tt tt u32_max u64_max None 10 SmallScheme.node SmallScheme.start = Ok (c, Some t) /\
    SmallScheme.priority t = 30 /\ function t = 7.
Proof.
  eexists _, _. split; [vm_compute; reflexivity|]. split; [reflexivity|].
  destruct (millau_transaction_is_replaced SmallScheme.encode_call SmallScheme.decode_call None
    SmallScheme.era_mortal SmallScheme.compact_decode
    SmallScheme.compact_round_trip SmallScheme.compact_range (Bytes := SmallScheme.Tx) (Hdr := Z)
    100 7 Some SmallScheme.priority tt tt u32_max None 10 0 MakeItBestTransaction 1 5 40
    SmallScheme.start _ [] SmallScheme.node _ ltac:(by vm_compute) ltac:(by vm_compute)
    ltac:(by vm_compute)
    ltac:(intros pending t u [= <-] [= <-] [= <-]; by vm_compute)
    (RunStart _ _ _ _ _ _ _ _ _ _ _ _ _) eq_refl)
    as (pending & t & u & tip & [= <-] & [= <-] & _ & Hfun & _).
  exact Hfun.
Defined.
