(* ===== verification/ComplexRelay.v ===== *)
(** * relays/bin-substrate/src/cli: the command line of the complex relay, and the relay itself

    chain_schema.rs (the connection, runtime version and signing options of a chain),
    relay_headers_and_messages/ (the two-way bridges between two relay chains, a relay chain and a
    parachain, and two parachains), and what they start: the guards, the on-demand relays, the
    message relays of every lane (lib-substrate-relay/src/lib.rs and messages_metrics.rs) and the
    gauges of the relayer accounts (relays/utils/src/metrics.rs, relay_loop.rs).

    A client is the chain with its connection options; its constructor tries to connect until it
    succeeds.  The process is the names in the shared
    metrics registry and the tasks that have been spawned, in order. *)

From S2P Require Import Prelude RuntimePrimitives MessagesPrimitives RelayersPallet SubstrateClient.
From Stdlib Require Import String Ascii.
From stdpp Require Import base numbers countable list sets strings pretty.
Local Open Scope Z_scope.

(** ** Chains (relays/client-*/src/lib.rs, bin-substrate/src/chains) *)

Record CliChain := Chain_ {
  ID : LaneId;
  NAME : string;
  RUNTIME_VERSION : option SimpleRuntimeVersion;
  WITH_CHAIN_RELAYERS_PALLET_NAME : option string;
}.

Definition Millau : CliChain := Chain_ (LaneId_ 0x6d 0x6c 0x61 0x75) "Millau" (Some (RuntimeVersion 1 1)) (Some "BridgeRelayers"%string).
Definition Rialto : CliChain := Chain_ (LaneId_ 0x72 0x6c 0x74 0x6f) "Rialto" (Some (RuntimeVersion 1 1)) (Some "BridgeRelayers"%string).
Definition RialtoParachain : CliChain := Chain_ (LaneId_ 0x72 0x6c 0x70 0x61) "RialtoParachain" None (Some "BridgeRelayers"%string).
Definition Rococo : CliChain := Chain_ (LaneId_ 0x72 0x6f 0x63 0x6f) "Rococo" None None.
Definition Wococo : CliChain := Chain_ (LaneId_ 0x77 0x6f 0x63 0x6f) "Wococo" None None.
Definition BridgeHubRococo : CliChain :=
  Chain_ (LaneId_ 0x62 0x68 0x72 0x6f) "BridgeHubRococo" (Some (RuntimeVersion 9372 1)) (Some "BridgeRelayers"%string).
Definition BridgeHubWococo : CliChain :=
  Chain_ (LaneId_ 0x62 0x68 0x77 0x6f) "BridgeHubWococo" (Some (RuntimeVersion 9372 1)) (Some "BridgeRelayers"%string).

(** ** Options of a chain (chain_schema.rs) *)

Inductive RuntimeVersionType := VersionAuto | VersionCustom | VersionBundle.

Record RuntimeVersionParams := VersionParams {
  version_mode : RuntimeVersionType;
  cli_spec_version : option Z;
  cli_transaction_version : option Z;
}.

Record ConnectionParams := Connection {
  host : string;
  port : Z;
  secure : bool;
  runtime_version_params : RuntimeVersionParams;
}.

Record SigningParams := Signing {
  signer : option string;
  signer_password : option string;
  signer_file : option string;
  signer_password_file : option string;
  cli_mortality : option Z;
}.

Record Client := Client_ {
  client_chain : CliChain;
  client_host : string;
  client_port : Z;
  client_secure : bool;
  chain_runtime_version : ChainRuntimeVersion;
}.

(** The messages of the errors, by what they say; [NodeError] and [PrometheusError] are errors of
    the clients and of the metrics library. *)
Inductive CliError (NodeError PrometheusError : Type) :=
| SpecVersionRequired
| TransactionVersionRequired
| BadMortality (mortality : Z)
| SuriFileUnreadable (path : string)
| SignerRequired
| PasswordFileUnreadable (path : string)
| BadSuri
| NodeFailed (e : NodeError)
| TokenDecimalsTooLarge (token_decimals : Z)
| MetricsFailed (e : PrometheusError)
| ExposingMetricsInvalidHost (host : string).
Arguments SpecVersionRequired {_ _}.
Arguments TransactionVersionRequired {_ _}.
Arguments BadMortality {_ _} _.
Arguments SuriFileUnreadable {_ _} _.
Arguments SignerRequired {_ _}.
Arguments PasswordFileUnreadable {_ _} _.
Arguments BadSuri {_ _}.
Arguments NodeFailed {_ _} _.
Arguments TokenDecimalsTooLarge {_ _} _.
Arguments MetricsFailed {_ _} _.
Arguments ExposingMetricsInvalidHost {_ _} _.

Record TransactionParams (TS : Type) := TxParams { params_signer : TS; mortality : option Z }.
Arguments TxParams {_} _ _.
Arguments params_signer {_} _.
Arguments mortality {_} _.

(** [u32::is_power_of_two]. *)
Definition is_power_of_two (n : Z) : bool := (0 <? n) && (Z.land n (n - 1) =? 0).

(** ** Accounts of the relay, and what it starts *)

Inductive TaggedAccount (AccountId : Type) :=
| Headers (id : AccountId) (bridged_chain : string)
| Parachains (id : AccountId) (bridged_chain : string)
| Messages (id : AccountId) (bridged_chain : string).
Arguments Headers {_} _ _.
Arguments Parachains {_} _ _.
Arguments Messages {_} _ _.

Definition account_id {AccountId : Type} (a : TaggedAccount AccountId) : AccountId :=
  match a with Headers id _ | Parachains id _ | Messages id _ => id end.

Definition tag {AccountId : Type} (a : TaggedAccount AccountId) : string :=
  match a with
  | Headers _ bridged_chain => bridged_chain ++ "Headers"
  | Parachains _ bridged_chain => bridged_chain ++ "Parachains"
  | Messages _ bridged_chain => bridged_chain ++ "Messages"
  end.

(** The storage value a gauge shows: the free balance of an account, or an entry of the rewards
    map of the relayers pallet. *)
Inductive StorageKey (AccountId : Type) :=
| AccountInfoKey (id : AccountId)
| RelayerRewardsKey (pallet : string) (id : AccountId) (params : RewardsAccountParams).
Arguments AccountInfoKey {_} _.
Arguments RelayerRewardsKey {_} _ _ _.

Record FloatStorageValueMetric (AccountId : Type) := Gauge_ {
  gauge_client : Client;
  storage_key : StorageKey AccountId;
  gauge_token_decimals : Z;
  gauge_name : string;
}.
Arguments Gauge_ {_} _ _ _ _.
Arguments gauge_client {_} _.
Arguments storage_key {_} _.
Arguments gauge_token_decimals {_} _.
Arguments gauge_name {_} _.

Record MetricsAddress := Address { address_host : string; address_port : Z }.

(** An on-demand relay by its endpoints: headers of a relay chain, or heads of the parachains of
    a relay chain with the headers relay they need. *)
Inductive OnDemandRelay :=
| OnDemandHeadersRelay (source target : Client)
| OnDemandParachainsRelay (source_relay target : Client) (source_relay_headers : OnDemandRelay).

Record MessagesRelayParams (TS : Type) := MessagesParams {
  source_client : Client;
  source_transaction_params : TransactionParams TS;
  target_client : Client;
  target_transaction_params : TransactionParams TS;
  source_to_target_headers_relay : option OnDemandRelay;
  target_to_source_headers_relay : option OnDemandRelay;
  lane_id : LaneId;
  metrics_address : option MetricsAddress;
}.
Arguments MessagesParams {_} _ _ _ _ _ _ _ _.
Arguments source_client {_} _.
Arguments source_transaction_params {_} _.
Arguments target_client {_} _.
Arguments target_transaction_params {_} _.
Arguments source_to_target_headers_relay {_} _.
Arguments target_to_source_headers_relay {_} _.
Arguments lane_id {_} _.
Arguments metrics_address {_} _.

Inductive task (TS AccountId : Type) :=
| AbortOnSpecVersionChange (target : Client) (expected_spec_version : Z)
| HeadersRelay (source target : Client) (params : TransactionParams TS) (only_mandatory_headers : bool)
    (metrics : option (option MetricsAddress))
| ParachainsRelay (source_relay target : Client) (params : TransactionParams TS)
    (source_relay_headers : OnDemandRelay)
| UpdateGauge (g : FloatStorageValueMetric AccountId)
| PrometheusEndpoint (address : MetricsAddress).
Arguments AbortOnSpecVersionChange {_ _} _ _.
Arguments HeadersRelay {_ _} _ _ _ _ _.
Arguments ParachainsRelay {_ _} _ _ _ _.
Arguments UpdateGauge {_ _} _.
Arguments PrometheusEndpoint {_ _} _.

Record process (TS AccountId : Type) := Process {
  registry : list string;
  spawned : list (task TS AccountId);
}.
Arguments Process {_ _} _ _.
Arguments registry {_ _} _.
Arguments spawned {_ _} _.

(** ** Options of the command (relay_headers_and_messages/mod.rs) *)

Record PrometheusParams := Prometheus { no_prometheus : bool; prometheus_host : string; prometheus_port : Z }.

Record HeadersAndMessagesSharedParams := SharedParams {
  lane : list LaneId;
  only_mandatory_headers : bool;
  prometheus_params : PrometheusParams;
}.

Record BridgeEndCommonParams (TS AccountId : Type) := BridgeEnd {
  client : Client;
  sign : TS;
  transactions_mortality : option Z;
  accounts : list (TaggedAccount AccountId);
}.
Arguments BridgeEnd {_ _} _ _ _ _.
Arguments client {_ _} _.
Arguments sign {_ _} _.
Arguments transactions_mortality {_ _} _.
Arguments accounts {_ _} _.

Record Full2WayBridgeCommonParams (TS AccountId : Type) := CommonParams {
  shared : HeadersAndMessagesSharedParams;
  left : BridgeEndCommonParams TS AccountId;
  right : BridgeEndCommonParams TS AccountId;
  common_metrics_address : option MetricsAddress;
}.
Arguments CommonParams {_ _} _ _ _ _.
Arguments shared {_ _} _.
Arguments left {_ _} _.
Arguments right {_ _} _.
Arguments common_metrics_address {_ _} _.

(** ** Balances of gauges (messages_metrics.rs) *)

(** [FixedU128::DIV]. *)
Definition FixedU128_DIV : Z := 10 ^ 18.

(** The inner value of the fixed point number; a division by zero panics. *)
Definition convert_to_token_balance (balance token_decimals : Z) : outcome Empty_set Z :=
  let divisor := (10 ^ token_decimals) mod (u128_max + 1) in
  if divisor =? 0 then Panic else Ok (saturating_mul u128_max balance (FixedU128_DIV / divisor)).

(** Up to 18 decimals the gauge shows the balance in tokens exactly, unless it is larger than a
    fixed point number can be; with more decimals it shows zero, and from 128 on it panics. *)
Lemma token_balance_shown (balance token_decimals : Z) :
  0 <= balance -> 0 <= token_decimals ->
  (token_decimals <= 18 -> balance * 10 ^ (18 - token_decimals) <= u128_max ->
   exists inner, convert_to_token_balance balance token_decimals = Ok inner
     /\ inner * 10 ^ token_decimals = balance * FixedU128_DIV)
  /\ (18 < token_decimals <= 38 -> convert_to_token_balance balance token_decimals = Ok 0)
  /\ (128 <= token_decimals -> convert_to_token_balance balance token_decimals = Panic).
Proof.
  intros Hb Hd; unfold convert_to_token_balance, FixedU128_DIV; split_and!.
  - intros H18 Hmax; rewrite Z.mod_small by (pose proof (Z.pow_le_mono_r 10 token_decimals 18); unfold u128_max; lia).
    replace (10 ^ 18) with (10 ^ (18 - token_decimals) * 10 ^ token_decimals) by (rewrite <- Z.pow_add_r by lia; f_equal; lia).
    rewrite Z.div_mul by lia; rewrite (proj2 (Z.eqb_neq _ 0)) by lia.
    eexists; split; [reflexivity|]; unfold saturating_mul; rewrite Z.min_r by done; lia.
  - intros H; pose proof (Z.pow_le_mono_r 10 token_decimals 38); pose proof (Z.pow_lt_mono_r 10 18 token_decimals).
    rewrite Z.mod_small by (unfold u128_max; lia); rewrite (proj2 (Z.eqb_neq _ 0)) by lia.
    rewrite Z.div_small by lia; unfold saturating_mul; rewrite Z.mul_0_r; done.
  - intros H; replace ((10 ^ token_decimals) mod (u128_max + 1)) with 0; [done|symmetry].
    change (u128_max + 1) with (2 ^ 128); apply Z.mod_divide; [lia|].
    exists (5 ^ token_decimals * 2 ^ (token_decimals - 128)).
    replace 10 with (5 * 2) by lia; rewrite Z.pow_mul_l, <- Z.mul_assoc, <- Z.pow_add_r by lia; do 2 f_equal; lia.
Qed.

(** ** Operations

    [from_string] derives a key pair from a secret URI and a password, [public] is its account;
    [read_to_string] reads a file.  [runtime_version] and [token_decimals] are answers of the
    nodes; [gauge_new] is the creation of a metric, by name, [parse_host] the parsing of an IP address, [hex_encode] the encoding of a
    lane. *)

Section Commands.
Context {KeyPair AccountId NodeError PrometheusError : Type}.
Variable from_string : string -> option string -> option KeyPair.
Variable public : KeyPair -> AccountId.
Variable read_to_string : string -> option string.
Variable runtime_version : Client -> outcome NodeError SimpleRuntimeVersion.
Variable token_decimals : Client -> outcome NodeError (option Z).
Variable gauge_new : string -> outcome PrometheusError unit.
Variable parse_host : string -> bool.
Variable hex_encode : LaneId -> string.

Abbreviation result A := (outcome (CliError NodeError PrometheusError) A).
Abbreviation TxParamsOf := (TransactionParams KeyPair).
Abbreviation Proc := (process KeyPair AccountId).
Abbreviation EndParams := (BridgeEndCommonParams KeyPair AccountId).
Abbreviation Common := (Full2WayBridgeCommonParams KeyPair AccountId).

Definition into_runtime_version (self : RuntimeVersionParams)
  (bundle_runtime_version : option SimpleRuntimeVersion) : result ChainRuntimeVersion :=
  match version_mode self with
  | VersionAuto => Ok Auto
  | VersionCustom =>
      let? custom_spec_version := ok_or (cli_spec_version self) SpecVersionRequired in
      let? custom_transaction_version := ok_or (cli_transaction_version self) TransactionVersionRequired in
      Ok (Custom (RuntimeVersion custom_spec_version custom_transaction_version))
  | VersionBundle =>
      match bundle_runtime_version with
      | Some runtime_version => Ok (Custom runtime_version)
      | None => Ok Auto
      end
  end.

Definition into_client (Chain : CliChain) (self : ConnectionParams) : result Client :=
  let? chain_runtime_version := into_runtime_version (runtime_version_params self) (RUNTIME_VERSION Chain) in
  Ok (Client_ Chain (host self) (port self) (secure self) chain_runtime_version).

Definition signing_mortality (self : SigningParams) : result (option Z) :=
  match cli_mortality self with
  | Some transactions_mortality =>
      if negb ((4 <=? transactions_mortality) && (transactions_mortality <=? 65536))
        || negb (is_power_of_two transactions_mortality)
      then Err (BadMortality transactions_mortality)
      else Ok (Some transactions_mortality)
  | None => Ok None
  end.

Definition to_keypair (self : SigningParams) : result KeyPair :=
  let? suri :=
    match signer self, signer_file self with
    | Some suri, _ => Ok suri
    | None, Some suri_file => ok_or (read_to_string suri_file) (SuriFileUnreadable suri_file)
    | None, None => Err SignerRequired
    end in
  let? suri_password :=
    match signer_password self, signer_password_file self with
    | Some suri_password, _ => Ok (Some suri_password)
    | None, Some suri_password_file =>
        let? p := ok_or (read_to_string suri_password_file) (PasswordFileUnreadable suri_password_file) in
        Ok (Some p)
    | None, None => Ok None
    end in
  ok_or (from_string suri suri_password) BadSuri.

Definition is_defined (self : SigningParams) : bool :=
  match signer self with Some _ => true | None => false end
  || match signer_file self with Some _ => true | None => false end.

Definition transaction_params (self : SigningParams) : result TxParamsOf :=
  let? mortality := signing_mortality self in
  let? signer := to_keypair self in
  Ok (TxParams signer mortality).

Definition transaction_params_or (self other : SigningParams) : result TxParamsOf :=
  if is_defined self then transaction_params self else transaction_params other.

(** *** Metrics *)

Definition into_metrics_address (self : PrometheusParams) : option MetricsAddress :=
  if negb (no_prometheus self) then Some (Address (prometheus_host self) (prometheus_port self)) else None.

Definition BUILD_INFO_METRIC : string := "substrate_relay_build_info".

(** [MetricsParams::new]: a new registry with the build information metric. *)
Definition metrics_params_new : result Proc :=
  let? _ := map_err MetricsFailed (gauge_new BUILD_INFO_METRIC) in
  Ok (Process [BUILD_INFO_METRIC] []).

(** [StandaloneMetric::register_and_spawn]: a metric that is already registered is neither
    registered nor spawned. *)
Definition register_and_spawn (g : FloatStorageValueMetric AccountId) (p : Proc) : Proc :=
  if bool_decide (gauge_name g ∈ registry p) then p
  else Process (registry p ++ [gauge_name g]) (spawned p ++ [UpdateGauge g]).

Definition gauge (c : Client) (k : StorageKey AccountId) (token_decimals : Z) (name : string) (p : Proc) :
  result Proc :=
  let? _ := map_err MetricsFailed (gauge_new name) in
  Ok (register_and_spawn (Gauge_ c k token_decimals name) p).

Definition balance_name (c : CliChain) (a : TaggedAccount AccountId) : string :=
  "at_" ++ NAME c ++ "_relay_" ++ tag a ++ "_balance".

Definition reward_from_name (c bridged : CliChain) (a : TaggedAccount AccountId) (lane : LaneId) : string :=
  "at_" ++ NAME c ++ "_relay_" ++ tag a ++ "_reward_for_msgs_from_" ++ NAME bridged ++ "_on_lane_" ++ hex_encode lane.

Definition reward_to_name (c bridged : CliChain) (a : TaggedAccount AccountId) (lane : LaneId) : string :=
  "at_" ++ NAME c ++ "_relay_" ++ tag a ++ "_reward_for_msgs_to_" ++ NAME bridged ++ "_on_lane_" ++ hex_encode lane.

Fixpoint reward_gauges (c : Client) (bridged : CliChain) (pallet : string) (a : TaggedAccount AccountId)
  (token_decimals : Z) (lanes : list LaneId) (p : Proc) : result Proc :=
  match lanes with
  | [] => Ok p
  | lane :: lanes =>
      let? p := gauge c (RelayerRewardsKey pallet (account_id a) (AccountParams lane (ID bridged) ThisChain))
                  token_decimals (reward_from_name (client_chain c) bridged a lane) p in
      let? p := gauge c (RelayerRewardsKey pallet (account_id a) (AccountParams lane (ID bridged) BridgedChain))
                  token_decimals (reward_to_name (client_chain c) bridged a lane) p in
      reward_gauges c bridged pallet a token_decimals lanes p
  end.

Fixpoint account_gauges (c : Client) (bridged : CliChain) (token_decimals : Z) (lanes : list LaneId)
  (relay_accounts : list (TaggedAccount AccountId)) (p : Proc) : result Proc :=
  match relay_accounts with
  | [] => Ok p
  | account :: relay_accounts =>
      let? p := gauge c (AccountInfoKey (account_id account)) token_decimals
                  (balance_name (client_chain c) account) p in
      let? p := match WITH_CHAIN_RELAYERS_PALLET_NAME bridged with
                | Some relayers_pallet_name =>
                    reward_gauges c bridged relayers_pallet_name account token_decimals lanes p
                | None => Ok p
                end in
      account_gauges c bridged token_decimals lanes relay_accounts p
  end.

Definition add_relay_balances_metrics (c : Client) (bridged : CliChain)
  (relay_accounts : list (TaggedAccount AccountId)) (lanes : list LaneId) (p : Proc) : result Proc :=
  match relay_accounts with
  | [] => Ok p
  | _ :: _ =>
      let? decimals := map_err NodeFailed (token_decimals c) in
      let token_decimals := match decimals with Some token_decimals => token_decimals | None => 0 end in
      check? (if token_decimals <=? u32_max then Ok tt else Err (TokenDecimalsTooLarge token_decimals)) in
      account_gauges c bridged token_decimals lanes relay_accounts p
  end.

(** [LoopMetrics::expose]. *)
Definition expose (address : option MetricsAddress) (p : Proc) : result Proc :=
  match address with
  | Some a =>
      if parse_host (address_host a)
      then Ok (Process (registry p) (spawned p ++ [PrometheusEndpoint a]))
      else Err (ExposingMetricsInvalidHost (address_host a))
  | None => Ok p
  end.

(** *** The two ends of a bridge *)

Definition spawn (t : task KeyPair AccountId) (p : Proc) : Proc :=
  Process (registry p) (spawned p ++ [t]).

Definition push_account (e : EndParams) (a : TaggedAccount AccountId) : EndParams :=
  BridgeEnd (client e) (sign e) (transactions_mortality e) (accounts e ++ [a]).

Definition push_left (c : Common) (a : TaggedAccount AccountId) : Common :=
  CommonParams (shared c) (push_account (left c) a) (right c) (common_metrics_address c).

Definition push_right (c : Common) (a : TaggedAccount AccountId) : Common :=
  CommonParams (shared c) (left c) (push_account (right c) a) (common_metrics_address c).

Definition bridge_end (Chain : CliChain) (connection : ConnectionParams) (signing : SigningParams) :
  result EndParams :=
  let? client := into_client Chain connection in
  let? sign := to_keypair signing in
  let? transactions_mortality := signing_mortality signing in
  Ok (BridgeEnd client sign transactions_mortality []).

Definition common_new (shared : HeadersAndMessagesSharedParams) (left right : EndParams) :
  result (Common * Proc) :=
  let? p := metrics_params_new in
  Ok (CommonParams shared left right (into_metrics_address (prometheus_params shared)), p).

(** [start_relay_guards] of a finality pipeline: the default does nothing, the pipelines of
    Rococo and Wococo start the runtime version guard at the target. *)
Definition start_relay_guards (guarded : bool) (target : Client) (enable_version_guard : bool) (p : Proc) :
  result Proc :=
  if guarded && enable_version_guard then
    let? v := map_err NodeFailed (simple_runtime_version (chain_runtime_version target) (runtime_version target)) in
    Ok (spawn (AbortOnSpecVersionChange target (spec_version v)) p)
  else Ok p.

Definition version_guard_of (c : Client) : bool := can_start_version_guard (chain_runtime_version c).

Definition OnDemandHeadersRelay_new (source target : Client) (params : TxParamsOf)
  (only_mandatory_headers : bool) (metrics : option (option MetricsAddress)) (p : Proc) :
  Proc * OnDemandRelay :=
  (spawn (HeadersRelay source target params only_mandatory_headers metrics) p,
   OnDemandHeadersRelay source target).

Definition OnDemandParachainsRelay_new (source_relay target : Client) (params : TxParamsOf)
  (headers : OnDemandRelay) (p : Proc) : Proc * OnDemandRelay :=
  (spawn (ParachainsRelay source_relay target params headers) p,
   OnDemandParachainsRelay source_relay target headers).

(** *** Running a two-way bridge (mod.rs) *)

Definition messages_relay_params (source target : EndParams)
  (source_to_target_headers_relay target_to_source_headers_relay : OnDemandRelay) (lane_id : LaneId) :
  MessagesRelayParams KeyPair :=
  MessagesParams (client source) (TxParams (sign source) (transactions_mortality source))
    (client target) (TxParams (sign target) (transactions_mortality target))
    (Some source_to_target_headers_relay) (Some target_to_source_headers_relay) lane_id None.

Class Full2WayBridgeBase (Base : Type) := {
  common : Base -> Common;
  mut_common : (Common -> Common) -> Base -> Base;
  start_on_demand_headers_relayers : Base -> Proc -> result (Proc * Base * (OnDemandRelay * OnDemandRelay));
}.

Fixpoint message_relays (left right : EndParams) (left_to_right right_to_left : OnDemandRelay)
  (lanes : list LaneId) : list (MessagesRelayParams KeyPair) :=
  match lanes with
  | [] => []
  | lane :: lanes =>
      messages_relay_params left right left_to_right right_to_left lane
      :: messages_relay_params right left right_to_left left_to_right lane
      :: message_relays left right left_to_right right_to_left lanes
  end.

(** [Full2WayBridge::run], up to the selection among the message relays, which panics when there
    is none. *)
Definition run {Base : Type} `{!Full2WayBridgeBase Base} (self : Base) (p : Proc) :
  result (Proc * list (MessagesRelayParams KeyPair)) :=
  let self := mut_common (fun common =>
    let common := push_left common
      (Messages (public (sign (left common))) (NAME (client_chain (client (right common))))) in
    push_right common
      (Messages (public (sign (right common))) (NAME (client_chain (client (left common)))))) self in
  let? (p, self, (left_to_right_on_demand_headers, right_to_left_on_demand_headers)) :=
    start_on_demand_headers_relayers self p in
  let common := common self in
  let lanes := lane (shared common) in
  let? p := add_relay_balances_metrics (client (left common)) (client_chain (client (right common)))
              (accounts (left common)) lanes p in
  let? p := add_relay_balances_metrics (client (right common)) (client_chain (client (left common)))
              (accounts (right common)) lanes p in
  let message_relays := message_relays (left common) (right common)
    left_to_right_on_demand_headers right_to_left_on_demand_headers lanes in
  let? p := expose (common_metrics_address common) p in
  match message_relays with
  | [] => Panic
  | _ :: _ => Ok (p, message_relays)
  end.

(** The finality pipelines that override [start_relay_guards]
    (chains/rococo_headers_to_bridge_hub_wococo.rs, chains/wococo_headers_to_bridge_hub_rococo.rs). *)
Definition guarded (source target : Client) : bool :=
  ((NAME (client_chain source) =? "Rococo") && (NAME (client_chain target) =? "BridgeHubWococo")
   || (NAME (client_chain source) =? "Wococo") && (NAME (client_chain target) =? "BridgeHubRococo"))%string.

(** *** Relay chain to relay chain (relay_to_relay.rs) *)

Record RelayToRelayBridge := RelayToRelay {
  r2r_common : Common;
  right_to_left_transaction_params : TxParamsOf;
  left_to_right_transaction_params : TxParamsOf;
}.

Definition relay_to_relay_start (self : RelayToRelayBridge) (p : Proc) :
  result (Proc * RelayToRelayBridge * (OnDemandRelay * OnDemandRelay)) :=
  let left_client := client (left (r2r_common self)) in
  let right_client := client (right (r2r_common self)) in
  let c := push_right (r2r_common self)
    (Headers (public (params_signer (left_to_right_transaction_params self))) (NAME (client_chain left_client))) in
  let c := push_left c
    (Headers (public (params_signer (right_to_left_transaction_params self))) (NAME (client_chain right_client))) in
  let self := RelayToRelay c (right_to_left_transaction_params self) (left_to_right_transaction_params self) in
  let? p := start_relay_guards (guarded left_client right_client) right_client (version_guard_of right_client) p in
  let? p := start_relay_guards (guarded right_client left_client) left_client (version_guard_of left_client) p in
  let (p, left_to_right) := OnDemandHeadersRelay_new left_client right_client
    (left_to_right_transaction_params self) (only_mandatory_headers (shared c)) None p in
  let (p, right_to_left) := OnDemandHeadersRelay_new right_client left_client
    (right_to_left_transaction_params self) (only_mandatory_headers (shared c)) None p in
  Ok (p, self, (left_to_right, right_to_left)).

#[local] Instance RelayToRelayBridge_base : Full2WayBridgeBase RelayToRelayBridge := {|
  common := r2r_common;
  mut_common f self := RelayToRelay (f (r2r_common self)) (right_to_left_transaction_params self)
                         (left_to_right_transaction_params self);
  start_on_demand_headers_relayers := relay_to_relay_start;
|}.

Record RelayToRelayParams := RelayToRelayOptions {
  r2r_shared : HeadersAndMessagesSharedParams;
  r2r_left : ConnectionParams;
  r2r_right_headers_to_left_sign_override : SigningParams;
  r2r_left_sign : SigningParams;
  r2r_right : ConnectionParams;
  r2r_left_headers_to_right_sign_override : SigningParams;
  r2r_right_sign : SigningParams;
}.

Definition relay_to_relay_into_bridge (Left Right : CliChain) (self : RelayToRelayParams) :
  result (RelayToRelayBridge * Proc) :=
  let? left := bridge_end Left (r2r_left self) (r2r_left_sign self) in
  let? right := bridge_end Right (r2r_right self) (r2r_right_sign self) in
  let? (common, p) := common_new (r2r_shared self) left right in
  let? right_to_left := transaction_params_or (r2r_right_headers_to_left_sign_override self) (r2r_left_sign self) in
  let? left_to_right := transaction_params_or (r2r_left_headers_to_right_sign_override self) (r2r_right_sign self) in
  Ok (RelayToRelay common right_to_left left_to_right, p).

(** *** Relay chain to parachain (relay_to_parachain.rs) *)

Record RelayToParachainBridge := RelayToParachain {
  r2p_common : Common;
  r2p_right_relay : Client;
  r2p_right_headers_to_left : TxParamsOf;
  r2p_right_parachains_to_left : TxParamsOf;
  r2p_left_headers_to_right : TxParamsOf;
}.

Definition relay_to_parachain_start (self : RelayToParachainBridge) (p : Proc) :
  result (Proc * RelayToParachainBridge * (OnDemandRelay * OnDemandRelay)) :=
  let left_client := client (left (r2p_common self)) in
  let right_client := client (right (r2p_common self)) in
  let right_relay := r2p_right_relay self in
  let c := push_left (r2p_common self)
    (Headers (public (params_signer (r2p_right_headers_to_left self))) (NAME (client_chain right_relay))) in
  let c := push_left c
    (Parachains (public (params_signer (r2p_right_parachains_to_left self))) (NAME (client_chain right_relay))) in
  let c := push_right c
    (Headers (public (params_signer (r2p_left_headers_to_right self))) (NAME (client_chain left_client))) in
  let self := RelayToParachain c right_relay (r2p_right_headers_to_left self)
    (r2p_right_parachains_to_left self) (r2p_left_headers_to_right self) in
  let? p := start_relay_guards (guarded left_client right_client) right_client (version_guard_of right_client) p in
  let? p := start_relay_guards (guarded right_relay left_client) left_client (version_guard_of left_client) p in
  let (p, left_to_right) := OnDemandHeadersRelay_new left_client right_client
    (r2p_left_headers_to_right self) (only_mandatory_headers (shared c)) None p in
  let (p, right_relay_to_left) := OnDemandHeadersRelay_new right_relay left_client
    (r2p_right_headers_to_left self) (only_mandatory_headers (shared c)) (Some (common_metrics_address c)) p in
  let (p, right_to_left) := OnDemandParachainsRelay_new right_relay left_client
    (r2p_right_parachains_to_left self) right_relay_to_left p in
  Ok (p, self, (left_to_right, right_to_left)).

#[local] Instance RelayToParachainBridge_base : Full2WayBridgeBase RelayToParachainBridge := {|
  common := r2p_common;
  mut_common f self := RelayToParachain (f (r2p_common self)) (r2p_right_relay self)
    (r2p_right_headers_to_left self) (r2p_right_parachains_to_left self) (r2p_left_headers_to_right self);
  start_on_demand_headers_relayers := relay_to_parachain_start;
|}.

Record RelayToParachainParams := RelayToParachainOptions {
  r2p_shared : HeadersAndMessagesSharedParams;
  r2p_left : ConnectionParams;
  r2p_left_sign : SigningParams;
  r2p_right : ConnectionParams;
  r2p_right_relay_params : ConnectionParams;
  r2p_right_sign : SigningParams;
  r2p_right_relay_headers_to_left_sign_override : SigningParams;
  r2p_left_headers_to_right_sign_override : SigningParams;
  r2p_right_parachains_to_left_sign_override : SigningParams;
}.

Definition relay_to_parachain_into_bridge (Left Right RightRelay : CliChain) (self : RelayToParachainParams) :
  result (RelayToParachainBridge * Proc) :=
  let? left := bridge_end Left (r2p_left self) (r2p_left_sign self) in
  let? right := bridge_end Right (r2p_right self) (r2p_right_sign self) in
  let? (common, p) := common_new (r2p_shared self) left right in
  let? right_relay := into_client RightRelay (r2p_right_relay_params self) in
  let? right_headers_to_left :=
    transaction_params_or (r2p_right_relay_headers_to_left_sign_override self) (r2p_left_sign self) in
  let? right_parachains_to_left :=
    transaction_params_or (r2p_right_parachains_to_left_sign_override self) (r2p_left_sign self) in
  let? left_headers_to_right :=
    transaction_params_or (r2p_left_headers_to_right_sign_override self) (r2p_right_sign self) in
  Ok (RelayToParachain common right_relay right_headers_to_left right_parachains_to_left left_headers_to_right, p).

(** *** Parachain to parachain (parachain_to_parachain.rs) *)

Record ParachainToParachainBridge := ParachainToParachain {
  p2p_common : Common;
  p2p_left_relay : Client;
  p2p_right_relay : Client;
  p2p_right_headers_to_left : TxParamsOf;
  p2p_left_headers_to_right : TxParamsOf;
  p2p_right_parachains_to_left : TxParamsOf;
  p2p_left_parachains_to_right : TxParamsOf;
}.

Definition parachain_to_parachain_start (self : ParachainToParachainBridge) (p : Proc) :
  result (Proc * ParachainToParachainBridge * (OnDemandRelay * OnDemandRelay)) :=
  let left_client := client (left (p2p_common self)) in
  let right_client := client (right (p2p_common self)) in
  let left_relay := p2p_left_relay self in
  let right_relay := p2p_right_relay self in
  let c := push_left (p2p_common self)
    (Headers (public (params_signer (p2p_right_headers_to_left self))) (NAME (client_chain right_relay))) in
  let c := push_left c
    (Parachains (public (params_signer (p2p_right_parachains_to_left self))) (NAME (client_chain right_relay))) in
  let c := push_right c
    (Headers (public (params_signer (p2p_left_headers_to_right self))) (NAME (client_chain left_client))) in
  let c := push_right c
    (Parachains (public (params_signer (p2p_left_parachains_to_right self))) (NAME (client_chain left_relay))) in
  let self := ParachainToParachain c left_relay right_relay (p2p_right_headers_to_left self)
    (p2p_left_headers_to_right self) (p2p_right_parachains_to_left self) (p2p_left_parachains_to_right self) in
  let? p := start_relay_guards (guarded left_relay right_client) right_client (version_guard_of right_client) p in
  let? p := start_relay_guards (guarded right_relay left_client) left_client (version_guard_of left_client) p in
  let (p, left_relay_to_right) := OnDemandHeadersRelay_new left_relay right_client
    (p2p_left_headers_to_right self) (only_mandatory_headers (shared c)) (Some (common_metrics_address c)) p in
  let (p, right_relay_to_left) := OnDemandHeadersRelay_new right_relay left_client
    (p2p_right_headers_to_left self) (only_mandatory_headers (shared c)) (Some (common_metrics_address c)) p in
  let (p, left_to_right) := OnDemandParachainsRelay_new left_relay right_client
    (p2p_left_parachains_to_right self) left_relay_to_right p in
  let (p, right_to_left) := OnDemandParachainsRelay_new right_relay left_client
    (p2p_right_parachains_to_left self) right_relay_to_left p in
  Ok (p, self, (left_to_right, right_to_left)).

#[local] Instance ParachainToParachainBridge_base : Full2WayBridgeBase ParachainToParachainBridge := {|
  common := p2p_common;
  mut_common f self := ParachainToParachain (f (p2p_common self)) (p2p_left_relay self)
    (p2p_right_relay self) (p2p_right_headers_to_left self) (p2p_left_headers_to_right self)
    (p2p_right_parachains_to_left self) (p2p_left_parachains_to_right self);
  start_on_demand_headers_relayers := parachain_to_parachain_start;
|}.

Record ParachainToParachainParams := ParachainToParachainOptions {
  p2p_shared : HeadersAndMessagesSharedParams;
  p2p_left : ConnectionParams;
  p2p_left_relay_params : ConnectionParams;
  p2p_left_sign : SigningParams;
  p2p_right : ConnectionParams;
  p2p_right_relay_params : ConnectionParams;
  p2p_right_sign : SigningParams;
  p2p_right_relay_headers_to_left_sign_override : SigningParams;
  p2p_left_relay_headers_to_right_sign_override : SigningParams;
  p2p_right_parachains_to_left_sign_override : SigningParams;
  p2p_left_parachains_to_right_sign_override : SigningParams;
}.

Definition parachain_to_parachain_into_bridge (Left LeftRelay Right RightRelay : CliChain)
  (self : ParachainToParachainParams) : result (ParachainToParachainBridge * Proc) :=
  let? left := bridge_end Left (p2p_left self) (p2p_left_sign self) in
  let? right := bridge_end Right (p2p_right self) (p2p_right_sign self) in
  let? (common, p) := common_new (p2p_shared self) left right in
  let? left_relay := into_client LeftRelay (p2p_left_relay_params self) in
  let? right_relay := into_client RightRelay (p2p_right_relay_params self) in
  let? right_headers_to_left :=
    transaction_params_or (p2p_right_relay_headers_to_left_sign_override self) (p2p_left_sign self) in
  let? left_headers_to_right :=
    transaction_params_or (p2p_left_relay_headers_to_right_sign_override self) (p2p_right_sign self) in
  let? right_parachains_to_left :=
    transaction_params_or (p2p_right_parachains_to_left_sign_override self) (p2p_left_sign self) in
  let? left_parachains_to_right :=
    transaction_params_or (p2p_left_parachains_to_right_sign_override self) (p2p_right_sign self) in
  Ok (ParachainToParachain common left_relay right_relay right_headers_to_left left_headers_to_right
        right_parachains_to_left left_parachains_to_right, p).

(** *** The command *)

Inductive RelayHeadersAndMessages :=
| MillauRialto (params : RelayToRelayParams)
| MillauRialtoParachain (params : RelayToParachainParams)
| BridgeHubRococoBridgeHubWococo (params : ParachainToParachainParams).

Definition RelayHeadersAndMessages_run (self : RelayHeadersAndMessages) :
  result (Proc * list (MessagesRelayParams KeyPair)) :=
  match self with
  | MillauRialto params =>
      let? (bridge, p) := relay_to_relay_into_bridge Millau Rialto params in run bridge p
  | MillauRialtoParachain params =>
      let? (bridge, p) := relay_to_parachain_into_bridge Millau RialtoParachain Rialto params in run bridge p
  | BridgeHubRococoBridgeHubWococo params =>
      let? (bridge, p) :=
        parachain_to_parachain_into_bridge BridgeHubRococo Rococo BridgeHubWococo Wococo params in
      run bridge p
  end.

(** ** What a running relay must cover *)

Definition submits (t : task KeyPair AccountId) : option (Client * TxParamsOf) :=
  match t with
  | HeadersRelay _ target params _ _ => Some (target, params)
  | ParachainsRelay _ target params _ => Some (target, params)
  | AbortOnSpecVersionChange _ _ | UpdateGauge _ | PrometheusEndpoint _ => None
  end.

(** The transactions of a running relay: where they are submitted, who signs them and their
    mortality. *)
Inductive signs (p : Proc) (relays : list (MessagesRelayParams KeyPair)) : Client -> TxParamsOf -> Prop :=
| signs_task t c params : t ∈ spawned p -> submits t = Some (c, params) -> signs p relays c params
| signs_source r : r ∈ relays -> signs p relays (source_client r) (source_transaction_params r)
| signs_target r : r ∈ relays -> signs p relays (target_client r) (target_transaction_params r).

Definition shown (p : Proc) (c : Client) (k : StorageKey AccountId) : Prop :=
  exists g, UpdateGauge g ∈ spawned p /\ gauge_client g = c /\ storage_key g = k.

(** The background tasks of an on-demand relay of the headers of [source] towards [target] run:
    a headers relay when [source] is the relay chain itself; a parachains relay, over a headers
    relay of the relay chain, when [source] is a parachain of the chain [relay]. *)
Fixpoint on_demand_runs (ts : list (task KeyPair AccountId)) (o : OnDemandRelay) (source relay : CliChain)
  (target : Client) : Prop :=
  match o with
  | OnDemandHeadersRelay s t =>
      source = relay /\ client_chain s = relay /\ t = target
      /\ exists params only metrics, HeadersRelay s t params only metrics ∈ ts
  | OnDemandParachainsRelay s t headers =>
      source <> relay /\ client_chain s = relay /\ t = target
      /\ (exists params, ParachainsRelay s t params headers ∈ ts)
      /\ on_demand_runs ts headers relay relay target
  end.

(** The account is monitored at the client: its balance, and its rewards on every lane. *)
Definition monitored (p : Proc) (c : Client) (bridged : CliChain) (lanes : list LaneId) (a : AccountId) : Prop :=
  shown p c (AccountInfoKey a)
  /\ forall pallet lane owner, WITH_CHAIN_RELAYERS_PALLET_NAME bridged = Some pallet -> lane ∈ lanes ->
       shown p c (RelayerRewardsKey pallet a (AccountParams lane (ID bridged) owner)).

(** ** Names of gauges *)

Definition no_underscore (s : string) : bool :=
  forallb (fun c => negb (Ascii.eqb c "_")) (list_ascii_of_string s).

Lemma split_underscore (s1 s2 r1 r2 : string) :
  no_underscore s1 = true -> no_underscore s2 = true ->
  String.append s1 (String "_" r1) = String.append s2 (String "_" r2) -> s1 = s2 /\ r1 = r2.
Proof.
  revert s2; induction s1 as [|c1 s1 IH]; intros [|c2 s2] H1 H2 E; cbn in *; simplify_eq; auto.
  all: apply andb_prop in H1 as [??] || idtac; apply andb_prop in H2 as [??] || idtac; try done.
  destruct (IH s2) as [-> ->]; auto.
Qed.

Lemma list_ascii_app (s t : string) :
  list_ascii_of_string (String.append s t) = (list_ascii_of_string s ++ list_ascii_of_string t)%list.
Proof.
  induction s as [|c s IH]; [done|].
  change (String.append (String c s) t) with (String c (String.append s t)); cbn; by rewrite IH.
Qed.

Lemma no_underscore_app (s t : string) :
  no_underscore s = true -> no_underscore t = true -> no_underscore (String.append s t) = true.
Proof. unfold no_underscore; rewrite list_ascii_app, forallb_app; intros -> ->; done. Qed.

Definition kind (a : TaggedAccount AccountId) : nat :=
  match a with Headers _ _ => 0%nat | Parachains _ _ => 1%nat | Messages _ _ => 2%nat end.

Lemma tag_kind (a b : TaggedAccount AccountId) : tag a = tag b -> kind a = kind b.
Proof.
  intros E; apply (f_equal (fun s => rev (list_ascii_of_string s))) in E.
  destruct a, b; cbn [tag] in E; rewrite !list_ascii_app, !rev_app_distr in E; cbn in E; done || discriminate E.
Qed.

(** What a gauge shows of an account. *)
Inductive shown_value := Balance | RewardFrom (lane : LaneId) | RewardTo (lane : LaneId).

Definition gauge_name_of (c bridged : CliChain) (a : TaggedAccount AccountId) (v : shown_value) : string :=
  match v with
  | Balance => balance_name c a
  | RewardFrom lane => reward_from_name c bridged a lane
  | RewardTo lane => reward_to_name c bridged a lane
  end.

Lemma gauge_name_inj (Hhex : Inj (=) (=) hex_encode) (c1 c2 b1 b2 : CliChain) (a1 a2 : TaggedAccount AccountId)
  (v1 v2 : shown_value) :
  no_underscore (NAME c1) = true -> no_underscore (NAME c2) = true ->
  no_underscore (NAME b1) = true -> no_underscore (NAME b2) = true ->
  no_underscore (tag a1) = true -> no_underscore (tag a2) = true ->
  gauge_name_of c1 b1 a1 v1 = gauge_name_of c2 b2 a2 v2 ->
  NAME c1 = NAME c2 /\ tag a1 = tag a2 /\ v1 = v2.
Proof.
  intros Hc1 Hc2 Hb1 Hb2 Ha1 Ha2 E.
  assert (exists w1 w2, gauge_name_of c1 b1 a1 v1 = ("at_" ++ NAME c1 ++ "_relay_" ++ tag a1 ++ "_" ++ w1)%string
    /\ gauge_name_of c2 b2 a2 v2 = ("at_" ++ NAME c2 ++ "_relay_" ++ tag a2 ++ "_" ++ w2)%string
    /\ (w1 = w2 -> v1 = v2)) as (w1 & w2 & E1 & E2 & Hv).
  { destruct v1, v2; eexists _, _; (split; [reflexivity | split; [reflexivity|]]); cbn; intros [=]; try done.
    all: edestruct (split_underscore (NAME b1) (NAME b2)) as [_ ?]; eauto; simplify_eq; f_equal; by apply Hhex. }
  rewrite E1, E2 in E; cbn in E; injection E as E.
  apply split_underscore in E as [-> E]; [|done..]; injection E as E.
  apply split_underscore in E as [-> E]; [|done..]; auto.
Qed.

(** ** Registering gauges *)

Definition register_all (gs : list (FloatStorageValueMetric AccountId)) (p : Proc) : Proc :=
  fold_left (fun p g => register_and_spawn g p) gs p.

(** The gauge for a value of an account at the client of a chain. *)
Definition gauge_of (c : Client) (bridged : CliChain) (d : Z) (a : TaggedAccount AccountId) (v : shown_value) :
  FloatStorageValueMetric AccountId :=
  let rewards lane owner :=
    RelayerRewardsKey (default EmptyString (WITH_CHAIN_RELAYERS_PALLET_NAME bridged)) (account_id a)
      (AccountParams lane (ID bridged) owner) in
  Gauge_ c
    match v with
    | Balance => AccountInfoKey (account_id a)
    | RewardFrom lane => rewards lane ThisChain
    | RewardTo lane => rewards lane BridgedChain
    end d (gauge_name_of (client_chain c) bridged a v).

(** The values shown of every account. *)
Definition shown_values (bridged : CliChain) (lanes : list LaneId) : list shown_value :=
  Balance :: match WITH_CHAIN_RELAYERS_PALLET_NAME bridged with
             | Some _ => flat_map (fun lane => [RewardFrom lane; RewardTo lane]) lanes
             | None => []
             end.

Definition gauges_of (c : Client) (bridged : CliChain) (d : Z) (lanes : list LaneId)
  (a : TaggedAccount AccountId) : list (FloatStorageValueMetric AccountId) :=
  map (gauge_of c bridged d a) (shown_values bridged lanes).

Lemma register_all_app (gs gs' : list (FloatStorageValueMetric AccountId)) (p : Proc) :
  register_all (gs ++ gs')%list p = register_all gs' (register_all gs p).
Proof. apply fold_left_app. Qed.

Lemma register_keeps (gs : list (FloatStorageValueMetric AccountId)) (p : Proc) :
  exists ts, spawned (register_all gs p) = (spawned p ++ ts)%list /\ forall t, t ∈ ts -> submits t = None.
Proof.
  revert p; induction gs as [|g gs IH]; intros p; [exists []; rewrite app_nil_r; set_solver|].
  cbn; destruct (IH (register_and_spawn g p)) as (ts & E & Hts).
  unfold register_all in *; rewrite E; unfold register_and_spawn; case_bool_decide; cbn.
  - eauto.
  - eexists; rewrite <- app_assoc; split; [reflexivity|].
    intros t [->%list_elem_of_singleton|?]%elem_of_app; auto.
Qed.

(** When a name stands for one gauge, every gauge is spawned, whatever else was registered. *)
Lemma register_all_spawns (gs : list (FloatStorageValueMetric AccountId)) (p : Proc) :
  (forall g g', g ∈ gs -> g' ∈ gs -> gauge_name g = gauge_name g' -> g = g') ->
  (forall g, g ∈ gs -> gauge_name g ∈ registry p -> UpdateGauge g ∈ spawned p) ->
  forall g, g ∈ gs -> UpdateGauge g ∈ spawned (register_all gs p).
Proof.
  revert p; induction gs as [|g0 gs IH]; intros p Hinj Hreg g Hg; [set_solver|]; cbn.
  assert (forall g', g' ∈ g0 :: gs -> gauge_name g' ∈ registry (register_and_spawn g0 p) ->
    UpdateGauge g' ∈ spawned (register_and_spawn g0 p)) as Hnext.
  { intros g' Hg'; unfold register_and_spawn; case_bool_decide as Hd; cbn; [auto|].
    intros [?|E%list_elem_of_singleton]%elem_of_app; apply elem_of_app; [left; auto|right].
    rewrite (Hinj g' g0); [set_solver..|done]. }
  apply elem_of_cons in Hg as [->|Hg].
  - destruct (register_keeps gs (register_and_spawn g0 p)) as (ts & E & _).
    unfold register_all in E; rewrite E; apply elem_of_app; left; apply Hnext; [set_solver|].
    unfold register_and_spawn; case_bool_decide; cbn; set_solver.
  - apply IH; [set_solver..|done].
Qed.

Section Accepted.
Hypothesis gauge_new_ok : forall name, gauge_new name = Ok tt.

Lemma reward_gauges_run (c : Client) (bridged : CliChain) (pallet : string) (a : TaggedAccount AccountId)
  (d : Z) (lanes : list LaneId) (p : Proc) :
  WITH_CHAIN_RELAYERS_PALLET_NAME bridged = Some pallet ->
  reward_gauges c bridged pallet a d lanes p
  = Ok (register_all (map (gauge_of c bridged d a) (flat_map (fun lane => [RewardFrom lane; RewardTo lane]) lanes)) p).
Proof.
  intros E; revert p; induction lanes as [|lane lanes IH]; intros p; [done|].
  cbn; unfold gauge; rewrite !gauge_new_ok; cbn; rewrite IH; unfold gauge_of; by rewrite E.
Qed.

Lemma account_gauges_run (c : Client) (bridged : CliChain) (d : Z) (lanes : list LaneId)
  (accts : list (TaggedAccount AccountId)) (p : Proc) :
  account_gauges c bridged d lanes accts p = Ok (register_all (flat_map (gauges_of c bridged d lanes) accts) p).
Proof.
  revert p; induction accts as [|a accts IH]; intros p; [done|].
  cbn; rewrite register_all_app; unfold gauge; rewrite gauge_new_ok; cbn.
  destruct (WITH_CHAIN_RELAYERS_PALLET_NAME bridged) as [pallet|] eqn:E; cbn;
    [rewrite reward_gauges_run by done; cbn|]; rewrite IH; do 2 f_equal;
    unfold gauges_of, shown_values; by rewrite E.
Qed.

End Accepted.

Lemma elem_gauges (c : Client) (bridged : CliChain) (d : Z) (lanes : list LaneId)
  (accts : list (TaggedAccount AccountId)) (g : FloatStorageValueMetric AccountId) :
  g ∈ flat_map (gauges_of c bridged d lanes) accts <->
  exists a v, a ∈ accts /\ v ∈ shown_values bridged lanes /\ g = gauge_of c bridged d a v.
Proof.
  rewrite list_elem_of_In, in_flat_map; unfold gauges_of; setoid_rewrite in_map_iff.
  setoid_rewrite <- list_elem_of_In; naive_solver.
Qed.

Lemma kind_inj (accts : list (TaggedAccount AccountId)) (a b : TaggedAccount AccountId) :
  NoDup (map kind accts) -> a ∈ accts -> b ∈ accts -> kind a = kind b -> a = b.
Proof.
  induction accts as [|x accts IH]; intros Hnd Ha Hb E; [set_solver|].
  cbn in Hnd; apply NoDup_cons in Hnd as [Hx Hnd].
  apply elem_of_cons in Ha as [->|Ha]; apply elem_of_cons in Hb as [->|Hb]; auto; exfalso; apply Hx.
  - rewrite E; apply list_elem_of_In, in_map, list_elem_of_In, Hb.
  - rewrite <- E; apply list_elem_of_In, in_map, list_elem_of_In, Ha.
Qed.

(** Accounts whose gauges have names of their own. *)
Definition distinct_accounts (accts : list (TaggedAccount AccountId)) : Prop :=
  NoDup (map kind accts) /\ Forall (fun a => no_underscore (tag a) = true) accts.

Definition well_named (c : CliChain) : Prop := no_underscore (NAME c) = true.

Section TwoEnds.
Context (Hhex : Inj (=) (=) hex_encode).
Context (cl cr : Client) (Hl : well_named (client_chain cl)) (Hr : well_named (client_chain cr)).
Context (Hlr : NAME (client_chain cl) <> NAME (client_chain cr)).
Context (la ra : list (TaggedAccount AccountId)) (Hla : distinct_accounts la) (Hra : distinct_accounts ra).
Context (lanes : list LaneId) (dl dr : Z).

Definition both_gauges : list (FloatStorageValueMetric AccountId) :=
  (flat_map (gauges_of cl (client_chain cr) dl lanes) la ++ flat_map (gauges_of cr (client_chain cl) dr lanes) ra)%list.

Lemma same_end (c : Client) (b : CliChain) (d : Z) (accts : list (TaggedAccount AccountId))
  (a a' : TaggedAccount AccountId) (v v' : shown_value) :
  well_named (client_chain c) -> well_named b -> distinct_accounts accts -> a ∈ accts -> a' ∈ accts ->
  gauge_name (gauge_of c b d a v) = gauge_name (gauge_of c b d a' v') ->
  gauge_of c b d a v = gauge_of c b d a' v'.
Proof.
  intros Hc Hb [Hnd Htags] Ha Ha' E; rewrite Forall_forall in Htags.
  apply gauge_name_inj in E as (_ & Ht & ->); auto.
  by rewrite (kind_inj accts a a') by auto using tag_kind.
Qed.

Lemma both_gauges_named (g g' : FloatStorageValueMetric AccountId) :
  g ∈ both_gauges -> g' ∈ both_gauges -> gauge_name g = gauge_name g' -> g = g'.
Proof.
  unfold both_gauges; rewrite !elem_of_app, !elem_gauges.
  intros [(a & v & Ha & _ & ->)|(a & v & Ha & _ & ->)] [(a' & v' & Ha' & _ & ->)|(a' & v' & Ha' & _ & ->)] E;
    try (by apply (same_end _ _ _ la)); try (by apply (same_end _ _ _ ra)); exfalso; destruct Hla as [_ Tl], Hra as [_ Tr];
    rewrite Forall_forall in Tl, Tr; apply gauge_name_inj in E as (E & _); auto; congruence.
Qed.

Lemma both_gauges_spawned (p : Proc) (g : FloatStorageValueMetric AccountId) :
  registry p = [BUILD_INFO_METRIC] -> g ∈ both_gauges -> UpdateGauge g ∈ spawned (register_all both_gauges p).
Proof.
  intros E Hg; apply register_all_spawns; auto using both_gauges_named.
  rewrite E; intros g' Hg' Hn%list_elem_of_singleton; exfalso.
  unfold both_gauges in Hg'; rewrite elem_of_app, !elem_gauges in Hg'.
  destruct Hg' as [(a & v & _ & _ & ->)|(a & v & _ & _ & ->)]; destruct v; discriminate Hn.
Qed.

Lemma shown_at (p : Proc) (c : Client) (b : CliChain) (d : Z) (a : TaggedAccount AccountId) (v : shown_value) :
  UpdateGauge (gauge_of c b d a v) ∈ spawned p -> shown p c (storage_key (gauge_of c b d a v)).
Proof. intros H; eexists; split; [exact H|done]. Qed.

Lemma end_monitored (p : Proc) (c : Client) (b : CliChain) (d : Z) (accts : list (TaggedAccount AccountId))
  (a : TaggedAccount AccountId) :
  (forall g, g ∈ flat_map (gauges_of c b d lanes) accts -> UpdateGauge g ∈ spawned p) ->
  a ∈ accts -> monitored p c b lanes (account_id a).
Proof.
  intros Hg Ha.
  assert (forall v, v ∈ shown_values b lanes -> shown p c (storage_key (gauge_of c b d a v))) as Hv.
  { intros v Hv; eapply shown_at, Hg, elem_gauges; eauto. }
  split; [apply (Hv Balance); constructor|].
  intros pallet lane owner E Hlane; set (v := match owner with ThisChain => RewardFrom lane | BridgedChain => RewardTo lane end).
  assert (v ∈ shown_values b lanes) as Hin%Hv.
  { unfold shown_values; rewrite E; right; apply list_elem_of_In, in_flat_map; exists lane.
    split; [by apply list_elem_of_In|]; destruct owner; cbn; auto. }
  unfold v, gauge_of in Hin; rewrite E in Hin; destruct owner; exact Hin.
Qed.

End TwoEnds.

(** ** What a base bridge promises to the relay that runs it *)

Definition valid_mortality (m : option Z) : Prop :=
  match m with Some n => exists k, 2 <= k <= 16 /\ n = 2 ^ k | None => True end.

Definition valid_end (e : EndParams) : Prop :=
  well_named (client_chain (client e)) /\ valid_mortality (transactions_mortality e).

Definition valid_common (c : Common) : Prop :=
  valid_end (left c) /\ valid_end (right c)
  /\ NAME (client_chain (client (left c))) <> NAME (client_chain (client (right c))).

(** Accounts of relays other than message relays. *)
Definition header_accounts (accts : list (TaggedAccount AccountId)) : Prop :=
  NoDup (map kind accts) /\ Forall (fun a => kind a <> 2%nat /\ no_underscore (tag a) = true) accts.

Definition push_accounts (c : Common) (la ra : list (TaggedAccount AccountId)) : Common :=
  fold_left push_right ra (fold_left push_left la c).

Record started (c : Common) (LeftRelay RightRelay : CliChain) (ts : list (task KeyPair AccountId))
  (la ra : list (TaggedAccount AccountId)) (left_to_right right_to_left : OnDemandRelay) : Prop := {
  started_left_to_right :
    on_demand_runs ts left_to_right (client_chain (client (left c))) LeftRelay (client (right c));
  started_right_to_left :
    on_demand_runs ts right_to_left (client_chain (client (right c))) RightRelay (client (left c));
  started_signers : forall t cl params, t ∈ ts -> submits t = Some (cl, params) ->
    valid_mortality (mortality params)
    /\ (cl = client (left c) /\ public (params_signer params) ∈ map account_id la
        \/ cl = client (right c) /\ public (params_signer params) ∈ map account_id ra);
  started_left_accounts : header_accounts la;
  started_right_accounts : header_accounts ra;
}.

Class BridgeBaseLaws (Base : Type) `{!Full2WayBridgeBase Base} := {
  valid_base : Base -> CliChain -> CliChain -> Prop;
  common_mut_common : forall f b, common (mut_common f b) = f (common b);
  valid_base_common : forall b LeftRelay RightRelay, valid_base b LeftRelay RightRelay -> valid_common (common b);
  valid_base_push : forall b f l r LeftRelay RightRelay, valid_base b LeftRelay RightRelay ->
    f (common b) = push_accounts (common b) l r -> valid_base (mut_common f b) LeftRelay RightRelay;
  start_spec : forall b p LeftRelay RightRelay,
    (forall c, exists v, runtime_version c = Ok v) -> valid_base b LeftRelay RightRelay ->
    exists ts la ra left_to_right right_to_left b',
      start_on_demand_headers_relayers b p
      = Ok (Process (registry p) (spawned p ++ ts)%list, b', (left_to_right, right_to_left))
      /\ common b' = push_accounts (common b) la ra
      /\ started (common b) LeftRelay RightRelay ts la ra left_to_right right_to_left;
}.

Lemma push_lefts (c : Common) (la : list (TaggedAccount AccountId)) :
  fold_left push_left la c
  = CommonParams (shared c)
      (BridgeEnd (client (left c)) (sign (left c)) (transactions_mortality (left c)) (accounts (left c) ++ la)%list)
      (right c) (common_metrics_address c).
Proof.
  revert c; induction la as [|a la IH]; intros c; cbn.
  - rewrite app_nil_r; by destruct c as [? [] [] ?].
  - rewrite IH; cbn; by rewrite <- app_assoc.
Qed.

Lemma push_rights (c : Common) (ra : list (TaggedAccount AccountId)) :
  fold_left push_right ra c
  = CommonParams (shared c) (left c)
      (BridgeEnd (client (right c)) (sign (right c)) (transactions_mortality (right c)) (accounts (right c) ++ ra)%list)
      (common_metrics_address c).
Proof.
  revert c; induction ra as [|a ra IH]; intros c; cbn.
  - rewrite app_nil_r; by destruct c as [? [] [] ?].
  - rewrite IH; cbn; by rewrite <- app_assoc.
Qed.

Lemma push_accounts_eq (c : Common) (la ra : list (TaggedAccount AccountId)) :
  push_accounts c la ra
  = CommonParams (shared c)
      (BridgeEnd (client (left c)) (sign (left c)) (transactions_mortality (left c)) (accounts (left c) ++ la)%list)
      (BridgeEnd (client (right c)) (sign (right c)) (transactions_mortality (right c)) (accounts (right c) ++ ra)%list)
      (common_metrics_address c).
Proof. unfold push_accounts; by rewrite push_rights, push_lefts. Qed.

Lemma start_relay_guards_spec (g : bool) (target : Client) (enable : bool) (p : Proc) :
  (forall c, exists v, runtime_version c = Ok v) ->
  exists ts, start_relay_guards g target enable p = Ok (Process (registry p) (spawned p ++ ts)%list)
    /\ forall t, t ∈ ts -> submits t = None.
Proof.
  intros Hv; unfold start_relay_guards; destruct (g && enable).
  - destruct (Hv target) as [v E]; unfold simple_runtime_version.
    destruct (chain_runtime_version target); [rewrite E|]; cbn; (eexists; split; [reflexivity | set_solver]).
  - exists []; rewrite app_nil_r; destruct p; split; [done | set_solver].
Qed.

Lemma one_header_account (i : AccountId) (c : CliChain) : well_named c -> header_accounts [Headers i (NAME c)].
Proof.
  intros Hc; split; [apply NoDup_singleton|].
  apply Forall_singleton; split; [done | by apply no_underscore_app].
Qed.

Lemma two_header_accounts (i j : AccountId) (c d : CliChain) :
  well_named c -> well_named d -> header_accounts [Headers i (NAME c); Parachains j (NAME d)].
Proof.
  intros Hc Hd; split; [by repeat constructor; set_solver|].
  repeat constructor; try done; by apply no_underscore_app.
Qed.

Definition valid_params (params : TxParamsOf) : Prop := valid_mortality (mortality params).

(** The tasks a base bridge spawns are the guards, which submit nothing, then the relays. *)
Lemma elem_spawned_relay (ts ts' relays : list (task KeyPair AccountId)) (t : task KeyPair AccountId)
  (x : Client * TxParamsOf) :
  (forall t, t ∈ ts -> submits t = None) -> (forall t, t ∈ ts' -> submits t = None) ->
  t ∈ (ts ++ ts' ++ relays)%list -> submits t = Some x -> t ∈ relays.
Proof.
  intros H H' Ht E; rewrite !elem_of_app in Ht; destruct Ht as [Ht|[Ht|Ht]]; [| |done].
  - by rewrite (H t Ht) in E.
  - by rewrite (H' t Ht) in E.
Qed.

(** The guards of a base bridge start; the list of tasks is in normal form. *)
Ltac start_base Hv Hts Hts' :=
  cbn; edestruct start_relay_guards_spec as (? & -> & Hts); [exact Hv|]; cbn;
  edestruct start_relay_guards_spec as (? & -> & Hts'); [exact Hv|]; cbn;
  unfold spawn; cbn; rewrite <- ?app_assoc; cbn.

(** A task of the list runs the relay, and every relay of the list has valid parameters and an
    account of its own. *)
Ltac on_demand_task :=
  cbn; split_and!; try done; repeat eexists; apply elem_of_app; right; apply elem_of_app; right; repeat econstructor.
Ltac relay_signers Hts Hts' :=
  let t := fresh "t" in let Ht := fresh "Ht" in let E := fresh "E" in let Hin := fresh "Hin" in
  intros t ? ? Ht E; apply (elem_spawned_relay _ _ _ _ _ Hts Hts' Ht) in E as Hin;
  rewrite !elem_of_cons, elem_of_nil in Hin; cbn;
  repeat destruct Hin as [->|Hin]; try destruct Hin; cbn in E; simplify_eq; (split; [assumption|set_solver]).

#[local] Instance RelayToRelayBridge_laws : BridgeBaseLaws RelayToRelayBridge.
Proof.
  refine {|
    valid_base b LeftRelay RightRelay :=
      valid_common (r2r_common b)
      /\ client_chain (client (left (r2r_common b))) = LeftRelay
      /\ client_chain (client (right (r2r_common b))) = RightRelay
      /\ valid_params (right_to_left_transaction_params b) /\ valid_params (left_to_right_transaction_params b) |}.
  - done.
  - by intros b L R [? _].
  - intros b f l r L R H E; cbn in *; rewrite E, push_accounts_eq; exact H.
  - intros b p L R Hv (((Hl & _) & (Hr & _) & _) & <- & <- & Hrl & Hlr); cbn; unfold relay_to_relay_start.
    start_base Hv Hts Hts'.
    eexists _, [Headers _ _], [Headers _ _], _, _, _; split; [reflexivity|].
    split; [reflexivity|].
    split; try by apply one_header_account.
    + on_demand_task.
    + on_demand_task.
    + relay_signers Hts Hts'.
Defined.

#[local] Instance RelayToParachainBridge_laws : BridgeBaseLaws RelayToParachainBridge.
Proof.
  refine {|
    valid_base b LeftRelay RightRelay :=
      valid_common (r2p_common b)
      /\ client_chain (client (left (r2p_common b))) = LeftRelay
      /\ client_chain (r2p_right_relay b) = RightRelay
      /\ (well_named RightRelay /\ client_chain (client (right (r2p_common b))) <> RightRelay)
      /\ valid_params (r2p_right_headers_to_left b) /\ valid_params (r2p_right_parachains_to_left b)
      /\ valid_params (r2p_left_headers_to_right b) |}.
  - done.
  - by intros b L R [? _].
  - intros b f l r L R H E; cbn in *; rewrite E, push_accounts_eq; exact H.
  - intros b p L R Hv (((Hl & _) & (Hr & _) & _) & <- & <- & [Hrr Hrn] & Hrl & Hrp & Hlr); cbn;
      unfold relay_to_parachain_start.
    start_base Hv Hts Hts'.
    eexists _, [Headers _ _; Parachains _ _], [Headers _ _], _, _, _; split; [reflexivity|].
    split; [reflexivity|].
    split; [| | |by apply two_header_accounts | by apply one_header_account].
    + on_demand_task.
    + on_demand_task.
    + relay_signers Hts Hts'.
Defined.

#[local] Instance ParachainToParachainBridge_laws : BridgeBaseLaws ParachainToParachainBridge.
Proof.
  refine {|
    valid_base b LeftRelay RightRelay :=
      valid_common (p2p_common b)
      /\ (client_chain (p2p_left_relay b) = LeftRelay /\ well_named LeftRelay
          /\ client_chain (client (left (p2p_common b))) <> LeftRelay)
      /\ (client_chain (p2p_right_relay b) = RightRelay /\ well_named RightRelay
          /\ client_chain (client (right (p2p_common b))) <> RightRelay)
      /\ valid_params (p2p_right_headers_to_left b) /\ valid_params (p2p_left_headers_to_right b)
      /\ valid_params (p2p_right_parachains_to_left b) /\ valid_params (p2p_left_parachains_to_right b) |}.
  - done.
  - by intros b L R [? _].
  - intros b f l r L R H E; cbn in *; rewrite E, push_accounts_eq; exact H.
  - intros b p L R Hv (((Hl & _) & (Hr & _) & _) & (<- & Hlw & Hln) & (<- & Hrw & Hrn) & Hrl & Hlr & Hrp & Hlp); cbn.
    unfold parachain_to_parachain_start; start_base Hv Hts Hts'.
    eexists _, [Headers _ _; Parachains _ _], [Headers _ _; Parachains _ _], _, _, _; split; [reflexivity|].
    split; [reflexivity|].
    split; [| | |by apply two_header_accounts | by apply two_header_accounts].
    + on_demand_task.
    + on_demand_task.
    + relay_signers Hts Hts'.
Defined.

(** ** The relay covers its lanes *)

Definition proved_both_ways (p : Proc) (r : MessagesRelayParams KeyPair) (SourceRelay TargetRelay : CliChain) : Prop :=
  (exists o, source_to_target_headers_relay r = Some o
     /\ on_demand_runs (spawned p) o (client_chain (source_client r)) SourceRelay (target_client r))
  /\ exists o, target_to_source_headers_relay r = Some o
       /\ on_demand_runs (spawned p) o (client_chain (target_client r)) TargetRelay (source_client r).

Definition direction (r : MessagesRelayParams KeyPair) : CliChain * CliChain * LaneId :=
  (client_chain (source_client r), client_chain (target_client r), lane_id r).

(** Every lane has a message relay in each direction; every message relay can have the headers it
    needs proved, in both directions; and every transaction has a valid mortality, and an account
    whose balance and rewards are shown. *)
Record covers (Left LeftRelay Right RightRelay : CliChain) (lanes : list LaneId) (p : Proc)
  (relays : list (MessagesRelayParams KeyPair)) : Prop := {
  covers_lanes : map direction relays = flat_map (fun l => [(Left, Right, l); (Right, Left, l)]) lanes;
  covers_proofs : forall r, r ∈ relays ->
    client_chain (source_client r) = Left /\ proved_both_ways p r LeftRelay RightRelay
    \/ client_chain (source_client r) = Right /\ proved_both_ways p r RightRelay LeftRelay;
  covers_signers : forall c params, signs p relays c params ->
    valid_params params
    /\ (client_chain c = Left /\ monitored p c Right lanes (public (params_signer params))
        \/ client_chain c = Right /\ monitored p c Left lanes (public (params_signer params)));
}.

Lemma on_demand_runs_mono (ts ts' : list (task KeyPair AccountId)) (o : OnDemandRelay) (source relay : CliChain)
  (target : Client) :
  (forall t, t ∈ ts -> t ∈ ts') -> on_demand_runs ts o source relay target -> on_demand_runs ts' o source relay target.
Proof. intros Hsub; revert source; induction o; cbn; naive_solver. Qed.

Lemma elem_message_relays (l r : EndParams) (o o' : OnDemandRelay) (lanes : list LaneId)
  (m : MessagesRelayParams KeyPair) :
  m ∈ message_relays l r o o' lanes ->
  exists lane, m = messages_relay_params l r o o' lane \/ m = messages_relay_params r l o' o lane.
Proof. induction lanes; cbn; [set_solver|]; rewrite !elem_of_cons; naive_solver. Qed.

Lemma message_relays_directions (l r : EndParams) (o o' : OnDemandRelay) (lanes : list LaneId) :
  map direction (message_relays l r o o' lanes)
  = flat_map (fun lane => [(client_chain (client l), client_chain (client r), lane);
                           (client_chain (client r), client_chain (client l), lane)]) lanes.
Proof. induction lanes as [|lane lanes IH]; cbn; [done | by rewrite IH]. Qed.

Lemma message_account_distinct (i : AccountId) (c : CliChain) (accts : list (TaggedAccount AccountId)) :
  well_named c -> header_accounts accts -> distinct_accounts (Messages i (NAME c) :: accts).
Proof.
  intros Hc [Hnd Hall]; split; cbn.
  - apply NoDup_cons; split; [|done]; rewrite list_elem_of_In, in_map_iff; intros (a & E & Ha%list_elem_of_In).
    rewrite Forall_forall in Hall; destruct (Hall a Ha); auto.
  - constructor; [by apply no_underscore_app|]; eapply Forall_impl; [exact Hall | by intros ? []].
Qed.

(** The hypotheses on the environment: metric names are accepted, the nodes answer, and the
    number of decimals fits. *)
Record environment : Prop := {
  env_hex : Inj (=) (=) hex_encode;
  env_gauges : forall name, gauge_new name = Ok tt;
  env_versions : forall c, exists v, runtime_version c = Ok v;
  env_decimals : forall c, exists d, token_decimals c = Ok d /\ default 0 d <= u32_max;
}.

Section Run.
Context (Henv : environment).

Lemma add_metrics_run (c : Client) (bridged : CliChain) (a : TaggedAccount AccountId)
  (accts : list (TaggedAccount AccountId)) (lanes : list LaneId) :
  exists d, forall p, add_relay_balances_metrics c bridged (a :: accts) lanes p
    = Ok (register_all (flat_map (gauges_of c bridged d lanes) (a :: accts)) p).
Proof.
  destruct (env_decimals Henv c) as (d & E & Hd); exists (default 0 d); intros p.
  unfold add_relay_balances_metrics; rewrite E; cbn [map_err obind].
  replace (match d with Some t => t | None => 0 end) with (default 0 d) by (by destruct d).
  rewrite (proj2 (Z.leb_le _ _) Hd); cbn [obind]; apply account_gauges_run, env_gauges, Henv.
Qed.

Lemma expose_run (a : option MetricsAddress) (p : Proc) :
  (forall x, a = Some x -> parse_host (address_host x) = true) ->
  exists ts, expose a p = Ok (Process (registry p) (spawned p ++ ts)%list) /\ forall t, t ∈ ts -> submits t = None.
Proof.
  intros Hh; unfold expose; destruct a as [x|].
  - rewrite (Hh x eq_refl); eexists; split; [reflexivity | set_solver].
  - exists []; rewrite app_nil_r; destruct p; split; [done | set_solver].
Qed.

Section Covered.
Context (c : Common) (Hc : valid_common c) (LeftRelay RightRelay : CliChain).
Context (ts : list (task KeyPair AccountId)) (la ra : list (TaggedAccount AccountId)) (l2r r2l : OnDemandRelay).
Context (Hst : started c LeftRelay RightRelay ts la ra l2r r2l).
Abbreviation LeftChain := (client_chain (client (left c))).
Abbreviation RightChain := (client_chain (client (right c))).
Abbreviation left_accounts := (Messages (public (sign (left c))) (NAME RightChain) :: la).
Abbreviation right_accounts := (Messages (public (sign (right c))) (NAME LeftChain) :: ra).
Context (lanes : list LaneId) (dl dr : Z) (p : Proc).
Abbreviation gauges := (both_gauges (client (left c)) (client (right c)) left_accounts right_accounts lanes dl dr).
Context (Hgauges : forall g, g ∈ gauges -> UpdateGauge g ∈ spawned p).
Context (Hts : forall t, t ∈ ts -> t ∈ spawned p).
Context (Hsub : forall t x, t ∈ spawned p -> submits t = Some x -> t ∈ ts).

Lemma left_monitored (a : AccountId) :
  a ∈ map account_id left_accounts -> monitored p (client (left c)) RightChain lanes a.
Proof.
  rewrite list_elem_of_In, in_map_iff; intros (x & <- & Hx%list_elem_of_In).
  eapply (end_monitored _ _ _ _ dl _ x); [|exact Hx].
  intros g Hg; apply Hgauges; unfold both_gauges; apply elem_of_app; auto.
Qed.

Lemma right_monitored (a : AccountId) :
  a ∈ map account_id right_accounts -> monitored p (client (right c)) LeftChain lanes a.
Proof.
  rewrite list_elem_of_In, in_map_iff; intros (x & <- & Hx%list_elem_of_In).
  eapply (end_monitored _ _ _ _ dr _ x); [|exact Hx].
  intros g Hg; apply Hgauges; unfold both_gauges; apply elem_of_app; auto.
Qed.

Lemma all_covered : covers LeftChain LeftRelay RightChain RightRelay lanes p
  (message_relays (left c) (right c) l2r r2l lanes).
Proof.
  destruct Hst as [Hl2r Hr2l Hsigners _ _], Hc as ([_ Hlm] & [_ Hrm] & _).
  apply (on_demand_runs_mono _ (spawned p)) in Hl2r; [|exact Hts].
  apply (on_demand_runs_mono _ (spawned p)) in Hr2l; [|exact Hts].
  split; [apply message_relays_directions| |].
  - intros r Hr; apply elem_message_relays in Hr as (lane & [-> | ->]); [left | right];
      (split; [done|]; split; eexists; split; [reflexivity|eassumption|reflexivity|eassumption]).
  - intros cl params [t cl' params' Ht E | r Hr | r Hr].
    + destruct (Hsigners t cl' params' (Hsub _ _ Ht E) E) as (Hm & [[-> Ha]|[-> Ha]]); (split; [exact Hm|]);
        [left; split; [done|apply left_monitored] | right; split; [done|apply right_monitored]]; cbn; by right.
    + apply elem_message_relays in Hr as (lane & [-> | ->]); (split; [done|]); cbn;
        [left; split; [done|apply left_monitored] | right; split; [done|apply right_monitored]]; cbn; by left.
    + apply elem_message_relays in Hr as (lane & [-> | ->]); (split; [done|]); cbn;
        [right; split; [done|apply right_monitored] | left; split; [done|apply left_monitored]]; cbn; by left.
Qed.

End Covered.

Lemma message_relays_cons (l r : EndParams) (o o' : OnDemandRelay) (lanes : list LaneId) :
  lanes <> [] -> exists m ms, message_relays l r o o' lanes = m :: ms.
Proof. destruct lanes; [done|]; cbn; eauto. Qed.

(** The accounts to show do not matter for message relays. *)
Lemma message_relays_accounts (cl cr : Client) (sl sr : KeyPair) (ml mr : option Z)
  (al al' ar ar' : list (TaggedAccount AccountId)) (o o' : OnDemandRelay) (lanes : list LaneId) :
  message_relays (BridgeEnd cl sl ml al) (BridgeEnd cr sr mr ar) o o' lanes
  = message_relays (BridgeEnd cl sl ml al') (BridgeEnd cr sr mr ar') o o' lanes.
Proof. induction lanes as [|lane lanes IH]; cbn; [done | by rewrite IH]. Qed.

(** What the process has spawned once the gauges are registered and the endpoint is started. *)
Lemma spawned_after (gs : list (FloatStorageValueMetric AccountId)) (ts es : list (task KeyPair AccountId)) :
  (forall t, t ∈ es -> submits t = None) ->
  let p := register_all gs (Process [BUILD_INFO_METRIC] ts) in
  (forall t, t ∈ ts -> t ∈ (spawned p ++ es)%list)
  /\ forall t x, t ∈ (spawned p ++ es)%list -> submits t = Some x -> t ∈ ts.
Proof.
  intros Hes p; destruct (register_keeps gs (Process [BUILD_INFO_METRIC] ts)) as (us & E & Hus).
  subst p; cbn in E; rewrite E; split; [set_solver|].
  intros t x Ht Hx; rewrite !elem_of_app in Ht; destruct Ht as [[Ht|Ht]|Ht]; [done| |].
  - by rewrite (Hus t Ht) in Hx.
  - by rewrite (Hes t Ht) in Hx.
Qed.

Section RunCovers.
Context {Base : Type} `{!Full2WayBridgeBase Base} `{!BridgeBaseLaws Base}.
Context (b : Base) (LeftRelay RightRelay : CliChain) (Hb : valid_base b LeftRelay RightRelay).
Context (Hla : accounts (left (common b)) = []) (Hra : accounts (right (common b)) = []).
Context (Hlanes : lane (shared (common b)) <> []).
Context (Hhost : forall x, common_metrics_address (common b) = Some x -> parse_host (address_host x) = true).
Abbreviation LeftChain := (client_chain (client (left (common b)))).
Abbreviation RightChain := (client_chain (client (right (common b)))).

Lemma run_covers :
  exists p relays, run b (Process [BUILD_INFO_METRIC] []) = Ok (p, relays)
    /\ covers LeftChain LeftRelay RightChain RightRelay (lane (shared (common b))) p relays.
Proof.
  unfold run; set (f := fun _ : Common => _).
  set (ml := Messages (public (sign (left (common b)))) (NAME RightChain)).
  set (mr := Messages (public (sign (right (common b)))) (NAME LeftChain)).
  assert (f (common b) = push_accounts (common b) [ml] [mr]) as Ef by done.
  pose proof (valid_base_push _ _ _ _ _ _ Hb Ef) as Hb'.
  pose proof (valid_base_common _ _ _ Hb') as Hc.
  destruct (start_spec _ (Process [BUILD_INFO_METRIC] []) _ _ (env_versions Henv) Hb')
    as (ts & la & ra & l2r & r2l & b' & -> & Hb'' & Hst).
  rewrite common_mut_common, Ef in Hb'', Hst, Hc.
  rewrite push_accounts_eq in Hst, Hc; rewrite !push_accounts_eq in Hb''.
  cbn in Hb''; rewrite Hla in Hst, Hc, Hb''; rewrite Hra in Hst, Hc, Hb''; cbn in Hb''.
  cbn [obind]; rewrite Hb''; cbn [shared left right client accounts common_metrics_address].
  edestruct (add_metrics_run (client (left (common b)))) as [dl El]; rewrite El; cbn [obind].
  edestruct (add_metrics_run (client (right (common b)))) as [dr Er]; rewrite Er; cbn [obind].
  rewrite <- register_all_app; fold (both_gauges (client (left (common b))) (client (right (common b)))
    (ml :: la) (mr :: ra) (lane (shared (common b))) dl dr).
  set (gs := both_gauges _ _ _ _ _ _ _); cbn [registry spawned app].
  destruct (expose_run _ (register_all gs (Process [BUILD_INFO_METRIC] ts)) Hhost) as (es & -> & Hes); cbn [obind].
  destruct (spawned_after gs ts es Hes) as [Hts Hsub].
  match goal with |- context [message_relays ?l ?r _ _ _] =>
    destruct (message_relays_cons l r l2r r2l _ Hlanes) as (m & ms & Em) end.
  rewrite Em; eexists _, _; split; [reflexivity|].
  rewrite <- Em, (message_relays_accounts _ _ _ _ _ _ _ [ml] _ [mr]).
  destruct Hc as ([Hwl Hml] & [Hwr Hmr] & Hne).
  eapply (all_covered _ (conj (conj Hwl Hml) (conj (conj Hwr Hmr) Hne)) _ _ _ _ _ _ _ Hst); [|exact Hts|exact Hsub].
  intros g Hg; apply elem_of_app; left.
  destruct Hst as [_ _ _ Hdl Hdr].
  apply both_gauges_spawned; auto using env_hex; [by apply message_account_distinct.. | exact Hg].
Qed.

End RunCovers.
End Run.

(** ** Accepted options *)

Lemma is_power_of_two_iff (n : Z) : is_power_of_two n = true <-> exists k, 0 <= k /\ n = 2 ^ k.
Proof.
  unfold is_power_of_two; rewrite andb_true_iff, Z.ltb_lt, Z.eqb_eq; split.
  - intros [Hn Hland]; exists (Z.log2 n); split; [apply Z.log2_nonneg|].
    pose proof (Z.log2_spec n Hn) as [Hlo Hhi].
    destruct (Z.eq_dec n (2 ^ Z.log2 n)) as [|Hne]; [done|exfalso].
    assert (Z.log2 (n - 1) = Z.log2 n) as Hlog by (apply Z.log2_unique; [apply Z.log2_nonneg | lia]).
    assert (0 < n - 1) as Hn1 by (pose proof (Z.pow_pos_nonneg 2 (Z.log2 n)); pose proof (Z.log2_nonneg n); lia).
    pose proof (f_equal (fun z => Z.testbit z (Z.log2 n)) Hland) as Hbit; cbn beta in Hbit.
    rewrite Z.land_spec, Z.bit_log2, Z.bits_0 in Hbit by done.
    rewrite <- Hlog, Z.bit_log2 in Hbit by done; discriminate.
  - intros (k & Hk & ->); split; [lia|].
    replace (2 ^ k - 1) with (Z.ones k) by (rewrite Z.ones_equiv; lia).
    rewrite Z.land_ones by done; apply Z.mod_same; lia.
Qed.

Lemma signing_mortality_valid (s : SigningParams) (m : option Z) :
  signing_mortality s = Ok m <-> m = cli_mortality s /\ valid_mortality m.
Proof.
  unfold signing_mortality, valid_mortality; destruct (cli_mortality s) as [n|]; [|naive_solver].
  destruct (_ || _) eqn:E.
  - split; [done|]; intros [-> (k & Hk & ->)].
    rewrite (proj2 (is_power_of_two_iff _)), orb_false_r, negb_true_iff, andb_false_iff, !Z.leb_gt in E by (exists k; lia).
    pose proof (Z.pow_le_mono_r 2 2 k); pose proof (Z.pow_le_mono_r 2 k 16); lia.
  - rewrite orb_false_iff, !negb_false_iff, andb_true_iff, !Z.leb_le, is_power_of_two_iff in E.
    destruct E as [Hn (k & Hk & ->)]; split; [intros [= <-] | by intros [-> _]].
    split; [done|]; exists k; split; [|done]; split.
    + apply (Z.pow_le_mono_r_iff 2); lia.
    + apply (Z.pow_le_mono_r_iff 2); lia.
Qed.

Lemma transaction_params_valid (s o : SigningParams) (t : TxParamsOf) :
  transaction_params_or s o = Ok t -> valid_params t.
Proof.
  intros H; assert (exists x, transaction_params x = Ok t) as (x & E).
  { revert H; unfold transaction_params_or; destruct (is_defined s); eauto. }
  revert E; unfold transaction_params; intros (m & Em & (k & _ & [= <-])%obind_Ok)%obind_Ok.
  by apply signing_mortality_valid in Em as [_ ?].
Qed.

Lemma into_client_chain (Chain : CliChain) (s : ConnectionParams) (c : Client) :
  into_client Chain s = Ok c -> client_chain c = Chain.
Proof. unfold into_client; by intros (v & _ & [= <-])%obind_Ok. Qed.

Lemma bridge_end_valid (Chain : CliChain) (c : ConnectionParams) (s : SigningParams) (e : EndParams) :
  bridge_end Chain c s = Ok e ->
  client_chain (client e) = Chain /\ accounts e = [] /\ valid_mortality (transactions_mortality e).
Proof.
  unfold bridge_end; intros (cl & Hcl%into_client_chain & (k & _ & (m & Hm & [= <-])%obind_Ok)%obind_Ok)%obind_Ok.
  by apply signing_mortality_valid in Hm as [_ Hm].
Qed.

(** What an accepted command line gives to the relay. *)
Record ready (shared_params : HeadersAndMessagesSharedParams) (Left Right : CliChain) (c : Common) (p : Proc) : Prop := {
  ready_shared : shared c = shared_params;
  ready_left : client_chain (client (left c)) = Left;
  ready_right : client_chain (client (right c)) = Right;
  ready_left_accounts : accounts (left c) = [];
  ready_right_accounts : accounts (right c) = [];
  ready_left_mortality : valid_mortality (transactions_mortality (left c));
  ready_right_mortality : valid_mortality (transactions_mortality (right c));
  ready_address : common_metrics_address c = into_metrics_address (prometheus_params shared_params);
  ready_process : p = Process [BUILD_INFO_METRIC] [];
}.

Lemma common_new_ready (s : HeadersAndMessagesSharedParams) (Left Right : CliChain) (lc rc : ConnectionParams)
  (ls rs : SigningParams) (l r : EndParams) (c : Common) (p : Proc) :
  bridge_end Left lc ls = Ok l -> bridge_end Right rc rs = Ok r -> common_new s l r = Ok (c, p) ->
  ready s Left Right c p.
Proof.
  intros (? & ? & ?)%bridge_end_valid (? & ? & ?)%bridge_end_valid.
  unfold common_new, metrics_params_new; intros (q & (u & _ & [= <-])%obind_Ok & [= <- <-])%obind_Ok; by split.
Qed.

Lemma ready_valid (s : HeadersAndMessagesSharedParams) (Left Right : CliChain) (c : Common) (p : Proc) :
  ready s Left Right c p -> well_named Left -> well_named Right -> NAME Left <> NAME Right -> valid_common c.
Proof. by intros [_ <- <- _ _ ? ? _ _]. Qed.

Definition command_shared (self : RelayHeadersAndMessages) : HeadersAndMessagesSharedParams :=
  match self with
  | MillauRialto params => r2r_shared params
  | MillauRialtoParachain params => r2p_shared params
  | BridgeHubRococoBridgeHubWococo params => p2p_shared params
  end.

(** The left chain and its relay chain, the right chain and its relay chain. *)
Definition command_chains (self : RelayHeadersAndMessages) : CliChain * CliChain * CliChain * CliChain :=
  match self with
  | MillauRialto _ => (Millau, Millau, Rialto, Rialto)
  | MillauRialtoParachain _ => (Millau, Millau, RialtoParachain, Rialto)
  | BridgeHubRococoBridgeHubWococo _ => (BridgeHubRococo, Rococo, BridgeHubWococo, Wococo)
  end.

Definition accepted (self : RelayHeadersAndMessages) : Prop :=
  match self with
  | MillauRialto params => exists b, relay_to_relay_into_bridge Millau Rialto params = Ok b
  | MillauRialtoParachain params =>
      exists b, relay_to_parachain_into_bridge Millau RialtoParachain Rialto params = Ok b
  | BridgeHubRococoBridgeHubWococo params =>
      exists b, parachain_to_parachain_into_bridge BridgeHubRococo Rococo BridgeHubWococo Wococo params = Ok b
  end.

Definition host_accepted (p : PrometheusParams) : bool := no_prometheus p || parse_host (prometheus_host p).

Lemma ready_run {Base : Type} `{!Full2WayBridgeBase Base} `{!BridgeBaseLaws Base} (Henv : environment)
  (s : HeadersAndMessagesSharedParams) (Left Right LeftRelay RightRelay : CliChain) (b : Base) (p : Proc) :
  ready s Left Right (common b) p -> valid_base b LeftRelay RightRelay -> lane s <> [] ->
  host_accepted (prometheus_params s) = true ->
  exists p' relays, run b p = Ok (p', relays) /\ covers Left LeftRelay Right RightRelay (lane s) p' relays.
Proof.
  intros [Hs <- <- Hla Hra _ _ Haddr ->] Hb Hlanes Hhost; rewrite <- Hs in Hlanes |- *.
  eapply run_covers; eauto; rewrite Haddr; unfold into_metrics_address, host_accepted in *.
  intros x; destruct (no_prometheus _); [done|]; by intros [= <-].
Qed.

Lemma relay_to_relay_ready (params : RelayToRelayParams) (b : RelayToRelayBridge) (p : Proc) :
  relay_to_relay_into_bridge Millau Rialto params = Ok (b, p) ->
  ready (r2r_shared params) Millau Rialto (common b) p /\ valid_base b Millau Rialto.
Proof.
  unfold relay_to_relay_into_bridge.
  intros (l & Hl & (r & Hr & ([c q] & Hc & (rl & Hrl & (lr & Hlr & [= <- <-])%obind_Ok)%obind_Ok)%obind_Ok)%obind_Ok)%obind_Ok.
  pose proof (common_new_ready _ _ _ _ _ _ _ _ _ _ _ Hl Hr Hc) as Hready; split; [exact Hready|].
  apply transaction_params_valid in Hrl, Hlr; pose proof Hready as [_ ? ? _ _ _ _ _ _].
  split_and!; try done; by eapply ready_valid.
Qed.

Lemma relay_to_parachain_ready (params : RelayToParachainParams) (b : RelayToParachainBridge) (p : Proc) :
  relay_to_parachain_into_bridge Millau RialtoParachain Rialto params = Ok (b, p) ->
  ready (r2p_shared params) Millau RialtoParachain (common b) p /\ valid_base b Millau Rialto.
Proof.
  unfold relay_to_parachain_into_bridge.
  intros (l & Hl & (r & Hr & ([c q] & Hc & (rr & Hrr%into_client_chain & H)%obind_Ok)%obind_Ok)%obind_Ok)%obind_Ok.
  apply obind_Ok in H as (rl & Hrl & (rp & Hrp & (lr & Hlr & [= <- <-])%obind_Ok)%obind_Ok).
  pose proof (common_new_ready _ _ _ _ _ _ _ _ _ _ _ Hl Hr Hc) as Hready; split; [exact Hready|].
  apply transaction_params_valid in Hrl, Hrp, Hlr; pose proof Hready as [_ ? ? _ _ _ _ _ _].
  split_and!; try done; try by eapply ready_valid.
  all: assert (RialtoParachain <> Rialto) by done; cbn; congruence.
Qed.

Lemma parachain_to_parachain_ready (params : ParachainToParachainParams) (b : ParachainToParachainBridge) (p : Proc) :
  parachain_to_parachain_into_bridge BridgeHubRococo Rococo BridgeHubWococo Wococo params = Ok (b, p) ->
  ready (p2p_shared params) BridgeHubRococo BridgeHubWococo (common b) p /\ valid_base b Rococo Wococo.
Proof.
  unfold parachain_to_parachain_into_bridge.
  intros (l & Hl & (r & Hr & ([c q] & Hc & (lrl & Hlrl%into_client_chain & H)%obind_Ok)%obind_Ok)%obind_Ok)%obind_Ok.
  apply obind_Ok in H as (rrl & Hrrl%into_client_chain & (rl & Hrl & (lr & Hlr & H)%obind_Ok)%obind_Ok).
  apply obind_Ok in H as (rp & Hrp & (lp & Hlp & [= <- <-])%obind_Ok).
  pose proof (common_new_ready _ _ _ _ _ _ _ _ _ _ _ Hl Hr Hc) as Hready; split; [exact Hready|].
  apply transaction_params_valid in Hrl, Hrp, Hlr, Hlp; pose proof Hready as [_ ? ? _ _ _ _ _ _].
  split_and!; try done; try by eapply ready_valid.
  all: assert (BridgeHubRococo <> Rococo) by done; assert (BridgeHubWococo <> Wococo) by done; cbn; congruence.
Qed.

(** C17.  An accepted [relay-headers-and-messages] command, in an environment where metric names
    and the host of the metrics endpoint are accepted and the nodes answer, starts: the relay it
    runs covers every lane of the command line in both directions.  Each message relay can have
    the headers it needs proved at both of its ends by on-demand relays that run: headers of a
    relay chain by a headers relay, heads of a parachain by a parachains relay over a headers relay
    of its relay chain; and every transaction the relay can submit has a mortality
    that is absent or a power of two between 4 and 65536, and a signer whose balance, and rewards
    on every lane, have gauges of their own at the chain where it signs. *)
Theorem complex_relay_covers_its_lanes (Henv : environment) (self : RelayHeadersAndMessages) :
  accepted self -> lane (command_shared self) <> [] ->
  host_accepted (prometheus_params (command_shared self)) = true ->
  let '(Left, LeftRelay, Right, RightRelay) := command_chains self in
  exists p relays, RelayHeadersAndMessages_run self = Ok (p, relays)
    /\ covers Left LeftRelay Right RightRelay (lane (command_shared self)) p relays.
Proof.
  intros Hacc Hlanes Hhost; destruct self as [params|params|params];
    destruct Hacc as [[b p] E]; cbn in *; rewrite E; cbn.
  - apply relay_to_relay_ready in E as [??]; by eapply ready_run.
  - apply relay_to_parachain_ready in E as [??]; by eapply ready_run.
  - apply parachain_to_parachain_ready in E as [??]; by eapply ready_run.
Qed.

End Commands.

(** ** A relay between the two bridge hubs, with an override of one signer *)

Module BridgeHubs.

Definition connection (port : Z) : ConnectionParams :=
  Connection "127.0.0.1" port false (VersionParams VersionBundle None None).

Definition signing (suri : string) (mortality : option Z) : SigningParams :=
  Signing (Some suri) None None None mortality.

Definition not_signing : SigningParams := Signing None None None None None.

Definition command : RelayHeadersAndMessages :=
  BridgeHubRococoBridgeHubWococo
    (ParachainToParachainOptions
       (SharedParams [LaneId_ 0 0 0 0; LaneId_ 0 0 0 1] false (Prometheus false "127.0.0.1" 9616))
       (connection 8943) (connection 9942) (signing "//Alice" (Some 64))
       (connection 8945) (connection 9945) (signing "//Bob" None)
       not_signing (signing "//Charlie" (Some 256)) not_signing not_signing).

Definition from_string (suri : string) (password : option string) : option string := Some suri.
Definition read_to_string (path : string) : option string := None.
Definition runtime_version (c : Client) : outcome unit SimpleRuntimeVersion := Ok (RuntimeVersion 9372 1).
Definition token_decimals (c : Client) : outcome unit (option Z) := Ok (Some 12).
Definition gauge_new (name : string) : outcome unit unit := Ok tt.
Definition parse_host (host : string) : bool := true.
Definition hex_encode (lane : LaneId) : string := pretty (encode lane).

Lemma environment_ok : environment runtime_version token_decimals gauge_new hex_encode.
Proof.
  split; try done.
  - intros l l' E; by apply (inj encode), (inj pretty).
  - intros c; by exists (RuntimeVersion 9372 1).
  - intros c; by exists (Some 12).
Qed.

End BridgeHubs.

(** The command for the bridge hubs starts a relay that covers its two lanes. *)
Lemma complex_relay_covers_its_lanes_witness :
  exists p relays,
    RelayHeadersAndMessages_run BridgeHubs.from_string id BridgeHubs.read_to_string BridgeHubs.runtime_version
      BridgeHubs.token_decimals BridgeHubs.gauge_new BridgeHubs.parse_host BridgeHubs.hex_encode BridgeHubs.command
    = Ok (p, relays)
    /\ covers id BridgeHubRococo Rococo BridgeHubWococo Wococo [LaneId_ 0 0 0 0; LaneId_ 0 0 0 1] p relays.
Proof.
  apply (complex_relay_covers_its_lanes BridgeHubs.from_string id BridgeHubs.read_to_string
    BridgeHubs.runtime_version BridgeHubs.token_decimals BridgeHubs.gauge_new BridgeHubs.parse_host
    BridgeHubs.hex_encode BridgeHubs.environment_ok BridgeHubs.command).
  - eexists; reflexivity.
  - discriminate.
  - reflexivity.
Defined.
