(* ===== verification/EncodeMessage.v ===== *)
(** * relays/bin-substrate/src/cli/encode_message.rs: the payload of the send-message command

    A payload is raw bytes, or an XCM program of a given or of the maximal size, found by a loop
    that shortens a byte vector inside the program.  The SCALE encoding is a parameter. *)

From S2P Require Import Prelude RuntimePrimitives RuntimeMessages.
From stdpp Require Import base numbers list.
Local Open Scope Z_scope.

Inductive ExplicitOrMaximal := Explicit (v : Z) | Maximal.

Inductive Message :=
| Raw (data : list Z)
| Sized (size : ExplicitOrMaximal).

Definition service_tx_bytes_on_source_chain : Z := 1024.

Definition compute_maximal_message_size (maximal_source_extrinsic_size maximal_target_extrinsic_size : Z) : Z :=
  let maximal_source_extrinsic_size :=
    wrapping_sub u32_max maximal_source_extrinsic_size service_tx_bytes_on_source_chain in
  let maximal_message_size := maximal_incoming_message_size maximal_target_extrinsic_size in
  if maximal_source_extrinsic_size <? maximal_message_size then maximal_source_extrinsic_size
  else maximal_message_size.

Section EncodeMessage.
(** The encoding of an [ExpectPallet] program with a name of the given length. *)
Variable encode_expect_pallet : Z -> list Z.
Abbreviation encoded_len n := (Z.of_nat (length (encode_expect_pallet n))).

(** The loop that shortens the name; [None] when the fuel runs out. *)
Fixpoint shrink (fuel : nat) (expected_xcm_size current_vec_size : Z) : option (list Z) :=
  match fuel with
  | O => None
  | S fuel =>
      if encoded_len current_vec_size <=? expected_xcm_size then Some (encode_expect_pallet current_vec_size)
      else shrink fuel expected_xcm_size (wrapping_sub u32_max current_vec_size 1)
  end.

Definition expected_xcm_size (source_max_extrinsic_size target_max_extrinsic_size : Z) (size : ExplicitOrMaximal) : Z :=
  match size with
  | Explicit size => size
  | Maximal => compute_maximal_message_size source_max_extrinsic_size target_max_extrinsic_size
  end.

Definition encode_message (fuel : nat) (source_max_extrinsic_size target_max_extrinsic_size : Z)
  (message : Message) : option (list Z) :=
  match message with
  | Raw data => Some data
  | Sized size =>
      let expected_xcm_size := expected_xcm_size source_max_extrinsic_size target_max_extrinsic_size size in
      shrink fuel expected_xcm_size expected_xcm_size
  end.

(** A longer name has a longer encoding, which contains the name. *)
Hypothesis encoded_longer : forall n m, 0 <= n < m -> encoded_len n < encoded_len m.
Hypothesis encoded_contains : forall n, 0 <= n -> n <= encoded_len n.

Lemma shrink_finds (fuel : nat) (expected n : Z) :
  encoded_len 0 <= expected -> 0 <= n <= u32_max -> n < Z.of_nat fuel ->
  exists k, 0 <= k <= n /\ shrink fuel expected n = Some (encode_expect_pallet k) /\
    encoded_len k <= expected /\ (k < n -> expected < encoded_len (k + 1)).
Proof.
  intros H0. revert n. induction fuel as [|fuel IH]; intros n Hn Hfuel; [lia|]. cbn [shrink].
  destruct (Z.leb_spec (encoded_len n) expected) as [Hle|Hgt].
  - exists n. split_and!; [lia..|done|done|lia].
  - assert (n <> 0) as Hn0 by (intros ->; lia).
    rewrite wrapping_sub_small by lia.
    destruct (IH (n - 1)) as (k & Hk & E & Hfit & Hmax); [lia..|].
    exists k. split_and!; [lia..|done|done|]. intros Hlt.
    destruct (Z.eq_dec k (n - 1)) as [->|]; [by replace (n - 1 + 1) with n by lia|apply Hmax; lia].
Qed.

(** The send-message command finds a payload of a given size whenever some program is that
    small, within as many turns as the size: it is the longest program that fits, and has exactly
    the size if any program has.  The maximal size leaves 1024 bytes of a transaction at the source
    chain, and is accepted by the target chain. *)
Theorem sized_message_is_the_longest (source_max target_max : Z) (s : ExplicitOrMaximal) :
  let size := expected_xcm_size source_max target_max s in
  encoded_len 0 <= size <= u32_max -> service_tx_bytes_on_source_chain <= source_max <= u32_max ->
  exists k, encode_message (Z.to_nat size + 1) source_max target_max (Sized s) = Some (encode_expect_pallet k)
    /\ encoded_len k <= size
    /\ (forall n, 0 <= n -> encoded_len n <= size -> n <= k)
    /\ ((exists n, 0 <= n /\ encoded_len n = size) -> encoded_len k = size)
    /\ (s = Maximal -> encoded_len k + service_tx_bytes_on_source_chain <= source_max
                       /\ encoded_len k <= maximal_incoming_message_size target_max).
Proof.
  intros size Hsize Hsource.
  destruct (shrink_finds (Z.to_nat size + 1) size size) as (k & Hk & E & Hfit & Hmax); [lia..|].
  assert (forall n, 0 <= n -> encoded_len n <= size -> n <= k) as Hlongest.
  { intros n Hn Hle. destruct (Z.le_gt_cases n k) as [|Hgt]; [done|exfalso].
    pose proof (encoded_contains n Hn).
    assert (size < encoded_len (k + 1)) as Hk1 by (apply Hmax; lia).
    destruct (Z.eq_dec n (k + 1)) as [->|]; [lia|]. pose proof (encoded_longer (k + 1) n). lia. }
  exists k. split_and!; [exact E|exact Hfit|exact Hlongest|..].
  - intros (n & Hn & En). pose proof (Hlongest n Hn ltac:(lia)) as Hnk.
    destruct (Z.eq_dec n k) as [<-|]; [done|]. pose proof (encoded_longer n k). lia.
  - intros ->. unfold size, expected_xcm_size, compute_maximal_message_size in Hfit.
    unfold service_tx_bytes_on_source_chain in *.
    rewrite wrapping_sub_small in Hfit by lia. destruct (_ <? _) eqn:Elt; lia.
Qed.
End EncodeMessage.

(** ** An encoding with a compact length of one, two or four bytes *)
Module CompactLength.

Definition compact_len (n : Z) : nat := if n <? 64 then 1 else if n <? 16384 then 2 else 4.

Definition encode_expect_pallet (n : Z) : list Z :=
  repeat 0 7 ++ repeat 0 (compact_len n) ++ repeat 42 (Z.to_nat n).

Lemma encoded_len_eq (n : Z) :
  length (encode_expect_pallet n) = (7 + (compact_len n + Z.to_nat n))%nat.
Proof. unfold encode_expect_pallet. by rewrite !length_app, !repeat_length. Qed.

Lemma longer (n m : Z) : 0 <= n < m ->
  Z.of_nat (length (encode_expect_pallet n)) < Z.of_nat (length (encode_expect_pallet m)).
Proof.
  intros H. rewrite !encoded_len_eq. unfold compact_len.
  destruct (Z.ltb_spec n 64), (Z.ltb_spec n 16384), (Z.ltb_spec m 64), (Z.ltb_spec m 16384); lia.
Qed.

Lemma contains (n : Z) : 0 <= n -> n <= Z.of_nat (length (encode_expect_pallet n)).
Proof. intros H. rewrite encoded_len_eq. lia. Qed.

End CompactLength.

(** A message of 100 bytes. *)
Lemma sized_message_is_the_longest_witness :
  exists k, encode_message CompactLength.encode_expect_pallet 101 5000 5000 (Sized (Explicit 100))
      = Some (CompactLength.encode_expect_pallet k)
    /\ Z.of_nat (length (CompactLength.encode_expect_pallet k)) = 100.
Proof.
  destruct (sized_message_is_the_longest CompactLength.encode_expect_pallet CompactLength.longer
    CompactLength.contains 5000 5000 (Explicit 100)) as (k & E & _ & _ & Hexact & _).
  - vm_compute. split; discriminate.
  - vm_compute. split; discriminate.
  - exists k. split; [exact E|]. apply Hexact. exists 91. split; [lia|reflexivity].
Defined.
