(* ===== verification/RegisterParachain.v ===== *)
(** * relays/bin-substrate/src/cli/register_parachain.rs: the registration of a parachain

    The command reserves an id at the relay chain, registers the genesis head and the code of the
    parachain under it, waits until the parachain is onboarded, and forces a lease.  The two nodes
    are a state that the requests of the command read and change; the command logs what it submits
    and what it learns, in order.  It starts with the clients and the key pair of its options, which
    are handled as in ComplexRelay.v. *)

From S2P Require Import Prelude RuntimePrimitives RelayUtils.
From stdpp Require Import base numbers list.
Local Open Scope Z_scope.

(** The states of a parachain that the command knows, and the others. *)
Inductive ParaLifecycle := Onboarding | Parathread | Parachain | UpgradingParathread | OtherLifecycle (id : Z).

#[export] Instance ParaLifecycle_eq_dec : EqDecision ParaLifecycle.
Proof. solve_decision. Defined.

Inductive relay_call (Account Header Code : Type) :=
| Reserve
| Register (id : Z) (genesis_head : Header) (validation_code : Code)
| SudoForceLease (para : Z) (leaser : Account) (amount period_begin period_count : Z).
Arguments Reserve {_ _ _}.
Arguments Register {_ _ _} _ _ _.
Arguments SudoForceLease {_ _ _} _ _ _ _ _.

Inductive log_event (Account Header Code : Type) :=
| Submits (c : relay_call Account Header Code)
| Finalizes (c : relay_call Account Header Code)
| Observes (s : ParaLifecycle).
Arguments Submits {_ _ _} _.
Arguments Finalizes {_ _ _} _.
Arguments Observes {_ _ _} _.

Inductive RegisterError (NodeError : Type) :=
| RequestFailed (e : NodeError)
| FailedToFinalizeReserve
| CannotFetchCode
| FailedToFinalizeRegister
| CannotFetchLifecycle
| InvalidLifecycle (s : ParaLifecycle).
Arguments RequestFailed {_} _.
Arguments FailedToFinalizeReserve {_}.
Arguments CannotFetchCode {_}.
Arguments FailedToFinalizeRegister {_}.
Arguments CannotFetchLifecycle {_}.
Arguments InvalidLifecycle {_} _.

Section RegisterParachain.
Context {World Account Header Code NodeError BlockId : Type}.
Abbreviation call := (relay_call Account Header Code).
Abbreviation log := (list (log_event Account Header Code)).
Abbreviation answer A := (outcome NodeError A * World)%type.

(** The requests to the relay chain and to the parachain node. *)
Variable next_free_para_id : World -> answer (option Z).
Variable submit_and_watch_signed_extrinsic : call -> World -> answer (TrackedTransactionStatus BlockId).
Variable submit_signed_extrinsic : call -> World -> answer unit.
Variable para_lifecycle : Z -> World -> answer (option ParaLifecycle).
Variable para_genesis_header : World -> answer Header.
Variable para_code : Header -> World -> answer (option Code).
Variable LOWEST_PUBLIC_ID : Z.

(** A command: its result with the state of the nodes and the log. *)
Definition command (A : Type) : Type := World * log -> outcome (RegisterError NodeError) A * (World * log).

Definition ret {A : Type} (a : A) : command A := fun s => (Ok a, s).
Definition fail {A : Type} (e : RegisterError NodeError) : command A := fun s => (Err e, s).
Definition bind {A B : Type} (c : command A) (k : A -> command B) : command B := fun s =>
  match c s with
  | (Ok a, s) => k a s
  | (Err e, s) => (Err e, s)
  | (Panic, s) => (Panic, s)
  end.
Definition request {A : Type} (f : World -> answer A) : command A := fun '(w, l) =>
  let (r, w) := f w in (map_err RequestFailed r, (w, l)).
Definition tell (e : log_event Account Header Code) : command unit := fun '(w, l) => (Ok tt, (w, (l ++ [e])%list)).

Local Notation "'let!' x ':=' c 'in' k" := (bind c (fun x => k)) 
  (at level 10, x name, c at level 100, k at level 200).

(** Submit a transaction and wait until it is finalized or lost. *)
Definition submit_and_wait (c : call) (lost : RegisterError NodeError) : command unit :=
  let! _ := tell (Submits c) in
  let! result := request (submit_and_watch_signed_extrinsic c) in
  match result with
  | Lost => fail lost
  | Finalized _ => tell (Finalizes c)
  end.

(** [wait_para_state]: [false] when the parachain is still on the way after [fuel] readings. *)
Fixpoint wait_para_state (fuel : nat) (para_id : Z) (from_states : list ParaLifecycle) (to_state : ParaLifecycle) :
  command bool :=
  match fuel with
  | O => ret false
  | S fuel =>
      let! state := request (para_lifecycle para_id) in
      match state with
      | None => fail CannotFetchLifecycle
      | Some para_state =>
          if decide (para_state = to_state) then
            let! _ := tell (Observes para_state) in
            ret true
          else if decide (para_state ∈ from_states) then
            let! _ := tell (Observes para_state) in
            wait_para_state fuel para_id from_states to_state
          else fail (InvalidLifecycle para_state)
      end
  end.

(** [Balance::cast]. *)
Definition balance_cast (deposit : Z) : command Z :=
  if deposit <=? u64_max then ret deposit else fun s => (Panic, s).

Definition run (fuel : nat) (relay_sudo_account : Account) (deposit lease_begin lease_end : Z) : command bool :=
  let! next := request next_free_para_id in
  let para_id := Z.max (default LOWEST_PUBLIC_ID next) LOWEST_PUBLIC_ID in
  let! _ := submit_and_wait Reserve FailedToFinalizeReserve in
  let! genesis_header := request para_genesis_header in
  let! maybe_code := request (para_code genesis_header) in
  match maybe_code with
  | None => fail CannotFetchCode
  | Some code =>
      let! _ := submit_and_wait (Register para_id genesis_header code) FailedToFinalizeRegister in
      let! onboarded := wait_para_state fuel para_id [Onboarding; Parathread] Parathread in
      if negb onboarded then ret false
      else
        let! para_deposit := balance_cast deposit in
        let call := SudoForceLease para_id relay_sudo_account para_deposit lease_begin
          (saturating_add u32_max (saturating_sub lease_end lease_begin) 1) in
        let! _ := tell (Submits call) in
        let! _ := request (submit_signed_extrinsic call) in
        wait_para_state fuel para_id [Onboarding; UpgradingParathread; Parathread] Parachain
  end.

(** ** What a command logs *)

(** However the nodes answer, the result of the command and what it adds to the log satisfy [Q]. *)
Definition logs {A : Type} (c : command A) (Q : outcome (RegisterError NodeError) A -> log -> Prop) : Prop :=
  forall w l, exists r w' ext, c (w, l) = (r, (w', (l ++ ext)%list)) /\ Q r ext.

Lemma logs_bind {A B : Type} (c : command A) (k : A -> command B)
  (Q : outcome (RegisterError NodeError) A -> log -> Prop) (R : outcome (RegisterError NodeError) B -> log -> Prop) :
  logs c Q ->
  (forall a ext, Q (Ok a) ext -> logs (k a) (fun r ext' => R r (ext ++ ext')%list)) ->
  (forall e ext, Q (Err e) ext -> R (Err e) ext) -> (forall ext, Q Panic ext -> R Panic ext) ->
  logs (bind c k) R.
Proof.
  intros Hc Hk He Hp w l. destruct (Hc w l) as (r & w' & ext & E & HQ). unfold bind. rewrite E.
  destruct r as [a|e|]; [|by eauto 7..].
  destruct (Hk a ext HQ w' (l ++ ext)%list) as (r & w'' & ext' & E' & HR).
  exists r, w'', (ext ++ ext')%list. by rewrite E', app_assoc.
Qed.

Lemma logs_request {A : Type} (f : World -> answer A) : logs (request f) (fun _ ext => ext = []).
Proof.
  intros w l. unfold request. destruct (f w) as [r w'].
  exists (map_err RequestFailed r), w', []. by rewrite app_nil_r.
Qed.

Lemma logs_tell (e : log_event Account Header Code) : logs (tell e) (fun r ext => r = Ok tt /\ ext = [e]).
Proof. intros w l. by exists (Ok tt), w, [e]. Qed.

Lemma logs_now {A : Type} (r : outcome (RegisterError NodeError) A) : logs (fun s => (r, s)) (fun r' ext => r' = r /\ ext = []).
Proof. intros w l. exists r, w, []. by rewrite app_nil_r. Qed.

Lemma logs_weaken {A : Type} (c : command A) (Q R : outcome (RegisterError NodeError) A -> log -> Prop) :
  logs c Q -> (forall r ext, Q r ext -> R r ext) -> logs c R.
Proof. intros Hc HQR w l. destruct (Hc w l) as (r & w' & ext & E & HQ). eauto 7. Qed.

Lemma submit_and_wait_logs (c : call) (lost : RegisterError NodeError) :
  logs (submit_and_wait c lost) (fun r ext => r = Ok tt /\ ext = [Submits c; Finalizes c] \/ r <> Ok tt /\ ext = [Submits c]).
Proof.
  unfold submit_and_wait. eapply logs_bind; [apply logs_tell| |by intros ? ? [? _]|by intros ? [? _]].
  intros _ ext [_ ->]. eapply logs_bind; [apply logs_request| |by intros ? ? ->; right|by intros ? ->; right].
  intros result ext ->. destruct result.
  - eapply logs_weaken; [apply logs_now|]. intros r ext [-> ->]. by right.
  - eapply logs_weaken; [apply logs_tell|]. intros r ext [-> ->]. by left.
Qed.

Definition waiting (from : list ParaLifecycle) (to : ParaLifecycle) (waits : list ParaLifecycle) : Prop :=
  Forall (fun s => s ∈ from /\ s <> to) waits.

Lemma wait_para_state_logs (fuel : nat) (id : Z) (from : list ParaLifecycle) (to : ParaLifecycle) :
  logs (wait_para_state fuel id from to) (fun r ext => exists waits, waiting from to waits /\
    (r = Ok true /\ ext = (map Observes waits ++ [Observes to])%list \/ r <> Ok true /\ ext = map Observes waits)).
Proof.
  induction fuel as [|fuel IH]; cbn [wait_para_state].
  { eapply logs_weaken; [apply logs_now|]. intros r ext [-> ->]. exists []. split; [constructor|by right]. }
  eapply logs_bind; [apply logs_request| |by intros ? ? ->; exists []; split; [constructor|right]|
    by intros ? ->; exists []; split; [constructor|right]].
  intros [s|] ext ->; cbn [app].
  2: { eapply logs_weaken; [apply logs_now|]. intros r ext [-> ->]. exists []. split; [constructor|by right]. }
  destruct (decide (s = to)) as [->|Hne]; [|destruct (decide (s ∈ from)) as [Hin|Hout]].
  - eapply logs_bind; [apply logs_tell| |by intros ? ? [? _]|by intros ? [? _]]. intros _ ext [_ ->].
    eapply logs_weaken; [apply logs_now|]. intros r ext [-> ->]. exists []. split; [constructor|by left].
  - eapply logs_bind; [apply logs_tell| |by intros ? ? [? _]|by intros ? [? _]]. intros _ ext [_ ->].
    eapply logs_weaken; [exact IH|]. intros r ext (waits & Hw & H).
    exists (s :: waits). split; [by constructor|]. destruct H as [[-> ->]|[? ->]]; [by left|by right].
  - eapply logs_weaken; [apply logs_now|]. intros r ext [-> ->]. exists []. split; [constructor|by right].
Qed.

(** The log of a registration: each transaction is submitted after the one before is finalized, and
    the lease is forced after the parathread is onboarded. *)
Definition registration (id : Z) (account : Account) (head : Header) (code : Code) (amount begin count : Z)
  (waits waits' : list ParaLifecycle) : log :=
  ([Submits Reserve; Finalizes Reserve; Submits (Register id head code); Finalizes (Register id head code)]
   ++ (map Observes waits ++ [Observes Parathread])
   ++ [Submits (SudoForceLease id account amount begin count)]
   ++ (map Observes waits' ++ [Observes Parachain]))%list.

(** What a run has logged is the beginning of a registration with one id, which is public, and the
    whole of it exactly when the parachain is registered. *)
Definition registers (account : Account) (deposit lease_begin lease_end : Z)
  (r : outcome (RegisterError NodeError) bool) (ext : log) : Prop :=
  r <> Ok true /\ ext `prefix_of` [Submits Reserve; Finalizes Reserve] \/
  exists id head code waits waits',
    LOWEST_PUBLIC_ID <= id /\ waiting [Onboarding; Parathread] Parathread waits /\
    waiting [Onboarding; UpgradingParathread; Parathread] Parachain waits' /\
    let log := registration id account head code deposit lease_begin
      (saturating_add u32_max (saturating_sub lease_end lease_begin) 1) waits waits' in
    r = Ok true /\ ext = log /\ deposit <= u64_max \/ r <> Ok true /\ ext `prefix_of` log.

Lemma waiting_none (from : list ParaLifecycle) (to : ParaLifecycle) : waiting from to [].
Proof. constructor. Qed.

Lemma registers_part (id : Z) (account : Account) (head : Header) (code : Code)
  (deposit lease_begin lease_end : Z) (waits waits' : list ParaLifecycle)
  (r : outcome (RegisterError NodeError) bool) (ext : log) :
  r <> Ok true -> LOWEST_PUBLIC_ID <= id -> waiting [Onboarding; Parathread] Parathread waits ->
  waiting [Onboarding; UpgradingParathread; Parathread] Parachain waits' ->
  ext `prefix_of` registration id account head code deposit lease_begin
    (saturating_add u32_max (saturating_sub lease_end lease_begin) 1) waits waits' ->
  registers account deposit lease_begin lease_end r ext.
Proof. intros. right. exists id, head, code, waits, waits'. split_and!; auto. Qed.

(** The log up to the onboarding of the parathread. *)
Definition onboarding (id : Z) (head : Header) (code : Code) (waits : list ParaLifecycle) : log :=
  ([Submits Reserve; Finalizes Reserve; Submits (Register id head code); Finalizes (Register id head code)]
   ++ (map Observes waits ++ [Observes Parathread]))%list.

(** The part of the command after the onboarding: the lease. *)
Lemma lease_logs (fuel : nat) (id : Z) (account : Account) (head : Header) (code : Code)
  (deposit lease_begin lease_end : Z) (waits : list ParaLifecycle) :
  LOWEST_PUBLIC_ID <= id -> waiting [Onboarding; Parathread] Parathread waits ->
  let count := saturating_add u32_max (saturating_sub lease_end lease_begin) 1 in
  logs (bind (balance_cast deposit) (fun para_deposit =>
          let lease := SudoForceLease id account para_deposit lease_begin count in
          bind (tell (Submits lease)) (fun _ => bind (request (submit_signed_extrinsic lease)) (fun _ =>
            wait_para_state fuel id [Onboarding; UpgradingParathread; Parathread] Parachain))))
    (fun r ext => registers account deposit lease_begin lease_end r (onboarding id head code waits ++ ext)%list).
Proof.
  intros Hid Hw count.
  assert (forall waits', registration id account head code deposit lease_begin count waits waits'
    = onboarding id head code waits ++ Submits (SudoForceLease id account deposit lease_begin count)
        :: (map Observes waits' ++ [Observes Parachain]))%list as Hreg.
  { intros waits'. unfold registration, onboarding. by rewrite <- !app_assoc. }
  unfold balance_cast. destruct (Z.leb_spec deposit u64_max) as [Hdep|Hdep].
  2: { eapply logs_bind; [apply (logs_now Panic)|by intros ? ? [? _]|by intros ? ? [? _]|].
       intros ext [_ ->]. eapply (registers_part id _ head code _ _ _ waits []); auto using waiting_none.
       rewrite Hreg. apply prefix_app, prefix_nil. }
  eapply logs_bind; [apply (logs_now (Ok deposit))| |by intros ? ? [? _]|by intros ? [? _]].
  intros ? ext [[= ->] ->]. cbn zeta.
  eapply logs_bind; [apply logs_tell| |by intros ? ? [? _]|by intros ? [? _]]. intros _ ext [_ ->]. cbn [app].
  eapply logs_bind; [apply logs_request| | |].
  2, 3: intros *; intros ->; eapply (registers_part id _ head code _ _ _ waits []); auto using waiting_none;
    rewrite Hreg; apply prefix_app, prefix_cons, prefix_nil.
  intros _ ext ->. eapply logs_weaken; [apply wait_para_state_logs|].
  intros r ext (waits' & Hw' & [[-> ->]|[Hr ->]]).
  - right. exists id, head, code, waits, waits'. split_and!; [done..|]. left. fold count. by rewrite Hreg.
  - eapply (registers_part id _ head code _ _ _ waits waits'); auto.
    fold count. rewrite Hreg. apply prefix_app, prefix_cons. by eexists.
Qed.

(** However the nodes answer, the command registers the parachain step by step: the id it
    registers is the one it has read, at least the lowest public one; the parachain is registered
    after the reservation is finalized, the lease is forced after the parathread was seen
    onboarded, for the given deposit and period; and the command succeeds exactly when the
    parachain was seen in the end. *)
Theorem registration_goes_in_order (fuel : nat) (account : Account) (deposit lease_begin lease_end : Z) (w : World) (l : log) :
  exists r w' ext, run fuel account deposit lease_begin lease_end (w, l) = (r, (w', (l ++ ext)%list))
    /\ registers account deposit lease_begin lease_end r ext.
Proof.
  revert w l. change (logs (run fuel account deposit lease_begin lease_end) (registers account deposit lease_begin lease_end)).
  unfold run. eapply logs_bind; [apply logs_request| |by intros ? ? ->; left; split; [|by eexists]|
    by intros ? ->; left; split; [|by eexists]].
  intros next ext ->. cbn [app]. set (id := Z.max _ _).
  assert (LOWEST_PUBLIC_ID <= id) as Hid by (unfold id; lia).
  eapply logs_bind; [apply submit_and_wait_logs| | |].
  2: intros e ext [[? _]|[_ ->]]; [done|left; split; [done|by eexists]].
  2: intros ext [[? _]|[_ ->]]; [done|left; split; [done|by eexists]].
  intros [] ext [[_ ->]|[? _]]; [|done].
  eapply logs_bind; [apply logs_request| |by intros ? ? ->; left|by intros ? ->; left].
  intros head ext ->. cbn [app].
  eapply logs_bind; [apply logs_request| |by intros ? ? ->; left|by intros ? ->; left].
  intros [code|] ext ->.
  2: { eapply logs_weaken; [apply logs_now|]. intros r ext [-> ->]. by left. }
  cbn [app].
  eapply logs_bind; [apply submit_and_wait_logs| | |].
  2, 3: intros *; intros [[? _]|[_ ->]]; [done|]; eapply (registers_part id _ head code _ _ _ [] []);
    auto using waiting_none; by eexists.
  intros [] ext [[_ ->]|[? _]]; [|done]. cbn [app].
  eapply logs_bind; [apply wait_para_state_logs| | |].
  2, 3: intros *; intros (waits & Hw & [[? _]|[_ ->]]); [done|]; eapply (registers_part id _ head code _ _ _ waits []);
    auto using waiting_none; unfold registration; rewrite <- app_assoc; by eexists.
  intros onboarded ext (waits & Hw & Hcase). destruct Hcase as [[[= ->] ->]|[Hno ->]]; cbn [negb].
  - exact (lease_logs fuel id account head code deposit lease_begin lease_end waits Hid Hw).
  - destruct onboarded; [done|]. cbn [negb]. eapply logs_weaken; [apply logs_now|]. intros r ext [-> ->].
    rewrite app_nil_r. eapply (registers_part id _ head code _ _ _ waits []); auto using waiting_none.
    unfold registration; rewrite <- app_assoc; by eexists.
Qed.
End RegisterParachain.

(** A relay chain that onboards the parachain after a while: the state counts the readings. *)
Example parachain_gets_registered :
  let states := [Onboarding; Onboarding; Parathread; Parathread; UpgradingParathread; Parachain] in
  run (World := nat) (BlockId := unit) (NodeError := unit) (fun n => (Ok None, n)) (fun _ n => (Ok (Finalized tt), n))
    (fun _ n => (Ok tt, n)) (fun _ n => (Ok (states !! n), S n)) (fun n => (Ok 7, n)) (fun _ n => (Ok (Some 8), n))
    2000 3 tt 0 0 256 (0%nat, [])
  = (Ok true, (6%nat, registration 2000 tt 7 8 0 0 257 [Onboarding; Onboarding] [Parathread; UpgradingParathread])).
Proof. reflexivity. Qed.
