(* ===== verification/LaneLoop.v ===== *)
(** * relays/messages/src/message_lane_loop.rs: the loop of a message lane

    The loop reads the states of the two clients and forwards every state through unbounded
    channels to the two races of the lane, which run inside it: messages are delivered from the
    source to the target, confirmations from the target to the source. *)

From S2P Require Import Prelude Substrate RuntimePrimitives MessagesPrimitives RelayUtils.
From S2P Require Import RaceStrategy DeliveryRace MessagesClients RaceLoop.
From stdpp Require Import base numbers list gmap.
Local Open Scope Z_scope.

(** ** A race with the channels that feed it *)

Section FedRace.
Context {S R D PP SourceHeaderId TargetHeaderId Proof BatchTx E B : Type}.
Context `{RaceStrategy S R D PP SourceHeaderId TargetHeaderId Proof BatchTx}.
Context `{EqDecision SourceHeaderId, EqDecision TargetHeaderId}.
Context `{MaybeConnectionError E} `{Backoff B}.
Context (required_header_id : BatchTx -> SourceHeaderId).
Abbreviation the_race :=
  (race (S := S) (PP := PP) (SourceHeaderId := SourceHeaderId) (TargetHeaderId := TargetHeaderId)
     (Proof := Proof) (BatchTx := BatchTx) (B := B)).
Abbreviation the_event :=
  (event (R := R) (D := D) (SourceHeaderId := SourceHeaderId) (TargetHeaderId := TargetHeaderId)
     (Proof := Proof) (BatchTx := BatchTx) (E := E)).
Abbreviation source_state := (ClientState SourceHeaderId TargetHeaderId).
Abbreviation target_state := (ClientState TargetHeaderId SourceHeaderId).

Record fed_race := Fed {
  source_state_receiver : list source_state;
  target_state_receiver : list target_state;
  fed : the_race;
}.

(** A turn of the race takes a state out of a channel, or handles another future. *)
Inductive fed_event :=
| ReadSourceState
| ReadTargetState
| RaceFuture (ev : the_event).

Definition is_state_event (ev : the_event) : bool :=
  match ev with
  | SourceStateUpdated _ | TargetStateUpdated _ => true
  | _ => false
  end.

Definition fed_enabled (ev : fed_event) (f : fed_race) : bool :=
  match ev with
  | ReadSourceState => negb (bool_decide (source_state_receiver f = []))
  | ReadTargetState => negb (bool_decide (target_state_receiver f = []))
  | RaceFuture ev => negb (is_state_event ev) && enabled ev (fed f)
  end.

Definition fed_turn (ev : fed_event) (f : fed_race) : outcome FailedClient fed_race :=
  match ev with
  | ReadSourceState =>
      match source_state_receiver f with
      | [] => Ok f
      | st :: rest =>
          let? r := run_iteration required_header_id (SourceStateUpdated (Some st)) (fed f) in
          Ok (Fed rest (target_state_receiver f) r)
      end
  | ReadTargetState =>
      match target_state_receiver f with
      | [] => Ok f
      | st :: rest =>
          let? r := run_iteration required_header_id (TargetStateUpdated (Some st)) (fed f) in
          Ok (Fed (source_state_receiver f) rest r)
      end
  | RaceFuture ev =>
      let? r := run_iteration required_header_id ev (fed f) in
      Ok (Fed (source_state_receiver f) (target_state_receiver f) r)
  end.

Definition fed_failure (ev : fed_event) : option FailedClient :=
  match ev with
  | RaceFuture ev => failed_client ev
  | _ => None
  end.

(** ** What the race knows of the two chains *)

Record race_view (s : option source_state) (t : option target_state) (r : the_race) : Prop := {
  view_source :
    best_finalized_source_header_id_at_source (race_state r) = best_finalized_self <$> s;
  view_best_target : best_target_header_id (race_state r) = best_self <$> t;
  view_finalized_target :
    best_finalized_target_header_id (race_state r) = best_finalized_self <$> t;
}.

(** The source header that the target is known to have, after the states [targets] were read: the
    one that the target reported when its present best header was first seen. *)
Definition peer_known (targets : list target_state) (peer : option SourceHeaderId) : Prop :=
  match targets with
  | [] => peer = None
  | _ =>
      exists before st same, targets = before ++ st :: same /\
        Forall (fun st' => best_self st' = best_self st) same /\
        best_self <$> last before <> Some (best_self st) /\
        peer = best_finalized_peer_at_best_self st
  end.

(** The identifiers that a race knows. *)
Definition known (r : the_race) :=
  (best_finalized_source_header_id_at_source (race_state r), best_target_header_id (race_state r),
   best_finalized_target_header_id (race_state r),
   best_finalized_source_header_id_at_best_target (race_state r)).

Lemma only_resets_known rs rs' st st' s s' t t' :
  only_resets rs rs' -> known (Race rs' st' s' t') = known (Race rs st s t).
Proof. intros (H1' & H2' & H3' & H4' & _). unfold known. cbn. by rewrite H1', H2', H3', H4'. Qed.

Lemma schedule_known (r r' : the_race) :
  (let? r := schedule_source required_header_id r in schedule_target r) = Ok r' -> known r' = known r.
Proof.
  rewrite obind_Ok. intros (r1 & Hs & Ht). transitivity (known r1).
  - unfold schedule_target in Ht. destruct (target_client_is_online _); [|by simplify_eq].
    destruct (to_submit _) as [[[? ?] ?]|]; [by simplify_eq|].
    destruct (source_required_header _); [by simplify_eq|].
    destruct (target_best_nonces_required _); [apply obind_Ok in Ht as (? & _ & ?); by simplify_eq|].
    destruct (target_finalized_nonces_required _); [|by simplify_eq].
    apply obind_Ok in Ht as (? & _ & ?). by simplify_eq.
  - unfold schedule_source in Hs. destruct (source_client_is_online _); [|by simplify_eq].
    apply obind_Ok in Hs as (o & _ & Hs). destruct o as [[[? ?] ?]|]; [by simplify_eq|].
    destruct (best_at_source _); [|by simplify_eq].
    destruct (source_nonces_required _); [|by simplify_eq].
    apply obind_Ok in Hs as (? & _ & ?). by simplify_eq.
Qed.

Context `{!RaceStrategyLaws}.

Lemma on_event_known (ev : the_event) (r r' : the_race) :
  is_state_event ev = false -> on_event ev r = Ok r' -> known r' = known r.
Proof.
  destruct ev as [st|st|res|res|res|res|res|res|status res| |]; try done; intros _; simpl.
  - unfold on_source_nonces. destruct (process_future_result _ _ _ _) as [[[result st] b] d].
    rewrite obind_Ok. intros (? & _ & ?). by simplify_eq.
  - unfold on_target_best_nonces, process_future_result. destruct res as [[id nonces]|e].
    + pose proof (best_update_resets nonces (strategy r) (race_state r)) as Hr.
      destruct (best_target_nonces_updated _ _) as [st rs]. intros [= <-]. destruct r.
      by apply only_resets_known.
    + destruct (is_connection_error e); [done|]. destruct (next_backoff _). intros [= <-]. done.
  - unfold on_target_finalized_nonces, process_future_result. destruct res as [[id nonces]|e].
    + pose proof (finalized_update_resets nonces (strategy r) (race_state r)) as Hr.
      destruct (finalized_target_nonces_updated _ _) as [st rs]. intros [= <-]. destruct r.
      by apply only_resets_known.
    + destruct (is_connection_error e); [done|]. destruct (next_backoff _). intros [= <-]. done.
  - unfold on_require_source_header. destruct (process_future_result _ _ _ _) as [[[result st] b] d].
    rewrite obind_Ok. intros (? & _ & ?). by simplify_eq.
  - unfold on_generate_proof, process_future_result. destruct res as [p|e]; [intros [= <-]; done|].
    destruct (is_connection_error e); [done|]. by destruct (next_backoff _).
  - unfold on_submit_proof, process_future_result. destruct res as [p|e]; [intros [= <-]; done|].
    destruct (is_connection_error e); [done|]. by destruct (next_backoff _).
  - intros [= <-]. unfold on_tx_tracker, known. cbn.
    destruct status, (nonces_submitted (race_state r)); try destruct res as [[? ?]|?]; try case_match; done.
  - by intros [= <-].
  - by intros [= <-].
Qed.

Lemma view_known s t (r r' : the_race) : known r' = known r -> race_view s t r -> race_view s t r'.
Proof. intros [= Ha Hb Hc _] [Hs Hb' Hf]. split; congruence. Qed.

Lemma peer_known_ext targets (r r' : the_race) :
  known r' = known r ->
  peer_known targets (best_finalized_source_header_id_at_best_target (race_state r)) ->
  peer_known targets (best_finalized_source_header_id_at_best_target (race_state r')).
Proof. by intros [= _ _ _ ->]. Qed.

Lemma on_source_state_view s t (r : the_race) st :
  race_view s t r -> race_view (Some st) t (on_source_state (Some st) r).
Proof. intros [Hs Hb Hf]. unfold on_source_state. case_decide; by split. Qed.

Lemma on_target_state_view s t (r : the_race) st :
  race_view s t r -> race_view s (Some st) (on_target_state (Some st) r).
Proof.
  intros [Hs Hb Hf]. unfold on_target_state. do 2 case_bool_decide; split; done.
Qed.

Lemma on_source_state_peer (r : the_race) st :
  best_finalized_source_header_id_at_best_target (race_state (on_source_state (Some st) r)) =
  best_finalized_source_header_id_at_best_target (race_state r).
Proof. unfold on_source_state. by case_decide. Qed.

Lemma on_target_state_peer s targets (r : the_race) st :
  race_view s (last targets) r ->
  peer_known targets (best_finalized_source_header_id_at_best_target (race_state r)) ->
  peer_known (targets ++ [st])
    (best_finalized_source_header_id_at_best_target (race_state (on_target_state (Some st) r))).
Proof.
  intros [_ Hb _] Hp. unfold peer_known at 1.
  destruct (targets ++ [st]) as [|st' l] eqn:El; [by destruct targets|]. rewrite <- El. clear El st' l.
  destruct (decide (best_target_header_id (race_state r) = Some (best_self st))) as [He|Hne].
  - replace (best_finalized_source_header_id_at_best_target _)
      with (best_finalized_source_header_id_at_best_target (race_state r)).
    2: { unfold on_target_state. rewrite (bool_decide_true _ He). by case_bool_decide. }
    rewrite Hb in He. destruct targets as [|st1 targets]; [done|].
    destruct Hp as (before & st0 & same & Ht & Hsame & Hbefore & Hpeer).
    rewrite Ht in He |- *. exists before, st0, (same ++ [st]).
    split_and!; [by rewrite <- app_assoc| |done|done]. apply Forall_app. split; [done|].
    constructor; [|done]. rewrite last_app_cons in He.
    destruct same as [|x same _] using rev_ind; simpl in He; [congruence|].
    rewrite app_comm_cons, last_snoc in He. apply Forall_app in Hsame as [_ [Hx _]%Forall_cons].
    simpl in He. congruence.
  - exists targets, st, []. split_and!; [done|constructor|by rewrite <- Hb|].
    unfold on_target_state. rewrite (bool_decide_false _ Hne). by case_bool_decide.
Qed.

(** The states that a channel still holds and the last one taken out of it. *)
Definition channel {A : Type} (sent : list A) (taken : nat) (queue : list A) : Prop :=
  (taken <= length sent)%nat /\ queue = drop taken sent.

Lemma channel_send {A : Type} (sent : list A) taken queue a :
  channel sent taken queue -> channel (sent ++ [a]) taken (queue ++ [a]).
Proof.
  intros [Hl ->]. split; [rewrite length_app; lia|]. by rewrite drop_app_le.
Qed.

Lemma channel_take {A : Type} (sent : list A) taken queue a :
  channel sent taken (a :: queue) ->
  channel sent (Datatypes.S taken) queue /\
  take (Datatypes.S taken) sent = take taken sent ++ [a].
Proof.
  intros [Hl Hq]. assert (Ha : sent !! taken = Some a).
  { rewrite <- (Nat.add_0_r taken), <- lookup_drop, <- Hq. done. }
  apply lookup_lt_Some in Ha as Hlt. split; [split; [lia|]|].
  - rewrite <- Nat.add_1_r, <- drop_drop, <- Hq. done.
  - by apply take_S_r.
Qed.

Lemma last_take_send {A : Type} (sent : list A) taken queue a :
  channel sent taken queue -> take taken (sent ++ [a]) = take taken sent.
Proof. intros [Hl _]. by rewrite take_app_le. Qed.

(** The race has its invariant, its channels are the states sent and not yet taken, and it knows
    the chains as of the last states taken, the source header at the target included. *)
Record fed_ok (sources : list source_state) (targets : list target_state) (ns nt : nat)
  (f : fed_race) : Prop := {
  fed_race_ok : race_ok (fed f);
  fed_sources : channel sources ns (source_state_receiver f);
  fed_targets : channel targets nt (target_state_receiver f);
  fed_view : race_view (last (take ns sources)) (last (take nt targets)) (fed f);
  fed_peer : peer_known (take nt targets)
    (best_finalized_source_header_id_at_best_target (race_state (fed f)));
}.

Definition reads_source (ev : fed_event) : nat := match ev with ReadSourceState => 1 | _ => 0 end.
Definition reads_target (ev : fed_event) : nat := match ev with ReadTargetState => 1 | _ => 0 end.

Lemma fed_turn_ok sources targets ns nt (ev : fed_event) (f : fed_race) :
  fed_ok sources targets ns nt f -> fed_enabled ev f = true ->
  match fed_turn ev f with
  | Ok f' =>
      fed_failure ev = None /\
      fed_ok sources targets (reads_source ev + ns) (reads_target ev + nt) f'
  | Err c => fed_failure ev = Some c
  | Panic => False
  end.
Proof.
  destruct f as [qs qt r]. intros [Hok Hs Ht Hv Hp] Hen. cbn [fed source_state_receiver target_state_receiver] in *.
  destruct ev as [| |ev]; cbn [fed_turn fed_enabled fed source_state_receiver target_state_receiver reads_source reads_target Nat.add] in *.
  - destruct qs as [|st qs]; [done|]. apply channel_take in Hs as [Hs Hlast].
    pose proof (run_iteration_ok required_header_id (SourceStateUpdated (Some st) : the_event) r Hok eq_refl) as Hit.
    unfold run_iteration in *. cbn [on_event obind] in *.
    destruct (obind (schedule_source _ _) _) as [r'|c|] eqn:Er; [|done..].
    destruct Hit as (_ & Hok' & _). cbn [obind]. split; [done|].
    apply schedule_known in Er.
    split; [done..| |]; rewrite ?Hlast; cbn [fed].
    + rewrite last_snoc. eapply view_known; [exact Er|]. by eapply on_source_state_view.
    + eapply peer_known_ext; [exact Er|]. by rewrite on_source_state_peer.
  - destruct qt as [|st qt]; [done|]. apply channel_take in Ht as [Ht Hlast].
    pose proof (run_iteration_ok required_header_id (TargetStateUpdated (Some st) : the_event) r Hok eq_refl) as Hit.
    unfold run_iteration in *. cbn [on_event obind] in *.
    destruct (obind (schedule_source _ _) _) as [r'|c|] eqn:Er; [|done..].
    destruct Hit as (_ & Hok' & _). cbn [obind]. split; [done|].
    apply schedule_known in Er.
    split; [done..| |]; rewrite ?Hlast; cbn [fed].
    + rewrite last_snoc. eapply view_known; [exact Er|]. by eapply on_target_state_view.
    + eapply peer_known_ext; [exact Er|]. by eapply on_target_state_peer.
  - apply andb_true_iff in Hen as [Hst Hen]. apply negb_true_iff in Hst.
    pose proof (run_iteration_ok required_header_id ev r Hok Hen) as Hit.
    destruct (run_iteration required_header_id ev r) as [r'|c|] eqn:Er; [|done..].
    destruct Hit as (Hfail & Hok' & _). cbn [obind]. split; [done|].
    unfold run_iteration in Er. apply obind_Ok in Er as (r1 & Hev & Er).
    assert (known r' = known r) as Hk
      by (rewrite (schedule_known r1 r') by done; by eapply on_event_known).
    split; [done..| |]; cbn [fed]; [by eapply view_known|by eapply peer_known_ext].
Qed.

Lemma fed_send_source sources targets ns nt f st :
  fed_ok sources targets ns nt f ->
  fed_ok (sources ++ [st]) targets ns nt
    (Fed (source_state_receiver f ++ [st]) (target_state_receiver f) (fed f)).
Proof.
  intros [Hok Hs Ht Hv Hp]. split; cbn; [done|by apply channel_send|done| |done].
  by erewrite last_take_send.
Qed.

Lemma fed_send_target sources targets ns nt f st :
  fed_ok sources targets ns nt f ->
  fed_ok sources (targets ++ [st]) ns nt
    (Fed (source_state_receiver f) (target_state_receiver f ++ [st]) (fed f)).
Proof.
  intros [Hok Hs Ht Hv Hp]. split; cbn; [done|done|by apply channel_send|..];
    by erewrite last_take_send.
Qed.
End FedRace.

(** ** The loop *)

Section LaneLoop.
Context `{WeightOps} {SrcHash TgtHash Balance E B : Type}.
Context {MessagesProof MessagesReceivingProof SourceBatch TargetBatch : Type}.
Context `{EqDecision SrcHash, EqDecision TgtHash} `{MaybeConnectionError E} `{Backoff B}.
Context (required_source_header : TargetBatch -> HeaderId SrcHash).
Context (required_target_header : SourceBatch -> HeaderId TgtHash).
Context (retry_backoff : B).
Abbreviation SourceClientState := (ClientState (HeaderId SrcHash) (HeaderId TgtHash)).
Abbreviation TargetClientState := (ClientState (HeaderId TgtHash) (HeaderId SrcHash)).

(** The delivery race: the source of the lane is the source of the race. *)
Abbreviation delivery_race :=
  (fed_race (S := MessageDeliveryStrategy SrcHash Balance) (PP := MessageProofParameters)
     (SourceHeaderId := HeaderId SrcHash) (TargetHeaderId := HeaderId TgtHash)
     (Proof := MessagesProof) (BatchTx := TargetBatch) (B := B)).
Abbreviation delivery_event :=
  (fed_event (R := MessageDetailsMap Balance) (D := DeliveryRaceTargetNoncesData)
     (SourceHeaderId := HeaderId SrcHash) (TargetHeaderId := HeaderId TgtHash)
     (Proof := MessagesProof) (BatchTx := TargetBatch) (E := E)).

(** The race of confirmations runs the other way. *)
Abbreviation receiving_race :=
  (fed_race (S := BasicStrategy TgtHash RangeInclusive) (PP := unit)
     (SourceHeaderId := HeaderId TgtHash) (TargetHeaderId := HeaderId SrcHash)
     (Proof := MessagesReceivingProof) (BatchTx := SourceBatch) (B := B)).
Abbreviation receiving_event :=
  (fed_event (R := RangeInclusive) (D := unit)
     (SourceHeaderId := HeaderId TgtHash) (TargetHeaderId := HeaderId SrcHash)
     (Proof := MessagesReceivingProof) (BatchTx := SourceBatch) (E := E)).

(** The variables of the loop for one client; [client_state_future]: the request runs. *)
Record client_side := ClientSide {
  client_retry_backoff : B;
  client_is_online : bool;
  client_state_required : bool;
  client_state_future : bool;
  client_go_offline_future : option Z;
}.

Record lane_loop := Lane {
  lane_source : client_side;
  lane_target : client_side;
  lane_delivery : delivery_race;
  lane_receiving : receiving_race;
}.

Definition client_start : client_side := ClientSide retry_backoff false true true None.

Definition lane_start (params : MessageDeliveryParams) : lane_loop :=
  Lane client_start client_start
    (Fed [] [] (initial (MessageDeliveryStrategy.new params) retry_backoff))
    (Fed [] [] (initial BasicStrategy.new retry_backoff)).

Inductive lane_event :=
| NewSourceState (new_source_state : SourceClientState + E)
| SourceGoesOnline
| SourceTick
| NewTargetState (new_target_state : TargetClientState + E)
| TargetGoesOnline
| TargetTick
| DeliveryTurn (ev : delivery_event)
| ReceivingTurn (ev : receiving_event)
| ExitSignal.

Definition lane_enabled (ev : lane_event) (l : lane_loop) : bool :=
  match ev with
  | NewSourceState _ => client_state_future (lane_source l)
  | SourceGoesOnline => bool_decide (is_Some (client_go_offline_future (lane_source l)))
  | NewTargetState _ => client_state_future (lane_target l)
  | TargetGoesOnline => bool_decide (is_Some (client_go_offline_future (lane_target l)))
  | SourceTick | TargetTick | ExitSignal => true
  | DeliveryTurn ev => fed_enabled ev (lane_delivery l)
  | ReceivingTurn ev => fed_enabled ev (lane_receiving l)
  end.

(** The answer to a state request; [send] puts a state into the channels of both races. *)
Definition on_new_state {St : Type} (failed_client : FailedClient) (new_state : St + E)
  (send : St -> delivery_race * receiving_race -> delivery_race * receiving_race)
  (c : client_side) (races : delivery_race * receiving_race) :
  outcome FailedClient (client_side * (delivery_race * receiving_race)) :=
  let '(result, races, backoff, delay) :=
    process_future_result new_state (client_retry_backoff c) send races in
  let? online := fail_if_connection_error result failed_client in
  Ok (ClientSide backoff online false false (set_timer delay (client_go_offline_future c)), races).

Definition goes_online (c : client_side) : client_side :=
  ClientSide (client_retry_backoff c) true (client_state_required c) (client_state_future c) None.

Definition requires_state (c : client_side) : client_side :=
  ClientSide (client_retry_backoff c) (client_is_online c) true (client_state_future c)
    (client_go_offline_future c).

(** The end of an iteration: a client that is free is asked for its state, if that is required. *)
Definition ask_state (c : client_side) : client_side :=
  if client_is_online c && client_state_required c
  then ClientSide (client_retry_backoff c) false (client_state_required c) true
         (client_go_offline_future c)
  else c.

Definition ask_states (l : lane_loop) : lane_loop :=
  Lane (ask_state (lane_source l)) (ask_state (lane_target l)) (lane_delivery l) (lane_receiving l).

Definition send_source_state (st : SourceClientState) (races : delivery_race * receiving_race) :
  delivery_race * receiving_race :=
  let '(d, r) := races in
  (Fed (source_state_receiver d ++ [st]) (target_state_receiver d) (fed d),
   Fed (source_state_receiver r) (target_state_receiver r ++ [st]) (fed r)).

Definition send_target_state (st : TargetClientState) (races : delivery_race * receiving_race) :
  delivery_race * receiving_race :=
  let '(d, r) := races in
  (Fed (source_state_receiver d) (target_state_receiver d ++ [st]) (fed d),
   Fed (source_state_receiver r ++ [st]) (target_state_receiver r) (fed r)).

(** [None]: the loop has returned without an error.  A turn of a race that goes on does not
    complete a branch of the [select], so it is not followed by requests to the clients. *)
Definition lane_turn (ev : lane_event) (l : lane_loop) : outcome FailedClient (option lane_loop) :=
  let races := (lane_delivery l, lane_receiving l) in
  match ev with
  | NewSourceState st =>
      let? (c, (d, r)) := on_new_state FailedSource st send_source_state (lane_source l) races in
      Ok (Some (ask_states (Lane c (lane_target l) d r)))
  | SourceGoesOnline =>
      Ok (Some (ask_states (Lane (goes_online (lane_source l)) (lane_target l)
                              (lane_delivery l) (lane_receiving l))))
  | SourceTick =>
      Ok (Some (ask_states (Lane (requires_state (lane_source l)) (lane_target l)
                              (lane_delivery l) (lane_receiving l))))
  | NewTargetState st =>
      let? (c, (d, r)) := on_new_state FailedTarget st send_target_state (lane_target l) races in
      Ok (Some (ask_states (Lane (lane_source l) c d r)))
  | TargetGoesOnline =>
      Ok (Some (ask_states (Lane (lane_source l) (goes_online (lane_target l))
                              (lane_delivery l) (lane_receiving l))))
  | TargetTick =>
      Ok (Some (ask_states (Lane (lane_source l) (requires_state (lane_target l))
                              (lane_delivery l) (lane_receiving l))))
  | DeliveryTurn ev =>
      let? d := fed_turn required_source_header ev (lane_delivery l) in
      Ok (Some (Lane (lane_source l) (lane_target l) d (lane_receiving l)))
  | ReceivingTurn ev =>
      let? r := fed_turn required_target_header ev (lane_receiving l) in
      Ok (Some (Lane (lane_source l) (lane_target l) (lane_delivery l) r))
  | ExitSignal => Ok None
  end.

(** ** Runs *)

Inductive lane_run (params : MessageDeliveryParams) : list lane_event -> lane_loop -> Prop :=
| LaneStart : lane_run params [] (lane_start params)
| LaneTurn trace ev l l' :
    lane_run params trace l -> lane_enabled ev l = true -> lane_turn ev l = Ok (Some l') ->
    lane_run params (trace ++ [ev]) l'.

(** What the clients have answered, and how many answers each race has read. *)
Definition source_states (trace : list lane_event) : list SourceClientState :=
  omap (fun ev => match ev with NewSourceState (inl st) => Some st | _ => None end) trace.
Definition target_states (trace : list lane_event) : list TargetClientState :=
  omap (fun ev => match ev with NewTargetState (inl st) => Some st | _ => None end) trace.

Definition reads (f : lane_event -> nat) (trace : list lane_event) : nat := sum_list_with f trace.
Definition delivery_source_read (ev : lane_event) : nat :=
  match ev with DeliveryTurn ev => reads_source ev | _ => 0 end.
Definition delivery_target_read (ev : lane_event) : nat :=
  match ev with DeliveryTurn ev => reads_target ev | _ => 0 end.
Definition receiving_source_read (ev : lane_event) : nat :=
  match ev with ReceivingTurn ev => reads_target ev | _ => 0 end.
Definition receiving_target_read (ev : lane_event) : nat :=
  match ev with ReceivingTurn ev => reads_source ev | _ => 0 end.

Definition lane_failure (ev : lane_event) : option FailedClient :=
  match ev with
  | NewSourceState st => connection_failure st FailedSource
  | NewTargetState st => connection_failure st FailedTarget
  | DeliveryTurn ev => fed_failure ev
  | ReceivingTurn ev => fed_failure ev
  | _ => None
  end.

(** ** The invariant *)

(** A client is free, is asked for its state, or waits to be asked again; a free client has
    nothing that is required of it. *)
Record client_ok (c : client_side) : Prop := {
  co_one : Z.b2z (client_is_online c) + Z.b2z (client_state_future c) +
    one (client_go_offline_future c) = 1;
  co_idle : client_is_online c = true -> client_state_required c = false;
}.

Record lane_ok (trace : list lane_event) (l : lane_loop) : Prop := {
  lo_source : client_ok (lane_source l);
  lo_target : client_ok (lane_target l);
  lo_delivery : fed_ok (source_states trace) (target_states trace)
    (reads delivery_source_read trace) (reads delivery_target_read trace) (lane_delivery l);
  lo_receiving : fed_ok (target_states trace) (source_states trace)
    (reads receiving_target_read trace) (reads receiving_source_read trace) (lane_receiving l);
}.

(** What an event adds to the counters and the answers. *)
Lemma lane_ok_snoc trace ev l :
  client_ok (lane_source l) -> client_ok (lane_target l) ->
  fed_ok (source_states trace ++ source_states [ev]) (target_states trace ++ target_states [ev])
    (delivery_source_read ev + reads delivery_source_read trace)
    (delivery_target_read ev + reads delivery_target_read trace) (lane_delivery l) ->
  fed_ok (target_states trace ++ target_states [ev]) (source_states trace ++ source_states [ev])
    (receiving_target_read ev + reads receiving_target_read trace)
    (receiving_source_read ev + reads receiving_source_read trace) (lane_receiving l) ->
  lane_ok (trace ++ [ev]) l.
Proof.
  intros Hs Ht Hd Hr. split; [done|done| |];
    unfold source_states, target_states, reads in *; rewrite !omap_app, !sum_list_with_app;
    simpl; rewrite !Nat.add_0_r, !(Nat.add_comm (sum_list_with _ trace)); done.
Qed.

Lemma ask_state_ok (c : client_side) :
  Z.b2z (client_is_online c) + Z.b2z (client_state_future c) + one (client_go_offline_future c) = 1 ->
  client_ok (ask_state c).
Proof.
  destruct c as [b online required running offline]. unfold ask_state. cbn. intros Hone.
  destruct online, required; cbn; split; cbn in *; try done.
  destruct running, offline; cbn in *; lia.
Qed.

Lemma ask_state_same (c : client_side) : client_ok c -> client_ok (ask_state c).
Proof. intros [? ?]. by apply ask_state_ok. Qed.

#[local] Arguments ask_state : simpl never.

Lemma on_new_state_ok {St : Type} failed (st : St + E) send c races :
  client_ok c -> client_state_future c = true ->
  match on_new_state failed st send c races with
  | Ok (c', races') =>
      connection_failure st failed = None /\
      client_ok (ask_state c') /\
      races' = match st with inl st => send st races | inr _ => races end
  | Err f => connection_failure st failed = Some f
  | Panic => False
  end.
Proof.
  intros [Hone _] Hrun. destruct c as [b online required running offline]. cbn in *. subst running.
  destruct online, offline; cbn in *; try lia.
  unfold on_new_state, process_future_result. destruct st as [st|e]; cbn.
  - split; [done|]. split; [|done]. by apply ask_state_ok.
  - destruct (is_connection_error e); [done|]. destruct (next_backoff b) as [delay b']. cbn.
    split; [done|]. split; [|done]. by apply ask_state_ok.
Qed.

Lemma goes_online_ok (c : client_side) :
  client_ok c -> is_Some (client_go_offline_future c) -> client_ok (ask_state (goes_online c)).
Proof.
  intros [Hone _] [z Hz]. apply ask_state_ok. destruct c as [b online required running offline].
  cbn in *. subst. cbn in *. destruct online, running; cbn in *; lia.
Qed.

Lemma requires_state_ok (c : client_side) : client_ok c -> client_ok (ask_state (requires_state c)).
Proof. intros [Hone _]. by apply ask_state_ok. Qed.

Lemma lane_start_ok (params : MessageDeliveryParams) : lane_ok [] (lane_start params).
Proof.
  split; [by split|by split| |]; split; cbn; try done; apply initial_ok.
Qed.

Lemma lane_turn_ok trace ev l :
  lane_ok trace l -> lane_enabled ev l = true ->
  match lane_turn ev l with
  | Ok (Some l') => lane_failure ev = None /\ lane_ok (trace ++ [ev]) l'
  | Ok None => ev = ExitSignal
  | Err c => lane_failure ev = Some c
  | Panic => False
  end.
Proof.
  destruct l as [s t d r]. intros [Hs Ht Hd Hr] Hen. cbn [lane_source lane_target lane_delivery lane_receiving] in *.
  destruct ev as [st| | |st| | |ev|ev|]; cbn [lane_turn lane_enabled lane_source lane_target lane_delivery lane_receiving] in *.
  - pose proof (on_new_state_ok FailedSource st send_source_state s (d, r) Hs Hen) as Hn.
    destruct (on_new_state _ _ _ _ _) as [[c [d' r']]|f|]; [|done..]. cbn [obind].
    destruct Hn as (Hf & Hc & Hraces). unfold send_source_state, send_target_state in Hraces. split; [done|].
    apply lane_ok_snoc; [done|by apply ask_state_same| |]; cbn [ask_states lane_delivery lane_receiving];
      destruct st as [st|e]; simplify_eq; cbn; rewrite ?app_nil_r; try done;
      first [by apply fed_send_source|by apply fed_send_target].
  - apply bool_decide_eq_true in Hen. split; [done|].
    apply lane_ok_snoc; [by apply goes_online_ok|by apply ask_state_same|cbn; by rewrite !app_nil_r..].
  - split; [done|].
    apply lane_ok_snoc; [by apply requires_state_ok|by apply ask_state_same|cbn; by rewrite !app_nil_r..].
  - pose proof (on_new_state_ok FailedTarget st send_target_state t (d, r) Ht Hen) as Hn.
    destruct (on_new_state _ _ _ _ _) as [[c [d' r']]|f|]; [|done..]. cbn [obind].
    destruct Hn as (Hf & Hc & Hraces). unfold send_source_state, send_target_state in Hraces. split; [done|].
    apply lane_ok_snoc; [by apply ask_state_same|done| |]; cbn [ask_states lane_delivery lane_receiving];
      destruct st as [st|e]; simplify_eq; cbn; rewrite ?app_nil_r; try done;
      first [by apply fed_send_source|by apply fed_send_target].
  - apply bool_decide_eq_true in Hen. split; [done|].
    apply lane_ok_snoc; [by apply ask_state_same|by apply goes_online_ok|cbn; by rewrite !app_nil_r..].
  - split; [done|].
    apply lane_ok_snoc; [by apply ask_state_same|by apply requires_state_ok|cbn; by rewrite !app_nil_r..].
  - pose proof (fed_turn_ok required_source_header _ _ _ _ ev d Hd Hen) as Hf.
    destruct (fed_turn _ ev d) as [d'|c|]; [|done..]. destruct Hf as [Hf Hd']. split; [done|].
    apply lane_ok_snoc; [done|done|cbn; by rewrite !app_nil_r..].
  - pose proof (fed_turn_ok required_target_header _ _ _ _ ev r Hr Hen) as Hf.
    destruct (fed_turn _ ev r) as [r'|c|]; [|done..]. destruct Hf as [Hf Hr']. split; [done|].
    apply lane_ok_snoc; [done|done|cbn; by rewrite !app_nil_r..].
  - done.
Qed.

Lemma lane_run_ok params trace l : lane_run params trace l -> lane_ok trace l.
Proof.
  induction 1 as [|trace ev l l' _ IH Hen Hturn]; [apply lane_start_ok|].
  pose proof (lane_turn_ok trace ev l IH Hen) as Hok. rewrite Hturn in Hok. by destruct Hok.
Qed.

(** C12. The loop of a lane never panics, ends without an error only on the exit signal, and
    otherwise only with an error that the client or the race of the event reports.  In every run
    each client is free, is asked for its state once, or waits for its retry timer, and a free
    client is not one whose state is required; both races keep their invariant; no state that a
    client has answered is lost, repeated or reordered on its way to the races; and each race knows
    both chains exactly as of the last states it has read: the finalized header of its source,
    the best and the finalized header of its target, and the source header that the target
    reported when that best header was first seen. *)
Theorem message_lane_loop_safe (params : MessageDeliveryParams) (trace : list lane_event)
  (l : lane_loop) (ev : lane_event) :
  lane_run params trace l -> lane_enabled ev l = true ->
  match lane_turn ev l with
  | Ok (Some l') => lane_failure ev = None /\ lane_ok (trace ++ [ev]) l'
  | Ok None => ev = ExitSignal
  | Err c => lane_failure ev = Some c
  | Panic => False
  end.
Proof. intros Hrun. by apply lane_turn_ok, (lane_run_ok params). Qed.

(** The source of the race of confirmations is the target client of the lane, but the error of
    the race is returned as it is: when the connection of that client fails, the loop blames the
    source client, and that is the only client which is then reconnected. *)
Theorem confirmations_race_blames_source (l : lane_loop) (e : E) :
  is_connection_error e = true ->
  lane_turn (ReceivingTurn (RaceFuture (SourceNonces (inr e)))) l = Err FailedSource /\
  forall (SC TC Error : Type) (reconnect_source : SC -> (unit + Error) * SC)
    (reconnect_target : TC -> (unit + Error) * TC) (source_client : SC) (target_client : TC),
    (reconnect_attempt reconnect_source reconnect_target FailedSource source_client target_client).2 =
    target_client.
Proof.
  intros He. split.
  - cbn. unfold run_iteration, on_event, on_source_nonces, process_future_result. by rewrite He.
  - intros. unfold reconnect_attempt. simpl. by destruct (reconnect_source source_client) as [[?|?] ?].
Qed.

(** Executes the events; [None] when one is not possible. *)
Fixpoint lane_execute (events : list lane_event) (l : lane_loop) : option lane_loop :=
  match events with
  | [] => Some l
  | ev :: events =>
      if lane_enabled ev l then
        match lane_turn ev l with
        | Ok (Some l) => lane_execute events l
        | _ => None
        end
      else None
  end.

Lemma lane_execute_run params events : forall trace l l',
  lane_run params trace l -> lane_execute events l = Some l' -> lane_run params (trace ++ events) l'.
Proof.
  induction events as [|ev events IH]; intros trace l l' Hrun; cbn [lane_execute].
  - intros [= <-]. by rewrite app_nil_r.
  - destruct (lane_enabled ev l) eqn:Hen; [|done].
    destruct (lane_turn ev l) as [[l1|]|c|] eqn:Hturn; [|done..]. intros Hex.
    rewrite (cons_middle ev trace events). rewrite (assoc_L (++)). eapply IH; [|exact Hex].
    by eapply LaneTurn.
Qed.
End LaneLoop.

(** ** A run in which both races learn the states of the chains, and the target is lost *)

Module LaneRun.
Definition lane_event_ : Type :=
  lane_event (SrcHash := Z) (TgtHash := Z) (Balance := Z) (E := bool) (MessagesProof := unit)
    (MessagesReceivingProof := unit) (SourceBatch := unit) (TargetBatch := unit).
Definition lane_ : Type :=
  lane_loop (SrcHash := Z) (TgtHash := Z) (Balance := Z) (B := unit) (MessagesProof := unit)
    (MessagesReceivingProof := unit) (SourceBatch := unit) (TargetBatch := unit).
Definition no_batch : unit -> HeaderId Z := fun _ => HeaderId_ 0 0.
Definition delivery_params : MessageDeliveryParams := DeliveryParams 4 16 4 (from_parts 100 100) 1000.
Definition start : lane_ := lane_start tt delivery_params.

Definition source_answer : ClientState (HeaderId Z) (HeaderId Z) :=
  ClientState_ (HeaderId_ 10 0) (HeaderId_ 9 0) (Some (HeaderId_ 5 0)) None.
Definition target_answer : ClientState (HeaderId Z) (HeaderId Z) :=
  ClientState_ (HeaderId_ 6 0) (HeaderId_ 5 0) None None.

Definition events : list lane_event_ :=
  [NewSourceState (inl source_answer); SourceTick; NewTargetState (inl target_answer);
   ReceivingTurn ReadTargetState;
   ReceivingTurn (RaceFuture (TargetBestNonces (inl (HeaderId_ 10 0, TargetNonces_ 2 tt))));
   ReceivingTurn ReadSourceState].
Definition after : lane_ := default start (lane_execute no_batch no_batch events start).

Lemma executes : lane_execute no_batch no_batch events start = Some after.
Proof.
  assert (Hsome : match lane_execute no_batch no_batch events start with
                  | Some _ => true | None => false end = true) by (vm_compute; reflexivity).
  unfold after. by destruct (lane_execute no_batch no_batch events start).
Qed.

Lemma after_reached : lane_run no_batch no_batch tt delivery_params events after.
Proof.
  exact (lane_execute_run no_batch no_batch tt delivery_params events [] start after
    (LaneStart no_batch no_batch tt delivery_params) executes).
Qed.
End LaneRun.

Lemma message_lane_loop_safe_witness :
  client_state_future (lane_source LaneRun.after) = true /\
  match lane_turn LaneRun.no_batch LaneRun.no_batch
          (DeliveryTurn ReadSourceState : LaneRun.lane_event_) LaneRun.after with
  | Ok (Some l) => best_finalized_source_header_id_at_source (race_state (fed (lane_delivery l))) =
      Some (HeaderId_ 9 0)
  | _ => False
  end.
Proof.
  split; [vm_compute; reflexivity|].
  pose proof (message_lane_loop_safe LaneRun.no_batch LaneRun.no_batch tt LaneRun.delivery_params
    LaneRun.events LaneRun.after (DeliveryTurn ReadSourceState) LaneRun.after_reached
    ltac:(vm_compute; reflexivity)) as Hsafe.
  destruct (lane_turn _ _ _ _) as [[l|]|c|]; [|done..].
  destruct Hsafe as [_ [_ _ [_ _ _ [Hview _ _]] _]]. exact Hview.
Defined.

Lemma confirmations_race_blames_source_witness :
  lane_enabled (ReceivingTurn (RaceFuture (SourceNonces (inr true))) : LaneRun.lane_event_)
    LaneRun.after = true /\
  lane_turn LaneRun.no_batch LaneRun.no_batch
    (ReceivingTurn (RaceFuture (SourceNonces (inr true))) : LaneRun.lane_event_) LaneRun.after =
    Err FailedSource.
Proof.
  split; [vm_compute; reflexivity|].
  exact (proj1 (confirmations_race_blames_source LaneRun.no_batch LaneRun.no_batch LaneRun.after true
    eq_refl)).
Defined.
