(* ===== verification/MessagesApi.v ===== *)
(** * bin/runtime-common/src/messages_api.rs: the runtime APIs of the messages pallets

    What the runtimes at both ends of a lane tell a relay about messages, and what the source
    client of the relay makes of it. *)

From S2P Require Import Prelude Substrate RuntimePrimitives MessagesPrimitives OutboundLane.
From S2P Require Import InboundLane MessagesPallet RaceStrategy DeliveryRace MessagesClients.
From stdpp Require Import base numbers list gmap sorting.
Local Open Scope Z_scope.

Section Api.
Context `{WeightOps} {AccountId InboundRelayer OutboundPayload P L X E : Type}.
Context `{!PayloadCodec OutboundPayload P}.
Context {MessageDispatch0 : MessageDispatch AccountId P L (rest AccountId L X)}.
Abbreviation pallet := (pallet AccountId InboundRelayer L X).

Definition outbound_message_details (p : pallet) (lane : LaneId) (begin end_ : MessageNonce) :
  list OutboundMessageDetails :=
  omap (fun nonce =>
          message_data ← outbound_message_data p lane nonce;
          Some (OutDetails nonce weight_zero (Z.of_nat (length message_data) mod 2 ^ 32)))
    (seqZ begin (end_ - begin + 1)).

Definition inbound_message_details (lane : LaneId)
  (messages : list (MessagePayload * OutboundMessageDetails)) : list Weight :=
  map (fun '(payload, details) =>
         inbound_message_data (MessageDispatch0 := MessageDispatch0) lane payload (out_nonce details))
    messages.

(** ** The details that reach the delivery race *)

(** What the relay should know of the message [n]. *)
Definition message_details_at (p : pallet) (lane : LaneId) (n : MessageNonce) :
  MessageNonce * MessageDetails unit :=
  let payload := default [] (outbound_message_data p lane n) in
  (n, Details (inbound_message_data (MessageDispatch0 := MessageDispatch0) lane payload n)
        (Z.of_nat (length payload) mod 2 ^ 32) tt).

Lemma omap_seqZ_split {A : Type} (f : Z -> option A) (g : Z -> A) (a lo b : Z) :
  a <= lo <= b + 1 -> (forall n, a <= n < lo -> f n = None) ->
  (forall n, lo <= n <= b -> f n = Some (g n)) ->
  omap f (seqZ a (b - a + 1)) = g <$> seqZ lo (b - lo + 1).
Proof.
  intros Hlo Hnone Hsome.
  replace (b - a + 1) with ((lo - a) + (b - lo + 1)) by lia. rewrite seqZ_app by lia.
  replace (a + (lo - a)) with lo by lia. rewrite omap_app.
  assert (Hempty : forall l, Forall (fun n => f n = None) l -> omap f l = []).
  { induction 1 as [|n l Hn _ IH]; simpl; [done|]. by rewrite Hn. }
  rewrite Hempty. 2: { apply Forall_seqZ. intros. apply Hnone. lia. }
  simpl. assert (Hall : Forall (fun n => f n = Some (g n)) (seqZ lo (b - lo + 1))).
  { apply Forall_seqZ. intros. apply Hsome. lia. }
  induction Hall as [|n l Hn _ IH]; simpl; [done|]. rewrite Hn. by f_equal.
Qed.

Lemma read_payloads_total (payload : MessageNonce -> outcome (SubstrateError E) (option MessagePayload))
  (details : Z -> OutboundMessageDetails) (data : Z -> MessagePayload) (l : list Z) :
  (forall n, n ∈ l -> out_nonce (details n) = n /\ payload n = Ok (Some (data n))) ->
  SubstrateMessagesSource.read_payloads payload (details <$> l) = Ok ((fun n => (data n, details n)) <$> l).
Proof.
  induction l as [|n l IH]; intros Hl; [done|]. rewrite !fmap_cons.
  cbn [SubstrateMessagesSource.read_payloads]. destruct (Hl n ltac:(by left)) as [Hn Hp]. rewrite Hn, Hp. cbn [ok_or obind].
  rewrite IH; [done|]. intros m Hm. apply Hl. by right.
Qed.

Lemma refine_batches_total (weight : MessagePayload * OutboundMessageDetails -> Weight) batches :
  SubstrateMessagesSource.refine_batches (E := E) (fun batch => Ok (weight <$> batch)) batches =
  Ok ((fun m => OutDetails (out_nonce m.2) (weight m) (out_size m.2)) <$> concat batches).
Proof.
  induction batches as [|batch batches IH]; simpl; [done|].
  unfold SubstrateMessagesSource.refine_batch. cbn [obind].
  rewrite length_fmap, Nat.eqb_refl. cbn [ensure obind]. rewrite IH. cbn [obind].
  rewrite fmap_app. do 2 f_equal. induction batch as [|m batch IHb]; simpl; [done|]. by f_equal.
Qed.

(** C31. The source client of the relay, asked for the messages of any range that ends with a message
    which is still stored, succeeds and knows exactly the messages of the range that have not been
    pruned, in order and without gaps (each message must fit in a call of the runtime API): with the size of the stored payload, and with the weight that
    the target runtime computes for dispatching it. *)
Theorem relayed_details_are_exact (p : pallet) (lane : LaneId) (begin end_ : MessageNonce)
  (encoded_size : list (MessagePayload * OutboundMessageDetails) -> Z) (max_batch_size : Z) :
  let s := outbound_lane lane (pallet_rest p) in
  let first := Z.max begin (oldest_unpruned_nonce (ol_data s)) in
  outbound_inv s -> first <= end_ <= latest_generated_nonce (ol_data s) ->
  (forall payload details, outbound_message_data p lane (out_nonce details) = Some payload ->
     encoded_size [(payload, details)] <= max_batch_size) ->
  SubstrateMessagesSource.generated_message_details (E := E)
    (fun range => Ok (outbound_message_details p lane (range_start range) (range_last range)))
    (fun nonce => Ok (outbound_message_data p lane nonce)) encoded_size max_batch_size
    (fun messages => Ok (inbound_message_details lane messages)) (Range begin end_) =
  Ok (message_details_at p lane <$> seqZ first (end_ - first + 1)).
Proof.
  intros s first [Hold _ _ _ Hstored] Hrange Hfits.
  assert (Hdata : forall n, first <= n <= end_ ->
    outbound_message_data p lane n = Some (default [] (outbound_message_data p lane n))).
  { intros n Hn. destruct (proj2 (Hstored n) ltac:(lia)) as [payload Hp].
    unfold outbound_message_data. simpl in Hp. by rewrite Hp. }
  set (details := fun n => OutDetails n weight_zero
    (Z.of_nat (length (default [] (outbound_message_data p lane n))) mod 2 ^ 32)).
  assert (Hout : outbound_message_details p lane begin end_ = details <$> seqZ first (end_ - first + 1)).
  { apply omap_seqZ_split; [lia| |]; intros n Hn; [|by rewrite Hdata].
    destruct (outbound_message_data p lane n) as [payload|] eqn:Hp; [|done].
    pose proof (proj1 (Hstored n) (mk_is_Some _ payload Hp)). lia. }
  unfold SubstrateMessagesSource.generated_message_details. cbn [obind range_start range_last].
  rewrite Hout.
  rewrite (proj2 (validate_spec _ begin end_)).
  2: { rewrite <- list_fmap_compose, length_fmap, length_seqZ. split_and!; [|lia|].
       - rewrite (list_fmap_ext _ id) by done. rewrite list_fmap_id. f_equal; lia.
       - intros Hnil. apply (f_equal length) in Hnil. rewrite length_fmap, length_seqZ in Hnil.
         simpl in Hnil. lia. }
  cbn [obind]. rewrite (read_payloads_total _ details (fun n => default [] (outbound_message_data p lane n))).
  2: { intros n Hn%elem_of_seqZ. split; [done|]. f_equal. apply Hdata. lia. }
  cbn [obind]. set (msgs := _ <$> seqZ first _).
  pose proof (split_spec (E := E) encoded_size max_batch_size (length msgs) msgs ltac:(lia)) as Hs.
  unfold SubstrateMessagesSource.split_msgs_to_refine.
  destruct (SubstrateMessagesSource.split_loop _ _ _ _) as [batches|e|]; [| |done].
  2: { destruct Hs as (_ & m & Hin & Hm). apply list_elem_of_fmap in Hin as (n & -> & Hn%elem_of_seqZ).
       specialize (Hfits _ (details n) (Hdata n ltac:(lia))). lia. }
  destruct Hs as [Hconcat _]. cbn [obind].
  unfold inbound_message_details.
  rewrite (refine_batches_total (fun '(payload, d) => inbound_message_data lane payload (out_nonce d))).
  cbn [obind]. rewrite Hconcat. unfold msgs. rewrite <- list_fmap_compose.
  rewrite map_of_increasing.
  - by rewrite <- list_fmap_compose.
  - simpl. rewrite <- list_fmap_compose, (list_fmap_ext _ id) by done. rewrite list_fmap_id.
    apply seqZ_sorted.
Qed.
End Api.

Lemma relayed_details_are_exact_witness :
  let p := Pallet ∅ OneLane.rest1 : MessagesPallet.pallet Z Z unit OneLane.X in
  SubstrateMessagesSource.generated_message_details (E := unit)
    (fun range => Ok (outbound_message_details p OneLane.lane0 (range_start range) (range_last range)))
    (fun nonce => Ok (outbound_message_data p OneLane.lane0 nonce))
    (fun batch => Z.of_nat (length batch)) 2
    (fun messages => Ok (inbound_message_details (MessageDispatch0 := OneLane.dispatcher) OneLane.lane0 messages))
    (Range 0 1) =
  Ok [(1, Details (from_parts 10 0) 1 tt)].
Proof.
  intros p.
  refine (relayed_details_are_exact p OneLane.lane0 0 1 (fun batch => Z.of_nat (length batch)) 2 _ _ _).
  - exact (proj1 (OneLane.rest1_ok OneLane.lane0)).
  - vm_compute. split; discriminate.
  - intros payload details _. vm_compute. discriminate.
Defined.
