(* ===== verification/ParachainsTarget.v ===== *)
(** * relays/lib-substrate-relay/src/parachains/target.rs and mod.rs

    The target half of the relay of parachain heads: what it reads from the bridge pallets
    through the runtime API of the target chain, and the call that it submits.  The RPC calls
    to the node and the codec of their answers are parameters.  The theorem composes the
    loop of [ParachainsLoop], its Substrate clients and the runtime API with the parachains
    pallet and the GRANDPA pallet of the target chain. *)

From S2P Require Import Prelude Substrate RuntimePrimitives HeaderChain StorageProof Justification.
From S2P Require Import GrandpaPallet ParachainsPallet RelayUtils ParachainsLoop SubstrateClient.
From stdpp Require Import base numbers list gmap relations.
Local Open Scope Z_scope.

(** The errors of relays/client-substrate/src/error.rs that are made here. *)
Inductive ParachainsTargetError (E : Type) :=
| TargetClientError (e : E)
| BridgePalletIsNotInitialized
| ResponseParseFailed.
Arguments TargetClientError {E} _.
Arguments BridgePalletIsNotInitialized {E}.
Arguments ResponseParseFailed {E}.

(** [DirectSubmitParachainHeadsCallBuilder]. *)
Definition build_submit_parachain_heads_call {Hash Node : Type} (at_relay_block : HeaderId Hash)
  (parachains : list (Z * Hash)) (parachain_heads_proof : list Node) : Call Hash Node :=
  submit_parachain_heads_call (header_number at_relay_block, header_hash at_relay_block) parachains
    parachain_heads_proof.

Module ParachainsTarget.
Section Target.
Context {Hash TargetHash Node Response E : Type}.
Abbreviation TargetId := (HeaderId TargetHash).
Abbreviation result A := (outcome (ParachainsTargetError E) A).

(** [best_header] is the identifier of the header that the node returns, [typed_state_call]
    the answer of the method [BEST_FINALIZED_HEADER_ID_METHOD] of the relay chain at the
    block with that hash, [state_call] the encoded answer of the one of the parachain. *)
Context (PARACHAIN_ID : Z) (mortality : option Z).
Context (best_header : result TargetId).
Context (typed_state_call : TargetHash -> result (option (HeaderId Hash))).
Context (state_call : TargetHash -> result Response).
Context (decode_response : Response -> option (option (HeaderId Hash))).
Context (submit_and_watch_signed_extrinsic :
  (TargetId -> Z -> result (UnsignedTransaction (Call Hash Node) TargetHash)) -> result unit).

Definition best_block : result TargetId :=
  let? best_id := best_header in
  Ok best_id.

Definition best_finalized_source_relay_chain_block (at_block : TargetId) : result (HeaderId Hash) :=
  let? id := typed_state_call (header_hash at_block) in
  match id with
  | Some id => Ok id
  | None => Err BridgePalletIsNotInitialized
  end.

Definition parachain_head (at_block : TargetId) : result (option (HeaderId Hash)) :=
  let? encoded_best_finalized_source_para_block := state_call (header_hash at_block) in
  ok_or (decode_response encoded_best_finalized_source_para_block) ResponseParseFailed.

Definition parachains_call (at_relay_block : HeaderId Hash) (updated_head_hash : Hash)
  (proof : list Node) : Call Hash Node :=
  build_submit_parachain_heads_call at_relay_block [(PARACHAIN_ID, updated_head_hash)] proof.

Definition submit_parachain_head_proof (at_relay_block : HeaderId Hash) (updated_head_hash : Hash)
  (proof : list Node) : result unit :=
  let call := parachains_call at_relay_block updated_head_hash proof in
  submit_and_watch_signed_extrinsic (fun best_block_id transaction_nonce =>
    Ok (with_era (era_new best_block_id mortality) (unsigned_new call transaction_nonce))).
End Target.
End ParachainsTarget.

(** ** The runtime API of the target chain *)

Section Api.
Context {AccountId Hash AuthorityId Bytes : Type} `{Countable Hash}.

(** [RialtoParachainFinalityApi::best_finalized]: a head that does not decode is reported as
    a missing one.  The API of the relay chain returns [BestFinalized] itself. *)
Definition parachain_best_finalized (p : ParachainsPallet.pallet AccountId Hash Bytes)
  (chain : Parachain Bytes Hash) : option (HeaderId Hash) :=
  default None (best_parachain_head_id p chain).
End Api.

(** ** Relayed heads are imported *)

Section Composition.
Context `{WeightOps} `{!ParachainsConfig} `{!GrandpaConfig}.
Context {AccountId Hash TargetHash AuthorityId Signature DigestItem Hdr Node Key Bytes E : Type}.
Context `{EqDecision AccountId} `{Countable Hash} `{Countable AuthorityId}.
Context `{Header Hdr Hash} `{!GrandpaHeader Hdr DigestItem AuthorityId}.
Context `{TrieLaws Node Hash Key Bytes} `{!ParaStoredHeaderDataBuilder Bytes}.
Abbreviation pallet := (pallet AccountId Hash Bytes).
Abbreviation relay_pallet := (GrandpaPallet.pallet AccountId Hash AuthorityId).
Abbreviation GrandpaJustification := (GrandpaJustification Hash AuthorityId Signature Hdr).
Abbreviation result A := (outcome (ParachainsTargetError E) A).
Context (check_message_signature : Precommit Hash -> AuthorityId -> Signature -> Z -> Z -> bool)
  (voter_set_new : list (AuthorityId * Z) -> option (VoterSet AuthorityId))
  (header_encoded_size : Hdr -> Z) (justification_encoded_size : GrandpaJustification -> Z).
Context (parachain_head_storage_key : Z -> Key) (decode_para_head : Bytes -> option Bytes)
  (para_head_hash : Bytes -> Hash) (encoded_size : Bytes -> Z) (node_len : Node -> Z).
Abbreviation submit_parachain_heads :=
  (submit_parachain_heads parachain_head_storage_key decode_para_head para_head_hash encoded_size
     node_len).
Abbreviation relay_reachable :=
  (relay_reachable check_message_signature voter_set_new header_encoded_size
     justification_encoded_size).

Context (chain : Parachain Bytes Hash).
Abbreviation para := (PARACHAIN_ID chain).

(** The head of the parachain in the state of the finalized relay block with that number. *)
Context (heads : Z -> option Bytes).

(** The decoder of the relay and those of the pallet read the same header, whose hash is the hash
    of the head; stored header data makes the round trip; the hash has no collisions; and
    the parachain is one of those that the pallet tracks. *)
Record para_codec (decode : Bytes -> result (HeaderId Hash)) : Prop := {
  pc_header a id : decode a = Ok id <-> header_hash id = para_head_hash a /\
    exists root, decode_header chain a = Some (header_number id, root);
  pc_stored a n root : decode_header chain a = Some (n, root) ->
    decode_stored chain (encode_stored chain (StoredHeader n root)) = Some (StoredHeader n root);
  pc_hash a b : para_head_hash a = para_head_hash b -> a = b;
  pc_tracked head : try_build para head = single_try_build chain para head;
}.

(** The storage behind a relay chain header that the GRANDPA pallet has imported holds the head. *)
Definition shows_heads (g : relay_pallet) : Prop :=
  forall hash n root, ImportedHeaders g !! hash = Some (StoredHeader n root) ->
  forall db v, (read_trie_value db root (parachain_head_storage_key para)).2 = Some v ->
  v ≫= decode_para_head = heads n.

(** The parachain does not go back: a head that is included later is the same or higher. *)
Definition heads_advance : Prop :=
  forall n m a b na nb ra rb, n <= m -> heads n = Some a -> heads m = Some b ->
  decode_header chain a = Some (na, ra) -> decode_header chain b = Some (nb, rb) -> a = b \/ na < nb.

Abbreviation heads_step :=
  (step parachain_head_storage_key decode_para_head para_head_hash encoded_size node_len shows_heads).

Hypothesis Hkeep : 0 < HeadsToKeep <= u32_max.
Hypothesis Hrelay_keep : 0 < HeadersToKeep <= u32_max.
Hypothesis Hhash : forall h1 h2 : Hdr, hdr_hash h1 = hdr_hash h2 -> hdr_number h1 = hdr_number h2.

(** What the relay chain pallet calls its best block can be used to verify proofs. *)
Lemma best_finalized_is_imported (g : relay_pallet) (id : HeaderId Hash) :
  relay_reachable g -> BestFinalized g = Some id ->
  exists root, ImportedHeaders g !! header_hash id = Some (StoredHeader (header_number id) root).
Proof.
  intros (gc & g0 & Hg0 & Hrun) Hbest.
  destruct (run_consistent _ _ _ _ Hrelay_keep Hhash _ _ _ Hg0 Hrun) as [[Hb _]|(a0 & h0 & hs & Ht)];
    [congruence|].
  rewrite (tr_best _ _ _ _ _ _ Ht) in Hbest. destruct hs as [|h hs]; [done|]. injection Hbest as <-.
  apply tracks_stored in Ht as [_ Hst]; [|done]. exists (hdr_state_root h). apply Hst.
  exists 0%nat, h. split_and!; [done|lia|done..].
Qed.

Section Relay.
Context (decode : Bytes -> result (HeaderId Hash)).
Hypothesis Hcodec : para_codec decode.
Hypothesis Hadvance : heads_advance.

(** The entry of a history is the head [a] with that number. *)
Definition entry_head (e : imported Hash Bytes) (a : Bytes) (n : Z) : Prop :=
  heads (im_relay e) = Some a /\ im_hash e = para_head_hash a /\
  exists root, decode_header chain a = Some (n, root) /\
    im_data e = encode_stored chain (StoredHeader n root).

Lemma head_read_heads (g : relay_pallet) (hash root : Hash) (n : Z) (proof : list Node)
  (c : StorageProofChecker Node Hash) (a : Bytes) :
  shows_heads g -> ImportedHeaders g !! hash = Some (StoredHeader n root) ->
  checker_new root proof = Ok c ->
  head_read parachain_head_storage_key decode_para_head c para a -> heads n = Some a.
Proof.
  intros Hg Hh (-> & _)%checker_new_Ok. unfold head_read, read_parachain_head, read_and_decode_value,
    read_value. simpl.
  destruct (read_trie_value _ _ _) as [seen [v|]] eqn:Er; [|done]. simpl.
  pose proof (Hg hash n root Hh (list_to_set proof) v ltac:(by rewrite Er)) as <-.
  destruct v as [v|]; [|done]. simpl. destruct (decode_para_head v); [|done]. by intros [= <-].
Qed.

Lemma proved_entry (e : imported Hash Bytes) :
  proved parachain_head_storage_key decode_para_head para_head_hash encoded_size shows_heads para e ->
  exists a n, entry_head e a n.
Proof.
  intros (g & hash & root & proof & c & a & Hg & Hh & Hc & Hread & Ha & Hb & _).
  rewrite (pc_tracked _ Hcodec) in Hb. unfold single_try_build in Hb. rewrite Z.eqb_refl in Hb.
  destruct (decode_header chain a) as [[n r]|] eqn:Ed; [|done]. injection Hb as Hb.
  exists a, n. split_and!; [by eapply head_read_heads|done|]. by exists r.
Qed.

Lemma entry_head_fun (e e' : imported Hash Bytes) (a a' : Bytes) (n n' : Z) :
  im_hash e = im_hash e' -> entry_head e a n -> entry_head e' a' n' -> n = n'.
Proof.
  intros He (_ & Ha & r & Hr & _) (_ & Ha' & r' & Hr' & _).
  assert (a = a') as -> by (apply (pc_hash _ Hcodec); congruence). congruence.
Qed.

(** The numbers grow along a history, and so no head recurs in it. *)
Lemma history_lower (l : list (imported Hash Bytes)) :
  progressing l -> Forall (fun e => exists a n, entry_head e a n) l ->
  match l with
  | [] => True
  | e :: l' => forall e' a n a' n', e' ∈ l' -> entry_head e a n -> entry_head e' a' n' -> n' < n
  end /\ NoDup (im_hash <$> l).
Proof.
  induction l as [|e l IH]; [intros; split; [done|apply NoDup_nil_2]|].
  intros Hp [(a & n & He) Hl]%Forall_cons.
  assert (progressing l) as Hpl by (destruct l; [done|apply Hp]).
  destruct (IH Hpl Hl) as [Hlow Hnd].
  assert (forall e' a n a' n', e' ∈ l -> entry_head e a n -> entry_head e' a' n' -> n' < n) as Hall.
  { clear a n He. intros e' a n a' n' Hin He He'. destruct l as [|e1 l]; [by apply not_elem_of_nil in Hin|].
    destruct Hp as (Hrel & Hne & _). apply Forall_cons in Hl as [(a1 & n1 & He1) _].
    assert (n1 < n) as Hlt1.
    { pose proof He as (Hh & Hi & r & Hr & _). pose proof He1 as (Hh1 & Hi1 & r1 & Hr1 & _).
      destruct (Hadvance (im_relay e1) (im_relay e) a1 a n1 n r1 r ltac:(lia) Hh1 Hh Hr1 Hr); [|done].
      subst a1. by destruct Hne; congruence. }
    apply elem_of_cons in Hin as [->|Hin].
    - by rewrite <- (entry_head_fun _ _ _ _ _ _ eq_refl He1 He').
    - specialize (Hlow e' a1 n1 a' n' Hin He1 He'). lia. }
  split; [exact Hall|]. rewrite fmap_cons. apply NoDup_cons. split; [|done].
  intros (e' & Heq & Hin)%list_elem_of_fmap. rewrite Forall_forall in Hl.
  destruct (Hl e' Hin) as (a' & n' & He'). pose proof (Hall e' a n a' n' Hin He He').
  pose proof (entry_head_fun _ _ _ _ _ _ Heq He He'). lia.
Qed.

(** What the runtime API of the target chain says about the parachain. *)
Lemma reachable_best (gc : GenesisConfig (AccountId := AccountId)) (p : pallet) :
  rtc heads_step (genesis_build gc empty_pallet) p ->
  match ParasInfo p !! para with
  | None => parachain_best_finalized p chain = None
  | Some info => exists a n root,
      heads (at_relay_block_number (best_head_hash info)) = Some a /\
      head_hash (best_head_hash info) = para_head_hash a /\ decode_header chain a = Some (n, root) /\
      parachain_best_finalized p chain = Some (HeaderId_ n (para_head_hash a))
  end.
Proof.
  intros Hrun. apply run_ok in Hrun; [|done]. destruct (Hrun para) as [l Hl].
  assert (Forall (fun e => exists a n, entry_head e a n) l) as Hent.
  { eapply Forall_impl; [apply Hl|]. apply proved_entry. }
  destruct (history_lower l (po_progress _ _ _ _ _ _ _ _ Hl) Hent) as [_ Hnd].
  pose proof (para_ok_stored _ _ _ _ Hkeep _ _ _ _ Hl Hnd) as Hst.
  pose proof (po_best _ _ _ _ _ _ _ _ Hl) as Hbest.
  unfold parachain_best_finalized, best_parachain_head_id, best_parachain_head_hash.
  destruct (ParasInfo p !! para) as [info|] eqn:Ei; [|done].
  destruct l as [|e l]; [done|]. injection Hbest as Hbest.
  apply Forall_cons in Hent as [(a & n & Hh & Ha & root & Hd & Hdata) _]. rewrite Hbest. simpl.
  exists a, n, root. split_and!; try done.
  rewrite Hbest. simpl. assert (parachain_head p para (im_hash e) = Some (im_data e)) as ->.
  { apply Hst. exists 0%nat, e. split_and!; [done|lia|done..]. }
  rewrite Hdata, (pc_stored _ Hcodec _ _ _ Hd). simpl. by rewrite Ha.
Qed.

(** *** The clients of the loop *)

Context (synced : result bool) (best_finalized_header_number : result Z)
  (para_head_at : Hash -> result (option Bytes)) (prove_storage : list Key -> Hash -> result (list Node))
  (expected_head_error : ParachainsTargetError E) (hash_leb : Hash -> Hash -> bool)
  (max_head_id : AvailableHeader (HeaderId Hash)).
Context {Response : Type} (mortality : option Z) (best_header : result (HeaderId TargetHash))
  (typed_state_call : TargetHash -> result (option (HeaderId Hash)))
  (state_call : TargetHash -> result Response)
  (decode_response : Response -> option (option (HeaderId Hash)))
  (submit_and_watch : (HeaderId TargetHash -> Z ->
     result (UnsignedTransaction (Call Hash Node) TargetHash)) -> result unit)
  (tracker : option (TrackedTransactionStatus (HeaderId TargetHash))).

Definition substrate_clients :
  para_clients Hash Hash TargetHash (list Node) (ParachainsTargetError E) :=
  ParaClients synced
    (ParachainsTarget.best_block best_header)
    (ParachainsTarget.parachain_head state_call decode_response)
    (ParachainsTarget.best_finalized_source_relay_chain_block typed_state_call)
    (ParachainsSource.parachain_head para_head_at decode best_finalized_header_number hash_leb
       max_head_id)
    (ParachainsSource.prove_parachain_head para_head_at para_head_hash
       (prove_storage [parachain_head_storage_key para]) expected_head_error)
    (ParachainsTarget.submit_parachain_head_proof para mortality submit_and_watch)
    tracker.

(** The node of the target chain runs the runtime API in the state of its best block. *)
Record honest_target (g : relay_pallet) (p : pallet) : Prop := {
  ht_relay b r : best_header = Ok b -> typed_state_call (header_hash b) = Ok r -> r = BestFinalized g;
  ht_para b r : best_header = Ok b -> state_call (header_hash b) = Ok r ->
    decode_response r = Some (parachain_best_finalized p chain);
}.

(** The node of the relay chain reads and proves the state of the blocks that the target knows. *)
Record honest_source (g : relay_pallet) : Prop := {
  hs_head hash n root a : ImportedHeaders g !! hash = Some (StoredHeader n root) ->
    para_head_at hash = Ok a -> a = heads n;
  hs_proof hash n root : ImportedHeaders g !! hash = Some (StoredHeader n root) ->
    honest_node (Value := Bytes) prove_storage hash root;
}.

Lemma best_block_Ok b : ParachainsTarget.best_block (E := E) best_header = Ok b -> best_header = Ok b.
Proof. unfold ParachainsTarget.best_block. intros (? & Hb & [= <-])%obind_Ok. exact Hb. Qed.

Lemma relay_block_Ok (g : relay_pallet) (p : pallet) b r :
  honest_target g p -> relay_reachable g ->
  ParachainsTarget.best_block (E := E) best_header = Ok b ->
  ParachainsTarget.best_finalized_source_relay_chain_block typed_state_call b = Ok r ->
  exists root, ImportedHeaders g !! header_hash r = Some (StoredHeader (header_number r) root).
Proof.
  intros Ht Hg Hb%best_block_Ok (o & Ho & Hr)%obind_Ok. apply best_finalized_is_imported; [done|].
  rewrite <- (ht_relay _ _ Ht b o Hb Ho). destruct o; [|done]. by injection Hr as ->.
Qed.

Lemma substrate_view (g : relay_pallet) (gc : GenesisConfig (AccountId := AccountId)) (p : pallet) :
  relay_reachable g -> rtc heads_step (genesis_build gc empty_pallet) p ->
  honest_source g -> honest_target g p ->
  honest_view para_head_at decode para_head_hash substrate_clients p para heads.
Proof.
  intros Hg Hrun Hs Ht. split; simpl.
  - intros b r a Hb Hr Ha. destruct (relay_block_Ok g p b r Ht Hg Hb Hr) as [root Hroot].
    by eapply hs_head.
  - intros n m a b ia ib Hnm Ha Hb [_ [ra Hia]]%(pc_header _ Hcodec) [_ [rb Hib]]%(pc_header _ Hcodec).
    destruct (Hadvance n m a b _ _ ra rb Hnm Ha Hb Hia Hib) as [->|?]; [|lia].
    rewrite Hia in Hib. injection Hib as -> _. lia.
  - exact (pc_hash _ Hcodec).
  - intros b r Hb%best_block_Ok Hr. apply obind_Ok in Hr as (o & Ho & Hr%ok_or_Ok).
    rewrite (ht_para _ _ Ht b o Hb Ho) in Hr. injection Hr as <-. apply reachable_best in Hrun.
    destruct (ParasInfo p !! para) as [info|]; [|done].
    destruct Hrun as (a & n & root & Ha & Hh & Hd & Hbest). exists a, (HeaderId_ n (para_head_hash a)).
    split_and!; [done|done| |done]. apply (pc_header _ Hcodec). split; [done|]. by exists root.
Qed.

Lemma relayed_head_importable (g : relay_pallet) (p : pallet) (n : Z) (hash root : Hash) (a : Bytes)
  (nodes : list Node) (data : Bytes) :
  honest_source g -> shows_heads g ->
  ImportedHeaders g !! hash = Some (StoredHeader n root) ->
  para_head_at hash = Ok (Some a) -> prove_storage [parachain_head_storage_key para] hash = Ok nodes ->
  try_build para a = Some data -> encoded_size data <= MaxParaHeadDataSize ->
  is_obsolete p (HeadsInfo n para (para_head_hash a)) = false ->
  importable parachain_head_storage_key decode_para_head para_head_hash encoded_size
    (Checker (Z.of_nat (length nodes)) root (list_to_set nodes) []) p n para (para_head_hash a) data.
Proof.
  intros Hs Hg Hh Ha Hnodes Hbuild Hsize Hobs. split_and!; [done..|]. exists a. split_and!; [|done..].
  pose proof (hs_head _ Hs _ _ _ _ Hh Ha) as Hheads.
  destruct (hn_complete _ _ _ (hs_proof _ Hs _ _ _ Hh) _ _ (parachain_head_storage_key para) Hnodes)
    as [v Hv]; [by left|].
  pose proof (Hg _ _ _ Hh _ _ Hv) as Hd. rewrite <- Hheads in Hd.
  unfold head_read, read_parachain_head, read_and_decode_value, read_value. simpl.
  destruct (read_trie_value _ _ _) as [seen r]. simpl in Hv. subst r. destruct v as [v|]; [|done].
  simpl in *. by rewrite Hd.
Qed.

(** An honest proof of an importable head is accepted and the head becomes the best one. *)
Lemma importable_head_is_imported (g : relay_pallet) (p : pallet) (n : Z) (hash root head : Hash)
  (nodes : list Node) (data : Bytes) :
  let c := Checker (Z.of_nat (length nodes)) root (list_to_set nodes) [] in
  is_halted p = false -> ImportedHeaders g !! hash = Some (StoredHeader n root) ->
  checker_new root nodes = Ok c ->
  ensure_no_unused_nodes (reads_of c [parachain_head_storage_key para]) = Ok tt ->
  importable parachain_head_storage_key decode_para_head para_head_hash encoded_size c p n para head
    data ->
  exists info p',
    submit_parachain_heads g p (n, hash) [(para, head)] nodes = Ok (info, p') /\
    exists data', imports n para head data' p p'.
Proof.
  intros c Hh Hblock Hc Hu Himp.
  destruct (submit_heads_cases parachain_head_storage_key decode_para_head para_head_hash encoded_size
    node_len Hkeep g p n hash [(para, head)] nodes) as [(info & p' & Hs)|(e & _ & He)].
  - exists info, p'. split; [exact Hs|].
    apply submit_heads_spec in Hs as (root' & c' & _ & Hb' & Hc' & Hsteps & _); [|done].
    assert (root' = root) as -> by congruence. assert (c' = c) as -> by congruence.
    eapply (head_steps_effect _ _ _ _ _ _ _ _ _ para) in Hsteps as [(h & d & Hin & _ & Hi)|[Hno _]].
    + apply list_elem_of_singleton in Hin as [= ->]. by exists d.
    + by destruct (Hno head data (list_elem_of_here _ _)).
  - exfalso. destruct e as [|e]; [done|]. destruct e as [| |e| | | |e]; simpl in He; try done.
    + congruence.
    + destruct He as (b & Hb & Hn). rewrite Hblock in Hb. injection Hb as <-. done.
    + destruct e as [|e]; [done|]. destruct He as (root' & Hb & Hcase).
      assert (root' = root) as -> by congruence.
      destruct Hcase as [?|(c' & Hc' & He)]; [congruence|]. rewrite Hc in Hc'. injection Hc' as <-.
      assert (Ok tt = Err e) as [=]. by rewrite <- Hu, <- He.
    + destruct e; try done. change (is_halted p = true) in He. congruence.
Qed.

(** C15. What the relay of parachain heads submits is imported: with its Substrate clients for both
    chains, honest nodes and a parachain that does not go back, the call that a turn of the
    loop submits is accepted by the parachains pallet in the state that the turn has seen;
    afterwards the runtime API of the target chain reports the submitted head, which is
    higher than the one before; and the turn that sees it takes the submission for
    delivered, whatever its transaction tracker says. *)
Theorem relayed_heads_are_imported (g : relay_pallet) (gc : GenesisConfig (AccountId := AccountId))
  (p : pallet) (submitted submitted' : option (AvailableHeader (HeaderId Hash)))
  (relay : HeaderId Hash) (hash : Hash) (proof : list Node) :
  relay_reachable g -> shows_heads g -> rtc heads_step (genesis_build gc empty_pallet) p ->
  is_halted p = false -> honest_source g -> honest_target g p ->
  (forall a data, heads (header_number relay) = Some a -> try_build para a = Some data ->
     encoded_size data <= MaxParaHeadDataSize) ->
  para_turn substrate_clients submitted = Ok (submitted', Some (relay, hash, proof)) ->
  exists at_relay_block parachains nodes info p' id head,
    ParachainsTarget.parachains_call para relay hash proof =
      submit_parachain_heads_call at_relay_block parachains nodes /\
    submit_parachain_heads g p at_relay_block parachains nodes = Ok (info, p') /\
    parachain_best_finalized p' chain = Some id /\ header_hash id = hash /\
    (forall old, parachain_best_finalized p chain = Some old -> header_number old < header_number id) /\
    submitted' = Some head /\
    forall b status, tracker_update head b (Some id) status = Some (Finalized (BlockId := HeaderId TargetHash) b).
Proof.
  intros Hg Hshow Hrun Hh Hs Ht Hsize Hturn.
  assert (substrate_source para_head_at decode para_head_hash best_finalized_header_number
    (prove_storage [parachain_head_storage_key para]) expected_head_error hash_leb max_head_id
    substrate_clients) as Hsource by by split.
  assert (is_obsolete p (HeadsInfo (header_number relay) para hash) = false) as Hobs.
  { eapply submission_not_obsolete; [exact Hsource|by eapply substrate_view|exact Hturn]. }
  apply (submitted_head _ _ _ _ _ _ _ _ _ _ _ _ _ _ Hsource) in Hturn
    as (b & t & a & id & h & Hb & Htarget & Hr & Hnodes & Hhead & Hid & -> & -> & Hle & Hlt).
  destruct (relay_block_Ok g p b relay Ht Hg Hb Hr) as [root Hroot].
  pose proof (hs_head _ Hs _ _ _ _ Hroot Hhead) as Ha. symmetry in Ha.
  apply (pc_header _ Hcodec) in Hid as [_ [r Hd]].
  set (data := encode_stored chain (StoredHeader (header_number id) r)).
  assert (try_build para a = Some data) as Hbuild.
  { rewrite (pc_tracked _ Hcodec). unfold single_try_build. by rewrite Z.eqb_refl, Hd. }
  destruct (honest_proof_is_accepted _ _ _ _ _ (hs_proof _ Hs _ _ _ Hroot) Hnodes) as [Hc Hu]; [done|].
  destruct (importable_head_is_imported g p _ _ root (para_head_hash a) proof data Hh Hroot Hc Hu)
    as (info & p' & Hsubmit & data' & Himp).
  { apply (relayed_head_importable g p (header_number relay) (header_hash relay)); try done.
    by apply (Hsize a). }
  assert (rtc heads_step (genesis_build gc empty_pallet) p') as Hrun'.
  { eapply rtc_r; [exact Hrun|]. by eapply StepSubmit. }
  apply reachable_best in Hrun'. destruct Himp as [Hi _]. rewrite Hi in Hrun'. simpl in Hrun'.
  destruct Hrun' as (a' & n' & root' & Ha' & _ & Hd' & Hbest).
  assert (a' = a) as -> by congruence. rewrite Hd in Hd'. injection Hd' as <- <-.
  eexists _, _, _, info, p', _, (Available h). split_and!; [done|exact Hsubmit|exact Hbest|done| |done|].
  - intros old Hold. apply obind_Ok in Htarget as (o & Ho & Htarget%ok_or_Ok).
    rewrite (ht_para _ _ Ht b o (best_block_Ok _ Hb) Ho) in Htarget. injection Htarget as <-.
    specialize (Hlt old Hold). simpl. lia.
  - intros b' status. unfold tracker_update. simpl. by rewrite (proj2 (Z.leb_le _ _) Hle).
Qed.
End Relay.
End Composition.

(** The two parachains of ParachainsPallet.v: the relay submits the head of the second one. *)
Module SmallRelay.
Abbreviation result A := (outcome (ParachainsTargetError unit) A).
Definition chain : Parachain Z positive := SmallHeads.chain 2.
Definition heads (n : Z) : option Z := if n =? 5 then Some 42 else None.
Definition decode (a : Z) : result (HeaderId positive) := Ok (HeaderId_ a (SmallHeads.head_hash_of a)).
Definition para_head_at (_ : positive) : result (option Z) := Ok (Some 42).
Definition prove_storage (keys : list Z) (_ : positive) : result (list SmallTrie.node) :=
  if decide (keys = [2]) then Ok SmallTrie.short_proof else Err (TargetClientError tt).
Definition submit {T : Type} (_ : T) : result unit := Ok tt.

Abbreviation clients :=
  (substrate_clients (fun para => para) SmallHeads.head_hash_of chain decode (Ok true) (Ok 6)
     para_head_at prove_storage (TargetClientError tt) (fun _ _ => true) Missing None
     (Ok (HeaderId_ 100 100)) (fun _ : Z => Ok (BestFinalized SmallHeads.g)) (fun _ : Z => Ok None)
     Some submit None).

Lemma g_header (hash root : positive) (n : Z) :
  ImportedHeaders SmallHeads.g !! hash = Some (StoredHeader n root) ->
  n = 5 /\ root = SmallTrie.hash SmallTrie.top.
Proof.
  unfold SmallHeads.g. cbn [ImportedHeaders]. intros [_ [= <- <-]]%lookup_singleton_Some. done.
Qed.

Lemma codec : para_codec SmallHeads.head_hash_of chain decode.
Proof.
  split.
  - intros a [n h]. unfold decode. simpl. split.
    + intros [= <- <-]. split; [done|]. by eexists.
    + intros [-> [root [= <- _]]]. done.
  - intros a n root [= <- <-]. done.
  - intros a b Heq. by apply (inj encode) in Heq.
  - done.
Qed.

Lemma shown : shows_heads (AccountId := Z) (AuthorityId := Z) (fun para => para) Some chain heads
  SmallHeads.g.
Proof.
  intros hash n root [-> ->]%g_header db v. simpl. unfold SmallTrie.read.
  unfold SmallTrie.find_node at 1. unfold SmallTrie.hash at 1. rewrite decode_encode. cbn [mbind option_bind].
  case_decide; [|done]. change (SmallTrie.child SmallTrie.top 2) with (Some (SmallTrie.hash SmallTrie.leaf2)).
  cbn iota beta. unfold SmallTrie.find_node, SmallTrie.hash. rewrite decode_encode. cbn [mbind option_bind].
  case_decide; [|done]. intros [= <-]. done.
Qed.

Lemma proof_is_honest (hash : positive) :
  honest_node (Value := Z) prove_storage hash (SmallTrie.hash SmallTrie.top).
Proof.
  split; unfold prove_storage; intros keys nodes; case_decide as Hk; try done; subst keys.
  - intros [= <-]. by apply (bool_decide_unpack _); vm_compute.
  - intros [= <-] _. vm_compute. reflexivity.
  - intros n [= <-] Hn. exists 2. split; [by left|].
    unfold visited_by. assert ((read_trie_value (Value := Z) (list_to_set SmallTrie.short_proof)
      (SmallTrie.hash SmallTrie.top) 2).1 = SmallTrie.short_proof) as -> by (vm_compute; reflexivity).
    exact Hn.
  - intros key [= <-] ->%list_elem_of_singleton. exists (Some 42). vm_compute. reflexivity.
Qed.

Lemma relay_source_is_honest : honest_source heads para_head_at prove_storage SmallHeads.g.
Proof.
  split.
  - intros hash n root a [-> ->]%g_header [= <-]. done.
  - intros hash n root [-> ->]%g_header. apply proof_is_honest.
Qed.

Lemma target_is_honest :
  honest_target (TargetHash := Z) (E := unit) (AuthorityId := Z) chain (Ok (HeaderId_ 100 100))
    (fun _ => Ok (BestFinalized SmallHeads.g)) (fun _ => Ok None) Some SmallHeads.g SmallHeads.p0.
Proof. split; intros b r _ [= <-]; vm_compute; reflexivity. Qed.

Lemma advance : heads_advance chain heads.
Proof. intros n m a b na nb ra rb _. unfold heads. repeat case_match; naive_solver. Qed.
End SmallRelay.

Lemma relayed_heads_are_imported_witness :
  exists info p',
    SmallHeads.submit SmallHeads.g SmallHeads.p0 (5, SmallHeads.relay_hash)
      [(2, SmallHeads.head_hash_of 42)] SmallTrie.short_proof = Ok (info, p') /\
    option_map header_hash (parachain_best_finalized p' SmallRelay.chain) =
      Some (SmallHeads.head_hash_of 42).
Proof.
  assert (para_turn SmallRelay.clients None =
    Ok (Some (Available (HeaderId_ 42 (SmallHeads.head_hash_of 42))),
        Some (HeaderId_ 5 SmallHeads.relay_hash, SmallHeads.head_hash_of 42, SmallTrie.short_proof)))
    as Hturn by (vm_compute; reflexivity).
  destruct (relayed_heads_are_imported (fun _ _ (_ : Z) _ _ => false) SmallBridge.voters_new
    (fun _ => 0) (fun _ => 0) (fun para => para) Some SmallHeads.head_hash_of (fun _ => 40)
    (fun _ => 60) SmallRelay.chain SmallRelay.heads SmallHeads.HeadsToKeep_ok SmallBridge.HeadersToKeep_ok
    SmallHeads.head_hash_number SmallRelay.decode SmallRelay.codec SmallRelay.advance (Ok true) (Ok 6)
    SmallRelay.para_head_at SmallRelay.prove_storage (TargetClientError tt) (fun _ _ => true) Missing None
    (Ok (HeaderId_ 100 100)) (fun _ => Ok (BestFinalized SmallHeads.g)) (fun _ => Ok None) Some
    SmallRelay.submit None SmallHeads.g SmallHeads.genesis SmallHeads.p0 None _ _ _ _
    SmallHeads.g_reachable SmallRelay.shown (rtc_refl _ _) eq_refl SmallRelay.relay_source_is_honest
    SmallRelay.target_is_honest (fun _ _ _ _ => ltac:(vm_compute; discriminate)) Hturn)
    as (at_relay & l & nodes & info & p' & id & head & Hcall & Hs & Hbest & Hid & _).
  injection Hcall as <- <- <-. exists info, p'. split; [exact Hs|]. rewrite Hbest. simpl. congruence.
Defined.
