(* ===== verification/RejectObsolete.v ===== *)
(** * bin/runtime-common/src/lib.rs: the extension that rejects obsolete calls

    [BridgeRuntimeFilterCall] with its implementations for the three bridge pallets, the
    signed extension that [generate_bridge_reject_obsolete_headers_and_messages] declares,
    and the list of filters that the Millau runtime gives to it
    (bin/millau/runtime/src/lib.rs).  [ValidTransaction] and its [combine_with] belong to
    sp-runtime and are parameters. *)

From S2P Require Import Prelude Substrate RuntimePrimitives HeaderChain StorageProof Justification.
From S2P Require Import GrandpaPallet ParachainsPallet MessagesPrimitives InboundLane OutboundLane.
From S2P Require Import MessagesPallet RuntimeMessages MessagesCallExt.
From stdpp Require Import base numbers list gmap.
Local Open Scope Z_scope.

(** ** The signed extension *)

Section Extension.
Context {ValidTransaction : Type} (valid_default : ValidTransaction)
  (combine_with : ValidTransaction -> ValidTransaction -> ValidTransaction).

(** [TransactionValidity]; an error is what the check says instead of [Valid]. *)
Abbreviation TransactionValidity := (outcome Validity ValidTransaction).

(** The pallets only return the default [ValidTransaction]. *)
Definition transaction_validity (v : Validity) : TransactionValidity :=
  match v with
  | Valid => Ok valid_default
  | v => Err v
  end.

Fixpoint validate_filters {Call : Type} (valid : ValidTransaction)
  (filters : list (Call -> TransactionValidity)) (call : Call) : TransactionValidity :=
  match filters with
  | [] => Ok valid
  | filter_call :: filters =>
      let? v := filter_call call in
      validate_filters (combine_with valid v) filters call
  end.

Definition reject_validate {Call : Type} (filters : list (Call -> TransactionValidity)) (call : Call) :
  TransactionValidity :=
  validate_filters valid_default filters call.

Definition reject_pre_dispatch {Call : Type} (filters : list (Call -> TransactionValidity))
  (call : Call) : outcome Validity unit :=
  let? _ := reject_validate filters call in
  Ok tt.

(** The first filter that rejects the call decides. *)
Lemma validate_filters_spec {Call : Type} (filters : list (Call -> TransactionValidity))
  (valid : ValidTransaction) (call : Call) :
  Forall (fun f => f call <> Panic) filters ->
  match validate_filters valid filters call with
  | Ok _ => Forall (fun f => exists v, f call = Ok v) filters
  | Err e => exists before f after, filters = before ++ f :: after /\
      Forall (fun f => exists v, f call = Ok v) before /\ f call = Err e
  | Panic => False
  end.
Proof.
  revert valid. induction filters as [|f filters IH]; intros valid Hp; [constructor|].
  apply Forall_cons in Hp as [Hf Hp]. simpl. destruct (f call) as [v|e|] eqn:Ef; [| |by destruct Hf].
  - specialize (IH (combine_with valid v) Hp). simpl. revert IH.
    destruct (validate_filters _ _ _) as [v'|e|]; [| |done].
    + intros IH. constructor; [by exists v|done].
    + intros (before & g & after & -> & Hb & Hg). exists (f :: before), g, after.
      split_and!; [done| |done]. constructor; [by exists v|done].
  - simpl. exists [], f, filters. by split_and!.
Qed.
End Extension.

(** ** The filters of the bridge pallets *)

(** What the storage of [Pallet] says about a runtime call. *)
Class BridgeRuntimeFilterCall (Pallet Call : Type) := filter_validate : Pallet -> Call -> Validity.

Section Filters.
Context `{WeightOps} {Config : GrandpaConfig}.
Context {AccountId InboundRelayer Hash AuthorityId Signature Hdr Bytes Node L X MHash : Type}.
Context `{Countable Hash} `{Header Hdr Hash}.
Abbreviation GrandpaJustification := (GrandpaJustification Hash AuthorityId Signature Hdr).
Context (header_encoded_size : Hdr -> Z) (justification_encoded_size : GrandpaJustification -> Z).

Definition grandpa_filter :
  BridgeRuntimeFilterCall (GrandpaPallet.pallet AccountId Hash AuthorityId)
    (GrandpaPallet.Call (Hash := Hash) (AuthorityId := AuthorityId) (Signature := Signature)
       (Hdr := Hdr)) :=
  check_obsolete_submit_finality_proof header_encoded_size justification_encoded_size.

Definition parachains_filter :
  BridgeRuntimeFilterCall (ParachainsPallet.pallet AccountId Hash Bytes) (ParachainsPallet.Call Hash Node) :=
  check_obsolete_submit_parachain_heads.

Definition messages_filter :
  BridgeRuntimeFilterCall (MessagesPallet.pallet AccountId InboundRelayer L X)
    (MessagesCallExt.Call InboundRelayer MHash Node) :=
  check_obsolete_call.
End Filters.

(** ** The Millau runtime *)

Section Millau.
Context `{WeightOps} `{!ParachainsConfig} (RialtoConfig WestendConfig : GrandpaConfig).
Context {AccountId InboundRelayer Hash AuthorityId Signature DigestItem Hdr Bytes Node Key L X MHash : Type}.
Context `{EqDecision AccountId} `{Countable Hash} `{Countable AuthorityId}.
Context `{Header Hdr Hash} `{!GrandpaHeader Hdr DigestItem AuthorityId}.
Context `{Trie Node Hash Key Bytes} `{!ParaStoredHeaderDataBuilder Bytes}.
Context {ValidTransaction : Type} (valid_default : ValidTransaction)
  (combine_with : ValidTransaction -> ValidTransaction -> ValidTransaction).
Abbreviation GrandpaJustification := (GrandpaJustification Hash AuthorityId Signature Hdr).
Abbreviation GrandpaCall := (GrandpaPallet.Call (Hash := Hash) (AuthorityId := AuthorityId)
  (Signature := Signature) (Hdr := Hdr)).
Abbreviation grandpa := (GrandpaPallet.pallet AccountId Hash AuthorityId).
Abbreviation parachains := (ParachainsPallet.pallet AccountId Hash Bytes).
Abbreviation messages := (MessagesPallet.pallet AccountId InboundRelayer L X).
Abbreviation MessagesCall := (MessagesCallExt.Call InboundRelayer MHash Node).
Context (header_encoded_size : Hdr -> Z) (justification_encoded_size : GrandpaJustification -> Z).

(** The bridge pallets of [construct_runtime]. *)
Record millau := Millau {
  rialto_grandpa : grandpa;
  rialto_messages : messages;
  westend_grandpa : grandpa;
  westend_parachains : parachains;
  rialto_parachains : parachains;
  rialto_parachain_messages : messages;
}.

Inductive MillauCall :=
| BridgeRialtoGrandpa (c : GrandpaCall)
| BridgeRialtoMessages (c : MessagesCall)
| BridgeWestendGrandpa (c : GrandpaCall)
| BridgeWestendParachains (c : ParachainsPallet.Call Hash Node)
| BridgeRialtoParachains (c : ParachainsPallet.Call Hash Node)
| BridgeRialtoParachainMessages (c : MessagesCall)
| OtherMillauCall.

(** [IsSubType] of the call, for each instance of a pallet. *)
Definition as_rialto_grandpa (call : MillauCall) : GrandpaCall :=
  match call with BridgeRialtoGrandpa c => c | _ => GrandpaPallet.other_call end.
Definition as_westend_grandpa (call : MillauCall) : GrandpaCall :=
  match call with BridgeWestendGrandpa c => c | _ => GrandpaPallet.other_call end.
Definition as_rialto_parachains (call : MillauCall) : ParachainsPallet.Call Hash Node :=
  match call with BridgeRialtoParachains c => c | _ => ParachainsPallet.other_call end.
Definition as_rialto_messages (call : MillauCall) : MessagesCall :=
  match call with BridgeRialtoMessages c => c | _ => MessagesCallExt.other_call end.
Definition as_rialto_parachain_messages (call : MillauCall) : MessagesCall :=
  match call with BridgeRialtoParachainMessages c => c | _ => MessagesCallExt.other_call end.

Definition millau_filters (rt : millau) : list (MillauCall -> outcome Validity ValidTransaction) :=
  [ (fun call => transaction_validity valid_default
       (grandpa_filter (Config := RialtoConfig) header_encoded_size justification_encoded_size
          (rialto_grandpa rt) (as_rialto_grandpa call)));
    (fun call => transaction_validity valid_default
       (grandpa_filter (Config := WestendConfig) header_encoded_size justification_encoded_size
          (westend_grandpa rt) (as_westend_grandpa call)));
    (fun call => transaction_validity valid_default
       (parachains_filter (rialto_parachains rt) (as_rialto_parachains call)));
    (fun call => transaction_validity valid_default
       (messages_filter (rialto_messages rt) (as_rialto_messages call)));
    (fun call => transaction_validity valid_default
       (messages_filter (rialto_parachain_messages rt) (as_rialto_parachain_messages call))) ].

Definition millau_pre_dispatch (rt : millau) (call : MillauCall) : outcome Validity unit :=
  reject_pre_dispatch valid_default combine_with (millau_filters rt) call.

(** What the pallet that a call belongs to says about it. *)
Definition own_check (rt : millau) (call : MillauCall) : Validity :=
  match call with
  | BridgeRialtoGrandpa c =>
      grandpa_filter (Config := RialtoConfig) header_encoded_size justification_encoded_size
        (rialto_grandpa rt) c
  | BridgeWestendGrandpa c =>
      grandpa_filter (Config := WestendConfig) header_encoded_size justification_encoded_size
        (westend_grandpa rt) c
  | BridgeRialtoParachains c => check_obsolete_submit_parachain_heads (rialto_parachains rt) c
  | BridgeRialtoMessages c => check_obsolete_call (rialto_messages rt) c
  | BridgeRialtoParachainMessages c => check_obsolete_call (rialto_parachain_messages rt) c
  | BridgeWestendParachains _ | OtherMillauCall => Valid
  end.

Lemma millau_verdict (rt : millau) (call : MillauCall) :
  millau_pre_dispatch rt call =
  match own_check rt call with Valid => Ok tt | v => Err v end.
Proof.
  unfold millau_pre_dispatch, reject_pre_dispatch, reject_validate, millau_filters, own_check.
  destruct call as [c|c|c|c|c|c|]; simpl; [| | |done| | |done].
  - by destruct (grandpa_filter _ _ (rialto_grandpa rt) c).
  - change (messages_filter (rialto_messages rt) c) with (check_obsolete_call (rialto_messages rt) c).
    by destruct (check_obsolete_call _ c).
  - by destruct (grandpa_filter _ _ (westend_grandpa rt) c).
  - change (parachains_filter (rialto_parachains rt) c)
      with (check_obsolete_submit_parachain_heads (rialto_parachains rt) c).
    by destruct (check_obsolete_submit_parachain_heads _ c).
  - change (messages_filter (rialto_parachain_messages rt) c)
      with (check_obsolete_call (rialto_parachain_messages rt) c).
    by destruct (check_obsolete_call _ c).
Qed.

(** *** What happens to a call that has landed *)

Context (check_message_signature : Precommit Hash -> AuthorityId -> Signature -> Z -> Z -> bool)
  (voter_set_new : list (AuthorityId * Z) -> option (VoterSet AuthorityId)).
Context (parachain_head_storage_key : Z -> Key) (decode_para_head : Bytes -> option Bytes)
  (para_head_hash : Bytes -> Hash) (encoded_size : Bytes -> Z) (node_len : Node -> Z).
Abbreviation submit_finality_proof Config :=
  (GrandpaPallet.submit_finality_proof (H0 := Config) check_message_signature voter_set_new
     header_encoded_size justification_encoded_size).
Abbreviation submit_parachain_heads :=
  (submit_parachain_heads parachain_head_storage_key decode_para_head para_head_hash encoded_size
     node_len).

Definition with_rialto_grandpa (g : grandpa) (rt : millau) : millau :=
  Millau g (rialto_messages rt) (westend_grandpa rt) (westend_parachains rt) (rialto_parachains rt)
    (rialto_parachain_messages rt).
Definition with_westend_grandpa (g : grandpa) (rt : millau) : millau :=
  Millau (rialto_grandpa rt) (rialto_messages rt) g (westend_parachains rt) (rialto_parachains rt)
    (rialto_parachain_messages rt).
Definition with_rialto_parachains (p : parachains) (rt : millau) : millau :=
  Millau (rialto_grandpa rt) (rialto_messages rt) (westend_grandpa rt) (westend_parachains rt) p
    (rialto_parachain_messages rt).

Lemma grandpa_landed (Config : GrandpaConfig) (g g' : grandpa) (h : Hdr) (j : GrandpaJustification)
  (info : PostDispatchInfo) :
  submit_finality_proof Config g h j = Ok (info, g') ->
  let check g := grandpa_filter (Config := Config) header_encoded_size justification_encoded_size g
                   (submit_finality_proof_call h j) in
  check g = Valid /\ check g' = Stale.
Proof.
  intros (best & voters & q & _ & _ & Hbest & Hlt & _ & _ & _ & _ & Hins & _)%submit_spec.
  unfold grandpa_filter, check_obsolete_submit_finality_proof, check_obsolete. simpl. split.
  - rewrite Hbest. simpl. by rewrite (proj2 (Z.leb_gt _ _) Hlt).
  - revert Hins. unfold insert_header. case_match; [done|]. intros [= <-]. simpl.
    by rewrite Z.leb_refl.
Qed.

Lemma head_landed (g : grandpa) (p p' : parachains) (n : Z) (hash : Hash) (para : Z) (head : Hash)
  (proof : list Node) (info : PostDispatchInfo) :
  0 < HeadsToKeep <= u32_max ->
  submit_parachain_heads g p (n, hash) [(para, head)] proof = Ok (info, p') ->
  best_parachain_info p' para <> best_parachain_info p para ->
  let call := submit_parachain_heads_call (n, hash) [(para, head)] proof in
  check_obsolete_submit_parachain_heads p call = Valid /\
  check_obsolete_submit_parachain_heads p' call = Stale.
Proof.
  intros Hkeep (root & c & _ & _ & _ & Hsteps & _)%submit_heads_spec Hne; [|done].
  unfold check_obsolete_submit_parachain_heads. simpl.
  eapply (head_steps_effect _ _ _ _ _ _ _ _ _ para) in Hsteps
    as [(h & data & Hin & [Hobs _] & Hi)|[_ [Hsame _]]]; [|by destruct Hne].
  apply list_elem_of_singleton in Hin as [= ->]. rewrite Hobs. split; [done|].
  by rewrite (import_once _ _ _ head _ _ _ Hi).
Qed.

(** The two runtimes have the same state of the pallet that the call belongs to. *)
Definition same_pallet (rt rt' : millau) (call : MillauCall) : Prop :=
  match call with
  | BridgeRialtoGrandpa _ => rialto_grandpa rt = rialto_grandpa rt'
  | BridgeRialtoMessages _ => rialto_messages rt = rialto_messages rt'
  | BridgeWestendGrandpa _ => westend_grandpa rt = westend_grandpa rt'
  | BridgeWestendParachains _ => westend_parachains rt = westend_parachains rt'
  | BridgeRialtoParachains _ => rialto_parachains rt = rialto_parachains rt'
  | BridgeRialtoParachainMessages _ => rialto_parachain_messages rt = rialto_parachain_messages rt'
  | OtherMillauCall => True
  end.

(** Deliveries and confirmations that are sent to the pallet [m] as the runtime call [to_call]: all
    pass but those that bring nothing new to the lane. *)
Definition obsolete_messages_rejected (rt : millau) (to_call : MessagesCall -> MillauCall) (m : messages) : Prop :=
  (forall relayer proof count weight,
     millau_pre_dispatch rt (to_call (receive_messages_proof_call relayer proof count weight))
     = if decide (mp_nonces_end proof <= last_delivered_nonce (inbound_lane_data m (mp_lane proof)))
       then Err Stale else Ok tt) /\
  (forall proof state,
     millau_pre_dispatch rt (to_call (receive_messages_delivery_proof_call proof state))
     = if decide (rs_last_delivered_nonce state
                  <= latest_received_nonce (ol_data (outbound_lane (mdp_lane proof) (pallet_rest m))))
       then Err Stale else Ok tt).

Lemma obsolete_messages (rt : millau) (to_call : MessagesCall -> MillauCall) (m : messages) :
  (forall c, own_check rt (to_call c) = check_obsolete_call m c) -> obsolete_messages_rejected rt to_call m.
Proof.
  intros Hown; split; intros; rewrite millau_verdict, Hown;
    unfold check_obsolete_call, MessagesCallExt.is_obsolete, inbound_lane_data; simpl;
    destruct (_ <=? _) eqn:E; case_decide; try done; lia.
Qed.

(** C28. The extension of the Millau runtime keeps relayers from paying twice for the same thing.
    It lets a finality proof of Rialto or of Westend, or the proof of a head of a Rialto parachain,
    pass before it is imported, and rejects the same call as stale afterwards; for both messages
    pallets it rejects a delivery or a confirmation of messages exactly if the lane has already got
    all of it.  The verdict on a call depends on nothing but the state of the pallet that the call
    belongs to, and other calls pass.  Heads of Westend parachains pass too, whatever the pallet has
    stored: [BridgeWestendParachains] is not in the list of filters. *)
Theorem landed_calls_are_rejected (rt : millau) :
  0 < HeadsToKeep <= u32_max ->
  (forall h j info g', submit_finality_proof RialtoConfig (rialto_grandpa rt) h j = Ok (info, g') ->
     let call := BridgeRialtoGrandpa (submit_finality_proof_call h j) in
     millau_pre_dispatch rt call = Ok tt /\
     millau_pre_dispatch (with_rialto_grandpa g' rt) call = Err Stale) /\
  (forall h j info g', submit_finality_proof WestendConfig (westend_grandpa rt) h j = Ok (info, g') ->
     let call := BridgeWestendGrandpa (submit_finality_proof_call h j) in
     millau_pre_dispatch rt call = Ok tt /\
     millau_pre_dispatch (with_westend_grandpa g' rt) call = Err Stale) /\
  (forall n hash para head proof info p',
     submit_parachain_heads (rialto_grandpa rt) (rialto_parachains rt) (n, hash) [(para, head)] proof =
       Ok (info, p') ->
     best_parachain_info p' para <> best_parachain_info (rialto_parachains rt) para ->
     let call := BridgeRialtoParachains (submit_parachain_heads_call (n, hash) [(para, head)] proof) in
     millau_pre_dispatch rt call = Ok tt /\
     millau_pre_dispatch (with_rialto_parachains p' rt) call = Err Stale) /\
  obsolete_messages_rejected rt BridgeRialtoMessages (rialto_messages rt) /\
  obsolete_messages_rejected rt BridgeRialtoParachainMessages (rialto_parachain_messages rt) /\
  (forall rt' call, same_pallet rt rt' call -> millau_pre_dispatch rt' call = millau_pre_dispatch rt call) /\
  millau_pre_dispatch rt OtherMillauCall = Ok tt /\
  (forall c, millau_pre_dispatch rt (BridgeWestendParachains c) = Ok tt).
Proof.
  intros Hkeep. split_and!.
  - intros h j info g' Hs. cbv zeta. rewrite !millau_verdict. simpl.
    by destruct (grandpa_landed _ _ _ _ _ _ Hs) as [-> ->].
  - intros h j info g' Hs. cbv zeta. rewrite !millau_verdict. simpl.
    by destruct (grandpa_landed _ _ _ _ _ _ Hs) as [-> ->].
  - intros n hash para head proof info p' Hs Hne. cbv zeta. rewrite !millau_verdict. simpl own_check.
    by destruct (head_landed _ _ _ _ _ _ _ _ _ Hkeep Hs Hne) as [-> ->].
  - by apply obsolete_messages.
  - by apply obsolete_messages.
  - intros rt' call Hsame. rewrite !millau_verdict. by destruct call; simpl in *; rewrite ?Hsame.
  - by rewrite millau_verdict.
  - intros c. by rewrite millau_verdict.
Qed.
End Millau.

(** The second parachain of ParachainsPallet.v, behind a Millau runtime. *)
Module SmallMillau.
Definition rt : millau := Millau SmallHeads.g StaleCall.p SmallHeads.g SmallHeads.p0 SmallHeads.p0 StaleCall.p.
Definition call :
  MillauCall (InboundRelayer := Z) (AuthorityId := Z) (Signature := Z) (Hdr := SmallHeads.hdr)
    (MHash := unit) :=
  BridgeRialtoParachains (submit_parachain_heads_call (5, SmallHeads.relay_hash)
    [(2, SmallHeads.head_hash_of 42)] SmallTrie.short_proof).
End SmallMillau.

Lemma landed_calls_are_rejected_witness :
  millau_pre_dispatch SmallBridge.config SmallBridge.config 0 Z.max (fun _ => 0) (fun _ => 0)
    SmallMillau.rt SmallMillau.call = Ok tt /\
  millau_pre_dispatch SmallBridge.config SmallBridge.config 0 Z.max (fun _ => 0) (fun _ => 0)
    (with_rialto_parachains SmallHeads.p1 SmallMillau.rt) SmallMillau.call = Err Stale.
Proof.
  destruct SmallHeads.heads_submitted as [info Hs].
  destruct (landed_calls_are_rejected (MHash := unit) SmallBridge.config SmallBridge.config 0 Z.max
    (fun _ => 0) (fun _ => 0) (fun _ _ (_ : Z) _ _ => false) SmallBridge.voters_new
    (fun para => para) Some SmallHeads.head_hash_of (fun _ => 40) (fun _ => 60) SmallMillau.rt
    SmallHeads.HeadsToKeep_ok) as (_ & _ & Hheads & _).
  exact (Hheads 5 SmallHeads.relay_hash 2 (SmallHeads.head_hash_of 42) SmallTrie.short_proof info
    SmallHeads.p1 Hs ltac:(vm_compute; discriminate)).
Defined.
