(* ===== verification/XcmExtension.v ===== *)
(** * bin/runtime-common/src/messages_xcm_extension.rs: XCM over the messages pallets

    [XcmBlobMessageDispatch] dispatches received messages to the XCM router of the target
    chain, [XcmBlobHaulerAdapter] sends the blobs of the XCM executor of the source chain
    with the messages pallet.  [DispatchBlob] of xcm-builder is a parameter. *)

From S2P Require Import Prelude Substrate RuntimePrimitives MessagesPrimitives OutboundLane.
From S2P Require Import InboundLane MessagesWeights MessagesPallet.
From Stdlib Require Import String.
From stdpp Require Import base numbers list gmap.
Local Open Scope Z_scope.

(** [xcm_builder::DispatchBlobError]. *)
Inductive DispatchBlobError :=
| Unbridgable
| InvalidEncoding
| UnsupportedLocationVersion
| UnsupportedXcmVersion
| RoutingError
| NonUniversalDestination
| WrongGlobal.

Inductive XcmBlobMessageDispatchResult :=
| XcmInvalidPayload
| XcmDispatched
| XcmNotDispatched (e : string).

Definition dispatch_blob_error (e : DispatchBlobError) : string :=
  match e with
  | Unbridgable => "DispatchBlobError::Unbridgable"
  | InvalidEncoding => "DispatchBlobError::InvalidEncoding"
  | UnsupportedLocationVersion => "DispatchBlobError::UnsupportedLocationVersion"
  | UnsupportedXcmVersion => "DispatchBlobError::UnsupportedXcmVersion"
  | RoutingError => "DispatchBlobError::RoutingError"
  | NonUniversalDestination => "DispatchBlobError::NonUniversalDestination"
  | WrongGlobal => "DispatchBlobError::WrongGlobal"
  end.

(** ** The target chain *)

Section Dispatch.
Context `{WeightOps} {AccountId W : Type}.

(** [DispatchBlobWeigher] and [BlobDispatcher]; a blob that is not dispatched may leave
    traces as well. *)
Context (DispatchBlobWeigher : Weight) (dispatch_blob : list Z -> W -> option DispatchBlobError * W).

Definition xcm_dispatch (_relayer_account : AccountId) (message : DispatchMessage (list Z)) (w : W) :
  MessageDispatchResult XcmBlobMessageDispatchResult * W :=
  match dispatch_data message with
  | None => (DispatchResult weight_zero XcmInvalidPayload, w)
  | Some payload =>
      let (r, w) := dispatch_blob payload w in
      let dispatch_level_result :=
        match r with
        | None => XcmDispatched
        | Some e => XcmNotDispatched (dispatch_blob_error e)
        end in
      (DispatchResult weight_zero dispatch_level_result, w)
  end.

Definition XcmBlobMessageDispatch : MessageDispatch AccountId (list Z) XcmBlobMessageDispatchResult W := {|
  dispatch_weight message := (DispatchBlobWeigher, message);
  dispatch := xcm_dispatch;
|}.
End Dispatch.

(** ** The source chain *)

(** [HaulBlobError::Transport]. *)
Inductive HaulBlobError := Transport (e : string).

Section Haul.
Context `{WeightOps} `{MessagesConstants} {AccountId P L DeliveryProof X : Type}.
Context `{!TargetHeaderChain (list Z) AccountId DeliveryProof X}.
Context `{!LaneMessageVerifier (list Z) AccountId X} `{!PayloadCodec (list Z) P}.

(** [XcmBlobHauler::message_sender_origin] and [xcm_lane]. *)
Context (message_sender_origin : RawOrigin AccountId) (xcm_lane : LaneId).

Definition haul_blob (r : rest AccountId L X) (blob : list Z) :
  outcome HaulBlobError (rest AccountId L X) :=
  let lane := xcm_lane in
  let result := send_message r message_sender_origin lane blob in
  map_err (fun _ => Transport "MessageSenderError") (let? (_, r) := result in Ok r).
End Haul.

(** A message that was sent is stored with the next nonce of the lane. *)
Section HaulFacts.
Context `{WeightLaws} `{MessagesConstants} {AccountId P L DeliveryProof X : Type}.
Context `{!TargetHeaderChain (list Z) AccountId DeliveryProof X}.
Context `{!LaneMessageVerifier (list Z) AccountId X} `{!PayloadCodec (list Z) P}.
Context (message_sender_origin : RawOrigin AccountId) (xcm_lane : LaneId).

Lemma send_message_stores (r r' : rest AccountId L X) (payload : list Z) (art : SendMessageArtifacts) :
  outbound_ok r -> send_message r message_sender_origin xcm_lane payload = Ok (art, r') ->
  let nonce := latest_generated_nonce (ol_data (outbound_lane xcm_lane r)) + 1 in
  art_nonce art = nonce /\ OutboundMessages r' !! MessageKey_ xcm_lane nonce = Some (encode_payload payload).
Proof.
  intros Hok Hs nonce. destruct (Hok xcm_lane) as [Hinv Hmax]. unfold send_message in Hs.
  apply obind_Ok in Hs as ([] & _ & Hs). do 4 apply obind_Ok in Hs as ([] & _ & Hs).
  apply obind_Ok in Hs as ([n s] & Hsend%expect_Ok & [= <- <-]).
  destruct (send_message_spec _ _ _ _ Hinv Hmax Hsend) as (-> & _ & Hm). split; [done|].
  apply send_message_frame in Hsend as (Hid & _ & _). specialize (Hm nonce).
  rewrite decide_True in Hm by done. simpl in *. by rewrite Hid in Hm.
Qed.

Lemma haul_blob_stores (r r' : rest AccountId L X) (blob : list Z) :
  outbound_ok r -> haul_blob message_sender_origin xcm_lane r blob = Ok r' ->
  OutboundMessages r' !!
    MessageKey_ xcm_lane (latest_generated_nonce (ol_data (outbound_lane xcm_lane r)) + 1) =
  Some (encode_payload blob).
Proof.
  intros Hok Hh. unfold haul_blob in Hh.
  apply map_err_Ok, obind_Ok in Hh as ([art r1] & Hs & [= <-]).
  by apply (send_message_stores r r1 blob art Hok Hs).
Qed.
End HaulFacts.

(** ** From the executor to the router *)

Section DispatchFacts.
Context `{WeightLaws} `{MessagesConstants}.
Context {AccountId InboundRelayer X : Type} `{EqDecision InboundRelayer}.
Abbreviation rest := (rest AccountId XcmBlobMessageDispatchResult X).
Context (DispatchBlobWeigher : Weight)
  (dispatch_blob : list Z -> rest -> option DispatchBlobError * rest).
Abbreviation receive_one :=
  (receive_one (MessageDispatch0 := XcmBlobMessageDispatch DispatchBlobWeigher dispatch_blob)).
Abbreviation batch := (batch (AccountId := AccountId) (InboundRelayer := InboundRelayer)
  (L := XcmBlobMessageDispatchResult) (X := X)).
Abbreviation lane_data b := ((inbound_storage_data (b_lane b)).1).

(** The batch has room for one more message of its lane, and enough weight is left for it. *)
Record has_room (b : batch) : Prop := {
  hr_running : b_stopped b = false;
  hr_lane : lane_ok (lane_data b);
  hr_entries : Z.of_nat (length (relayers (lane_data b))) < MaxUnrewardedRelayerEntriesAtInboundLane;
  hr_unconfirmed : last_delivered_nonce (lane_data b) + 1 - last_confirmed_nonce (lane_data b)
    <= MaxUnconfirmedMessagesAtInboundLane;
  hr_weight : weight_le DispatchBlobWeigher (dispatch_weight_left b);
}.

Definition xcm_result (e : option DispatchBlobError) : XcmBlobMessageDispatchResult :=
  match e with
  | None => XcmDispatched
  | Some e => XcmNotDispatched (dispatch_blob_error e)
  end.

Lemma blob_is_dispatched (b : batch) (relayer : InboundRelayer) (account : AccountId)
  (key : MessageKey) (blob : list Z) :
  has_room b -> key_nonce key = last_delivered_nonce (lane_data b) + 1 ->
  let b' := receive_one relayer account b (DispatchMessage_ key (Some blob)) in
  let '(e, r) := dispatch_blob blob (b_rest b) in
  b_rest b' = r /\
  b_status b' = received_push (b_status b) (key_nonce key)
    (Dispatched (DispatchResult weight_zero (xcm_result e))) /\
  last_delivered_nonce (lane_data b') = key_nonce key /\
  b_actual_weight b' = b_actual_weight b /\
  ref_time (dispatch_weight_left b') =
    ref_time (dispatch_weight_left b) - ref_time DispatchBlobWeigher /\
  proof_size (dispatch_weight_left b') =
    proof_size (dispatch_weight_left b) - proof_size DispatchBlobWeigher.
Proof.
  intros [Hrun [Hinv Hmax] He Hu [Ht Hp]] Hn b'. destruct (dispatch_blob blob (b_rest b)) as [e r] eqn:Ed.
  pose proof (receive_message_accepts (MessageDispatch0 := XcmBlobMessageDispatch DispatchBlobWeigher
    dispatch_blob) (b_lane b) (b_rest b) relayer account (Some blob) Hinv ltac:(simpl in *; lia) He Hu)
    as Hacc.
  cbn [dispatch XcmBlobMessageDispatch] in Hacc. unfold xcm_dispatch in Hacc at 1.
  cbn [dispatch_data] in Hacc. rewrite Ed in Hacc. change ((il_data (b_lane b)).1) with (lane_data b) in Hacc.
  rewrite <- Hn in Hacc. pose proof Hacc as Hrecv.
  eapply receive_message_inv in Hrecv as (_ & _ & [(dr & _ & _ & Hdel)|[Hno _]]);
    [|by destruct (Hno _ eq_refl)|exact Hinv|exact Hmax].
  unfold b', MessagesPallet.receive_one. rewrite Hrun. cbn [dispatch_weight XcmBlobMessageDispatch].
  rewrite any_gt_spec, !(proj2 (Z.ltb_ge _ _)) by lia. simpl orb. cbn [dispatch_key dispatch_data].
  rewrite Hacc. cbn [b_rest b_status b_lane b_actual_weight dispatch_weight_left unspent_weight].
  assert (weight_min weight_zero DispatchBlobWeigher = weight_zero) as ->.
  { apply weight_ext; rewrite ?ref_time_min, ?proof_size_min; unfold weight_zero;
      rewrite ?ref_time_from_parts, ?proof_size_from_parts by word;
      [pose proof (ref_time_u64 DispatchBlobWeigher)|pose proof (proof_size_u64 DispatchBlobWeigher)]; word. }
  assert (weight_sub DispatchBlobWeigher weight_zero = DispatchBlobWeigher) as ->.
  { apply weight_ext; [rewrite ref_time_sub|rewrite proof_size_sub]; unfold weight_zero;
      rewrite ?ref_time_from_parts, ?proof_size_from_parts by word;
      pose proof (ref_time_u64 DispatchBlobWeigher); pose proof (proof_size_u64 DispatchBlobWeigher); word. }
  split_and!; [done|done|exact Hdel| |by apply ref_time_sub|by apply proof_size_sub].
  apply weight_ext; rewrite ?ref_time_saturating_sub, ?proof_size_saturating_sub; unfold weight_zero;
    rewrite ?ref_time_from_parts, ?proof_size_from_parts by word; unfold saturating_sub;
    [pose proof (ref_time_u64 (b_actual_weight b))|pose proof (proof_size_u64 (b_actual_weight b))]; word.
Qed.
End DispatchFacts.

(** XCM blobs cross the bridge unchanged: if the adapter at the source chain reports success, the
    blob is stored as the message with the next nonce of the XCM lane; and when that
    message arrives at a target lane that has delivered the previous one and has room and
    weight for it, the router of the target chain gets exactly the blob, once, its verdict is
    recorded as the result of the message, the lane counts the message as delivered whatever
    the verdict is, and none of the weight of the message is refunded. *)
Theorem hauled_blobs_are_dispatched `{WeightLaws} (TargetConstants SourceConstants : MessagesConstants)
  {AccountId L DeliveryProof X : Type} `{!TargetHeaderChain (list Z) AccountId DeliveryProof X}
  `{!LaneMessageVerifier (list Z) AccountId X} `{!PayloadCodec (list Z) (list Z)}
  {TargetAccountId InboundRelayer TX : Type} `{EqDecision InboundRelayer}
  (origin : RawOrigin AccountId) (xcm_lane : LaneId) (DispatchBlobWeigher : Weight)
  (dispatch_blob : list Z -> rest TargetAccountId XcmBlobMessageDispatchResult TX ->
     option DispatchBlobError * rest TargetAccountId XcmBlobMessageDispatchResult TX)
  (r r' : rest AccountId L X) (blob : list Z) (b : batch) (relayer : InboundRelayer)
  (account : TargetAccountId) :
  (forall blob, decode_payload (encode_payload blob) = Some blob) ->
  outbound_ok r -> haul_blob origin xcm_lane r blob = Ok r' ->
  let nonce := latest_generated_nonce (ol_data (outbound_lane xcm_lane r)) + 1 in
  let key := MessageKey_ xcm_lane nonce in
  has_room (H1 := TargetConstants) DispatchBlobWeigher b ->
  last_delivered_nonce (inbound_storage_data (b_lane b)).1 + 1 = nonce ->
  exists payload,
    OutboundMessages r' !! key = Some payload /\
    let b' := receive_one (H0 := TargetConstants)
      (MessageDispatch0 := XcmBlobMessageDispatch DispatchBlobWeigher dispatch_blob)
      relayer account b (dispatch_message_from {| message_key := key; message_payload := payload |}) in
    let '(e, after) := dispatch_blob blob (b_rest b) in
    b_rest b' = after /\
    b_status b' = received_push (b_status b) nonce (Dispatched (DispatchResult weight_zero (xcm_result e))) /\
    last_delivered_nonce (inbound_storage_data (b_lane b')).1 = nonce /\
    b_actual_weight b' = b_actual_weight b /\
    ref_time (dispatch_weight_left b') =
      ref_time (dispatch_weight_left b) - ref_time DispatchBlobWeigher.
Proof.
  intros Hcodec Hok Hhaul nonce key Hroom Hnext. exists (encode_payload blob).
  split; [by eapply haul_blob_stores|]. unfold dispatch_message_from. cbn [message_key message_payload].
  rewrite Hcodec.
  pose proof (blob_is_dispatched (H1 := TargetConstants) DispatchBlobWeigher dispatch_blob b relayer account
    key blob Hroom (eq_sym Hnext)) as Hd.
  destruct (dispatch_blob blob (b_rest b)) as [e after]. cbn zeta in Hd |- *.
  destruct Hd as (Hr & Hs & Hn & Hw & Ht & _). by split_and!.
Qed.

(** The lane of MessagesPallet.v, with a router that refuses empty blobs and remembers the others. *)
Module SmallXcm.
Definition target : Type := rest Z XcmBlobMessageDispatchResult (list (list Z)).
Definition dispatch_blob (blob : list Z) (r : target) : option DispatchBlobError * target :=
  match blob with
  | [] => (Some InvalidEncoding, r)
  | _ => (None, set_external (external r ++ [blob]) r)
  end.
Definition target0 : target := Rest None (Basic Normal) ∅ ∅ [] [].
Definition batch1 : batch :=
  Batch (RuntimeInbound OneLane.lane0 (Some (Inbound [] 1 : InboundLaneData Z)) ∅) target0
    (received_new OneLane.lane0 []) false (from_parts 100 0) (from_parts 500 0) 0 0.

Lemma batch1_room : has_room (from_parts 10 0) batch1.
Proof.
  split; [done| |by vm_compute|by vm_compute|split; by vm_compute].
  split; [|by vm_compute]. split; unfold last_delivered_nonce; simpl; try word; [exists 2; simpl; lia|done].
Qed.

Lemma hauled : exists r', haul_blob (P := list Z) (DeliveryProof := InboundLaneData Z) (Signed 3)
  OneLane.lane0 OneLane.rest1 [8; 9] = Ok r'.
Proof.
  assert (match haul_blob (P := list Z) (DeliveryProof := InboundLaneData Z) (Signed 3) OneLane.lane0
    OneLane.rest1 [8; 9] with Ok _ => true | _ => false end = true) as Hok by (vm_compute; reflexivity).
  destruct (haul_blob _ _ _ _) as [r'|e|]; [by exists r'|discriminate Hok..].
Qed.

Lemma next : last_delivered_nonce (inbound_storage_data (b_lane batch1)).1 + 1 =
  latest_generated_nonce (ol_data (outbound_lane OneLane.lane0 OneLane.rest1)) + 1.
Proof. vm_compute. reflexivity. Qed.

Lemma nonce : latest_generated_nonce (ol_data (outbound_lane OneLane.lane0 OneLane.rest1)) + 1 = 2.
Proof. vm_compute. reflexivity. Qed.
End SmallXcm.

Lemma hauled_blobs_are_dispatched_witness :
  exists r', haul_blob (P := list Z) (DeliveryProof := InboundLaneData Z) (Signed 3) OneLane.lane0 OneLane.rest1
      [8; 9] = Ok r' /\
    OutboundMessages r' !! MessageKey_ OneLane.lane0 2 = Some [8; 9] /\
    external (b_rest (receive_one (MessageDispatch0 := XcmBlobMessageDispatch (from_parts 10 0)
        SmallXcm.dispatch_blob) 7 3 SmallXcm.batch1
      (dispatch_message_from
         {| message_key := MessageKey_ OneLane.lane0 2; message_payload := [8; 9] |}))) = [[8; 9]].
Proof.
  destruct SmallXcm.hauled as [r' Hhaul]. exists r'. split; [exact Hhaul|].
  destruct (hauled_blobs_are_dispatched (PayloadCodec0 := OneLane.codec) OneLane.constants OneLane.constants (Signed 3) OneLane.lane0
    (from_parts 10 0) SmallXcm.dispatch_blob OneLane.rest1 r' [8; 9] SmallXcm.batch1 7 3
    (fun _ => eq_refl) OneLane.rest1_ok Hhaul SmallXcm.batch1_room SmallXcm.next) as (payload & Hp & Hb).
  assert (payload = [8; 9]) as ->.
  { pose proof (haul_blob_stores _ _ _ _ _ OneLane.rest1_ok Hhaul) as Hs. rewrite Hs in Hp.
    injection Hp as <-. reflexivity. }
  destruct Hb as [Hr _]. rewrite SmallXcm.nonce in Hp, Hr. split; [exact Hp|].
  exact (f_equal external Hr).
Defined.
