(* ===== verification/Integrity.v ===== *)
(** * bin/runtime-common/src/integrity.rs: the integrity tests of a bridge configuration

    The assertions that a runtime runs on the constants of its bridge pallets, and what a
    configuration that passes them may rely on.  A failed assertion is a panic. *)

From S2P Require Import Prelude Substrate RuntimePrimitives MessagesPrimitives OutboundLane.
From S2P Require Import InboundLane MessagesWeights MessagesPallet StorageProof HeaderChain.
From S2P Require Import Justification GrandpaPallet RuntimeMessages.
From Stdlib Require Import String.
From stdpp Require Import base numbers list gmap.
Local Open Scope Z_scope.

Definition assert_bridge_grandpa_pallet_constants `{WeightOps} `{!GrandpaConfig} :
  outcome Empty_set unit :=
  assert (0 <? MaxRequests).

Record AssertBridgeMessagesPalletConstants := AssertMessages {
  max_unrewarded_relayers_in_bridged_confirmation_tx : MessageNonce;
  max_unconfirmed_messages_in_bridged_confirmation_tx : MessageNonce;
  bridged_chain_id : list Z;
}.

Definition assert_bridge_messages_pallet_constants `{MessagesConstants} (BridgedChainId : list Z)
  (params : AssertBridgeMessagesPalletConstants) : outcome Empty_set unit :=
  check? assert (match ActiveOutboundLanes with [] => false | _ => true end) in
  check? assert (MaxUnrewardedRelayerEntriesAtInboundLane <=?
                 max_unrewarded_relayers_in_bridged_confirmation_tx params) in
  check? assert (MaxUnconfirmedMessagesAtInboundLane <=?
                 max_unconfirmed_messages_in_bridged_confirmation_tx params) in
  assert (bool_decide (BridgedChainId = bridged_chain_id params)).

Section Weights.
Context `{WeightOps} {Info : WeightInfoExt}.

(** [C::max_extrinsic_size] and [C::max_extrinsic_weight]; the lengths that the codec knows. *)
Context (max_extrinsic_size : Z) (max_extrinsic_weight : Weight) (usize_max nonce_len : Z).

(** [InboundLaneData::<()>]: the identifier of a relayer takes no space. *)
Definition check_message_lane_weights (bridged_chain_extra_storage_proof_size : Z)
  (this_chain_max_unrewarded_relayers this_chain_max_unconfirmed_messages : MessageNonce) :
  outcome Empty_set unit :=
  check? ensure_weights_are_correct in
  let max_incoming_message_proof_size :=
    saturating_add u32_max bridged_chain_extra_storage_proof_size
      (maximal_incoming_message_size max_extrinsic_size) in
  check? ensure_able_to_receive_message max_extrinsic_size max_extrinsic_weight
    max_incoming_message_proof_size
    (maximal_incoming_message_dispatch_weight max_extrinsic_weight) in
  let max_incoming_inbound_lane_data_proof_size :=
    encoded_size_hint_u32 usize_max nonce_len 0 (this_chain_max_unrewarded_relayers mod (usize_max + 1)) in
  ensure_able_to_receive_confirmation max_extrinsic_size max_extrinsic_weight
    max_incoming_inbound_lane_data_proof_size this_chain_max_unrewarded_relayers
    this_chain_max_unconfirmed_messages.
End Weights.

(** ** What a configuration that passes may rely on *)

(** C40. The integrity test of a chain protects the messages that the other chain accepts: if it passes,
    then every payload that the verifier at the source accepts fits into a delivery transaction
    at this chain.  A proof that is larger than the payload by at most the declared extra
    size fits into an extrinsic together with the signed extensions, and the call that declares
    the dispatch weight of the payload is within the maximal weight of an extrinsic.  For the weight,
    [verify_dispatch_weight] has to do what its trait documents: the dispatch of a payload that it
    accepts is within the limit for incoming messages.  The chains that implement the trait accept
    every payload, so for them the limit is an assumption on all payloads. *)
Theorem accepted_message_is_deliverable `{WeightLaws} {Info : WeightInfoExt} {AccountId X Node : Type}
  `{!MessageBridge AccountId X} (max_weight : Weight) (usize_max nonce_len extra : Z)
  (max_relayers max_messages : MessageNonce) (payload : list Z) (node_len : Node -> Z)
  (proof : list Node) (dispatch_weight_of : list Z -> Weight) :
  byte_weight_ok -> 0 <= max_extrinsic_size ->
  max_extrinsic_size + expected_extra_storage_proof_size <= u32_max ->
  max_extrinsic_size < u32_max -> is_u32 extra ->
  (forall payload, verify_dispatch_weight payload = true ->
     weight_le (dispatch_weight_of payload) (maximal_incoming_message_dispatch_weight max_weight)) ->
  check_message_lane_weights max_extrinsic_size max_weight usize_max nonce_len extra max_relayers
    max_messages = Ok tt ->
  verify_chain_message payload = Ok tt ->
  0 <= storage_proof_size node_len proof <= extra + Z.of_nat (length payload) ->
  storage_proof_size node_len proof + SIGNED_EXTENSIONS_SIZE <= max_extrinsic_size /\
  weight_le (receive_messages_proof_weight (storage_proof_size node_len proof) 1 (dispatch_weight_of payload))
    max_weight.
Proof.
  intros Hbytes Hmax Hsum Hsize Hextra Hlimit Hcheck Hpayload Hproof.
  apply obind_Ok in Hcheck as ([] & _ & Hcheck). apply obind_Ok in Hcheck as ([] & Hable & _).
  unfold verify_chain_message, maximal_message_size in Hpayload.
  destruct (verify_dispatch_weight payload) eqn:Hverify; [|done]. apply Hlimit in Hverify as Hdispatch.
  simpl in Hpayload.
  destruct (_ <? Z.of_nat (length payload)) eqn:El; [done|]. apply Z.ltb_ge in El.
  set (incoming := maximal_incoming_message_size max_extrinsic_size) in *.
  assert (0 <= incoming) as Hin.
  { unfold incoming, maximal_incoming_message_size. pose proof (Z.div_pos max_extrinsic_size 3). lia. }
  pose proof (bw_extra Hbytes) as Hexp. pose proof Hable as (? & Hfits%assert_Ok & _)%obind_Ok.
  assert (saturating_add u32_max extra incoming = extra + incoming) as Hadd.
  { unfold saturating_add, SIGNED_EXTENSIONS_SIZE in *. word. }
  rewrite Hadd in Hable, Hfits.
  assert (extra + incoming + SIGNED_EXTENSIONS_SIZE <= max_extrinsic_size) as Hle.
  { unfold saturating_add, SIGNED_EXTENSIONS_SIZE in *. word. }
  split; [lia|].
  apply obind_Ok in Hable as ([] & _ & Hw%assert_Ok). apply all_lte_weight_le in Hw. etrans; [|exact Hw]. unfold SIGNED_EXTENSIONS_SIZE in Hle.
  rewrite wrapping_add_small by word. unfold precomputed_size. rewrite (proj2 (Z.leb_le _ _)) by word.
  apply receive_messages_proof_weight_le; [done|word|word|done].
Qed.

(** The test of confirmations is weaker than it should be: it measures [InboundLaneData::<()>], in
    which the relayers have no identifiers.  The lane data with as many relayers as the test
    allows is larger than what is tested, by the length of an identifier for each of them. *)
Theorem tested_lane_data_is_too_small (usize_max nonce_len relayer_id_len relayers : Z) :
  0 < relayer_id_len -> 0 <= nonce_len -> 0 < relayers ->
  relayers * (relayer_id_len + 2 * nonce_len) + nonce_len <= u32_max -> u32_max <= usize_max ->
  encoded_size_hint_u32 usize_max nonce_len relayer_id_len relayers =
  encoded_size_hint_u32 usize_max nonce_len 0 relayers + relayers * relayer_id_len.
Proof.
  intros Hid Hn Hr Hsmall Hu. assert (0 <= u32_max) by word.
  assert (relayer_id_len + 2 * nonce_len <= relayers * (relayer_id_len + 2 * nonce_len)) by nia.
  assert (relayers * (2 * nonce_len) <= relayers * (relayer_id_len + 2 * nonce_len)) by nia.
  unfold encoded_size_hint_u32, encoded_size_hint, checked_add, checked_mul.
  rewrite (Z.mod_small (2 * nonce_len)) by lia.
  repeat (rewrite (proj2 (Z.leb_le _ _)) by lia; simpl). lia.
Qed.

(** Extrinsics of 10000 bytes and the shipped weights. *)
Module SmallIntegrity.
Definition bridge : MessageBridge Z unit := {|
  BRIDGED_MESSAGES_PALLET_NAME := "Messages";
  is_message_accepted _ _ _ := true;
  maximal_pending_messages_at_outbound_lane := 10;
  verify_dispatch_weight payload := (length payload <=? 100)%nat;
  max_extrinsic_size := 10000;
|}.
Definition max_weight : Weight := from_parts (10 ^ 13) (10 ^ 7).

Definition dispatch_weight_of (payload : list Z) : Weight := from_parts (1000 * Z.of_nat (length payload)) 1000.

Lemma limit_kept (payload : list Z) :
  verify_dispatch_weight (MessageBridge := bridge) payload = true ->
  weight_le (dispatch_weight_of payload) (maximal_incoming_message_dispatch_weight max_weight).
Proof.
  intros Hlen%Nat.leb_le.
  assert (ref_time (maximal_incoming_message_dispatch_weight max_weight) = 5 * 10 ^ 12
          /\ proof_size (maximal_incoming_message_dispatch_weight max_weight) = 5 * 10 ^ 6) as [Hr Hp]
    by (vm_compute; split; reflexivity).
  split; unfold dispatch_weight_of; rewrite ?Hr, ?Hp.
  - rewrite ref_time_from_parts; unfold is_u64, u64_max; lia.
  - rewrite proof_size_from_parts; unfold is_u64, u64_max; lia.
Qed.

Lemma checked :
  check_message_lane_weights (Info := BridgeWeight rocks_db) 10000 max_weight u64_max 8 1024 16 64 = Ok tt.
Proof. vm_compute. reflexivity. Qed.
End SmallIntegrity.

Lemma accepted_message_is_deliverable_witness :
  verify_chain_message (MessageBridge0 := SmallIntegrity.bridge) [1; 2; 3] = Ok tt /\
  weight_le (receive_messages_proof_weight (Info := BridgeWeight rocks_db)
    (storage_proof_size (fun _ : unit => 600) [tt]) 1 (from_parts 3000 1000)) SmallIntegrity.max_weight.
Proof.
  split; [reflexivity|].
  refine (proj2 (accepted_message_is_deliverable (Info := BridgeWeight rocks_db)
    (MessageBridge0 := SmallIntegrity.bridge) SmallIntegrity.max_weight u64_max 8 1024 16 64 [1; 2; 3]
    (fun _ => 600) [tt] SmallIntegrity.dispatch_weight_of _ _ _ _ _ SmallIntegrity.limit_kept
    SmallIntegrity.checked eq_refl _)).
  - apply shipped_byte_weight_ok; simpl; lia.
  - simpl. lia.
  - by vm_compute.
  - by vm_compute.
  - by vm_compute.
  - split; by vm_compute.
Defined.

Lemma tested_lane_data_is_too_small_witness :
  encoded_size_hint_u32 u64_max 8 32 16 = encoded_size_hint_u32 u64_max 8 0 16 + 512.
Proof. apply (tested_lane_data_is_too_small u64_max 8 32 16); by vm_compute. Defined.
