(* ===== verification/EndToEnd.v ===== *)
(** * Delivery and confirmation through all components

    The composition of the relay with the runtimes of both chains.  Messages that the source
    chain stores are proved to the relay by a node of the source chain, and the delivery call
    of the messages pallet at the target chain verifies the proof against the headers of its
    light client and dispatches the messages.  The state of the lane at the target chain is
    proved in the same way to the source chain, which pays the relayers. *)

From S2P Require Import Prelude Substrate RuntimePrimitives MessagesPrimitives OutboundLane.
From S2P Require Import InboundLane MessagesWeights MessagesPallet StorageProof HeaderChain.
From S2P Require Import RuntimeMessages RelayUtils RaceStrategy DeliveryRace MessagesClients.
From S2P Require Import LaneProtocol DeliveryAcceptance RelayedProofs MessagesCallExt.
From Stdlib Require Import String.
From stdpp Require Import base numbers list gmap.
Local Open Scope Z_scope.

(** ** All messages of a lane *)

Section Delivery.
Context `{WeightLaws} `{MessagesConstants}.
Context {AccountId InboundRelayer P L X : Type} `{EqDecision InboundRelayer}.
Abbreviation rest := (rest AccountId L X).
Context `{!MessageDispatch AccountId P L rest} `{!MessageDispatchLaws}.
Abbreviation batch := (batch (AccountId := AccountId) (InboundRelayer := InboundRelayer) (L := L)
  (X := X)).
Abbreviation lane_data b := ((il_data (b_lane b)).1).
Abbreviation delivered b := (MessagesPrimitives.last_delivered_nonce (lane_data b)).

(** The message as it is dispatched: the estimation of the weight may have rewritten the payload. *)
Definition dispatched_message (lane : LaneId) (m : DispatchMessage P) : DispatchMessage P :=
  DispatchMessage_ (MessageKey_ lane (key_nonce (dispatch_key m))) (dispatch_data (dispatch_weight m).2).

(** What the dispatch of all messages, in order and once each, makes of the chain. *)
Definition dispatch_all (a : AccountId) (lane : LaneId) (ms : list (DispatchMessage P)) (r : rest) : rest :=
  fold_left (fun r m => (dispatch a (dispatched_message lane m) r).2) ms r.

Definition total_ref_time (ms : list (DispatchMessage P)) : Z :=
  foldr (fun m sum => ref_time (dispatch_weight m).1 + sum) 0 ms.
Definition total_proof_size (ms : list (DispatchMessage P)) : Z :=
  foldr (fun m sum => proof_size (dispatch_weight m).1 + sum) 0 ms.

Lemma totals_nonneg (ms : list (DispatchMessage P)) : 0 <= total_ref_time ms /\ 0 <= total_proof_size ms.
Proof.
  induction ms as [|m ms [IHt IHp]]; simpl; [done|].
  pose proof (ref_time_u64 (dispatch_weight m).1). pose proof (proof_size_u64 (dispatch_weight m).1).
  unfold is_u64 in *. lia.
Qed.

(** One message for which there is room and weight. *)
Lemma receive_one_delivers (r : InboundRelayer) (a : AccountId) (b : batch) (m : DispatchMessage P) :
  let d := lane_data b in
  b_stopped b = false -> inbound_inv (b_lane b) -> delivered b + 1 <= u64_max ->
  key_nonce (dispatch_key m) = delivered b + 1 ->
  Z.of_nat (length (relayers d)) < MaxUnrewardedRelayerEntriesAtInboundLane ->
  delivered b + 1 - last_confirmed_nonce d <= MaxUnconfirmedMessagesAtInboundLane ->
  weight_le (dispatch_weight m).1 (dispatch_weight_left b) ->
  let b' := receive_one r a b m in
  b_stopped b' = false /\ inbound_inv (b_lane b') /\ delivered b' = delivered b + 1 /\
  ri_lane_id (b_lane b') = ri_lane_id (b_lane b) /\
  lane_data b' = Inbound (note_delivered r (delivered b + 1) (relayers d)) (last_confirmed_nonce d) /\
  b_rest b' = (dispatch a (dispatched_message (ri_lane_id (b_lane b)) m) (b_rest b)).2 /\
  ref_time (dispatch_weight_left b) - ref_time (dispatch_weight m).1 <= ref_time (dispatch_weight_left b') /\
  proof_size (dispatch_weight_left b) - proof_size (dispatch_weight m).1 <= proof_size (dispatch_weight_left b').
Proof.
  intros d Hrun Hinv Hmax Hn Hlen Hmu [Ht Hp] b'.
  pose proof (receive_message_accepts (b_lane b) (b_rest b) r a (dispatch_data (dispatch_weight m).2)
    Hinv Hmax Hlen Hmu) as Hacc.
  unfold dispatched_message. rewrite Hn. cbv zeta in Hacc. cbn [il_id runtime_inbound_storage] in Hacc.
  destruct (dispatch a _ (b_rest b)) as [dr w'] eqn:Ed. set (s' := il_set_data _ _) in Hacc.
  pose proof Hacc as Hrecv.
  eapply receive_message_inv in Hrecv as (Hinv' & _ & [(dr' & _ & _ & Hdel)|[Hno _]]);
    [|by destruct (Hno _ eq_refl)|exact Hinv|unfold d in *; simpl in *; lia].
  unfold b', receive_one. rewrite Hrun. pose proof (dispatch_weight_key m) as Hkey.
  destruct (dispatch_weight m) as [est m'] eqn:Ew. cbn [fst snd] in *.
  rewrite any_gt_spec, !(proj2 (Z.ltb_ge _ _)) by lia. cbn [orb]. rewrite Hkey, Hn, Hacc.
  cbn [b_stopped b_lane b_rest dispatch_weight_left].
  pose proof (ref_time_u64 est). pose proof (proof_size_u64 est).
  pose proof (ref_time_u64 (unspent_weight dr)). pose proof (proof_size_u64 (unspent_weight dr)).
  unfold is_u64 in *. split_and!; try done.
  - unfold s'. simpl. unfold inbound_storage_data. by destruct (cached_data (b_lane b)).
  - assert (ref_time (weight_sub est (weight_min (unspent_weight dr) est)) =
      ref_time est - Z.min (ref_time (unspent_weight dr)) (ref_time est)) as Hs
      by (rewrite ref_time_sub; rewrite ref_time_min; lia).
    rewrite ref_time_sub; rewrite Hs; lia.
  - assert (proof_size (weight_sub est (weight_min (unspent_weight dr) est)) =
      proof_size est - Z.min (proof_size (unspent_weight dr)) (proof_size est)) as Hs
      by (rewrite proof_size_sub; rewrite proof_size_min; lia).
    rewrite proof_size_sub; rewrite Hs; lia.
Qed.
(** A relayer with room for an entry keeps it while it delivers. *)
Lemma room_after_delivery (r : InboundRelayer) (n : Z) (b b' : batch) :
  Z.of_nat (length (relayers (lane_data b))) < MaxUnrewardedRelayerEntriesAtInboundLane ->
  has_room (b_lane b) r ->
  lane_data b' = Inbound (note_delivered r n (relayers (lane_data b)))
    (last_confirmed_nonce (lane_data b)) ->
  Z.of_nat (length (relayers (lane_data b'))) < MaxUnrewardedRelayerEntriesAtInboundLane /\
  has_room (b_lane b') r.
Proof.
  intros Hlen Hroom Hd. split.
  - rewrite Hd. simpl. destruct Hroom as [Hroom|(e & He & Hr)].
    + pose proof (note_delivered_length r n (relayers (lane_data b))) as Hl.
      simpl in Hroom, Hl. lia.
    + pose proof (note_delivered_same r n (relayers (lane_data b)) e He) as Hl.
      rewrite bool_decide_true in Hl by done. simpl in Hl, Hlen. lia.
  - right. unfold delivered_last. rewrite Hd. apply note_delivered_last.
Qed.

(** A batch of messages for which there is room and weight is dispatched as a whole. *)
Lemma receive_many_delivers (r : InboundRelayer) (a : AccountId) (ms : list (DispatchMessage P))
  (b : batch) :
  let n := Z.of_nat (length ms) in
  b_stopped b = false -> inbound_inv (b_lane b) -> delivered b + n <= u64_max ->
  (fun m => key_nonce (dispatch_key m)) <$> ms = seqZ (delivered b + 1) n ->
  Z.of_nat (length (relayers (lane_data b))) < MaxUnrewardedRelayerEntriesAtInboundLane ->
  has_room (b_lane b) r ->
  delivered b + n - last_confirmed_nonce (lane_data b) <= MaxUnconfirmedMessagesAtInboundLane ->
  total_ref_time ms <= ref_time (dispatch_weight_left b) ->
  total_proof_size ms <= proof_size (dispatch_weight_left b) ->
  let b' := foldl (receive_one r a) b ms in
  delivered b' = delivered b + n /\
  b_rest b' = dispatch_all a (ri_lane_id (b_lane b)) ms (b_rest b).
Proof.
  cbv zeta. revert b. induction ms as [|m ms IH]; intros b Hrun Hinv Hmax Hns Hlen Hroom Hmu Ht Hp.
  { simpl. split; [lia|done]. }
  simpl length in *. rewrite seqZ_cons, fmap_cons in Hns by lia. injection Hns as Hn Hns.
  cbn [foldl total_ref_time total_proof_size foldr] in *.
  change (foldr _ 0 ms) with (total_ref_time ms) in Ht.
  change (foldr _ 0 ms) with (total_proof_size ms) in Hp.
  destruct (totals_nonneg ms) as [Hnt Hnp].
  destruct (receive_one_delivers r a b m) as (Hrun' & Hinv' & Hdel & Hid & Hd & Hrest & Ht' & Hp');
    [done|done|lia|exact Hn|done|lia|split; lia|].
  set (b' := receive_one r a b m) in *.
  destruct (room_after_delivery r _ b b' Hlen Hroom Hd) as [Hlen' Hroom'].
  assert (last_confirmed_nonce (lane_data b') = last_confirmed_nonce (lane_data b)) as Hc by by rewrite Hd.
  destruct (IH b') as [Hdel' Hrest']; try done; try lia.
  { rewrite Hdel. etrans; [exact Hns|]. f_equal; lia. }
  split; [lia|]. rewrite Hrest', Hid, Hrest. done.
Qed.
(** *** One lane of a proof *)

Abbreviation delivery := (delivery (AccountId := AccountId) (InboundRelayer := InboundRelayer)
  (L := L) (X := X)).

(** A lane with room has it, too, once the state of the other end is known. *)
Lemma open_lane_room (lane_id : LaneId) (lanes : gmap LaneId (InboundLaneData InboundRelayer))
  (st : option OutboundLaneData) :
  let d := get_inbound lanes lane_id in
  lane_ok d ->
  let s1 := (extra_proof_size_bytes (inbound_lane_storage lane_id lanes)).2 in
  let s2 := match st with Some o => (receive_state_update s1 o).2 | None => s1 end in
  (length (relayers (il_data s2).1) <= length (relayers d))%nat /\
  last_confirmed_nonce d <= last_confirmed_nonce (il_data s2).1.
Proof.
  intros d [Hinv Hmax] s1 s2.
  assert ((il_data s1).1 = d) as Hd1 by done.
  unfold s2. destruct st as [o|]; [|by rewrite Hd1].
  destruct (receive_state_update s1 o) as [result s3] eqn:E.
  assert (inbound_inv s1) as Hinv1 by (unfold inbound_inv; rewrite Hd1; exact Hinv).
  destruct (receive_state_update_inv s1 s3 o result Hinv1 E) as (_ & _ & Hd3).
  rewrite Hd1 in Hd3. simpl snd. rewrite Hd3. case_bool_decide; simpl; [|done].
  split; [apply confirm_relayers_length|lia].
Qed.

Lemma nonces_below (ms : list (DispatchMessage P)) (lo n hi : Z) :
  (fun m => key_nonce (dispatch_key m)) <$> ms = seqZ lo n -> lo + n <= hi ->
  Forall (fun m => key_nonce (dispatch_key m) < hi) ms.
Proof.
  intros Hns Hhi. apply Forall_forall. intros m Hm.
  assert (key_nonce (dispatch_key m) ∈ seqZ lo n) as Hin
    by (rewrite <- Hns; apply list_elem_of_fmap; by exists m).
  apply elem_of_seqZ in Hin. lia.
Qed.

Lemma receive_lane_delivers (r : InboundRelayer) (a : AccountId) (d : delivery) (lane_id : LaneId)
  (data : ProvedLaneMessages (DispatchMessage P)) :
  let ms := lane_messages data in
  let n := Z.of_nat (length ms) in
  let lane := get_inbound (d_inbound d) lane_id in
  lane_ok lane ->
  (fun m => key_nonce (dispatch_key m)) <$> ms = seqZ (last_delivered_nonce lane + 1) n ->
  last_delivered_nonce lane + n < u64_max ->
  Z.of_nat (length (relayers lane)) + 1 < MaxUnrewardedRelayerEntriesAtInboundLane ->
  last_delivered_nonce lane + n - last_confirmed_nonce lane <= MaxUnconfirmedMessagesAtInboundLane ->
  total_ref_time ms <= ref_time (d_left d) -> total_proof_size ms <= proof_size (d_left d) ->
  0 <= d_valid d -> d_valid d + n <= u64_max -> 0 <= d_total d -> d_total d + n <= u64_max ->
  let d' := receive_lane r a d (lane_id, data) in
  last_delivered_nonce (get_inbound (d_inbound d') lane_id) = last_delivered_nonce lane + n /\
  d_rest d' = dispatch_all a lane_id ms (d_rest d).
Proof.
  intros ms n lane Hok Hns Hmax Hlen Hmu Hrt Hps Hv Hvn Ht Htn. unfold receive_lane.
  set (s0 := inbound_lane_storage lane_id (d_inbound d)).
  pose proof (open_lane_ok lane_id (d_inbound d) (lane_state data) Hok) as Hopen.
  pose proof (open_lane_room lane_id (d_inbound d) (lane_state data) Hok) as Hroom.
  cbv zeta in Hopen, Hroom. fold s0 in Hopen, Hroom. destruct (extra_proof_size_bytes s0) as [extra s1].
  cbn [fst snd] in Hopen, Hroom. cbv zeta.
  set (s2 := match lane_state data with Some _ => _ | None => s1 end) in *.
  destruct Hopen as (Hs2 & Hok2 & Hd2). destruct Hroom as [Hl2 Hc2].
  set (b0 := Batch s2 _ _ _ _ _ _ _).
  pose proof (nonces_below ms _ _ u64_max Hns ltac:(lia)) as Hms.
  destruct (receive_many_step r a ms b0 Hok2 Hms Hv Hvn Ht Htn) as ([Hlane] & _).
  destruct (receive_many_delivers r a ms b0) as [Hdel Hrest]; try done.
  - apply Hok2.
  - fold n. cbn [b_lane b0]. rewrite Hd2. fold lane. lia.
  - cbn [b_lane b0]. rewrite Hd2. exact Hns.
  - cbn [b_lane b0]. fold lane in Hl2. lia.
  - left. cbn [b_lane b0]. fold lane in Hl2. cbn [il_max_unrewarded_relayer_entries runtime_inbound_storage]. lia.
  - fold n. cbn [b_lane b0]. rewrite Hd2. fold lane in Hc2 |- *. lia.
  - set (b := foldl _ b0 _) in *. pose proof (transitivity Hs2 Hlane) as [Hid _ Hcoh].
    specialize (Hcoh (coherent_fresh lane_id (d_inbound d))).
    pose proof (coherent_data _ Hcoh) as Hdata. rewrite Hid in Hdata. cbn [ri_lane_id s0 inbound_lane_storage] in Hdata.
    cbn [d_inbound d_rest]. rewrite <- Hdata, Hdel, Hrest. cbn [b_lane b0 b_rest]. rewrite Hd2.
    split; [done|]. by rewrite (ls_id _ _ Hs2).
Qed.
End Delivery.

(** ** From the storage of the source chain to the dispatch at the target chain *)

Section EndToEnd.
Context `{WeightLaws} `{MessagesConstants} {Info : WeightInfoExt}.
Context {AccountId InboundRelayer P L X Hash Node Value E : Type} `{EqDecision InboundRelayer}.
Context `{!MessageBridge AccountId X} `{!HeaderChain X Hash} `{TrieLaws Node Hash (list Z) Value}.
Context `{!StorageHashers} `{StorageCodecLaws Value (list Z)}.
Context `{StorageCodecLaws Value OutboundLaneData}.
Context `{StorageCodecLaws Value (InboundLaneData AccountId)} (node_len : Node -> Z).
Context {L' X' : Type}.
Context `{!DeliveryPayments AccountId X} `{!PayloadCodec (list Z) P}.
Context `{!MessageDispatch AccountId P L (rest AccountId L X)}.
Context `{!MessageDispatchLaws (AccountId := AccountId) (P := P) (L := L)}.
Abbreviation pallet := (pallet AccountId InboundRelayer L X).
Abbreviation bridged := (MessagesPallet.pallet InboundRelayer AccountId L' X').
Abbreviation name := BRIDGED_MESSAGES_PALLET_NAME.

(** The messages of a lane as the source chain stores them. *)
Definition stored_messages (b : bridged) (lane : LaneId) (nonces : RangeInclusive) : list Message :=
  (fun n => {| MessagesPrimitives.message_key := MessageKey_ lane n;
               message_payload := default [] (OutboundMessages (pallet_rest b) !! MessageKey_ lane n) |})
    <$> nonces_range (range_start nonces) (range_last nonces).

Lemma stored_messages_unique (b : bridged) (lane : LaneId) (nonces : RangeInclusive)
  (msgs : list Message) :
  Forall2 (fun n m => MessagesPrimitives.message_key m = MessageKey_ lane n /\
      OutboundMessages (pallet_rest b) !! MessageKey_ lane n = Some (message_payload m))
    (nonces_range (range_start nonces) (range_last nonces)) msgs ->
  msgs = stored_messages b lane nonces.
Proof.
  unfold stored_messages. induction 1 as [|n [k pl] ns ms [Hk Hp] _ IH]; [done|].
  rewrite fmap_cons, <- IH. simpl in *. by rewrite Hp, Hk.
Qed.

Lemma stored_nonces (b : bridged) (lane : LaneId) (nonces : RangeInclusive) :
  (fun m => key_nonce (dispatch_key m)) <$>
    map (dispatch_message_from (P := P)) (stored_messages b lane nonces) =
  nonces_range (range_start nonces) (range_last nonces).
Proof.
  unfold stored_messages. change (map ?f ?l) with (f <$> l).
  rewrite <- !list_fmap_compose. apply list_fmap_id.
Qed.
(** The lane at the target chain waits for these messages, with room for the relayer and for
    the messages, and the call declares enough weight for them. *)
Record lane_ready (p : pallet) (lane : LaneId) (nonces : RangeInclusive)
  (ms : list (DispatchMessage P)) (weight : Weight) : Prop := {
  lr_running : is_halted p = false;
  lr_ok l : lane_ok (inbound_lane_data p l);
  lr_next : range_start nonces = last_delivered_nonce (inbound_lane_data p lane) + 1;
  lr_last : range_last nonces < u64_max;
  lr_entries : Z.of_nat (length (relayers (inbound_lane_data p lane))) + 1 <
    MaxUnrewardedRelayerEntriesAtInboundLane;
  lr_unconfirmed : range_last nonces - last_confirmed_nonce (inbound_lane_data p lane) <=
    MaxUnconfirmedMessagesAtInboundLane;
  lr_ref_time : total_ref_time ms <= ref_time weight;
  lr_proof_size : total_proof_size ms <= proof_size weight;
}.

(** The delivery call at the target chain, for a proof that passes the verification. *)
Lemma verified_messages_are_delivered (b : bridged) (p : pallet) (lane : LaneId)
  (nonces : RangeInclusive) (w : Weight) (tp : TypedMessagesProof (Hash := Hash) (Node := Node))
  (relayer : InboundRelayer) (account : AccountId) (state : option OutboundLaneData) :
  let msgs := stored_messages b lane nonces in
  let ms := map (dispatch_message_from (P := P)) msgs in
  let count := range_last nonces - range_start nonces + 1 in
  let r := dispatch_all account lane ms (pallet_rest p) in
  0 < count -> lane_ready p lane nonces ms w ->
  verify_messages_proof (`tp) count (external (pallet_rest p)) = Ok [(lane, Proved state msgs)] ->
  exists actual p' status,
    receive_messages_proof (OutboundPayload := list Z)
      (SourceHeaderChain0 := SourceHeaderChainAdapter node_len)
      p (Signed account) relayer tp count w =
        Ok ({| actual_weight := Some actual; pays_fee := PaysYes |}, p') /\
    last_delivered_nonce (inbound_lane_data p' lane) = range_last nonces /\
    pallet_rest p' = deposit_event (MessagesReceived status)
      (set_external (delivery_pay_reward account count count actual (external r)) r).
Proof.
  intros msgs ms count r Hpos [Hrun Hok Hnext Hlast Hent Hunc Hrt Hps] Hver.
  pose proof (inv_confirmed_le _ _ _ (proj1 (Hok lane))) as Hconf.
  pose proof (ii_confirmed _ _ _ (proj1 (Hok lane))) as Hnn.
  pose proof (stored_nonces b lane nonces : _ <$> ms = _) as Hns. unfold nonces_range in Hns.
  assert (Z.of_nat (length ms) = count) as Hn.
  { rewrite <- (length_fmap (fun m => key_nonce (dispatch_key m))), Hns, length_seqZ. lia. }
  unfold receive_messages_proof, ensure_not_halted. rewrite Hrun. cbn [map_err obind ensure_signed].
  rewrite (proj2 (Z.leb_le _ _)) by lia. cbn [ensure obind].
  unfold verify_and_decode_messages_proof.
  cbn [MessagesPallet.verify_messages_proof SourceHeaderChainAdapter]. rewrite Hver. simpl mbind.
  cbn [ok_or obind map foldl lane_state lane_messages]. fold ms. set (d0 := Delivery _ _ _ _ 0 0 []).
  destruct (receive_lane_step relayer account d0 lane (Proved state ms)) as (Hstep & Htot & _);
    cbn [d_inbound d_valid d_total d0 lane_messages]; try done; try word.
  { apply (nonces_below ms _ _ _ Hns). lia. }
  destruct (receive_lane_delivers relayer account d0 lane (Proved state ms)) as [Hdel Hrest];
    cbn [d_inbound d_rest d_left d_valid d_total d0 lane_messages]; fold (inbound_lane_data p lane);
    try done; try word.
  { rewrite Hns. f_equal; lia. }
  pose proof (ds_valid _ _ _ Hstep) as Hval. cbn [delivered_sum] in Hval. rewrite Hdel in Hval.
  cbn [d_inbound d_rest d_valid d_total d0 lane_messages] in Hval, Htot, Hdel, Hrest.
  rewrite Hn in Htot, Hdel, Hval. fold (inbound_lane_data p lane) in Hval, Hdel.
  eexists _, _, _. split; [reflexivity|]. cbn [pallet_rest]. unfold inbound_lane_data at 1.
  cbn [InboundLanes]. rewrite Hdel, Hrest. split; [lia|]. fold r. repeat f_equal; lia.
Qed.

(** C4. Messages that are relayed are delivered. The source chain stores the selected messages, a
    node of it proves them to the relay, and the light client of the target chain knows the
    header: then the delivery call that the relay makes is executed by the messages pallet
    of the target chain without an error. Its lane has then received exactly the selected
    nonces, and the chain has gone through the dispatch of the messages with the payloads
    that the source stores, in order and once each, followed only by the payment of the
    relayer, for all of the messages, and by the event. *)
Theorem relayed_messages_are_delivered
  (prove_storage : list (list Z) -> Hash -> outcome (SubstrateError E) (list Node))
  (id id' : RuntimePrimitives.HeaderId Hash) (root : Hash) (lane : LaneId) (b : bridged) (p : pallet)
  (nonces nonces' : RangeInclusive) (params : MessageProofParameters) (weight w : Weight)
  (proof : FromBridgedChainMessagesProof Hash Node) (tp : TypedMessagesProof (Hash := Hash) (Node := Node))
  (relayer : InboundRelayer) (account : AccountId) (declared : Z) :
  is_u64 (range_start nonces) -> range_start nonces <= range_last nonces ->
  range_last nonces - range_start nonces < u32_max ->
  honest_node prove_storage (header_hash id) root ->
  finalized_header_state_root (external (pallet_rest p)) (header_hash id) = Some root ->
  holds_storage root b ->
  (forall n, range_start nonces <= n <= range_last nonces ->
     is_Some (OutboundMessages (pallet_rest b) !! MessageKey_ lane n)) ->
  let ms := map (dispatch_message_from (P := P)) (stored_messages b lane nonces) in
  lane_ready p lane nonces ms (proof_dispatch_weight params) ->
  SubstrateMessagesSource.prove_messages (E := E) name lane prove_storage id nonces params =
    Ok (id', nonces', (weight, proof)) ->
  SubstrateMessagesTarget.make_messages_delivery_call receive_messages_proof_call relayer nonces'
    (weight, proof) = receive_messages_proof_call relayer (`tp) declared w ->
  let count := range_last nonces - range_start nonces + 1 in
  let r := dispatch_all account lane ms (pallet_rest p) in
  exists actual p' status,
    receive_messages_proof (OutboundPayload := list Z)
      (SourceHeaderChain0 := SourceHeaderChainAdapter node_len)
      p (Signed account) relayer tp declared w =
        Ok ({| actual_weight := Some actual; pays_fee := PaysYes |}, p') /\
    last_delivered_nonce (inbound_lane_data p' lane) = range_last nonces /\
    pallet_rest p' = deposit_event (MessagesReceived status)
      (set_external (delivery_pay_reward account count count actual (external r)) r).
Proof.
  intros Hs Hle Hc Hnode Hroot Hb Hsent ms Hready Hprove Hcall count r.
  assert (is_u64 (range_last nonces)) as He by (pose proof (lr_last _ _ _ _ _ Hready); word).
  destruct (relayed_messages_round_trip prove_storage id id' root lane _ b nonces nonces' params weight
    proof Hs He Hle Hc Hnode Hroot Hb Hsent Hprove)
    as (-> & -> & -> & state & msgs & Hver & Hall & _).
  apply stored_messages_unique in Hall as ->.
  unfold SubstrateMessagesTarget.make_messages_delivery_call in Hcall.
  injection Hcall as Hproof Hcount Hw. cbn [fst snd] in *. subst w declared. rewrite Hproof in Hver.
  rewrite (messages_count_exact nonces Hs He Hle Hc) in Hver |- *.
  eapply verified_messages_are_delivered; [lia|exact Hready|exact Hver].
Qed.
End EndToEnd.

(** ** From the storage of the target chain to the reward at the source chain *)

Section Confirmation.
Context `{WeightLaws} `{MessagesConstants}.
Context {AccountId InboundRelayer L X Hash Node Value E : Type}.
Context `{!MessageBridge AccountId X} `{!HeaderChain X Hash} `{TrieLaws Node Hash (list Z) Value}.
Context `{!StorageHashers} `{StorageCodecLaws Value (list Z)}.
Context `{StorageCodecLaws Value OutboundLaneData}.
Context `{StorageCodecLaws Value (InboundLaneData AccountId)} (node_len : Node -> Z).
Context {AccountId' L' X' : Type} `{!DeliveryConfirmationPayments AccountId X}.
Abbreviation pallet := (pallet AccountId InboundRelayer L X).
Abbreviation bridged := (MessagesPallet.pallet AccountId' AccountId L' X').
Abbreviation name := BRIDGED_MESSAGES_PALLET_NAME.

(** C9. Deliveries that are relayed back are confirmed and paid for. A node of the target chain
    tells the relay about the inbound lane and proves it, the light client of the source
    chain knows the header, and the lane has received more messages than the source
    knows of: then the confirmation that the relay makes is accepted by the messages pallet
    of the source chain. It moves the lane to the last received nonce, reports exactly the
    newly confirmed messages, has the relayers in the queue of the lane paid for exactly
    these messages, and changes nothing else. *)
Theorem relayed_confirmations_are_paid
  (inbound_lane_data :
     RuntimePrimitives.HeaderId Hash -> outcome E (option (InboundLaneData AccountId)))
  (prove_storage : list (list Z) -> Hash -> outcome E (list Node))
  (id id' : RuntimePrimitives.HeaderId Hash) (root : Hash) (lane : LaneId) (p : pallet) (b : bridged)
  (state : UnrewardedRelayersState) (proof : FromBridgedChainMessagesDeliveryProof Hash Node)
  (data : InboundLaneData AccountId) (max_entries max_unconfirmed : Z) (account : AccountId) :
  InboundLanes b !! lane = Some data -> inbound_data_inv max_entries max_unconfirmed data ->
  inbound_lane_data id = Ok (Some data) -> honest_node prove_storage (header_hash id) root ->
  finalized_header_state_root (external (pallet_rest p)) (header_hash id) = Some root ->
  holds_storage root b ->
  is_halted p = false -> outbound_ok (pallet_rest p) ->
  let d := ol_data (outbound_lane lane (pallet_rest p)) in
  let received := latest_received_nonce d in
  let latest := last_delivered_nonce data in
  last_confirmed_nonce data <= received < latest -> latest <= latest_generated_nonce d ->
  SubstrateMessagesTarget.prove_messages_receiving inbound_lane_data name lane prove_storage id =
    Ok (id', (state, proof)) ->
  receive_messages_delivery_proof (OutboundPayload := list Z)
    (TargetHeaderChain0 := TargetHeaderChainAdapter node_len) p (Signed account) proof state =
  Ok (Pallet (InboundLanes p)
        (Rest (PalletOwner (pallet_rest p)) (PalletOperatingMode (pallet_rest p))
           (<[lane := Outbound (oldest_unpruned_nonce d) latest (latest_generated_nonce d)]>
              (OutboundLanes (pallet_rest p)))
           (OutboundMessages (pallet_rest p))
           (events (pallet_rest p) ++ [MessagesDelivered lane (Delivered (received + 1) latest)])
           (confirmation_pay_reward lane (relayers data) account (received + 1, latest)
              (external (pallet_rest p))))).
Proof.
  intros Hdata Hinv Hread Hnode Hroot Hb Hrun Hok d received latest Hnew Hgen Hprove.
  destruct (relayed_confirmation_round_trip _ _ id id' root lane _ b state proof data Hdata Hread
    Hnode Hroot Hb Hprove) as (-> & Hver & Htot & Hlen & Hlast).
  destruct (Hok lane) as [Hout Hmax]. change (latest_generated_nonce d < u64_max) in Hmax.
  unfold receive_messages_delivery_proof, ensure_not_halted. rewrite Hrun. cbn [map_err obind ensure_signed].
  cbn [MessagesPallet.verify_messages_delivery_proof TargetHeaderChainAdapter]. rewrite Hver.
  cbn [ok_or obind]. rewrite Htot, Hlen, Hlast, !Z.eqb_refl. cbn [andb ensure obind].
  rewrite <- Htot, <- Hlast. fold latest.
  pose proof (declared_total_enough _ _ _ Hinv ltac:(lia)) as Hdecl.
  rewrite confirm_delivery_accepts;
    [|fold d; lia|fold d; unfold declared_total in Hdecl; fold latest received in Hdecl |- *; lia
     |by eapply relayers_are_correct].
  fold d. destruct Hout. rewrite wrapping_add_small by (unfold d, received in *; lia). done.
Qed.
End Confirmation.

(** ** An instance: both messages of [SmallBridge], at a chain that keeps what it dispatches *)
Module SmallDelivery.
Definition keep (m : DispatchMessage (list Z)) (r : rest Z unit unit) : rest Z unit unit :=
  Rest (PalletOwner r) (PalletOperatingMode r) (OutboundLanes r)
    (match dispatch_data m with
     | Some payload => <[dispatch_key m := payload]> (OutboundMessages r)
     | None => OutboundMessages r
     end) (events r) (external r).
#[global] Instance dispatcher : MessageDispatch Z (list Z) unit (rest Z unit unit) := {|
  dispatch_weight m := (from_parts 10 0, m);
  dispatch _ m r := (DispatchResult (from_parts 4 0) tt, keep m r);
|}.
#[global] Instance dispatcher_laws : MessageDispatchLaws (W := rest Z unit unit) (L := unit).
Proof. by split. Qed.

Definition params : MessageProofParameters := ProofParameters true (from_parts 100 0).
Definition proof : TypedMessagesProof (Hash := unit) (Node := unit).
Proof. exists (MessagesProof_ tt [tt] SmallBridge.lane0 1 2). by vm_compute. Defined.

Definition p : pallet Z Z unit unit := Pallet ∅ (Rest None (Basic Normal) ∅ ∅ [] tt).

Lemma fresh_lanes (l : LaneId) : lane_ok (inbound_lane_data p l).
Proof.
  unfold inbound_lane_data, get_inbound. simpl. rewrite lookup_empty. simpl.
  split; [|by vm_compute]. split; unfold last_delivered_nonce; simpl; try word; [|done].
  exists 1. simpl. lia.
Qed.

(** The source chain with its two messages, of which one was received. *)
Definition source : pallet Z Z unit unit := Pallet ∅ SmallBridge.sent.

Lemma source_ok : outbound_ok SmallBridge.sent.
Proof.
  intros l. destruct (decide (l = OneLane.lane0)) as [->|Hl].
  - split; [|by vm_compute]. split; simpl; rewrite ?lookup_singleton_eq; simpl; try lia; [word|].
    intros n. rewrite lookup_insert_is_Some, lookup_singleton_is_Some. split.
    + intros [[= <-]|[_ [= <-]]]; lia.
    + intros Hn. assert (n = 1 \/ n = 2) as [-> | ->] by lia; [by left|by right].
  - split; [|simpl; rewrite lookup_singleton_ne by done; simpl; word].
    split; simpl; rewrite lookup_singleton_ne by done; simpl; try lia; [word|].
    intros n. rewrite lookup_insert_ne, lookup_singleton_ne by (by intros [= ? _]).
    split; [by intros []|lia].
Qed.

Lemma received_inv : inbound_data_inv 4 8 SmallBridge.received.
Proof.
  split; unfold last_delivered_nonce; simpl; try word; [by exists 1; simpl; lia|].
  intros e [= <-]. simpl. unfold entry_end. simpl. lia.
Qed.
End SmallDelivery.

Lemma relayed_messages_are_delivered_witness :
  exists info p',
    receive_messages_proof (P := list Z) (OutboundPayload := list Z)
      (SourceHeaderChain0 := SourceHeaderChainAdapter (fun _ => 60)) SmallDelivery.p (Signed 3) 5
      SmallDelivery.proof 2 (from_parts 100 0) = Ok (info, p') /\
    last_delivered_nonce (inbound_lane_data p' OneLane.lane0) = 2 /\
    OutboundMessages (pallet_rest p') = OutboundMessages SmallBridge.sent.
Proof.
  destruct (relayed_messages_are_delivered (E := unit) (P := list Z) (fun _ => 60)
    RelayedSmallBridge.prove_storage RelayedSmallBridge.id RelayedSmallBridge.id tt SmallBridge.lane0
    SmallBridge.bridged SmallDelivery.p (Range 1 2) (Range 1 2) SmallDelivery.params (from_parts 100 0)
    (from_parts 100 0) (MessagesProof_ tt [tt] SmallBridge.lane0 1 2) SmallDelivery.proof 5 3 2)
    as (actual & p' & status & Hrun & Hdel & Hrest); try done; try (split; done).
  - apply RelayedSmallBridge.node_is_honest.
  - exact SmallBridge.bridged_storage.
  - intros n Hn. simpl in Hn. assert (n = 1 \/ n = 2) as [-> | ->] by lia; by eexists.
  - split; try (by vm_compute). exact SmallDelivery.fresh_lanes.
  - eexists _, p'. split; [exact Hrun|]. split; [exact Hdel|]. rewrite Hrest. by vm_compute.
Defined.

Lemma relayed_confirmations_are_paid_witness :
  exists p', receive_messages_delivery_proof (OutboundPayload := list Z)
      (TargetHeaderChain0 := TargetHeaderChainAdapter (fun _ => 60)) SmallDelivery.source (Signed 3)
      (MessagesDeliveryProof_ tt [tt] SmallBridge.lane0) (RelayersState 1 1 1 1) = Ok p' /\
    OutboundLanes (pallet_rest p') !! SmallBridge.lane0 = Some (Outbound 1 1 2).
Proof.
  eexists. split.
  - apply (relayed_confirmations_are_paid (E := unit) (fun _ => 60)
      (fun _ => Ok (Some SmallBridge.received)) RelayedSmallBridge.prove_storage
      RelayedSmallBridge.id RelayedSmallBridge.id tt SmallBridge.lane0 SmallDelivery.source
      SmallBridge.bridged (RelayersState 1 1 1 1) (MessagesDeliveryProof_ tt [tt] SmallBridge.lane0)
      SmallBridge.received 4 8 3); try done; try (split; done).
    + exact SmallDelivery.received_inv.
    + apply RelayedSmallBridge.node_is_honest.
    + exact SmallBridge.bridged_storage.
    + exact SmallDelivery.source_ok.
  - by vm_compute.
Defined.
