(* ===== verification/XcmRouting.v ===== *)
(** * XCM messages of the test chains

    The bridges that the runtimes of Millau (bin/millau/runtime/src/xcm_config.rs), Rialto
    (bin/rialto/runtime/src/xcm_config.rs) and Rialto parachain (bin/rialto-parachain/runtime/src/lib.rs)
    give to their XCM routers, and the way of a message from the router of one chain to the executor
    of the other one, through [XcmBridgeAdapter], the messages pallets at both chains and
    [FromBridgedChainMessageDispatch] (RuntimeMessages.v).  Locations and their relative form belong
    to the xcm crate; the codec, the weigher and the executor are parameters. *)

From S2P Require Import Prelude Substrate RuntimePrimitives MessagesPrimitives OutboundLane InboundLane.
From S2P Require Import MessagesPallet RuntimeMessages XcmExtension EndToEnd.
From Stdlib Require Import String.
From stdpp Require Import base numbers list gmap.
Local Open Scope Z_scope.

(** ** Locations (xcm::v3) *)

Inductive NetworkId := Polkadot | Kusama | Westend | OtherNetwork (id : Z).
#[export] Instance NetworkId_eq_dec : EqDecision NetworkId.
Proof. solve_decision. Defined.

Inductive Junction := GlobalConsensus (network : NetworkId) | Parachain (id : Z) | OtherJunction (id : Z).
#[export] Instance Junction_eq_dec : EqDecision Junction.
Proof. solve_decision. Defined.

(** [Here] is the empty list, [X1(a)] is [[a]] and so on. *)
Abbreviation InteriorMultiLocation := (list Junction).
Record MultiLocation := Location { parents : Z; interior : InteriorMultiLocation }.

(** ** The networks (bin/runtime-common/src/lib.rs) *)

Inductive CustomNetworkId := MillauNetworkId | RialtoNetworkId | RialtoParachainNetworkId.

Definition as_network_id (id : CustomNetworkId) : NetworkId :=
  match id with
  | MillauNetworkId => Kusama
  | RialtoNetworkId => Polkadot
  | RialtoParachainNetworkId => Westend
  end.

(** ** The bridges *)

(** The instances of the messages pallet in the runtimes: Millau has the first two, Rialto and
    Rialto parachain have the last one. *)
Inductive MessagesInstance :=
| WithRialtoMessagesInstance
| WithRialtoParachainMessagesInstance
| WithMillauMessagesInstance.
#[export] Instance MessagesInstance_eq_dec : EqDecision MessagesInstance.
Proof. solve_decision. Defined.

(** The methods of [XcmBridge], and the instance of the messages pallet that is its
    [MessageSender]. *)
Record XcmBridge := Bridge {
  MessageSender : MessagesInstance;
  universal_location : InteriorMultiLocation;
  verify_destination : MultiLocation -> bool;
  build_destination : MultiLocation;
  xcm_lane : LaneId;
}.

Definition XCM_LANE : LaneId := LaneId_ 0 0 0 0.
Definition RIALTO_PARACHAIN_ID : Z := 2000.

Section Bridges.
(** [InteriorMultiLocation::relative_to], and the id that the parachain was registered with. *)
Context (relative_to : InteriorMultiLocation -> InteriorMultiLocation -> MultiLocation).
Context (parachain_id : Z).

Definition millau_universal_location : InteriorMultiLocation :=
  [GlobalConsensus (as_network_id MillauNetworkId)].
Definition rialto_universal_location : InteriorMultiLocation :=
  [GlobalConsensus (as_network_id RialtoNetworkId)].
Definition rialto_parachain_universal_location : InteriorMultiLocation := [Parachain parachain_id].

(** Millau. *)
Definition ToRialtoBridge : XcmBridge := {|
  MessageSender := WithRialtoMessagesInstance;
  universal_location := millau_universal_location;
  verify_destination dest :=
    match dest with
    | Location 1 [GlobalConsensus r] => bool_decide (r = as_network_id RialtoNetworkId)
    | _ => false
    end;
  build_destination :=
    let dest := [GlobalConsensus (as_network_id RialtoNetworkId)] in
    let here := millau_universal_location in
    relative_to dest here;
  xcm_lane := XCM_LANE;
|}.

Definition ToRialtoParachainBridge : XcmBridge := {|
  MessageSender := WithRialtoParachainMessagesInstance;
  universal_location := millau_universal_location;
  verify_destination dest :=
    match dest with
    | Location 1 [GlobalConsensus r; Parachain id] =>
        (id =? RIALTO_PARACHAIN_ID) && bool_decide (r = as_network_id RialtoNetworkId)
    | _ => false
    end;
  build_destination :=
    let dest := [GlobalConsensus (as_network_id RialtoParachainNetworkId)] in
    let here := millau_universal_location in
    relative_to dest here;
  xcm_lane := XCM_LANE;
|}.

(** Rialto and Rialto parachain. *)
Definition is_millau (dest : MultiLocation) : bool :=
  match dest with
  | Location 1 [GlobalConsensus r] => bool_decide (r = as_network_id MillauNetworkId)
  | _ => false
  end.

Definition RialtoToMillauBridge : XcmBridge := {|
  MessageSender := WithMillauMessagesInstance;
  universal_location := rialto_universal_location;
  verify_destination := is_millau;
  build_destination :=
    let dest := [GlobalConsensus (as_network_id MillauNetworkId)] in
    let here := rialto_universal_location in
    relative_to dest here;
  xcm_lane := LaneId_ 0 0 0 0;
|}.

Definition RialtoParachainToMillauBridge : XcmBridge := {|
  MessageSender := WithMillauMessagesInstance;
  universal_location := rialto_parachain_universal_location;
  verify_destination := is_millau;
  build_destination :=
    let dest := [GlobalConsensus (as_network_id MillauNetworkId)] in
    let here := rialto_parachain_universal_location in
    relative_to dest here;
  xcm_lane := XCM_LANE;
|}.

(** [XcmRouter] of the three runtimes. *)
Definition millau_router : list XcmBridge := [ToRialtoBridge; ToRialtoParachainBridge].
Definition rialto_router : list XcmBridge := [RialtoToMillauBridge].
Definition rialto_parachain_router : list XcmBridge := [RialtoParachainToMillauBridge].

(** The locations of the other chains, as their own chains see them, with the router that sends
    there and the position of the bridge in it. *)
Definition routes : list (list XcmBridge * nat * MultiLocation) :=
  [(millau_router, 0%nat, Location 1 [GlobalConsensus Polkadot]);
   (millau_router, 1%nat, Location 1 [GlobalConsensus Polkadot; Parachain 2000]);
   (rialto_router, 0%nat, Location 1 [GlobalConsensus Kusama]);
   (rialto_parachain_router, 0%nat, Location 1 [GlobalConsensus Kusama])].

(** Each of them is served by its bridge. *)
Lemma route_is_served (router : list XcmBridge) (i : nat) (dest : MultiLocation) :
  (router, i, dest) ∈ routes ->
  router ∈ [millau_router; rialto_router; rialto_parachain_router] /\
  exists b, router !! i = Some b /\ verify_destination b dest = true.
Proof.
  unfold routes. rewrite !elem_of_cons, elem_of_nil.
  intros [[= -> -> ->]|[[= -> -> ->]|[[= -> -> ->]|[[= -> -> ->]|[]]]]]; (split; [set_solver|]);
    eexists; (split; [reflexivity|reflexivity]).
Qed.

(** Every destination is served by at most one bridge of a router. *)
Lemma one_bridge_serves (router : list XcmBridge) (i j : nat) (b b' : XcmBridge) (dest : MultiLocation) :
  router ∈ [millau_router; rialto_router; rialto_parachain_router] ->
  router !! i = Some b -> router !! j = Some b' -> i <> j ->
  verify_destination b dest = true -> verify_destination b' dest = false.
Proof.
  rewrite !elem_of_cons, elem_of_nil. intros [->|[->|[->|[]]]].
  - destruct i as [|[|i]], j as [|[|j]]; simpl; try done; intros [= <-] [= <-] _; simpl;
      by destruct dest as [[|[]|] [|[r| |] [|[| |] [|]]]]; try done; case_match.
  - by destruct i as [|i], j as [|j].
  - by destruct i as [|i], j as [|j].
Qed.
End Bridges.

(** ** The source chain: [XcmBridgeAdapter] *)

(** The data of an outbound lane in the storage of a messages pallet. *)
Definition stored_lane `{WeightOps} {AccountId L X : Type} (r : rest AccountId L X) (lane : LaneId) :
  OutboundLaneData :=
  default outbound_default (OutboundLanes r !! lane).

Section Sending.
Context `{WeightLaws} {AccountId L DeliveryProof X Xcm XcmHash : Type}.
Context (constants : MessagesInstance -> MessagesConstants).
Context (chains : MessagesInstance -> TargetHeaderChain (list Z) AccountId DeliveryProof X).
Context (verifiers : MessagesInstance -> LaneMessageVerifier (list Z) AccountId X).
Context {P : Type} `{!PayloadCodec (list Z) P}.
Context (encode_xcm : MultiLocation * Xcm -> list Z) (message_hash : LaneId * MessageNonce -> XcmHash).
Context (xcm_origin : RawOrigin AccountId).

(** The messages pallets of the runtime; each instance has its own storage. *)
Definition pallets : Type := MessagesInstance -> rest AccountId L X.

Definition set_pallet (i : MessagesInstance) (p : rest AccountId L X) (r : pallets) : pallets :=
  fun j => if decide (j = i) then p else r j.

(** [send_message] of an instance. *)
Definition instance_send_message (i : MessagesInstance) (r : pallets) (origin : RawOrigin AccountId)
  (lane : LaneId) (payload : list Z) :
  outcome MessagesPallet.Error (SendMessageArtifacts * pallets) :=
  let? (artifacts, p) :=
    send_message (H0 := constants i) (TargetHeaderChain0 := chains i)
      (LaneMessageVerifier0 := verifiers i) (r i) origin lane payload in
  Ok (artifacts, set_pallet i p r).

(** [SendXcm] of the adapter of a bridge. *)
Definition adapter_validate (b : XcmBridge) (dest : option MultiLocation) (msg : option Xcm) :
  outcome SendError (list Z * Z) * (option MultiLocation * option Xcm) :=
  xcm_validate (verify_destination b) (build_destination b) encode_xcm dest msg.

Definition adapter_deliver (b : XcmBridge) (r : pallets) (ticket : list Z) :
  outcome SendError (XcmHash * pallets) :=
  xcm_deliver message_hash xcm_origin (xcm_lane b) (instance_send_message (MessageSender b)) art_nonce
    r ticket.

Lemma adapter_validate_accepts (b : XcmBridge) (dest : MultiLocation) (msg : Xcm) :
  verify_destination b dest = true ->
  adapter_validate b (Some dest) (Some msg) =
    (Ok (encode_xcm (build_destination b, msg), 1000000), (None, None)).
Proof. unfold adapter_validate, xcm_validate. by intros ->. Qed.

Lemma adapter_stores (b : XcmBridge) (r r' : pallets) (ticket : list Z) (hash : XcmHash) :
  outbound_ok (H1 := constants (MessageSender b)) (r (MessageSender b)) ->
  adapter_deliver b r ticket = Ok (hash, r') ->
  let nonce := latest_generated_nonce (stored_lane (r (MessageSender b)) (xcm_lane b)) + 1 in
  hash = message_hash (xcm_lane b, nonce) /\
  OutboundMessages (r' (MessageSender b)) !! MessageKey_ (xcm_lane b) nonce =
    Some (encode_payload ticket) /\
  forall i, i <> MessageSender b -> r' i = r i.
Proof.
  intros Hok Hd nonce. unfold adapter_deliver, xcm_deliver, instance_send_message in Hd.
  destruct (send_message (r (MessageSender b)) xcm_origin (xcm_lane b) ticket) as [[art p]|e|] eqn:Es;
    [|done..].
  injection Hd as <- <-.
  destruct (send_message_stores (H1 := constants (MessageSender b)) _ _ _ _ _ _ Hok Es) as [-> Hm].
  unfold set_pallet. split_and!; [done|by rewrite decide_True|].
  intros i Hi. by rewrite decide_False.
Qed.
End Sending.

(** ** The target chain: [FromBridgedChainMessageDispatch] *)

Section Execution.
Context `{WeightLaws} `{MessagesConstants}.
Context {AccountId InboundRelayer X Xcm XcmHash XcmOutcome : Type} `{EqDecision InboundRelayer}.
Abbreviation target := (rest AccountId unit X).
Context (xcm_weight : Xcm -> option Weight * Xcm) (weight_credit : Weight).
Context (message_hash : LaneId * MessageNonce -> XcmHash).
Context (execute_xcm_in_credit :
  MultiLocation -> Xcm -> XcmHash -> Weight -> Weight -> target -> XcmOutcome * target).
Abbreviation dispatcher := (FromBridgedChainMessageDispatch (AccountId := AccountId) xcm_weight
  weight_credit message_hash execute_xcm_in_credit).
Abbreviation batch := (batch (AccountId := AccountId) (InboundRelayer := InboundRelayer)
  (L := unit) (X := X)).
Abbreviation lane_data b := ((inbound_storage_data (b_lane b)).1).

Lemma dispatcher_laws : MessageDispatchLaws (H0 := dispatcher).
Proof.
  split. intros m. simpl. unfold xcm_dispatch_weight. destruct (dispatch_data m) as [[[l x] w]|]; [|done].
  simpl. by destruct (xcm_weight x).
Qed.

(** The lane of the batch is ready for its next message with the given weight. *)
Record ready_for (b : batch) (weight : Weight) : Prop := {
  rf_running : b_stopped b = false;
  rf_lane : lane_ok (lane_data b);
  rf_entries : Z.of_nat (length (relayers (lane_data b))) < MaxUnrewardedRelayerEntriesAtInboundLane;
  rf_unconfirmed : last_delivered_nonce (lane_data b) + 1 - last_confirmed_nonce (lane_data b)
    <= MaxUnconfirmedMessagesAtInboundLane;
  rf_weight : weight_le weight (dispatch_weight_left b);
}.

Lemma xcm_is_executed (b : batch) (relayer : InboundRelayer) (account : AccountId) (lane : LaneId)
  (nonce : Z) (location : MultiLocation) (xcm : Xcm) :
  let '(weight, xcm') := xcm_weight xcm in
  let limit := default weight_zero weight in
  ready_for b limit -> ri_lane_id (b_lane b) = lane -> nonce = last_delivered_nonce (lane_data b) + 1 ->
  let b' := receive_one (MessageDispatch0 := dispatcher) relayer account b
    (DispatchMessage_ (MessageKey_ lane nonce) (Some (Payload (location, xcm) None))) in
  b_rest b' =
    (execute_xcm_in_credit location xcm' (message_hash (lane, nonce)) limit weight_credit (b_rest b)).2 /\
  last_delivered_nonce (lane_data b') = nonce.
Proof.
  destruct (xcm_weight xcm) as [weight xcm'] eqn:Ew. intros limit [Hrun [Hinv Hmax] He Hu Hw] Hlane Hn b'.
  set (m := DispatchMessage_ (MessageKey_ lane nonce) (Some (Payload (location, xcm) None))) in *.
  assert (xcm_dispatch_weight xcm_weight m = (limit, DispatchMessage_ (MessageKey_ lane nonce)
    (Some (Payload (location, xcm') (Some limit))))) as Em by (unfold xcm_dispatch_weight; simpl; by rewrite Ew).
  pose proof (receive_one_delivers (MessageDispatch0 := dispatcher) (H2 := dispatcher_laws)
    relayer account b m) as Hd.
  unfold dispatched_message in Hd. cbn [dispatch_weight FromBridgedChainMessageDispatch] in Hd.
  rewrite Em in Hd. cbn [fst snd dispatch_data dispatch_key key_nonce m] in Hd. cbv zeta in Hd.
  destruct Hd as (_ & _ & Hdel & _ & _ & Hrest & _); try done.
  - simpl in *. lia.
  - split; [|rewrite Hn; exact Hdel]. unfold b'. rewrite Hrest. cbn [dispatch FromBridgedChainMessageDispatch].
    unfold RuntimeMessages.xcm_dispatch. simpl. by rewrite Hlane.
Qed.
End Execution.

(** ** From the router to the executor *)

Section Routed.
Context (relative_to : InteriorMultiLocation -> InteriorMultiLocation -> MultiLocation) (parachain_id : Z).
Context {Xcm XcmHash XcmOutcome : Type}.

(** The codec of vectors, and of pairs of a location and a message. *)
Context (encode_vec : list Z -> list Z) (decode_compact : list Z -> option (Z * list Z)).
Context (encode_xcm : MultiLocation * Xcm -> list Z).
Context (decode_xcm_pair : list Z -> option ((MultiLocation * Xcm) * list Z)).

Definition xcm_payloads `{WeightOps} :
  PayloadCodec (list Z) (FromBridgedChainMessagePayload MultiLocation Xcm) := {|
  encode_payload := encode_vec;
  decode_payload := decode_dispatch_payload decode_compact decode_xcm_pair;
|}.

End Routed.

(** ** The origin of an executed message *)

(** Where a location points to from the given place in the universe. *)
Definition resolve (here : InteriorMultiLocation) (l : MultiLocation) : InteriorMultiLocation :=
  take (length here - Z.to_nat (parents l)) here ++ interior l.

(** The executor takes the location that comes with a message as the origin of the message. The
    bridges put the destination there: at Rialto the messages of Millau, and at Millau those of
    both other chains, have the executing chain itself as their origin, and what is sent to Rialto
    parachain names a location that no bridge of Millau serves. *)
Theorem executed_origin_is_the_destination
  (relative_to : InteriorMultiLocation -> InteriorMultiLocation -> MultiLocation) (parachain_id : Z) :
  (forall self viewer, head self <> head viewer ->
     relative_to self viewer = Location (Z.of_nat (length viewer)) self) ->
  resolve rialto_universal_location (build_destination (ToRialtoBridge relative_to)) =
    rialto_universal_location /\
  resolve millau_universal_location (build_destination (RialtoToMillauBridge relative_to)) =
    millau_universal_location /\
  resolve millau_universal_location
    (build_destination (RialtoParachainToMillauBridge relative_to parachain_id)) =
    millau_universal_location /\
  Forall (fun b => verify_destination b (build_destination (ToRialtoParachainBridge relative_to)) = false)
    (millau_router relative_to).
Proof.
  intros Hrel. simpl. rewrite !Hrel by done. split_and!; [done..|]. by repeat constructor.
Qed.

(** ** An instance: Millau sends to Rialto *)
Module MillauToRialto.
Definition relative_to (self viewer : InteriorMultiLocation) : MultiLocation :=
  Location (Z.of_nat (length viewer)) self.
Definition route : MultiLocation := Location 1 [GlobalConsensus Polkadot].
Definition xcm : list Z := [8; 9].

Definition target : Type := rest Z unit (list (list Z)).
Definition execute (_ : MultiLocation) (xcm : list Z) (_ : LaneId * Z) (_ _ : Weight) (r : target) :
  unit * target := (tt, set_external (external r ++ [xcm]) r).
Definition target0 : target := Rest None (Basic Normal) ∅ ∅ [] [].
Definition batch1 : batch :=
  Batch (RuntimeInbound OneLane.lane0 (Some (Inbound [] 1 : InboundLaneData Z)) ∅) target0
    (received_new OneLane.lane0 []) false (from_parts 100 0) (from_parts 500 0) 0 0.

Lemma batch1_ready : ready_for batch1 (from_parts 10 0).
Proof.
  split; try by vm_compute. split; [|by vm_compute]. split; unfold last_delivered_nonce; simpl; try word;
    [|done]. exists 2. simpl. lia.
Qed.

Abbreviation codec := (xcm_payloads (Xcm := list Z) (fun bytes => bytes) (fun bytes => Some (0, bytes))
  (fun bytes => Some ((route, bytes), []))).
Definition pallets0 : pallets := fun _ => OneLane.rest1.
Abbreviation deliver := (adapter_deliver (fun _ => OneLane.constants) (fun _ => _) (fun _ => _)
  (PayloadCodec0 := codec) (DeliveryProof := InboundLaneData Z)
  (fun id => id) (Signed 3) (ToRialtoBridge relative_to) pallets0 xcm).

Lemma delivered : exists hash r', deliver = Ok (hash, r').
Proof.
  assert (match deliver with Ok _ => true | _ => false end = true) as Hok by (vm_compute; reflexivity).
  destruct deliver as [[hash r']|e|]; [by exists hash, r'|discriminate Hok..].
Qed.
End MillauToRialto.

Lemma executed_origin_is_the_destination_witness :
  resolve rialto_universal_location (build_destination (ToRialtoBridge MillauToRialto.relative_to)) =
    rialto_universal_location.
Proof.
  exact (proj1 (executed_origin_is_the_destination MillauToRialto.relative_to 2000 (fun _ _ _ => eq_refl))).
Defined.

